(** * The RayService control loop (ray-operator/controllers/ray/rayservice_controller.go)

    A shallow embedding of the reconciler of the RayService custom resource:
    the cluster lifecycle planner, the Serve deployment reconciler, the
    dangling-cluster collector, the status diff and the Serve-config cache,
    followed by the properties established for them. *)

From Stdlib Require Import ZArith String Ascii List Bool Lia.
From stdpp Require Import base gmap strings list fin_maps.

Local Open Scope string_scope.

(** ** Go values *)

(** A Go [error] value, as far as the controller tells errors apart
    ([errors.IsNotFound], [errors.IsAlreadyExists], anything else). *)
Inductive error : Type :=
| NotFound
| AlreadyExists
| Failure (msg : string).

(** [time.Time] and [metav1.Time]: an instant, in nanoseconds. *)
Abbreviation Time := Z (only parsing).

(** [time.Duration] constants of the controller, in nanoseconds. *)
Definition Second : Z := 1000000000.
Definition ServiceDefaultRequeueDuration : Z := 2 * Second.
Definition RayClusterDeletionDelayDuration : Z := 60 * Second.
Definition ENABLE_ZERO_DOWNTIME : string := "ENABLE_ZERO_DOWNTIME".

(** The outcome of running Go code that may panic (a nil dereference, a
    slice bound out of range). *)
Inductive Exec (A : Type) : Type :=
| Returns (a : A)
| Panics.
Arguments Returns {A} a.
Arguments Panics {A}.

(** [strings.ToLower] on the bytes of an ASCII string (the only use compares
    the result with an ASCII literal, which no other letter lowers to). *)
Definition lowerAscii (a : ascii) : ascii :=
  let n := nat_of_ascii a in
  if (65 <=? n)%nat && (n <=? 90)%nat then ascii_of_nat (n + 32) else a.

Fixpoint ToLower (s : string) : string :=
  match s with
  | EmptyString => EmptyString
  | String a s' => String (lowerAscii a) (ToLower s')
  end.

(** [strconv.Atoi]: an optional sign, then one or more decimal digits, the
    value within the 64-bit [int]; anything else is an error. *)
Definition digitVal (a : ascii) : option Z :=
  let n := Z.of_nat (nat_of_ascii a) in
  if (48 <=? n)%Z && (n <=? 57)%Z then Some (n - 48)%Z else None.

Fixpoint parseDigits (acc : Z) (s : string) : option Z :=
  match s with
  | EmptyString => Some acc
  | String a s' =>
      match digitVal a with
      | Some d => parseDigits (acc * 10 + d)%Z s'
      | None => None
      end
  end.

Definition Atoi (s : string) : Z * option error :=
  match s with
  | EmptyString => (0%Z, Some (Failure "strconv.Atoi: invalid syntax"))
  | String a rest =>
      let neg := Ascii.eqb a "-"%char in
      let body := if neg || Ascii.eqb a "+"%char then rest else s in
      match body with
      | EmptyString => (0%Z, Some (Failure "strconv.Atoi: invalid syntax"))
      | _ =>
          match parseDigits 0 body with
          | None => (0%Z, Some (Failure "strconv.Atoi: invalid syntax"))
          | Some n =>
              let v := if neg then (- n)%Z else n in
              if (- 2 ^ 63 <=? v)%Z && (v <=? 2 ^ 63 - 1)%Z
              then (v, None)
              else (0%Z, Some (Failure "strconv.Atoi: value out of range"))
          end
      end
  end.

(** [strconv.Itoa] on a length. *)
Definition digitChar (d : nat) : ascii := ascii_of_nat (48 + d).

Fixpoint itoaFuel (fuel n : nat) (acc : string) : string :=
  match fuel with
  | O => acc
  | S fuel' =>
      let acc' := String (digitChar (n mod 10)) acc in
      if (n / 10 =? 0)%nat then acc' else itoaFuel fuel' (n / 10) acc'
  end.

Definition Itoa (n : nat) : string := itoaFuel (S n) n EmptyString.

(** ** The API types the controller reads and writes (package rayv1)

    The type declarations are not part of this source file; each record
    lists the fields the controller touches and carries the remaining
    content, which it only copies and hashes, as one opaque text. *)

Module ScaleStrategy.
Record t : Type := { WorkersToDelete : list string }.
End ScaleStrategy.

Module WorkerGroupSpec.
Record t : Type := {
  GroupName : string;
  Replicas : option Z;
  MinReplicas : option Z;
  MaxReplicas : option Z;
  ScaleStrategy : ScaleStrategy.t;
  Template : string
}.
End WorkerGroupSpec.

(** [*corev1.Service] of the head group: only its name is consulted. *)
Module HeadService.
Record t : Type := { Name : string }.
End HeadService.

Module HeadGroupSpec.
Record t : Type := {
  HeadService : option HeadService.t;
  Template : string
}.
End HeadGroupSpec.

Module RayClusterSpec.
Record t : Type := {
  HeadGroupSpec : HeadGroupSpec.t;
  WorkerGroupSpecs : list WorkerGroupSpec.t;
  RayVersion : string
}.
(** The zero value [rayv1.RayClusterSpec{}]. *)
Definition zero : t :=
  {| HeadGroupSpec := {| HeadGroupSpec.HeadService := None; HeadGroupSpec.Template := "" |};
     WorkerGroupSpecs := [];
     RayVersion := "" |}.
End RayClusterSpec.

(** [metav1.Condition], and [RayClusterStatus] with its conditions. *)
Module Condition.
Record t : Type := { Type_ : string; Status : string }.
End Condition.

Module RayClusterStatus.
Record t : Type := {
  Conditions : list Condition.t;
  State : string
}.
Definition zero : t := {| Conditions := []; State := "" |}.
End RayClusterStatus.

(** [metav1.OwnerReference], reduced to the owner's name and the controller flag. *)
Module OwnerReference.
Record t : Type := { Name : string; Controller : bool }.
End OwnerReference.

Module RayCluster.
Record t : Type := {
  Name : string;
  Namespace : string;
  Labels : gmap string string;
  Annotations : gmap string string;
  OwnerReferences : list OwnerReference.t;
  Spec : RayClusterSpec.t;
  Status : RayClusterStatus.t
}.
(** The zero value [rayv1.RayCluster{}]. *)
Definition zero : t :=
  {| Name := ""; Namespace := ""; Labels := ∅; Annotations := ∅;
     OwnerReferences := []; Spec := RayClusterSpec.zero;
     Status := RayClusterStatus.zero |}.
End RayCluster.

(** Status strings of Serve applications and deployments
    ([rayv1.ApplicationStatusEnum], [rayv1.DeploymentStatusEnum]) and of the
    service ([rayv1.ServiceStatus]); constants of package rayv1. *)
Definition RUNNING : string := "RUNNING".
Definition UNHEALTHY : string := "UNHEALTHY".
Definition DEPLOY_FAILED : string := "DEPLOY_FAILED".
Definition Running : string := "Running".
Definition Restarting : string := "Restarting".
Definition WaitForServeDeploymentReady : string := "WaitForServeDeploymentReady".

(** [rayv1.RayServiceUpgradeType] values. *)
Definition NewCluster : string := "NewCluster".
Definition UpgradeNone : string := "None".

Module ServeDeploymentStatus.
Record t : Type := {
  Status : string;
  Message : string;
  HealthLastUpdateTime : option Time
}.
End ServeDeploymentStatus.

Module AppStatus.
Record t : Type := {
  Status : string;
  Message : string;
  HealthLastUpdateTime : option Time;
  Deployments : gmap string ServeDeploymentStatus.t
}.
(** The zero value, which a Go map lookup yields for a missing key. *)
Definition zero : t :=
  {| Status := ""; Message := ""; HealthLastUpdateTime := None; Deployments := ∅ |}.
End AppStatus.

Module RayServiceStatus.
Record t : Type := {
  Applications : gmap string AppStatus.t;
  RayClusterName : string;
  RayClusterStatus : RayClusterStatus.t
}.
(** The zero value [rayv1.RayServiceStatus{}]. *)
Definition zero : t :=
  {| Applications := ∅; RayClusterName := ""; RayClusterStatus := RayClusterStatus.zero |}.
Definition setApplications (apps : gmap string AppStatus.t) (s : t) : t :=
  {| Applications := apps; RayClusterName := RayClusterName s;
     RayClusterStatus := RayClusterStatus s |}.
Definition setRayClusterStatus (cs : RayClusterStatus.t) (s : t) : t :=
  {| Applications := Applications s; RayClusterName := RayClusterName s;
     RayClusterStatus := cs |}.
End RayServiceStatus.

Module RayServiceStatuses.
Record t : Type := {
  ActiveServiceStatus : RayServiceStatus.t;
  PendingServiceStatus : RayServiceStatus.t;
  ServiceStatus : string;
  NumServeEndpoints : Z;
  ObservedGeneration : Z;
  LastUpdateTime : option Time
}.
Definition setActive (a : RayServiceStatus.t) (s : t) : t :=
  {| ActiveServiceStatus := a; PendingServiceStatus := PendingServiceStatus s;
     ServiceStatus := ServiceStatus s; NumServeEndpoints := NumServeEndpoints s;
     ObservedGeneration := ObservedGeneration s; LastUpdateTime := LastUpdateTime s |}.
Definition setPending (p : RayServiceStatus.t) (s : t) : t :=
  {| ActiveServiceStatus := ActiveServiceStatus s; PendingServiceStatus := p;
     ServiceStatus := ServiceStatus s; NumServeEndpoints := NumServeEndpoints s;
     ObservedGeneration := ObservedGeneration s; LastUpdateTime := LastUpdateTime s |}.
Definition setServiceStatus (v : string) (s : t) : t :=
  {| ActiveServiceStatus := ActiveServiceStatus s;
     PendingServiceStatus := PendingServiceStatus s;
     ServiceStatus := v; NumServeEndpoints := NumServeEndpoints s;
     ObservedGeneration := ObservedGeneration s; LastUpdateTime := LastUpdateTime s |}.
Definition setNumServeEndpoints (n : Z) (s : t) : t :=
  {| ActiveServiceStatus := ActiveServiceStatus s;
     PendingServiceStatus := PendingServiceStatus s;
     ServiceStatus := ServiceStatus s; NumServeEndpoints := n;
     ObservedGeneration := ObservedGeneration s; LastUpdateTime := LastUpdateTime s |}.
Definition setObservedGeneration (g : Z) (s : t) : t :=
  {| ActiveServiceStatus := ActiveServiceStatus s;
     PendingServiceStatus := PendingServiceStatus s;
     ServiceStatus := ServiceStatus s; NumServeEndpoints := NumServeEndpoints s;
     ObservedGeneration := g; LastUpdateTime := LastUpdateTime s |}.
Definition setLastUpdateTime (u : option Time) (s : t) : t :=
  {| ActiveServiceStatus := ActiveServiceStatus s;
     PendingServiceStatus := PendingServiceStatus s;
     ServiceStatus := ServiceStatus s; NumServeEndpoints := NumServeEndpoints s;
     ObservedGeneration := ObservedGeneration s; LastUpdateTime := u |}.
End RayServiceStatuses.

Module RayServiceUpgradeStrategy.
Record t : Type := { Type_ : option string }.
End RayServiceUpgradeStrategy.

Module RayServiceSpec.
Record t : Type := {
  RayClusterSpec : RayClusterSpec.t;
  ServeConfigV2 : string;
  UpgradeStrategy : option RayServiceUpgradeStrategy.t;
  ExcludeHeadPodFromServeSvc : bool
}.
End RayServiceSpec.

Module RayService.
Record t : Type := {
  Name : string;
  Namespace : string;
  Labels : gmap string string;
  Annotations : gmap string string;
  Generation : Z;
  Spec : RayServiceSpec.t;
  Status : RayServiceStatuses.t
}.
Definition setStatus (st : RayServiceStatuses.t) (s : t) : t :=
  {| Name := Name s; Namespace := Namespace s; Labels := Labels s;
     Annotations := Annotations s; Generation := Generation s;
     Spec := Spec s; Status := st |}.
Definition ActiveName (s : t) : string :=
  RayServiceStatus.RayClusterName (RayServiceStatuses.ActiveServiceStatus (Status s)).
Definition PendingName (s : t) : string :=
  RayServiceStatus.RayClusterName (RayServiceStatuses.PendingServiceStatus (Status s)).
End RayService.

(** What the dashboard reports ([utils.ServeApplicationStatus]); the client
    builds every entry itself, so the map holds no nil pointer. *)
Module ServeDeploymentReport.
Record t : Type := { Status : string; Message : string }.
End ServeDeploymentReport.

Module ServeApplicationStatus.
Record t : Type := {
  Status : string;
  Message : string;
  Deployments : gmap string ServeDeploymentReport.t
}.
End ServeApplicationStatus.

(** Constants of package utils: annotation and label keys, the name under
    which an unnamed Serve application is recorded. *)
Definition KubeRayVersion : string := "ray.io/kuberay-version".
Definition HashWithoutReplicasAndWorkersToDeleteKey : string :=
  "ray.io/hash-without-replicas-and-workers-to-delete".
Definition NumWorkerGroupsKey : string := "ray.io/num-worker-groups".
Definition RayOriginatedFromCRNameLabelKey : string := "ray.io/originated-from-cr-name".
Definition RayOriginatedFromCRDLabelKey : string := "ray.io/originated-from-crd".
Definition RayServiceCRD : string := "RayService".
Definition DefaultServeAppName : string := "default".
Definition ENABLE_RAYSERVICE_EAGER_EXPOSES_SERVICES : string :=
  "ENABLE_RAYSERVICE_EAGER_EXPOSES_SERVICES".
Definition HeadPodReady : string := "HeadPodReady".

(** ** Errors, pointers and maps *)

(** [client.IgnoreNotFound] *)
Definition IgnoreNotFound (err : option error) : option error :=
  match err with
  | Some NotFound => None
  | _ => err
  end.

Definition IsNotFound (err : option error) : bool :=
  match err with
  | Some NotFound => true
  | _ => false
  end.

Definition IsAlreadyExists (err : option error) : bool :=
  match err with
  | Some AlreadyExists => true
  | _ => false
  end.

(** The test [p != nil] on a Go pointer or error. *)
Definition notNil {A : Type} (p : option A) : bool :=
  match p with
  | Some _ => true
  | None => false
  end.

(** A Go map lookup on a [map[string]string]: the empty string for a missing key. *)
Definition lookupString (m : gmap string string) (k : string) : string :=
  default "" (m !! k).

(** The slice expression [l[:n]]; it panics when [n] is out of range. *)
Definition sliceTo {A : Type} (l : list A) (n : Z) : Exec (list A) :=
  if (n <? 0)%Z || (Z.of_nat (length l) <? n)%Z then Panics
  else Returns (take (Z.to_nat n) l).

(** ** The serve label of the head pod

    [labelHeadPodForServeStatus] on its own: the pod it reads, the update
    it sends and the error it returns, given the answers of the API server
    and of the proxy actor.  The reconciler below runs it on the answers
    of the run. *)

Module HeadPod.

(** [corev1.Pod], reduced to what the step reads and writes; a container
    is its name. *)
Record Pod : Type := {
  Name : string;
  Namespace : string;
  Labels : gmap string string;
  Containers : list string
}.

Definition setLabels (labels : gmap string string) (p : Pod) : Pod :=
  {| Name := Name p; Namespace := Namespace p; Labels := labels;
     Containers := Containers p |}.

(** Constants of package utils. *)
Definition RayClusterServingServiceLabelKey : string := "ray.io/serve".
Definition EnableRayClusterServingServiceTrue : string := "true".
Definition EnableRayClusterServingServiceFalse : string := "false".
Definition RayContainerIndex : nat := 0.

(** What the step is answered: by [common.GetRayClusterHeadPod], by
    [CheckProxyActorHealth] of the HTTP proxy client, and by [r.Update]. *)
Record Answers : Type := {
  GetRayClusterHeadPod : option Pod * option error;
  CheckProxyActorHealth : option error;
  Update : Pod -> option error
}.

(** The pods sent with [r.Update], and the error returned.  The
    expression [headPod.Spec.Containers[utils.RayContainerIndex]] panics
    on a pod without that container. *)
Definition labelHeadPodForServeStatus (A : Answers) (excludeHeadPodFromServeSvc : bool)
  : Exec (list Pod * option error) :=
  let '(headPod, err) := GetRayClusterHeadPod A in
  match err with
  | Some _ => Returns ([], err)
  | None =>
      match headPod with
      | None => Returns ([], Some (Failure "found 0 head"))
      | Some headPod =>
          match nth_error (Containers headPod) RayContainerIndex with
          | None => Panics
          | Some rayContainer =>
              let originalLabels := Labels headPod in
              let err := CheckProxyActorHealth A in
              let headPod :=
                if negb (notNil err) && negb excludeHeadPodFromServeSvc
                then setLabels (<[RayClusterServingServiceLabelKey :=
                                    EnableRayClusterServingServiceTrue]> (Labels headPod))
                               headPod
                else setLabels (<[RayClusterServingServiceLabelKey :=
                                    EnableRayClusterServingServiceFalse]> (Labels headPod))
                               headPod in
              if negb (bool_decide (originalLabels = Labels headPod)) then
                match Update A headPod with
                | Some updateErr => Returns ([headPod], Some updateErr)
                | None => Returns ([headPod], None)
                end
              else Returns ([], None)
          end
      end
  end.

End HeadPod.

(** ** The Kubernetes services of a RayService

    [reconcileServices] on its own: the service it builds, the one it
    reads and the request it sends, given the builders of package common
    and the failures of its requests.  The reconciler below runs it on
    the services stored in the API server and the answers of the run. *)

Module KubeService.

(** [corev1.ServiceSpec]: the selector, the cluster IP, and the rest. *)
Record ServiceSpec : Type := {
  Selector : gmap string string;
  ClusterIP : string;
  Ports : string
}.

Definition setClusterIP (ip : string) (s : ServiceSpec) : ServiceSpec :=
  {| Selector := Selector s; ClusterIP := ip; Ports := Ports s |}.

(** [corev1.Service] *)
Record Service : Type := {
  Name : string;
  Namespace : string;
  OwnerReferences : list OwnerReference.t;
  Spec : ServiceSpec
}.

Definition setSpec (spec : ServiceSpec) (s : Service) : Service :=
  {| Name := Name s; Namespace := Namespace s; OwnerReferences := OwnerReferences s;
     Spec := spec |}.

(** The zero value [corev1.Service{}]. *)
Definition zero : Service :=
  {| Name := ""; Namespace := ""; OwnerReferences := [];
     Spec := {| Selector := ∅; ClusterIP := ""; Ports := "" |} |}.

(** [utils.RayClusterLabelKey] *)
Definition RayClusterLabelKey : string := "ray.io/cluster".

(** [utils.ServiceType], a string type with two named values. *)
Inductive ServiceType : Type :=
| HeadService
| ServingService
| OtherServiceType (name : string).

(** A request that changes a service. *)
Inductive Request : Type :=
| UpdateService (s : Service)
| CreateService (s : Service).

(** What the step is handed from outside: the builders of package common
    and the failures of its three requests. *)
Record Answers : Type := {
  BuildHeadServiceForRayService : RayService.t -> RayCluster.t -> Service * option error;
  BuildServeServiceForRayService : RayService.t -> RayCluster.t -> Service * option error;
  getFault : option error;
  updateFault : option error;
  createFault : option error
}.

(** The services in the API server and the requests sent so far. *)
Record State : Type := {
  services : gmap (string * string) Service;
  sent : list Request
}.

Definition serviceKeyOf (s : Service) : string * string := (Namespace s, Name s).

(** [r.Get] into a fresh [Service]. *)
Definition Get (A : Answers) (key : string * string) (st : State)
  : Service * option error :=
  match getFault A with
  | Some e => (zero, Some e)
  | None =>
      match services st !! key with
      | Some s => (s, None)
      | None => (zero, Some NotFound)
      end
  end.

Definition Update (A : Answers) (s : Service) (st : State) : option error * State :=
  let st := {| services := services st; sent := sent st ++ [UpdateService s] |} in
  match updateFault A with
  | Some e => (Some e, st)
  | None =>
      match services st !! serviceKeyOf s with
      | None => (Some NotFound, st)
      | Some _ =>
          (None, {| services := <[serviceKeyOf s := s]> (services st); sent := sent st |})
      end
  end.

Definition Create (A : Answers) (s : Service) (st : State) : option error * State :=
  let st := {| services := services st; sent := sent st ++ [CreateService s] |} in
  match createFault A with
  | Some e => (Some e, st)
  | None =>
      match services st !! serviceKeyOf s with
      | Some _ => (Some AlreadyExists, st)
      | None =>
          (None, {| services := <[serviceKeyOf s := s]> (services st); sent := sent st |})
      end
  end.

(** [ctrl.SetControllerReference] on a service. *)
Definition SetControllerReference (owner : RayService.t) (s : Service)
  : Service * option error :=
  if negb (String.eqb (RayService.Namespace owner) (Namespace s))
  then (s, Some (Failure "cross-namespace owner references are disallowed"))
  else if existsb (fun o => OwnerReference.Controller o
                            && negb (String.eqb (OwnerReference.Name o) (RayService.Name owner)))
                  (OwnerReferences s)
  then (s, Some (Failure "object is already owned by another controller"))
  else
    ({| Name := Name s; Namespace := Namespace s;
        OwnerReferences :=
          {| OwnerReference.Name := RayService.Name owner; OwnerReference.Controller := true |}
          :: List.filter (fun o => negb (String.eqb (OwnerReference.Name o) (RayService.Name owner)))
                         (OwnerReferences s);
        Spec := Spec s |}, None).

Definition reconcileServices (A : Answers) (rayServiceInstance : RayService.t)
    (rayClusterInstance : RayCluster.t) (serviceType : ServiceType) (st : State)
  : option error * State :=
  let built :=
    match serviceType with
    | HeadService =>
        Some (BuildHeadServiceForRayService A rayServiceInstance rayClusterInstance)
    | ServingService =>
        Some (BuildServeServiceForRayService A rayServiceInstance rayClusterInstance)
    | OtherServiceType _ => None
    end in
  match built with
  | None => (Some (Failure "unknown service type"), st)
  | Some (newSvc, Some err) => (Some err, st)
  | Some (newSvc, None) =>
      let '(oldSvc, err) :=
        Get A (RayService.Namespace rayServiceInstance, Name newSvc) st in
      match err with
      | None =>
          if String.eqb (lookupString (Selector (Spec newSvc)) RayClusterLabelKey)
                        (lookupString (Selector (Spec oldSvc)) RayClusterLabelKey)
          then (None, st)
          else
            let newSvc := setSpec (setClusterIP (ClusterIP (Spec oldSvc)) (Spec newSvc)) newSvc in
            let oldSvc := setSpec (Spec newSvc) oldSvc in
            Update A oldSvc st
      | Some _ =>
          if IsNotFound err then
            match SetControllerReference rayServiceInstance newSvc with
            | (_, Some e) => (Some e, st)
            | (newSvc, None) =>
                let '(createErr, st) := Create A newSvc st in
                match createErr with
                | Some _ =>
                    if IsAlreadyExists createErr then (None, st) else (createErr, st)
                | None => (None, st)
                end
            end
          else (err, st)
      end
  end.

End KubeService.

(** ** The controller's collaborators *)

(** [k8s.io/utils/lru.Cache], holding for each RayService key the map from
    cluster name to the Serve config last applied there.  Entries are kept
    most recently used first; a capacity of [0] means unbounded. *)
Module lru.
Record Cache : Type := {
  maxSize : nat;
  entries : list (string * gmap string string)
}.
Definition New (size : nat) : Cache := {| maxSize := size; entries := [] |}.

Fixpoint find (key : string) (l : list (string * gmap string string))
  : option (gmap string string) :=
  match l with
  | [] => None
  | (k, v) :: l' => if String.eqb k key then Some v else find key l'
  end.

Fixpoint remove (key : string) (l : list (string * gmap string string))
  : list (string * gmap string string) :=
  match l with
  | [] => []
  | (k, v) :: l' => if String.eqb k key then remove key l' else (k, v) :: remove key l'
  end.

(** [Get] moves the entry it finds to the front. *)
Definition Get (key : string) (c : Cache) : option (gmap string string) * Cache :=
  match find key (entries c) with
  | Some v => (Some v, {| maxSize := maxSize c; entries := (key, v) :: remove key (entries c) |})
  | None => (None, c)
  end.

(** [Add] puts the entry at the front and evicts the oldest one when the
    cache grew past its capacity. *)
Definition Add (key : string) (v : gmap string string) (c : Cache) : Cache :=
  match find key (entries c) with
  | Some _ => {| maxSize := maxSize c; entries := (key, v) :: remove key (entries c) |}
  | None =>
      let l := (key, v) :: entries c in
      {| maxSize := maxSize c;
         entries := if negb (maxSize c =? 0)%nat && (maxSize c <? length l)%nat
                    then removelast l else l |}
  end.

(** The cached value is a shared [cmap.ConcurrentMap]: writing through the
    reference obtained from [Get] changes the entry in place. *)
Definition modify (key : string) (f : gmap string string -> gmap string string)
    (c : Cache) : Cache :=
  {| maxSize := maxSize c;
     entries := map (fun kv => if String.eqb (fst kv) key then (fst kv, f (snd kv)) else kv)
                    (entries c) |}.
End lru.

(** A request that left the process and changed something outside it, or
    an event handed to the recorder. *)
Inductive Call : Type :=
| DeleteRayCluster (namespace name : string)
| CreateRayCluster (c : RayCluster.t)
| UpdateRayCluster (c : RayCluster.t)
| UpdateStatus (s : RayService.t)
| UpdateDeployments (url configJson : string)
| ServiceRequest (r : KubeService.Request)
| UpdatePod (p : HeadPod.Pod)
| Event (namespace name : string) (eventtype reason : string) (err : error).

(** Everything the controller is handed from outside: helper functions and
    constants of other packages, the process environment, and the answers
    of the API server, the clock and the dashboard, indexed by the position
    of the request in the run. *)
Record Externals : Type := {
  (** [utils.GenerateJsonHash] *)
  GenerateJsonHash : RayClusterSpec.t -> string * option error;
  (** [utils.KUBERAY_VERSION] *)
  KUBERAY_VERSION : string;
  (** [os.Getenv] *)
  Getenv : string -> string;
  (** [yaml.Unmarshal] followed by [json.Marshal] *)
  yamlToJSON : string -> string * option error;
  (** [features.Enabled(features.RayClusterStatusConditions)] *)
  RayClusterStatusConditions : bool;
  (** [utils.GenerateRayClusterName], which appends a random suffix *)
  GenerateRayClusterName : string -> nat -> string;
  (** a failure of the request at this position, if any *)
  fault : nat -> option error;
  (** the clock reading at this position *)
  clock : nat -> Time;
  (** [utils.IsRunningAndReady] of the head pod found at this position *)
  headPodRunningAndReady : nat -> bool;
  (** [utils.FetchHeadServiceURL] *)
  headServiceURL : nat -> string;
  (** [GetMultiApplicationStatus] of the dashboard *)
  serveApplications : nat -> gmap string ServeApplicationStatus.t;
  (** the address counts of the subsets of the serve service's endpoints *)
  serveEndpoints : nat -> list nat;
  (** [common.BuildHeadServiceForRayService] and
      [common.BuildServeServiceForRayService] *)
  BuildHeadServiceForRayService :
    RayService.t -> RayCluster.t -> KubeService.Service * option error;
  BuildServeServiceForRayService :
    RayService.t -> RayCluster.t -> KubeService.Service * option error;
  (** the head pod [common.GetRayClusterHeadPod] finds at this position, if any *)
  headPod : nat -> option HeadPod.Pod
}.

(** The state outside a single reconcile: the objects in the API server, the
    two process-wide maps of the reconciler, the requests issued so far and
    their number. *)
Record World : Type := {
  rayServices : gmap (string * string) RayService.t;
  rayClusters : gmap (string * string) RayCluster.t;
  services : gmap (string * string) KubeService.Service;
  ServeConfigs : lru.Cache;
  RayClusterDeletionTimestamps : gmap string Time;
  calls : list Call;
  position : nat
}.

Definition setRayServices (v : gmap (string * string) RayService.t) (w : World) : World :=
  {| rayServices := v; rayClusters := rayClusters w; services := services w;
     ServeConfigs := ServeConfigs w;
     RayClusterDeletionTimestamps := RayClusterDeletionTimestamps w;
     calls := calls w; position := position w |}.
Definition setRayClusters (v : gmap (string * string) RayCluster.t) (w : World) : World :=
  {| rayServices := rayServices w; rayClusters := v; services := services w;
     ServeConfigs := ServeConfigs w;
     RayClusterDeletionTimestamps := RayClusterDeletionTimestamps w;
     calls := calls w; position := position w |}.
Definition setServices (v : gmap (string * string) KubeService.Service) (w : World) : World :=
  {| rayServices := rayServices w; rayClusters := rayClusters w; services := v;
     ServeConfigs := ServeConfigs w;
     RayClusterDeletionTimestamps := RayClusterDeletionTimestamps w;
     calls := calls w; position := position w |}.
Definition setServeConfigs (v : lru.Cache) (w : World) : World :=
  {| rayServices := rayServices w; rayClusters := rayClusters w; services := services w;
     ServeConfigs := v;
     RayClusterDeletionTimestamps := RayClusterDeletionTimestamps w;
     calls := calls w; position := position w |}.
Definition setDeletionTimestamps (v : gmap string Time) (w : World) : World :=
  {| rayServices := rayServices w; rayClusters := rayClusters w; services := services w;
     ServeConfigs := ServeConfigs w; RayClusterDeletionTimestamps := v;
     calls := calls w; position := position w |}.
Definition recordAll (l : list Call) (w : World) : World :=
  {| rayServices := rayServices w; rayClusters := rayClusters w; services := services w;
     ServeConfigs := ServeConfigs w;
     RayClusterDeletionTimestamps := RayClusterDeletionTimestamps w;
     calls := calls w ++ l; position := position w |}.
Definition record (c : Call) (w : World) : World :=
  {| rayServices := rayServices w; rayClusters := rayClusters w; services := services w;
     ServeConfigs := ServeConfigs w;
     RayClusterDeletionTimestamps := RayClusterDeletionTimestamps w;
     calls := calls w ++ [c]; position := position w |}.
Definition advance (w : World) : World :=
  {| rayServices := rayServices w; rayClusters := rayClusters w; services := services w;
     ServeConfigs := ServeConfigs w;
     RayClusterDeletionTimestamps := RayClusterDeletionTimestamps w;
     calls := calls w; position := S (position w) |}.

(** Code that reads and changes the world and may panic. *)
Definition M (A : Type) : Type := World -> Exec A * World.

Definition ret {A : Type} (a : A) : M A := fun w => (Returns a, w).

Definition bind {A B : Type} (m : M A) (k : A -> M B) : M B :=
  fun w =>
    match m w with
    | (Returns a, w') => k a w'
    | (Panics, w') => (Panics, w')
    end.

Definition panic {A : Type} : M A := fun w => (Panics, w).
Definition gets {A : Type} (f : World -> A) : M A := fun w => (Returns (f w), w).
Definition modify (f : World -> World) : M unit := fun w => (Returns tt, f w).
Definition liftExec {A : Type} (e : Exec A) : M A := fun w => (e, w).

Notation "'do' x <- c ; k" := (bind c (fun x => k))
  (at level 10, x name, c at level 100, k at level 200).
Notation "'do' ' p <- c ; k" := (bind c (fun x => let 'p := x in k))
  (at level 10, p pattern, c at level 100, k at level 200).
Notation "'run' c ; k" := (bind c (fun _ => k))
  (at level 10, c at level 100, k at level 200).

(** The position of the next request; taking it advances the run. *)
Definition next : M nat := fun w => (Returns (position w), advance w).

(** ** The cluster lifecycle planner *)

Inductive ClusterAction : Type :=
| DoNothing
| UpdateActiveCluster
| UpdatePendingCluster
| GeneratePendingClusterName
| CreatePendingCluster.

Section Planner.
Context (X : Externals).

(** The worker group with the fields the autoscaler changes set to nil. *)
Definition muteWorkerGroup (g : WorkerGroupSpec.t) : WorkerGroupSpec.t :=
  {| WorkerGroupSpec.GroupName := WorkerGroupSpec.GroupName g;
     WorkerGroupSpec.Replicas := None;
     WorkerGroupSpec.MinReplicas := None;
     WorkerGroupSpec.MaxReplicas := None;
     WorkerGroupSpec.ScaleStrategy := {| ScaleStrategy.WorkersToDelete := [] |};
     WorkerGroupSpec.Template := WorkerGroupSpec.Template g |}.

Definition setWorkerGroupSpecs (gs : list WorkerGroupSpec.t) (s : RayClusterSpec.t)
  : RayClusterSpec.t :=
  {| RayClusterSpec.HeadGroupSpec := RayClusterSpec.HeadGroupSpec s;
     RayClusterSpec.WorkerGroupSpecs := gs;
     RayClusterSpec.RayVersion := RayClusterSpec.RayVersion s |}.

Definition generateHashWithoutReplicasAndWorkersToDelete (rayClusterSpec : RayClusterSpec.t)
  : string * option error :=
  let updatedRayClusterSpec :=
    setWorkerGroupSpecs
      (map muteWorkerGroup (RayClusterSpec.WorkerGroupSpecs rayClusterSpec))
      rayClusterSpec in
  GenerateJsonHash X updatedRayClusterSpec.

Definition compareRayClusterJsonHash (spec1 spec2 : RayClusterSpec.t)
    (hashFunc : RayClusterSpec.t -> string * option error) : bool * option error :=
  let '(hash1, err1) := hashFunc spec1 in
  match err1 with
  | Some _ => (false, err1)
  | None =>
      let '(hash2, err2) := hashFunc spec2 in
      match err2 with
      | Some _ => (false, err2)
      | None => (String.eqb hash1 hash2, None)
      end
  end.

Definition validateRayServiceSpec (rayService : RayService.t) : option error :=
  let spec := RayService.Spec rayService in
  let headServiceNamed :=
    match HeadGroupSpec.HeadService
            (RayClusterSpec.HeadGroupSpec (RayServiceSpec.RayClusterSpec spec)) with
    | Some headSvc => negb (String.eqb (HeadService.Name headSvc) "")
    | None => false
    end in
  if headServiceNamed
  then Some (Failure "spec.rayClusterConfig.headGroupSpec.headService.metadata.name should not be set")
  else
    match RayServiceSpec.UpgradeStrategy spec with
    | Some {| RayServiceUpgradeStrategy.Type_ := Some ty |} =>
        if negb (String.eqb ty UpgradeNone) && negb (String.eqb ty NewCluster)
        then Some (Failure "Spec.UpgradeStrategy.Type value is invalid")
        else None
    | _ => None
    end.

Definition isEagerExposesServicesEnabled : bool :=
  String.eqb (ToLower (Getenv X ENABLE_RAYSERVICE_EAGER_EXPOSES_SERVICES)) "true".

Definition isZeroDowntimeUpgradeEnabled (rayService : RayService.t) : bool :=
  match RayServiceSpec.UpgradeStrategy (RayService.Spec rayService) with
  | Some {| RayServiceUpgradeStrategy.Type_ := Some upgradeType |} =>
      if negb (String.eqb upgradeType NewCluster) then false else true
  | _ =>
      let zeroDowntimeEnvVar := Getenv X ENABLE_ZERO_DOWNTIME in
      if String.eqb (ToLower zeroDowntimeEnvVar) "false" then false else true
  end.

(** [decideClusterAction]; a nil [*RayCluster] is [None].  The statement
    [oldSpec := pendingRayCluster.Spec] dereferences the pending cluster. *)
Definition decideClusterAction (rayServiceInstance : RayService.t)
    (activeRayCluster pendingRayCluster : option RayCluster.t) : Exec ClusterAction :=
  let desired := RayServiceSpec.RayClusterSpec (RayService.Spec rayServiceInstance) in
  if negb (String.eqb (RayService.PendingName rayServiceInstance) "") then
    match pendingRayCluster with
    | None => Panics
    | Some pending =>
        let oldSpec := RayCluster.Spec pending in
        let newSpec := desired in
        let '(sameHash, err) :=
          compareRayClusterJsonHash oldSpec newSpec
            generateHashWithoutReplicasAndWorkersToDelete in
        if notNil err || sameHash then Returns DoNothing
        else if (length (RayClusterSpec.WorkerGroupSpecs oldSpec)
                   <? length (RayClusterSpec.WorkerGroupSpecs newSpec))%nat then
          let newSpecWithAddedWorkerGroupsStripped :=
            setWorkerGroupSpecs
              (take (length (RayClusterSpec.WorkerGroupSpecs oldSpec))
                    (RayClusterSpec.WorkerGroupSpecs newSpec))
              newSpec in
          let '(sameHash, err) :=
            compareRayClusterJsonHash oldSpec newSpecWithAddedWorkerGroupsStripped
              generateHashWithoutReplicasAndWorkersToDelete in
          match err with
          | Some _ => Returns DoNothing
          | None => if sameHash then Returns UpdatePendingCluster
                    else Returns CreatePendingCluster
          end
        else Returns CreatePendingCluster
    end
  else
    match activeRayCluster with
    | None => Returns GeneratePendingClusterName
    | Some active =>
        let activeKubeRayVersion := lookupString (RayCluster.Annotations active) KubeRayVersion in
        if negb (String.eqb activeKubeRayVersion (KUBERAY_VERSION X))
        then Returns UpdateActiveCluster
        else
          let activeClusterHash :=
            lookupString (RayCluster.Annotations active)
                         HashWithoutReplicasAndWorkersToDeleteKey in
          let '(goalClusterHash, err) :=
            generateHashWithoutReplicasAndWorkersToDelete desired in
          match err with
          | Some _ => Returns DoNothing
          | None =>
              if String.eqb activeClusterHash goalClusterHash then Returns DoNothing
              else
                let '(activeClusterNumWorkerGroups, err) :=
                  Atoi (lookupString (RayCluster.Annotations active) NumWorkerGroupsKey) in
                match err with
                | Some _ => Returns DoNothing
                | None =>
                    let goalNumWorkerGroups :=
                      Z.of_nat (length (RayClusterSpec.WorkerGroupSpecs desired)) in
                    let rollout :=
                      if isZeroDowntimeUpgradeEnabled rayServiceInstance
                      then Returns GeneratePendingClusterName
                      else Returns DoNothing in
                    if (activeClusterNumWorkerGroups <? goalNumWorkerGroups)%Z then
                      match sliceTo (RayClusterSpec.WorkerGroupSpecs desired)
                                    activeClusterNumWorkerGroups with
                      | Panics => Panics
                      | Returns stripped =>
                          let goalClusterSpec := setWorkerGroupSpecs stripped desired in
                          let '(goalClusterHash, err) :=
                            generateHashWithoutReplicasAndWorkersToDelete goalClusterSpec in
                          match err with
                          | Some _ => Returns DoNothing
                          | None =>
                              if String.eqb activeClusterHash goalClusterHash
                              then Returns UpdateActiveCluster
                              else rollout
                          end
                      end
                    else rollout
                end
          end
    end.

End Planner.

(** ** The status diff *)

Definition inconsistentDeployments
    (oldDeployments newDeployments : gmap string ServeDeploymentStatus.t) : bool :=
  existsb
    (fun entry : string * ServeDeploymentStatus.t =>
       let '(deploymentName, newDeploymentStatus) := entry in
       match oldDeployments !! deploymentName with
       | None => true
       | Some oldDeploymentStatus =>
           if negb (String.eqb (ServeDeploymentStatus.Status oldDeploymentStatus)
                               (ServeDeploymentStatus.Status newDeploymentStatus))
           then true
           else negb (String.eqb (ServeDeploymentStatus.Message oldDeploymentStatus)
                                 (ServeDeploymentStatus.Message newDeploymentStatus))
       end)
    (map_to_list newDeployments).

(** The body of the loop of [inconsistentRayServiceStatus] over the new
    applications. *)
Definition inconsistentApplication (oldApplications : gmap string AppStatus.t)
    (entry : string * AppStatus.t) : bool :=
  let '(appName, newAppStatus) := entry in
  match oldApplications !! appName with
  | None => true
  | Some oldAppStatus =>
      if negb (String.eqb (AppStatus.Status oldAppStatus)
                          (AppStatus.Status newAppStatus)) then true
      else if negb (String.eqb (AppStatus.Message oldAppStatus)
                               (AppStatus.Message newAppStatus)) then true
      else if negb (size (AppStatus.Deployments oldAppStatus)
                      =? size (AppStatus.Deployments newAppStatus))%nat then true
      else inconsistentDeployments (AppStatus.Deployments oldAppStatus)
                                   (AppStatus.Deployments newAppStatus)
  end.

(** [inconsistentRayServiceStatus]: the two [range] loops return [true] at
    the first entry that differs, in whatever order the map is walked. *)
Definition inconsistentRayServiceStatus (oldStatus newStatus : RayServiceStatus.t) : bool :=
  if negb (String.eqb (RayServiceStatus.RayClusterName oldStatus)
                      (RayServiceStatus.RayClusterName newStatus)) then true
  else if negb (size (RayServiceStatus.Applications oldStatus)
                  =? size (RayServiceStatus.Applications newStatus))%nat then true
  else
    existsb (inconsistentApplication (RayServiceStatus.Applications oldStatus))
            (map_to_list (RayServiceStatus.Applications newStatus)).

Definition inconsistentRayServiceStatuses (oldStatus newStatus : RayServiceStatuses.t) : bool :=
  if negb (String.eqb (RayServiceStatuses.ServiceStatus oldStatus)
                      (RayServiceStatuses.ServiceStatus newStatus)) then true
  else if negb (RayServiceStatuses.NumServeEndpoints oldStatus
                  =? RayServiceStatuses.NumServeEndpoints newStatus)%Z then true
  else if inconsistentRayServiceStatus (RayServiceStatuses.ActiveServiceStatus oldStatus)
                                       (RayServiceStatuses.ActiveServiceStatus newStatus)
       then true
  else if inconsistentRayServiceStatus (RayServiceStatuses.PendingServiceStatus oldStatus)
                                       (RayServiceStatuses.PendingServiceStatus newStatus)
       then true
  else false.

(** ** Serve status *)

Definition isServeAppUnhealthyOrDeployedFailed (appStatus : string) : bool :=
  String.eqb appStatus UNHEALTHY || String.eqb appStatus DEPLOY_FAILED.

(** The body of the inner loop of [getAndCheckServeStatus]: the recorded
    status of one deployment. *)
Definition deploymentStatusOf (timeNow : Time)
    (prevDeployments : gmap string ServeDeploymentStatus.t)
    (deploymentName : string) (deployment : ServeDeploymentReport.t)
  : ServeDeploymentStatus.t :=
  let stamped :=
    {| ServeDeploymentStatus.Status := ServeDeploymentReport.Status deployment;
       ServeDeploymentStatus.Message := ServeDeploymentReport.Message deployment;
       ServeDeploymentStatus.HealthLastUpdateTime := Some timeNow |} in
  if String.eqb (ServeDeploymentReport.Status deployment) UNHEALTHY then
    match prevDeployments !! deploymentName with
    | Some prevStatus =>
        if String.eqb (ServeDeploymentStatus.Status prevStatus) UNHEALTHY
        then {| ServeDeploymentStatus.Status := ServeDeploymentReport.Status deployment;
                ServeDeploymentStatus.Message := ServeDeploymentReport.Message deployment;
                ServeDeploymentStatus.HealthLastUpdateTime :=
                  ServeDeploymentStatus.HealthLastUpdateTime prevStatus |}
        else stamped
    | None => stamped
    end
  else stamped.

(** The body of the outer loop: the recorded status of one application,
    given the statuses recorded before under its name. *)
Definition applicationStatusOf (timeNow : Time) (prevApplicationStatus : AppStatus.t)
    (app : ServeApplicationStatus.t) : AppStatus.t :=
  let healthLastUpdateTime :=
    if isServeAppUnhealthyOrDeployedFailed (ServeApplicationStatus.Status app) then
      if isServeAppUnhealthyOrDeployedFailed (AppStatus.Status prevApplicationStatus) then
        match AppStatus.HealthLastUpdateTime prevApplicationStatus with
        | Some prev => Some prev
        | None => Some timeNow
        end
      else Some timeNow
    else Some timeNow in
  {| AppStatus.Status := ServeApplicationStatus.Status app;
     AppStatus.Message := ServeApplicationStatus.Message app;
     AppStatus.HealthLastUpdateTime := healthLastUpdateTime;
     AppStatus.Deployments :=
       fold_left
         (fun deployments entry =>
            <[fst entry := deploymentStatusOf timeNow
                             (AppStatus.Deployments prevApplicationStatus)
                             (fst entry) (snd entry)]> deployments)
         (map_to_list (ServeApplicationStatus.Deployments app)) ∅ |}.

(** The name an application is recorded under: the default name when the
    dashboard reports it under the empty name. *)
Definition recordedName (appName : string) : string :=
  if String.eqb appName "" then DefaultServeAppName else appName.

(** One step of the outer loop, on the pair [(isReady, newApplications)]. *)
Definition checkApplication (timeNow : Time) (prevApplications : gmap string AppStatus.t)
    (state : bool * gmap string AppStatus.t) (entry : string * ServeApplicationStatus.t)
  : bool * gmap string AppStatus.t :=
  let '(isReady, newApplications) := state in
  let '(reported, app) := entry in
  let appName := recordedName reported in
  let prevApplicationStatus := default AppStatus.zero (prevApplications !! appName) in
  let applicationStatus := applicationStatusOf timeNow prevApplicationStatus app in
  let isReady :=
    if negb (String.eqb (ServeApplicationStatus.Status app) RUNNING) then false else isReady in
  (isReady, <[appName := applicationStatus]> newApplications).

(** [getAndCheckServeStatus] once the dashboard has answered: readiness and
    the new application statuses. *)
Definition checkServeStatuses (timeNow : Time) (prevApplications : gmap string AppStatus.t)
    (serveAppStatuses : gmap string ServeApplicationStatus.t)
  : bool * gmap string AppStatus.t :=
  let '(isReady, newApplications) :=
    fold_left (checkApplication timeNow prevApplications)
              (map_to_list serveAppStatuses) (true, ∅) in
  let isReady := if (size newApplications =? 0)%nat then false else isReady in
  (isReady, newApplications).

(** ** The reconciler *)

Section Reconciler.
Context (X : Externals).

(** *** Requests to the API server ([client.Client])

    Each request takes the next position of the run; the answer is the
    failure [fault X] holds for that position, if any, and what the stored
    objects imply otherwise.  A mutating request is recorded in [calls]
    when it is issued, whatever its answer. *)

(** [metav1.Now], [time.Now] *)
Definition Now : M Time :=
  do n <- next; ret (clock X n).

Definition clusterKey (c : RayCluster.t) : string * string :=
  (RayCluster.Namespace c, RayCluster.Name c).

(** [r.Get] into a fresh [RayCluster]: the object stays zero on an error. *)
Definition GetRayCluster (key : string * string) : M (RayCluster.t * option error) :=
  do n <- next;
  match fault X n with
  | Some e => ret (RayCluster.zero, Some e)
  | None =>
      do found <- gets (fun w => rayClusters w !! key);
      match found with
      | Some c => ret (c, None)
      | None => ret (RayCluster.zero, Some NotFound)
      end
  end.

(** [common.RayServiceRayClustersAssociationOptions]: the clusters in the
    namespace of the service that carry its origin labels. *)
Definition associated (rayService : RayService.t) (c : RayCluster.t) : bool :=
  String.eqb (RayCluster.Namespace c) (RayService.Namespace rayService)
  && bool_decide (RayCluster.Labels c !! RayOriginatedFromCRNameLabelKey
                  = Some (RayService.Name rayService))
  && bool_decide (RayCluster.Labels c !! RayOriginatedFromCRDLabelKey = Some RayServiceCRD).

Definition ListRayClusters (rayService : RayService.t)
  : M (list RayCluster.t * option error) :=
  do n <- next;
  match fault X n with
  | Some e => ret ([], Some e)
  | None =>
      do items <- gets (fun w =>
        List.filter (associated rayService) (map snd (map_to_list (rayClusters w))));
      ret (items, None)
  end.

(** [r.Delete] with background propagation. *)
Definition Delete (c : RayCluster.t) : M (option error) :=
  do n <- next;
  run modify (record (DeleteRayCluster (RayCluster.Namespace c) (RayCluster.Name c)));
  match fault X n with
  | Some e => ret (Some e)
  | None =>
      do found <- gets (fun w => rayClusters w !! clusterKey c);
      match found with
      | None => ret (Some NotFound)
      | Some _ =>
          run modify (fun w => setRayClusters (delete (clusterKey c) (rayClusters w)) w);
          ret None
      end
  end.

Definition Create (c : RayCluster.t) : M (option error) :=
  do n <- next;
  run modify (record (CreateRayCluster c));
  match fault X n with
  | Some e => ret (Some e)
  | None =>
      do found <- gets (fun w => rayClusters w !! clusterKey c);
      match found with
      | Some _ => ret (Some AlreadyExists)
      | None =>
          run modify (fun w => setRayClusters (<[clusterKey c := c]> (rayClusters w)) w);
          ret None
      end
  end.

Definition Update (c : RayCluster.t) : M (option error) :=
  do n <- next;
  run modify (record (UpdateRayCluster c));
  match fault X n with
  | Some e => ret (Some e)
  | None =>
      do found <- gets (fun w => rayClusters w !! clusterKey c);
      match found with
      | None => ret (Some NotFound)
      | Some _ =>
          run modify (fun w => setRayClusters (<[clusterKey c := c]> (rayClusters w)) w);
          ret None
      end
  end.

Definition serviceKey (s : RayService.t) : string * string :=
  (RayService.Namespace s, RayService.Name s).

(** [r.Get] of the RayService of a request. *)
Definition GetRayService (key : string * string) : M (option RayService.t * option error) :=
  do n <- next;
  match fault X n with
  | Some e => ret (None, Some e)
  | None =>
      do found <- gets (fun w => rayServices w !! key);
      match found with
      | Some s => ret (Some s, None)
      | None => ret (None, Some NotFound)
      end
  end.

(** [r.Status().Update]: the stored object takes the status of the instance. *)
Definition StatusUpdate (s : RayService.t) : M (option error) :=
  do n <- next;
  run modify (record (UpdateStatus s));
  match fault X n with
  | Some e => ret (Some e)
  | None =>
      do found <- gets (fun w => rayServices w !! serviceKey s);
      match found with
      | None => ret (Some NotFound)
      | Some stored =>
          run modify (fun w =>
            setRayServices
              (<[serviceKey s := RayService.setStatus (RayService.Status s) stored]>
                 (rayServices w)) w);
          ret None
      end
  end.

(** *** Dangling clusters *)

(** The loop of [cleanUpRayClusterInstance] over the listed clusters. *)
Fixpoint cleanUpRayClusters (rayServiceInstance : RayService.t)
    (items : list RayCluster.t) : M (option error) :=
  match items with
  | [] => ret None
  | rayClusterInstance :: rest =>
      let name := RayCluster.Name rayClusterInstance in
      if negb (String.eqb name (RayService.ActiveName rayServiceInstance))
         && negb (String.eqb name (RayService.PendingName rayServiceInstance)) then
        do cached <- gets (fun w => RayClusterDeletionTimestamps w !! name);
        match cached with
        | None =>
            do now <- Now;
            let deletionTimestamp := (now + RayClusterDeletionDelayDuration)%Z in
            run modify (fun w =>
              setDeletionTimestamps
                (<[name := deletionTimestamp]> (RayClusterDeletionTimestamps w)) w);
            cleanUpRayClusters rayServiceInstance rest
        | Some cachedTimestamp =>
            do now <- Now;
            if (0 <? now - cachedTimestamp)%Z then
              do err <- Delete rayClusterInstance;
              match err with
              | Some _ => ret err
              | None => cleanUpRayClusters rayServiceInstance rest
              end
            else cleanUpRayClusters rayServiceInstance rest
        end
      else cleanUpRayClusters rayServiceInstance rest
  end.

Definition cleanUpRayClusterInstance (rayServiceInstance : RayService.t) : M (option error) :=
  do '(items, err) <- ListRayClusters rayServiceInstance;
  match err with
  | Some _ => ret err
  | None => cleanUpRayClusters rayServiceInstance items
  end.

Definition getRayClusterByNamespacedName (clusterKey : string * string)
  : M (option RayCluster.t * option error) :=
  if String.eqb (snd clusterKey) "" then ret (None, None)
  else
    do '(rayCluster, err) <- GetRayCluster clusterKey;
    match IgnoreNotFound err with
    | Some _ => ret (None, err)
    | None => ret (Some rayCluster, None)
    end.

(** [common.RayServiceActiveRayClusterNamespacedName] and
    [common.RayServicePendingRayClusterNamespacedName]. *)
Definition RayServiceActiveRayClusterNamespacedName (s : RayService.t) : string * string :=
  (RayService.Namespace s, RayService.ActiveName s).
Definition RayServicePendingRayClusterNamespacedName (s : RayService.t) : string * string :=
  (RayService.Namespace s, RayService.PendingName s).

(** *** The Serve-config cache *)

Definition cacheKeyOf (s : RayService.t) : string :=
  RayService.Namespace s +:+ "/" +:+ RayService.Name s.

(** [r.ServeConfigs.Get] *)
Definition ServeConfigsGet (cacheKey : string) : M (option (gmap string string)) :=
  fun w =>
    let '(found, cache) := lru.Get cacheKey (ServeConfigs w) in
    (Returns found, setServeConfigs cache w).

Definition cleanUpServeConfigCache (rayServiceInstance : RayService.t) : M unit :=
  let activeRayClusterName := RayService.ActiveName rayServiceInstance in
  let pendingRayClusterName := RayService.PendingName rayServiceInstance in
  let cacheKey := cacheKeyOf rayServiceInstance in
  do cacheValue <- ServeConfigsGet cacheKey;
  match cacheValue with
  | None => ret tt
  | Some _ =>
      modify (fun w =>
        setServeConfigs
          (lru.modify cacheKey
             (filter (fun kv : string * string =>
                        kv.1 = activeRayClusterName \/ kv.1 = pendingRayClusterName))
             (ServeConfigs w)) w)
  end.

Definition getServeConfigFromCache (rayServiceInstance : RayService.t)
    (clusterName : string) : M string :=
  do cacheValue <- ServeConfigsGet (cacheKeyOf rayServiceInstance);
  match cacheValue with
  | None => ret ""
  | Some serveConfigs =>
      match serveConfigs !! clusterName with
      | None => ret ""
      | Some serveConfig => ret serveConfig
      end
  end.

Definition cacheServeConfig (rayServiceInstance : RayService.t) (clusterName : string)
  : M unit :=
  let serveConfig := RayServiceSpec.ServeConfigV2 (RayService.Spec rayServiceInstance) in
  if String.eqb serveConfig "" then ret tt
  else
    let cacheKey := cacheKeyOf rayServiceInstance in
    do cacheValue <- ServeConfigsGet cacheKey;
    run (match cacheValue with
         | None => modify (fun w => setServeConfigs (lru.Add cacheKey ∅ (ServeConfigs w)) w)
         | Some _ => ret tt
         end);
    modify (fun w =>
      setServeConfigs
        (lru.modify cacheKey (fun m => <[clusterName := serveConfig]> m) (ServeConfigs w)) w).

(** *** Creating and updating clusters *)

(** [ctrl.SetControllerReference]: refused across namespaces and when the
    object is already controlled by another owner. *)
Definition SetControllerReference (owner : RayService.t) (c : RayCluster.t)
  : RayCluster.t * option error :=
  if negb (String.eqb (RayService.Namespace owner) (RayCluster.Namespace c))
  then (c, Some (Failure "cross-namespace owner references are disallowed"))
  else if existsb (fun o => OwnerReference.Controller o
                            && negb (String.eqb (OwnerReference.Name o) (RayService.Name owner)))
                  (RayCluster.OwnerReferences c)
  then (c, Some (Failure "object is already owned by another controller"))
  else
    ({| RayCluster.Name := RayCluster.Name c;
        RayCluster.Namespace := RayCluster.Namespace c;
        RayCluster.Labels := RayCluster.Labels c;
        RayCluster.Annotations := RayCluster.Annotations c;
        RayCluster.OwnerReferences :=
          {| OwnerReference.Name := RayService.Name owner; OwnerReference.Controller := true |}
          :: List.filter (fun o => negb (String.eqb (OwnerReference.Name o) (RayService.Name owner)))
                         (RayCluster.OwnerReferences c);
        RayCluster.Spec := RayCluster.Spec c;
        RayCluster.Status := RayCluster.Status c |}, None).

Definition constructRayClusterForRayService (rayService : RayService.t)
    (rayClusterName : string) : option RayCluster.t * option error :=
  let rayClusterLabel :=
    <[RayOriginatedFromCRDLabelKey := RayServiceCRD]>
      (<[RayOriginatedFromCRNameLabelKey := RayService.Name rayService]>
         (RayService.Labels rayService)) in
  let '(hash, err) :=
    generateHashWithoutReplicasAndWorkersToDelete X
      (RayServiceSpec.RayClusterSpec (RayService.Spec rayService)) in
  match err with
  | Some _ => (None, err)
  | None =>
      let rayClusterAnnotations :=
        <[KubeRayVersion := KUBERAY_VERSION X]>
          (<[NumWorkerGroupsKey :=
               Itoa (length (RayClusterSpec.WorkerGroupSpecs
                               (RayServiceSpec.RayClusterSpec (RayService.Spec rayService))))]>
             (<[HashWithoutReplicasAndWorkersToDeleteKey := hash]>
                (RayService.Annotations rayService))) in
      let rayCluster :=
        {| RayCluster.Name := rayClusterName;
           RayCluster.Namespace := RayService.Namespace rayService;
           RayCluster.Labels := rayClusterLabel;
           RayCluster.Annotations := rayClusterAnnotations;
           RayCluster.OwnerReferences := [];
           RayCluster.Spec := RayServiceSpec.RayClusterSpec (RayService.Spec rayService);
           RayCluster.Status := RayClusterStatus.zero |} in
      match SetControllerReference rayService rayCluster with
      | (_, Some e) => (None, Some e)
      | (owned, None) => (Some owned, None)
      end
  end.

Definition updateRayClusterInstance (rayClusterInstance : RayCluster.t) : M (option error) :=
  do '(currentRayCluster, err) <-
    getRayClusterByNamespacedName (clusterKey rayClusterInstance);
  match err with
  | Some _ => ret (Some (Failure "failed to get the current state of RayCluster"))
  | None =>
      match currentRayCluster with
      | None => ret None
      | Some current =>
          Update {| RayCluster.Name := RayCluster.Name current;
                    RayCluster.Namespace := RayCluster.Namespace current;
                    RayCluster.Labels := RayCluster.Labels rayClusterInstance;
                    RayCluster.Annotations := RayCluster.Annotations rayClusterInstance;
                    RayCluster.OwnerReferences := RayCluster.OwnerReferences current;
                    RayCluster.Spec := RayCluster.Spec rayClusterInstance;
                    RayCluster.Status := RayCluster.Status current |}
      end
  end.

Definition createRayClusterInstance (rayServiceInstance : RayService.t)
  : M (option RayCluster.t * option error) :=
  let rayClusterKey := RayServicePendingRayClusterNamespacedName rayServiceInstance in
  let create : M (option RayCluster.t * option error) :=
    match constructRayClusterForRayService rayServiceInstance (snd rayClusterKey) with
    | (_, Some e) => ret (None, Some e)
    | (None, None) => panic
    | (Some rayClusterInstance, None) =>
        do err <- Create rayClusterInstance;
        match err with
        | Some _ => ret (None, err)
        | None => ret (Some rayClusterInstance, None)
        end
    end in
  do '(rayClusterInstance, err) <- GetRayCluster rayClusterKey;
  match err with
  | None =>
      do delErr <- Delete rayClusterInstance;
      match delErr with
      | None => ret (None, None)
      | Some _ => if negb (IsNotFound delErr) then ret (None, delErr) else create
      end
  | Some _ => if negb (IsNotFound err) then ret (None, err) else create
  end.

Definition markRestartAndAddPendingClusterName (rayServiceInstance : RayService.t)
  : M RayService.t :=
  do n <- next;
  let st := RayServiceStatuses.setServiceStatus Restarting (RayService.Status rayServiceInstance) in
  let pending :=
    {| RayServiceStatus.Applications := ∅;
       RayServiceStatus.RayClusterName :=
         GenerateRayClusterName X (RayService.Name rayServiceInstance) n;
       RayServiceStatus.RayClusterStatus := RayClusterStatus.zero |} in
  ret (RayService.setStatus (RayServiceStatuses.setPending pending st) rayServiceInstance).

(** [reconcileRayCluster]: the active cluster, the pending cluster, the
    error, and the instance as the call leaves it. *)
Definition reconcileRayCluster (rayServiceInstance : RayService.t)
  : M ((option RayCluster.t * option RayCluster.t * option error) * RayService.t) :=
  do err <- cleanUpRayClusterInstance rayServiceInstance;
  match err with
  | Some _ => ret ((None, None, err), rayServiceInstance)
  | None =>
  do '(activeRayCluster, err) <-
    getRayClusterByNamespacedName (RayServiceActiveRayClusterNamespacedName rayServiceInstance);
  match err with
  | Some _ => ret ((None, None, err), rayServiceInstance)
  | None =>
  do '(pendingRayCluster, err) <-
    getRayClusterByNamespacedName (RayServicePendingRayClusterNamespacedName rayServiceInstance);
  match err with
  | Some _ => ret ((None, None, err), rayServiceInstance)
  | None =>
  do clusterAction <-
    liftExec (decideClusterAction X rayServiceInstance activeRayCluster pendingRayCluster);
  match clusterAction with
  | GeneratePendingClusterName =>
      do marked <- markRestartAndAddPendingClusterName rayServiceInstance;
      ret ((activeRayCluster, None, None), marked)
  | CreatePendingCluster =>
      do '(pendingRayCluster, err) <- createRayClusterInstance rayServiceInstance;
      ret ((activeRayCluster, pendingRayCluster, err), rayServiceInstance)
  | UpdatePendingCluster =>
      match pendingRayCluster with
      | None => panic
      | Some pending =>
          match constructRayClusterForRayService rayServiceInstance (RayCluster.Name pending) with
          | (_, Some e) => ret ((None, None, Some e), rayServiceInstance)
          | (None, None) => panic
          | (Some pendingRayCluster, None) =>
              do err <- updateRayClusterInstance pendingRayCluster;
              match err with
              | Some _ => ret ((None, None, err), rayServiceInstance)
              | None => ret ((activeRayCluster, Some pendingRayCluster, None), rayServiceInstance)
              end
          end
      end
  | UpdateActiveCluster =>
      match activeRayCluster with
      | None => panic
      | Some active =>
          match constructRayClusterForRayService rayServiceInstance (RayCluster.Name active) with
          | (_, Some e) => ret ((None, None, Some e), rayServiceInstance)
          | (None, None) => panic
          | (Some activeRayCluster, None) =>
              do err <- updateRayClusterInstance activeRayCluster;
              match err with
              | Some _ => ret ((None, None, err), rayServiceInstance)
              | None => ret ((Some activeRayCluster, None, None), rayServiceInstance)
              end
          end
      end
  | DoNothing => ret ((activeRayCluster, pendingRayCluster, None), rayServiceInstance)
  end
  end end end.

(** *** The Serve deployment reconciler

    The dashboard client is the URL it was initialised with. *)

Definition InitClient (url : string) : M (option error) :=
  do n <- next; ret (fault X n).

Definition DashboardUpdateDeployments (url configJson : string) : M (option error) :=
  do n <- next;
  run modify (record (UpdateDeployments url configJson));
  ret (fault X n).

Definition GetMultiApplicationStatus (url : string)
  : M (gmap string ServeApplicationStatus.t * option error) :=
  do n <- next;
  match fault X n with
  | Some e => ret (∅, Some e)
  | None => ret (serveApplications X n, None)
  end.

Definition FetchHeadServiceURL (c : RayCluster.t) : M (string * option error) :=
  do n <- next;
  match fault X n with
  | Some e => ret ("", Some e)
  | None => ret (headServiceURL X n, None)
  end.

Definition isHeadPodRunningAndReady (instance : RayCluster.t) : M (bool * option error) :=
  do n <- next;
  match fault X n with
  | Some e => ret (false, Some e)
  | None => ret (headPodRunningAndReady X n, None)
  end.

(** [meta.IsStatusConditionTrue] *)
Definition IsStatusConditionTrue (conditions : list Condition.t) (conditionType : string) : bool :=
  match List.find (fun c => String.eqb (Condition.Type_ c) conditionType) conditions with
  | Some c => String.eqb (Condition.Status c) "True"
  | None => false
  end.

Definition checkIfNeedSubmitServeDeployment (rayServiceInstance : RayService.t)
    (rayClusterInstance : RayCluster.t) (serveStatus : RayServiceStatus.t) : M bool :=
  do cachedServeConfigV2 <-
    getServeConfigFromCache rayServiceInstance (RayCluster.Name rayClusterInstance);
  if String.eqb cachedServeConfigV2 "" then ret true
  else if (size (RayServiceStatus.Applications serveStatus) =? 0)%nat then ret true
  else
    ret (negb (String.eqb cachedServeConfigV2
                 (RayServiceSpec.ServeConfigV2 (RayService.Spec rayServiceInstance)))).

Definition updateServeDeployment (rayServiceInstance : RayService.t)
    (rayDashboardClient : string) (clusterName : string) : M (option error) :=
  let '(configJson, err) :=
    yamlToJSON X (RayServiceSpec.ServeConfigV2 (RayService.Spec rayServiceInstance)) in
  match err with
  | Some _ => ret err
  | None =>
      do err <- DashboardUpdateDeployments rayDashboardClient configJson;
      match err with
      | Some _ => ret (Some (Failure "fail to create / update Serve applications"))
      | None =>
          run cacheServeConfig rayServiceInstance clusterName;
          ret None
      end
  end.

(** [getAndCheckServeStatus]: readiness, the error, and the status slot as
    the call leaves it. *)
Definition getAndCheckServeStatus (dashboardClient : string)
    (rayServiceServeStatus : RayServiceStatus.t)
  : M ((bool * option error) * RayServiceStatus.t) :=
  do '(serveAppStatuses, err) <- GetMultiApplicationStatus dashboardClient;
  match err with
  | Some _ =>
      ret ((false, Some (Failure "failed to get Serve application statuses from the dashboard")),
           rayServiceServeStatus)
  | None =>
      do timeNow <- Now;
      let '(isReady, newApplications) :=
        checkServeStatuses timeNow (RayServiceStatus.Applications rayServiceServeStatus)
                           serveAppStatuses in
      ret ((isReady, None),
           RayServiceStatus.setApplications newApplications rayServiceServeStatus)
  end.

Definition updateRayClusterInfo (rayServiceInstance : RayService.t)
    (healthyClusterName : string) : RayService.t :=
  let st := RayService.Status rayServiceInstance in
  if negb (String.eqb (RayService.ActiveName rayServiceInstance) healthyClusterName) then
    RayService.setStatus
      (RayServiceStatuses.setPending RayServiceStatus.zero
         (RayServiceStatuses.setActive (RayServiceStatuses.PendingServiceStatus st) st))
      rayServiceInstance
  else rayServiceInstance.

(** The status slot [reconcileServe] points [rayServiceStatus] at. *)
Definition getSlot (isActive : bool) (s : RayService.t) : RayServiceStatus.t :=
  if isActive then RayServiceStatuses.ActiveServiceStatus (RayService.Status s)
  else RayServiceStatuses.PendingServiceStatus (RayService.Status s).

Definition setSlot (isActive : bool) (v : RayServiceStatus.t) (s : RayService.t)
  : RayService.t :=
  RayService.setStatus
    (if isActive then RayServiceStatuses.setActive v (RayService.Status s)
     else RayServiceStatuses.setPending v (RayService.Status s)) s.

Definition setActiveRayClusterStatus (cs : RayClusterStatus.t) (s : RayService.t)
  : RayService.t :=
  setSlot true
    (RayServiceStatus.setRayClusterStatus cs
       (RayServiceStatuses.ActiveServiceStatus (RayService.Status s))) s.

Definition updateStatusForActiveCluster (rayServiceInstance : RayService.t)
    (rayClusterInstance : RayCluster.t) : M (option error * RayService.t) :=
  let rayServiceInstance :=
    setActiveRayClusterStatus (RayCluster.Status rayClusterInstance) rayServiceInstance in
  do '(clientURL, err) <- FetchHeadServiceURL rayClusterInstance;
  if notNil err || String.eqb clientURL "" then ret (err, rayServiceInstance)
  else
    do err <- InitClient clientURL;
    match err with
    | Some _ => ret (err, rayServiceInstance)
    | None =>
        do '((isReady, err), rayServiceStatus) <-
          getAndCheckServeStatus clientURL (getSlot true rayServiceInstance);
        match err with
        | Some _ => ret (err, rayServiceInstance)
        | None => ret (None, setSlot true rayServiceStatus rayServiceInstance)
        end
    end.

(** The part of [reconcileServe] that runs once the head pod was found
    running and ready; [rayServiceInstance] already carries the status of
    the cluster in its active slot. *)
Definition reconcileServeOnReadyHead (rayServiceInstance : RayService.t)
    (rayClusterInstance : RayCluster.t) (isActive : bool)
  : M ((bool * option error) * RayService.t) :=
  do '(clientURL, err) <- FetchHeadServiceURL rayClusterInstance;
  if notNil err || String.eqb clientURL ""
  then ret ((false, err), rayServiceInstance)
  else
    do err <- InitClient clientURL;
    match err with
    | Some _ => ret ((false, err), rayServiceInstance)
    | None =>
        do shouldUpdate <-
          checkIfNeedSubmitServeDeployment rayServiceInstance rayClusterInstance
            (getSlot isActive rayServiceInstance);
        do err <-
          (if shouldUpdate
           then updateServeDeployment rayServiceInstance clientURL
                  (RayCluster.Name rayClusterInstance)
           else ret None);
        match err with
        | Some _ => ret ((false, err), rayServiceInstance)
        | None =>
            do '((isReady, err), rayServiceStatus) <-
              getAndCheckServeStatus clientURL (getSlot isActive rayServiceInstance);
            match err with
            | Some _ => ret ((false, err), rayServiceInstance)
            | None =>
                let rayServiceInstance := setSlot isActive rayServiceStatus rayServiceInstance in
                if isReady then
                  let rayServiceInstance :=
                    RayService.setStatus
                      (RayServiceStatuses.setServiceStatus Running
                         (RayService.Status rayServiceInstance)) rayServiceInstance in
                  ret ((true, None),
                       updateRayClusterInfo rayServiceInstance
                         (RayCluster.Name rayClusterInstance))
                else
                  let rayServiceInstance :=
                    RayService.setStatus
                      (RayServiceStatuses.setServiceStatus WaitForServeDeploymentReady
                         (RayService.Status rayServiceInstance)) rayServiceInstance in
                  do err <- StatusUpdate rayServiceInstance;
                  match err with
                  | Some _ => ret ((false, err), rayServiceInstance)
                  | None => ret ((false, None), rayServiceInstance)
                  end
            end
        end
    end.

(** [reconcileServe]: [(isReady, err)] and the instance as the call leaves it. *)
Definition reconcileServe (rayServiceInstance : RayService.t)
    (rayClusterInstance : RayCluster.t) (isActive : bool)
  : M ((bool * option error) * RayService.t) :=
  let rayServiceInstance :=
    setActiveRayClusterStatus (RayCluster.Status rayClusterInstance) rayServiceInstance in
  if RayClusterStatusConditions X then
    if negb (IsStatusConditionTrue
               (RayClusterStatus.Conditions (RayCluster.Status rayClusterInstance))
               HeadPodReady)
    then ret ((false, None), rayServiceInstance)
    else reconcileServeOnReadyHead rayServiceInstance rayClusterInstance isActive
  else
    do '(isRunningAndReady, err) <- isHeadPodRunningAndReady rayClusterInstance;
    if notNil err || negb isRunningAndReady
    then ret ((false, err), rayServiceInstance)
    else reconcileServeOnReadyHead rayServiceInstance rayClusterInstance isActive.

(** *** Network services, the head pod and endpoints

    [reconcileServices] and [labelHeadPodForServeStatus] as the reconciler
    runs them: on the services stored in the API server, with the
    positions of the run reserved for their requests, and with what they
    send recorded among the requests of the run. *)

(** What [reconcileServices] is answered when its [Get] takes the position
    [n] and its [Update] or [Create] the position [m]. *)
Definition serviceAnswers (n m : nat) : KubeService.Answers :=
  {| KubeService.BuildHeadServiceForRayService := BuildHeadServiceForRayService X;
     KubeService.BuildServeServiceForRayService := BuildServeServiceForRayService X;
     KubeService.getFault := fault X n;
     KubeService.updateFault := fault X m;
     KubeService.createFault := fault X m |}.

Definition reconcileServices (rayServiceInstance : RayService.t)
    (rayClusterInstance : RayCluster.t) (serviceType : KubeService.ServiceType)
  : M (option error) :=
  do n <- next;
  do m <- next;
  do stored <- gets services;
  let '(err, st) :=
    KubeService.reconcileServices (serviceAnswers n m) rayServiceInstance
      rayClusterInstance serviceType
      {| KubeService.services := stored; KubeService.sent := [] |} in
  run modify (setServices (KubeService.services st));
  run modify (recordAll (map ServiceRequest (KubeService.sent st)));
  ret err.

(** What [labelHeadPodForServeStatus] is answered when the search for the
    head pod takes the position [n], the health check of the proxy actor
    the position [m] and the update of the pod the position [k]. *)
Definition headPodAnswers (n m k : nat) : HeadPod.Answers :=
  {| HeadPod.GetRayClusterHeadPod :=
       match fault X n with
       | Some e => (None, Some e)
       | None => (headPod X n, None)
       end;
     HeadPod.CheckProxyActorHealth := fault X m;
     HeadPod.Update := fun _ => fault X k |}.

Definition labelHeadPodForServeStatus (rayClusterInstance : RayCluster.t)
    (excludeHeadPodFromServeSvc : bool) : M (option error) :=
  do n <- next;
  do m <- next;
  do k <- next;
  do '(sent, err) <-
    liftExec (HeadPod.labelHeadPodForServeStatus (headPodAnswers n m k)
                excludeHeadPodFromServeSvc);
  run modify (recordAll (map UpdatePod sent));
  ret err.

Definition MaxInt32 : Z := 2147483647.

Definition calculateStatus (rayServiceInstance : RayService.t)
  : M (option error * RayService.t) :=
  do n <- next;
  let err := fault X n in
  if notNil err && negb (IsNotFound err) then ret (err, rayServiceInstance)
  else
    let subsets := match err with Some _ => [] | None => serveEndpoints X n end in
    let numServeEndpoints := fold_left (fun acc k => (acc + Z.of_nat k)%Z) subsets 0%Z in
    if (MaxInt32 <? numServeEndpoints)%Z
    then ret (Some (Failure "numServeEndpoints exceeds math.MaxInt32"), rayServiceInstance)
    else
      ret (None,
           RayService.setStatus
             (RayServiceStatuses.setNumServeEndpoints numServeEndpoints
                (RayService.Status rayServiceInstance)) rayServiceInstance).

(** *** The reconcile driver *)

(** [corev1.EventTypeWarning] and [utils.InvalidRayServiceSpec] *)
Definition EventTypeWarning : string := "Warning".
Definition InvalidRayServiceSpec : string := "InvalidRayServiceSpec".

(** [r.Recorder.Eventf] about the RayService: the event is handed to the
    recorder, which does not answer. *)
Definition Eventf (object : RayService.t) (eventtype reason : string) (err : error)
  : M unit :=
  modify (record (Event (RayService.Namespace object) (RayService.Name object)
                    eventtype reason err)).

Definition getRayServiceInstance (request : string * string)
  : M (option RayService.t * option error) :=
  GetRayService request.

Definition setPendingStatus (v : RayServiceStatus.t) (s : RayService.t) : RayService.t :=
  setSlot false v s.
Definition setActiveStatus (v : RayServiceStatus.t) (s : RayService.t) : RayService.t :=
  setSlot true v s.

(** The four situations of [Reconcile] after the lifecycle step. *)
Definition reconcileServeFor (rayServiceInstance : RayService.t)
    (activeRayClusterInstance pendingRayClusterInstance : option RayCluster.t)
  : M ((bool * option error) * RayService.t) :=
  match activeRayClusterInstance, pendingRayClusterInstance with
  | Some active, None =>
      reconcileServe (setPendingStatus RayServiceStatus.zero rayServiceInstance) active true
  | Some active, Some pending =>
      do '(_, rayServiceInstance) <- updateStatusForActiveCluster rayServiceInstance active;
      reconcileServe rayServiceInstance pending false
  | None, Some pending =>
      reconcileServe (setActiveStatus RayServiceStatus.zero rayServiceInstance) pending false
  | None, None =>
      ret ((false, None),
           setPendingStatus RayServiceStatus.zero
             (setActiveStatus RayServiceStatus.zero rayServiceInstance))
  end.

(** What a run of [Reconcile] yields: the requeue delay and the error it
    returns, and, for the properties below, the instance as the run leaves
    it in memory and the readiness it computed. *)
Record Reconciled : Type := {
  RequeueAfter : Z;
  returnedError : option error;
  finalInstance : option RayService.t;
  finalReady : bool
}.

Definition requeue (e : option error) (s : RayService.t) (isReady : bool) : Reconciled :=
  {| RequeueAfter := ServiceDefaultRequeueDuration; returnedError := e;
     finalInstance := Some s; finalReady := isReady |}.

(** The part of [Reconcile] after the Serve component has been reconciled
    without an error. *)
Definition reconcileAfterServe (originalRayServiceInstance rayServiceInstance : RayService.t)
    (activeRayClusterInstance pendingRayClusterInstance : option RayCluster.t)
    (isReady : bool) : M Reconciled :=
  if negb isReady && negb (isEagerExposesServicesEnabled X)
  then ret (requeue None rayServiceInstance isReady)
  else
    let rayClusterInstance :=
      match pendingRayClusterInstance with
      | Some pending => Some pending
      | None => activeRayClusterInstance
      end in
    do svcErr <-
      match rayClusterInstance with
      | None => ret None
      | Some c =>
          do e <- reconcileServices rayServiceInstance c KubeService.HeadService;
          match e with
          | Some _ => ret e
          | None =>
              do e <- labelHeadPodForServeStatus c
                        (RayServiceSpec.ExcludeHeadPodFromServeSvc
                           (RayService.Spec rayServiceInstance));
              match e with
              | Some _ => ret e
              | None => reconcileServices rayServiceInstance c KubeService.ServingService
              end
          end
      end;
    match svcErr with
    | Some _ => ret (requeue svcErr rayServiceInstance isReady)
    | None =>
        if negb isReady then ret (requeue None rayServiceInstance isReady)
        else
          do '(e, rayServiceInstance) <- calculateStatus rayServiceInstance;
          match e with
          | Some _ => ret (requeue e rayServiceInstance isReady)
          | None =>
              if inconsistentRayServiceStatuses
                   (RayService.Status originalRayServiceInstance)
                   (RayService.Status rayServiceInstance)
              then
                do now <- Now;
                let rayServiceInstance :=
                  RayService.setStatus
                    (RayServiceStatuses.setLastUpdateTime (Some now)
                       (RayService.Status rayServiceInstance)) rayServiceInstance in
                do errStatus <- StatusUpdate rayServiceInstance;
                ret (requeue errStatus rayServiceInstance isReady)
              else ret (requeue None rayServiceInstance isReady)
          end
    end.

Definition Reconcile (request : string * string) : M Reconciled :=
  do '(fetched, e) <- getRayServiceInstance request;
  match fetched, e with
  | _, Some _ | None, _ =>
      ret {| RequeueAfter := 0; returnedError := IgnoreNotFound e;
             finalInstance := None; finalReady := false |}
  | Some rayServiceInstance, None =>
      let originalRayServiceInstance := rayServiceInstance in
      match validateRayServiceSpec rayServiceInstance with
      | Some e =>
          run Eventf rayServiceInstance EventTypeWarning InvalidRayServiceSpec e;
          ret (requeue (Some e) rayServiceInstance false)
      | None =>
          run cleanUpServeConfigCache rayServiceInstance;
          let rayServiceInstance :=
            RayService.setStatus
              (RayServiceStatuses.setObservedGeneration
                 (RayService.Generation rayServiceInstance)
                 (RayService.Status rayServiceInstance)) rayServiceInstance in
          do '((activeRayClusterInstance, pendingRayClusterInstance, e), rayServiceInstance) <-
            reconcileRayCluster rayServiceInstance;
          match e with
          | Some _ => ret (requeue (IgnoreNotFound e) rayServiceInstance false)
          | None =>
              if negb (String.eqb (RayService.PendingName rayServiceInstance) "")
                 && negb (notNil pendingRayClusterInstance)
              then
                do errStatus <- StatusUpdate rayServiceInstance;
                ret (requeue None rayServiceInstance false)
              else
                do '((isReady, e), rayServiceInstance) <-
                  reconcileServeFor rayServiceInstance
                    activeRayClusterInstance pendingRayClusterInstance;
                match e with
                | Some _ => ret (requeue None rayServiceInstance false)
                | None =>
                    reconcileAfterServe originalRayServiceInstance rayServiceInstance
                      activeRayClusterInstance pendingRayClusterInstance isReady
                end
          end
      end
  end.

End Reconciler.

(** ** Concrete collaborators and inputs, on which the definitions are run *)

Definition showZ (z : Z) : string :=
  if (z <? 0)%Z then "-" +:+ Itoa (Z.abs_nat z) else Itoa (Z.abs_nat z).

Definition showOptZ (o : option Z) : string :=
  match o with
  | None => "null"
  | Some z => showZ z
  end.

Definition encodeWorkerGroup (g : WorkerGroupSpec.t) : string :=
  "{" +:+ WorkerGroupSpec.GroupName g
  +:+ "," +:+ showOptZ (WorkerGroupSpec.Replicas g)
  +:+ "," +:+ showOptZ (WorkerGroupSpec.MinReplicas g)
  +:+ "," +:+ showOptZ (WorkerGroupSpec.MaxReplicas g)
  +:+ ",[" +:+ String.concat ";"
                 (ScaleStrategy.WorkersToDelete (WorkerGroupSpec.ScaleStrategy g))
  +:+ "]," +:+ WorkerGroupSpec.Template g +:+ "}".

(** Modelled from the spec: [utils.GenerateJsonHash] is not part of the
    sources; the spec says of it that it hashes the canonical JSON encoding.
    To run the planner on concrete inputs a cluster spec is fingerprinted by
    a canonical encoding of its fields, without the digest step. *)
Definition encodingFingerprint (s : RayClusterSpec.t) : string * option error :=
  ("head{"
   +:+ match HeadGroupSpec.HeadService (RayClusterSpec.HeadGroupSpec s) with
       | Some h => HeadService.Name h
       | None => "null"
       end
   +:+ "," +:+ HeadGroupSpec.Template (RayClusterSpec.HeadGroupSpec s)
   +:+ "}workers[" +:+ String.concat "" (map encodeWorkerGroup (RayClusterSpec.WorkerGroupSpecs s))
   +:+ "]version{" +:+ RayClusterSpec.RayVersion s +:+ "}", None).

(** The head pod of [a-raycluster-1], not yet labelled. *)
Definition headPodOfA : HeadPod.Pod :=
  {| HeadPod.Name := "a-raycluster-1-head"; HeadPod.Namespace := "svc";
     HeadPod.Labels := {[ "ray.io/node-type" := "head" ]};
     HeadPod.Containers := ["ray-head"] |}.

(** The services the builders of package common are taken to build for a
    RayService and a cluster: named after the RayService, in its
    namespace, selecting the cluster. *)
Definition builtServiceFor (suffix ports : string) (rs : RayService.t) (c : RayCluster.t)
  : KubeService.Service * option error :=
  ({| KubeService.Name := RayService.Name rs +:+ suffix;
      KubeService.Namespace := RayService.Namespace rs;
      KubeService.OwnerReferences := [];
      KubeService.Spec :=
        {| KubeService.Selector := {[ KubeService.RayClusterLabelKey := RayCluster.Name c ]};
           KubeService.ClusterIP := "";
           KubeService.Ports := ports |} |}, None).

(** A run in which no request fails, the head pod is ready, the clock
    advances one second per reading and the dashboard reports [apps]. *)
Definition quietRun (apps : gmap string ServeApplicationStatus.t) : Externals :=
  {| GenerateJsonHash := encodingFingerprint;
     KUBERAY_VERSION := "v1.3.0";
     Getenv := fun _ => "";
     yamlToJSON := fun s => (s, None);
     RayClusterStatusConditions := false;
     GenerateRayClusterName := fun name n => name +:+ "-raycluster-" +:+ Itoa n;
     fault := fun _ => None;
     clock := fun n => (Z.of_nat n * Second)%Z;
     headPodRunningAndReady := fun _ => true;
     headServiceURL := fun _ => "http://head-svc:8265";
     serveApplications := fun _ => apps;
     serveEndpoints := fun _ => [1];
     BuildHeadServiceForRayService := builtServiceFor "-head-svc" "dashboard:8265";
     BuildServeServiceForRayService := builtServiceFor "-serve-svc" "serve:8000";
     headPod := fun _ => Some headPodOfA |}.

Definition workerGroup (name : string) (replicas : Z) (image : string) : WorkerGroupSpec.t :=
  {| WorkerGroupSpec.GroupName := name;
     WorkerGroupSpec.Replicas := Some replicas;
     WorkerGroupSpec.MinReplicas := Some 0%Z;
     WorkerGroupSpec.MaxReplicas := Some 10%Z;
     WorkerGroupSpec.ScaleStrategy := {| ScaleStrategy.WorkersToDelete := [] |};
     WorkerGroupSpec.Template := image |}.

Definition clusterSpec (image : string) (groups : list WorkerGroupSpec.t) : RayClusterSpec.t :=
  {| RayClusterSpec.HeadGroupSpec :=
       {| HeadGroupSpec.HeadService := None; HeadGroupSpec.Template := image |};
     RayClusterSpec.WorkerGroupSpecs := groups;
     RayClusterSpec.RayVersion := "2.9.0" |}.

Definition statusOf (serviceStatus active pending : string) : RayServiceStatuses.t :=
  {| RayServiceStatuses.ActiveServiceStatus :=
       {| RayServiceStatus.Applications := ∅;
          RayServiceStatus.RayClusterName := active;
          RayServiceStatus.RayClusterStatus := RayClusterStatus.zero |};
     RayServiceStatuses.PendingServiceStatus :=
       {| RayServiceStatus.Applications := ∅;
          RayServiceStatus.RayClusterName := pending;
          RayServiceStatus.RayClusterStatus := RayClusterStatus.zero |};
     RayServiceStatuses.ServiceStatus := serviceStatus;
     RayServiceStatuses.NumServeEndpoints := 0%Z;
     RayServiceStatuses.ObservedGeneration := 0%Z;
     RayServiceStatuses.LastUpdateTime := None |}.

(** The RayService [svc/a] with the given cluster spec, Serve config and status. *)
Definition serviceA (spec : RayClusterSpec.t) (serveConfig : string)
    (status : RayServiceStatuses.t) : RayService.t :=
  {| RayService.Name := "a"; RayService.Namespace := "svc";
     RayService.Labels := ∅; RayService.Annotations := ∅;
     RayService.Generation := 1%Z;
     RayService.Spec :=
       {| RayServiceSpec.RayClusterSpec := spec;
          RayServiceSpec.ServeConfigV2 := serveConfig;
          RayServiceSpec.UpgradeStrategy := None;
          RayServiceSpec.ExcludeHeadPodFromServeSvc := false |};
     RayService.Status := status |}.

(** A cluster of [svc/a] with the given name, spec and annotations. *)
Definition clusterOfA (name : string) (spec : RayClusterSpec.t)
    (annotations : gmap string string) : RayCluster.t :=
  {| RayCluster.Name := name; RayCluster.Namespace := "svc";
     RayCluster.Labels :=
       <[RayOriginatedFromCRDLabelKey := RayServiceCRD]>
         (<[RayOriginatedFromCRNameLabelKey := "a"]> ∅);
     RayCluster.Annotations := annotations;
     RayCluster.OwnerReferences :=
       [{| OwnerReference.Name := "a"; OwnerReference.Controller := true |}];
     RayCluster.Spec := spec;
     RayCluster.Status := RayClusterStatus.zero |}.

Definition worldOf (rayServices : list RayService.t) (clusters : list RayCluster.t) : World :=
  {| rayServices := list_to_map (map (fun s => (serviceKey s, s)) rayServices);
     rayClusters := list_to_map (map (fun c => (clusterKey c, c)) clusters);
     services := ∅;
     ServeConfigs := lru.New 1000;
     RayClusterDeletionTimestamps := ∅;
     calls := [];
     position := 0 |}.

(** An image bump: the service asks for [img:v2] while the active cluster
    [a-raycluster-1] was created from [img:v1]. *)
Definition specV1 : RayClusterSpec.t := clusterSpec "img:v1" [workerGroup "g" 2 "img:v1"].
Definition specV2 : RayClusterSpec.t := clusterSpec "img:v2" [workerGroup "g" 2 "img:v2"].

Definition runningOnV1 : RayService.t :=
  serviceA specV2 "applications: []" (statusOf Running "a-raycluster-1" "").

Definition annotationsOf (X : Externals) (spec : RayClusterSpec.t) : gmap string string :=
  <[KubeRayVersion := KUBERAY_VERSION X]>
    (<[NumWorkerGroupsKey := Itoa (length (RayClusterSpec.WorkerGroupSpecs spec))]>
       (<[HashWithoutReplicasAndWorkersToDeleteKey :=
            fst (generateHashWithoutReplicasAndWorkersToDelete X spec)]> ∅)).

(** The active cluster as the controller created it, and the same cluster
    after its worker-group count annotation was removed. *)
Definition activeV1 : RayCluster.t :=
  clusterOfA "a-raycluster-1" specV1 (annotationsOf (quietRun ∅) specV1).
Definition activeV1WithoutCount : RayCluster.t :=
  clusterOfA "a-raycluster-1" specV1
    (delete NumWorkerGroupsKey (annotationsOf (quietRun ∅) specV1)).

(** The service runs on [a-raycluster-1]; the cluster [a-raycluster-0] it
    left behind was scheduled for deletion at the first clock reading, and
    a hundred readings have been taken since. *)
Definition runningOnV2 : RayService.t :=
  serviceA specV2 "applications: []" (statusOf Running "a-raycluster-1" "").

Definition worldWithDangling : World :=
  {| rayServices := {[ serviceKey runningOnV2 := runningOnV2 ]};
     rayClusters :=
       <[("svc", "a-raycluster-0") :=
           clusterOfA "a-raycluster-0" specV1 (annotationsOf (quietRun ∅) specV1)]>
         {[ ("svc", "a-raycluster-1") :=
              clusterOfA "a-raycluster-1" specV2 (annotationsOf (quietRun ∅) specV2) ]};
     services := ∅;
     ServeConfigs := lru.New 1000;
     RayClusterDeletionTimestamps := {[ "a-raycluster-0" := (60 * Second)%Z ]};
     calls := [];
     position := 100 |}.

(** One application, reported as running, on the dashboard. *)
Definition oneApp : gmap string ServeApplicationStatus.t :=
  {[ "app" := {| ServeApplicationStatus.Status := RUNNING;
                 ServeApplicationStatus.Message := "";
                 ServeApplicationStatus.Deployments := ∅ |} ]}.

(** The second tick of a cold start: the pending name has been generated,
    no cluster carries it yet. *)
Definition coldSecond : RayService.t :=
  serviceA specV1 "applications: []" (statusOf Restarting "" "a-raycluster-1").

(** The service settled on [a-raycluster-1], which was created from the
    spec the service asks for. *)
Definition settledOnV1 : RayService.t :=
  serviceA specV1 "applications: []" (statusOf Running "a-raycluster-1" "").

(** The error a run of [Reconcile] returned, when it returned. *)
Definition errorOf (r : Exec Reconciled) : option (option error) :=
  match r with
  | Returns res => Some (returnedError res)
  | Panics => None
  end.

(** A run like [quietRun] in which the head pod is never found ready. *)
Definition headNotReady : Externals :=
  {| GenerateJsonHash := encodingFingerprint;
     KUBERAY_VERSION := "v1.3.0";
     Getenv := fun _ => "";
     yamlToJSON := fun s => (s, None);
     RayClusterStatusConditions := false;
     GenerateRayClusterName := fun name n => name +:+ "-raycluster-" +:+ Itoa n;
     fault := fun _ => None;
     clock := fun n => (Z.of_nat n * Second)%Z;
     headPodRunningAndReady := fun _ => false;
     headServiceURL := fun _ => "http://head-svc:8265";
     serveApplications := fun _ => oneApp;
     serveEndpoints := fun _ => [1];
     BuildHeadServiceForRayService := builtServiceFor "-head-svc" "dashboard:8265";
     BuildServeServiceForRayService := builtServiceFor "-serve-svc" "serve:8000";
     headPod := fun _ => Some headPodOfA |}.

(** A service whose head service is given a name, which the validation
    refuses. *)
Definition namedHeadService : RayService.t :=
  serviceA
    {| RayClusterSpec.HeadGroupSpec :=
         {| HeadGroupSpec.HeadService := Some {| HeadService.Name := "my-head" |};
            HeadGroupSpec.Template := "img:v1" |};
       RayClusterSpec.WorkerGroupSpecs := [];
       RayClusterSpec.RayVersion := "2.9.0" |}
    "applications: []" (statusOf "" "" "").

(** The cluster [a-raycluster-1] with its worker-group count annotation
    overwritten by a negative number, and a service that asks for one more
    worker group than the cluster was built with. *)
Definition activeV1NegativeCount : RayCluster.t :=
  clusterOfA "a-raycluster-1" specV1
    (<[NumWorkerGroupsKey := "-1"]> (annotationsOf (quietRun ∅) specV1)).

Definition grownOnV1 : RayService.t :=
  serviceA (clusterSpec "img:v1" [workerGroup "g" 2 "img:v1"; workerGroup "h" 1 "img:v1"])
    "applications: []" (statusOf Running "a-raycluster-1" "").

(** The first tick of a cold start: the service has just been created and
    its status is empty. *)
Definition coldFirst : RayService.t :=
  serviceA specV1 "applications: []" (statusOf "" "" "").

(** A healthy proxy actor and an API server that accepts the update of
    the head pod. *)
Definition healthyProxy : HeadPod.Answers :=
  {| HeadPod.GetRayClusterHeadPod := (Some headPodOfA, None);
     HeadPod.CheckProxyActorHealth := None;
     HeadPod.Update := fun _ => None |}.

(** The head service of [svc/a] selecting the given cluster, the builders
    that produce it for the cluster they are given, and a store in which
    it selects [a-raycluster-1] and has been assigned a cluster IP. *)
Definition headServiceFor (cluster ip : string) : KubeService.Service :=
  {| KubeService.Name := "a-head-svc"; KubeService.Namespace := "svc";
     KubeService.OwnerReferences :=
       [{| OwnerReference.Name := "a"; OwnerReference.Controller := true |}];
     KubeService.Spec :=
       {| KubeService.Selector := {[ KubeService.RayClusterLabelKey := cluster ]};
          KubeService.ClusterIP := ip;
          KubeService.Ports := "dashboard:8265" |} |}.

Definition quietServices : KubeService.Answers :=
  {| KubeService.BuildHeadServiceForRayService :=
       fun _ c => (headServiceFor (RayCluster.Name c) "", None);
     KubeService.BuildServeServiceForRayService :=
       fun _ c => (headServiceFor (RayCluster.Name c) "", None);
     KubeService.getFault := None;
     KubeService.updateFault := None;
     KubeService.createFault := None |}.

Definition servicesOnV1 : KubeService.State :=
  {| KubeService.services :=
       {[ ("svc", "a-head-svc") := headServiceFor "a-raycluster-1" "10.0.0.7" ]};
     KubeService.sent := [] |}.

Definition pendingV2 : RayCluster.t :=
  clusterOfA "a-raycluster-2" specV2 (annotationsOf (quietRun ∅) specV2).

(** A head pod without containers, and a run in which another head pod
    is found. *)
Definition bareHeadPodOfA : HeadPod.Pod :=
  {| HeadPod.Name := "a-raycluster-1-head"; HeadPod.Namespace := "svc";
     HeadPod.Labels := {[ "ray.io/node-type" := "head" ]};
     HeadPod.Containers := [] |}.

Definition withHeadPodFound (found : nat -> option HeadPod.Pod) (X : Externals)
  : Externals :=
  {| GenerateJsonHash := GenerateJsonHash X;
     KUBERAY_VERSION := KUBERAY_VERSION X;
     Getenv := Getenv X;
     yamlToJSON := yamlToJSON X;
     RayClusterStatusConditions := RayClusterStatusConditions X;
     GenerateRayClusterName := GenerateRayClusterName X;
     fault := fault X;
     clock := clock X;
     headPodRunningAndReady := headPodRunningAndReady X;
     headServiceURL := headServiceURL X;
     serveApplications := serveApplications X;
     serveEndpoints := serveEndpoints X;
     BuildHeadServiceForRayService := BuildHeadServiceForRayService X;
     BuildServeServiceForRayService := BuildServeServiceForRayService X;
     headPod := found |}.

(** One application, reported as deploying, on the dashboard. *)
Definition deployingApp : gmap string ServeApplicationStatus.t :=
  {[ "app" := {| ServeApplicationStatus.Status := "DEPLOYING";
                 ServeApplicationStatus.Message := "";
                 ServeApplicationStatus.Deployments := ∅ |} ]}.

(** The same service and clusters in another namespace, and a world that
    holds, in the namespaces [svc] and [other], the service [a], its
    active cluster [a-raycluster-1] and a dangling cluster
    [a-raycluster-0]; nothing is scheduled for deletion. *)
Definition serviceIn (namespace : string) (s : RayService.t) : RayService.t :=
  {| RayService.Name := RayService.Name s; RayService.Namespace := namespace;
     RayService.Labels := RayService.Labels s;
     RayService.Annotations := RayService.Annotations s;
     RayService.Generation := RayService.Generation s;
     RayService.Spec := RayService.Spec s;
     RayService.Status := RayService.Status s |}.

Definition clusterIn (namespace : string) (c : RayCluster.t) : RayCluster.t :=
  {| RayCluster.Name := RayCluster.Name c; RayCluster.Namespace := namespace;
     RayCluster.Labels := RayCluster.Labels c;
     RayCluster.Annotations := RayCluster.Annotations c;
     RayCluster.OwnerReferences := RayCluster.OwnerReferences c;
     RayCluster.Spec := RayCluster.Spec c;
     RayCluster.Status := RayCluster.Status c |}.

Definition leftBehindV1 : RayCluster.t :=
  clusterOfA "a-raycluster-0" specV1 (annotationsOf (quietRun ∅) specV1).

Definition activeV2 : RayCluster.t :=
  clusterOfA "a-raycluster-1" specV2 (annotationsOf (quietRun ∅) specV2).

Definition twoNamespaces : World :=
  worldOf [runningOnV2; serviceIn "other" runningOnV2]
          [leftBehindV1; activeV2; clusterIn "other" leftBehindV1; clusterIn "other" activeV2].

(** The run [X] with another clock. *)
Definition withClock (readings : nat -> Time) (X : Externals) : Externals :=
  {| GenerateJsonHash := GenerateJsonHash X;
     KUBERAY_VERSION := KUBERAY_VERSION X;
     Getenv := Getenv X;
     yamlToJSON := yamlToJSON X;
     RayClusterStatusConditions := RayClusterStatusConditions X;
     GenerateRayClusterName := GenerateRayClusterName X;
     fault := fault X;
     clock := readings;
     headPodRunningAndReady := headPodRunningAndReady X;
     headServiceURL := headServiceURL X;
     serveApplications := serveApplications X;
     serveEndpoints := serveEndpoints X;
     BuildHeadServiceForRayService := BuildHeadServiceForRayService X;
     BuildServeServiceForRayService := BuildServeServiceForRayService X;
     headPod := headPod X |}.

(** A run like [quietRun] in which half a minute passes from one clock
    reading to the next. *)
Definition slowRun : Externals :=
  withClock (fun n => (Z.of_nat n * (30 * Second))%Z) (quietRun oneApp).

(** One application with one deployment, both reported as unhealthy, on
    the dashboard; and a status slot that records the same application and
    deployment as unhealthy, without health timestamps. *)
Definition unhealthyApp : gmap string ServeApplicationStatus.t :=
  {[ "app" := {| ServeApplicationStatus.Status := UNHEALTHY;
                 ServeApplicationStatus.Message := "";
                 ServeApplicationStatus.Deployments :=
                   {[ "d" := {| ServeDeploymentReport.Status := UNHEALTHY;
                                ServeDeploymentReport.Message := "" |} ]} |} ]}.

Definition unhealthyWithoutTimes : RayServiceStatus.t :=
  {| RayServiceStatus.Applications :=
       {[ "app" := {| AppStatus.Status := UNHEALTHY;
                      AppStatus.Message := "";
                      AppStatus.HealthLastUpdateTime := None;
                      AppStatus.Deployments :=
                        {[ "d" := {| ServeDeploymentStatus.Status := UNHEALTHY;
                                     ServeDeploymentStatus.Message := "";
                                     ServeDeploymentStatus.HealthLastUpdateTime := None |} ]} |} ]};
     RayServiceStatus.RayClusterName := "a-raycluster-1";
     RayServiceStatus.RayClusterStatus := RayClusterStatus.zero |}.

(** * Vocabulary of the properties *)

(** ** The canonical hash *)

(** Two worker groups that agree on everything but the fields the
    autoscaler changes. *)
Definition sameButScaling (g g' : WorkerGroupSpec.t) : Prop :=
  WorkerGroupSpec.GroupName g = WorkerGroupSpec.GroupName g'
  /\ WorkerGroupSpec.Template g = WorkerGroupSpec.Template g'.

(** [s'] is [s] with the [Replicas], [MinReplicas], [MaxReplicas] and
    [ScaleStrategy.WorkersToDelete] of each worker group changed at will. *)
Definition perturbed (s s' : RayClusterSpec.t) : Prop :=
  RayClusterSpec.HeadGroupSpec s = RayClusterSpec.HeadGroupSpec s'
  /\ RayClusterSpec.RayVersion s = RayClusterSpec.RayVersion s'
  /\ Forall2 sameButScaling (RayClusterSpec.WorkerGroupSpecs s)
                            (RayClusterSpec.WorkerGroupSpecs s').

(** ** The planner when no pending cluster is named *)

(** [Spec.UpgradeStrategy.Type], when both pointers are set. *)
Definition upgradeTypeOf (s : RayService.t) : option string :=
  match RayServiceSpec.UpgradeStrategy (RayService.Spec s) with
  | Some strategy => RayServiceUpgradeStrategy.Type_ strategy
  | None => None
  end.

(** ** The status diff *)

(** What the diff looks at in two deployment maps, two applications and two
    status slots, in the words of the specification. *)
Definition deploymentsDiffer (o n : gmap string ServeDeploymentStatus.t) : Prop :=
  dom o <> dom n
  \/ exists d x y, o !! d = Some x /\ n !! d = Some y
       /\ (ServeDeploymentStatus.Status x <> ServeDeploymentStatus.Status y
           \/ ServeDeploymentStatus.Message x <> ServeDeploymentStatus.Message y).

Definition applicationsDiffer (o n : gmap string AppStatus.t) : Prop :=
  dom o <> dom n
  \/ exists k a b, o !! k = Some a /\ n !! k = Some b
       /\ (AppStatus.Status a <> AppStatus.Status b
           \/ AppStatus.Message a <> AppStatus.Message b
           \/ deploymentsDiffer (AppStatus.Deployments a) (AppStatus.Deployments b)).

Definition slotsDiffer (o n : RayServiceStatus.t) : Prop :=
  RayServiceStatus.RayClusterName o <> RayServiceStatus.RayClusterName n
  \/ applicationsDiffer (RayServiceStatus.Applications o) (RayServiceStatus.Applications n).

(** Two statuses that differ at most in [HealthLastUpdateTime] fields, in
    the [RayClusterStatus] snapshots and in the bookkeeping fields
    [ObservedGeneration] and [LastUpdateTime]. *)
Definition deploymentAlike (x y : ServeDeploymentStatus.t) : Prop :=
  ServeDeploymentStatus.Status x = ServeDeploymentStatus.Status y
  /\ ServeDeploymentStatus.Message x = ServeDeploymentStatus.Message y.

Definition applicationAlike (a b : AppStatus.t) : Prop :=
  AppStatus.Status a = AppStatus.Status b
  /\ AppStatus.Message a = AppStatus.Message b
  /\ forall d, option_Forall2 deploymentAlike
                 (AppStatus.Deployments a !! d) (AppStatus.Deployments b !! d).

Definition slotAlike (o n : RayServiceStatus.t) : Prop :=
  RayServiceStatus.RayClusterName o = RayServiceStatus.RayClusterName n
  /\ forall k, option_Forall2 applicationAlike
                 (RayServiceStatus.Applications o !! k)
                 (RayServiceStatus.Applications n !! k).

Definition statusesAlike (o n : RayServiceStatuses.t) : Prop :=
  RayServiceStatuses.ServiceStatus o = RayServiceStatuses.ServiceStatus n
  /\ RayServiceStatuses.NumServeEndpoints o = RayServiceStatuses.NumServeEndpoints n
  /\ slotAlike (RayServiceStatuses.ActiveServiceStatus o)
               (RayServiceStatuses.ActiveServiceStatus n)
  /\ slotAlike (RayServiceStatuses.PendingServiceStatus o)
               (RayServiceStatuses.PendingServiceStatus n).

(** ** Reasoning about runs

    [wp m Q w]: running [m] from the world [w] ends with an outcome and a
    world that satisfy [Q]. *)
Definition wp {A : Type} (m : M A) (Q : Exec A -> World -> Prop) (w : World) : Prop :=
  Q (fst (m w)) (snd (m w)).

(** ** Serve status: readiness and health timestamps *)

(** The status recorded for a reported entry. *)
Definition recordedStatus (timeNow : Time) (prevApplications : gmap string AppStatus.t)
    (entry : string * ServeApplicationStatus.t) : AppStatus.t :=
  applicationStatusOf timeNow
    (default AppStatus.zero (prevApplications !! recordedName entry.1)) entry.2.

Definition isRunning (entry : string * ServeApplicationStatus.t) : bool :=
  String.eqb (ServeApplicationStatus.Status entry.2) RUNNING.

(** What the loop leaves under [name]: the status of the last entry walked
    that is recorded under it. *)
Fixpoint lastRecorded (timeNow : Time) (prevApplications : gmap string AppStatus.t)
    (l : list (string * ServeApplicationStatus.t)) (name : string)
    (acc : option AppStatus.t) : option AppStatus.t :=
  match l with
  | [] => acc
  | e :: l' =>
      lastRecorded timeNow prevApplications l' name
        (if decide (recordedName e.1 = name)
         then Some (recordedStatus timeNow prevApplications e) else acc)
  end.

(** ** The deletion grace of dangling clusters *)

(** A cluster name that is neither the active nor the pending one. *)
Definition dangling (rs : RayService.t) (name : string) : Prop :=
  name <> RayService.ActiveName rs /\ name <> RayService.PendingName rs.

(** Every scheduled deletion time is a clock reading taken earlier in the
    run, plus the deletion delay. *)
Definition scheduledFromClock (X : Externals) (w : World) : Prop :=
  forall name t, RayClusterDeletionTimestamps w !! name = Some t ->
    exists p, p < position w /\ t = (clock X p + RayClusterDeletionDelayDuration)%Z.

(** In the API server an object is stored under its own namespace and name. *)
Definition wellKeyed (w : World) : Prop :=
  forall key c, rayClusters w !! key = Some c -> clusterKey c = key.

(** A delete request of the collector, justified from the schedule as it
    was in [w]: the cluster is dangling, its scheduled time was on record,
    and a later clock reading of this call had passed it. *)
Definition justifiedDelete (X : Externals) (rs : RayService.t)
    (items : list RayCluster.t) (w w' : World) (c : Call) : Prop :=
  exists item t p,
    In item items
    /\ c = DeleteRayCluster (RayCluster.Namespace item) (RayCluster.Name item)
    /\ dangling rs (RayCluster.Name item)
    /\ RayClusterDeletionTimestamps w !! RayCluster.Name item = Some t
    /\ position w <= p < position w'
    /\ (t < clock X p)%Z.

(** What a walk of the collector over [items] does to the schedule and
    which requests it issues. *)
Definition collected (X : Externals) (rs : RayService.t) (items : list RayCluster.t)
    (w w' : World) : Prop :=
  position w <= position w'
  /\ (forall name,
        RayClusterDeletionTimestamps w' !! name = RayClusterDeletionTimestamps w !! name
        \/ (RayClusterDeletionTimestamps w !! name = None
            /\ In name (map RayCluster.Name items)
            /\ dangling rs name
            /\ exists p, position w <= p < position w'
                 /\ RayClusterDeletionTimestamps w' !! name
                    = Some (clock X p + RayClusterDeletionDelayDuration)%Z))
  /\ exists issued, calls w' = (calls w ++ issued)%list
       /\ Forall (justifiedDelete X rs items w w') issued.

(** ** What a run issues, and what it leaves in the instance *)

(** The requests issued between [w] and [w'] all satisfy [P]. *)
Definition issues (P : Call -> Prop) (w w' : World) : Prop :=
  exists issued, calls w' = (calls w ++ issued)%list /\ Forall P issued.

(** ** The Serve-config cache *)

(** The config text the cache holds for a service key and a cluster name;
    the empty text when it holds none. *)
Definition cachedConfig (w : World) (key name : string) : string :=
  match lru.find key (lru.entries (ServeConfigs w)) with
  | Some m => default "" (m !! name)
  | None => ""
  end.

(** The cache holds the same texts in [w'] as in [w]. *)
Definition sameCache (w w' : World) : Prop :=
  forall k n, cachedConfig w' k n = cachedConfig w k n.

(** ** What [reconcileServe] does to the instance *)

Definition withServiceStatus (v : string) (s : RayService.t) : RayService.t :=
  RayService.setStatus (RayServiceStatuses.setServiceStatus v (RayService.Status s)) s.

(** The instance with the applications of the slot [reconcileServe] works
    on replaced by [apps]. *)
Definition polled (isActive : bool) (apps : gmap string AppStatus.t) (s : RayService.t)
  : RayService.t :=
  setSlot isActive (RayServiceStatus.setApplications apps (getSlot isActive s)) s.

(** The instance as flushed when the Serve applications are not ready. *)
Definition notReadyWrite (isActive : bool) (s s' : RayService.t) : Prop :=
  exists apps, s' = withServiceStatus WaitForServeDeploymentReady (polled isActive apps s).

(** The instance as left when the Serve applications are ready. *)
Definition readyResult (isActive : bool) (s : RayService.t) (c : RayCluster.t)
    (s' : RayService.t) : Prop :=
  exists apps,
    s' = updateRayClusterInfo (withServiceStatus Running (polled isActive apps s))
           (RayCluster.Name c).

(** Every status update among the requests writes an instance in [S]. *)
Definition statusWriteOf (S : RayService.t -> Prop) (c : Call) : Prop :=
  match c with
  | UpdateStatus s => S s
  | _ => True
  end.

(** The outcome of the Serve reconciler on the instance [s]. *)
Definition served (isActive : bool) (s : RayService.t) (c : RayCluster.t)
    (r : Exec ((bool * option error) * RayService.t)) : Prop :=
  exists isReady e s', r = Returns ((isReady, e), s')
    /\ ((isReady = false /\ (s' = s \/ notReadyWrite isActive s s'))
        \/ (isReady = true /\ e = None /\ readyResult isActive s c s')).

(** ** The lifecycle step: requests and instance *)

(** A request about a RayCluster object. *)
Definition clusterRequest (c : Call) : Prop :=
  match c with
  | DeleteRayCluster _ _ | CreateRayCluster _ | UpdateRayCluster _ => True
  | UpdateStatus _ | UpdateDeployments _ _ | ServiceRequest _ | UpdatePod _
  | Event _ _ _ _ _ => False
  end.

(** The instance after [markRestartAndAddPendingClusterName]. *)
Definition restarted (s s' : RayService.t) : Prop :=
  exists name,
    s' = RayService.setStatus
           (RayServiceStatuses.setPending
              {| RayServiceStatus.Applications := ∅;
                 RayServiceStatus.RayClusterName := name;
                 RayServiceStatus.RayClusterStatus := RayClusterStatus.zero |}
              (RayServiceStatuses.setServiceStatus Restarting (RayService.Status s))) s.

(** ** The instance over a whole tick *)

Definition pendingSnapshot (s : RayService.t) : RayClusterStatus.t :=
  RayServiceStatus.RayClusterStatus
    (RayServiceStatuses.PendingServiceStatus (RayService.Status s)).

(** Before a promotion: the active name is the fetched one, and the pending
    slot holds the fetched snapshot of the cluster status, or none. *)
Definition steady (rs0 s : RayService.t) : Prop :=
  RayService.ActiveName s = RayService.ActiveName rs0
  /\ (pendingSnapshot s = pendingSnapshot rs0 \/ pendingSnapshot s = RayClusterStatus.zero).

(** After a promotion: the service is running and the pending slot is zero. *)
Definition promotedState (s : RayService.t) : Prop :=
  RayServiceStatuses.ServiceStatus (RayService.Status s) = Running
  /\ RayServiceStatuses.PendingServiceStatus (RayService.Status s) = RayServiceStatus.zero.

Definition tickInvariant (rs0 s : RayService.t) : Prop :=
  steady rs0 s \/ promotedState s.

(** What a tick leaves: requests whose status updates keep the invariant,
    and a final instance that keeps it and is steady unless the Serve
    applications were found ready. *)
Definition tickOutcome (rs0 : RayService.t) (w0 w' : World) (r : Exec Reconciled) : Prop :=
  issues (statusWriteOf (tickInvariant rs0)) w0 w'
  /\ match r with
     | Panics => True
     | Returns res =>
         match finalInstance res with
         | None => True
         | Some rsF =>
             tickInvariant rs0 rsF /\ (finalReady res = false -> steady rs0 rsF)
         end
     end.

(** ** Role transitions *)

(** The outcome of [reconcileServe] on [rs], by whether it promotes:
    promotion happens on a ready result for a cluster that does not carry
    the active name, and moves the pending slot as it then stands (with the
    applications just polled when the pending slot is the one worked on)
    into the active slot; otherwise both names stay, the active slot holds
    the status of the target cluster and the pending snapshot is kept. *)
Definition roleOutcome (rs : RayService.t) (c : RayCluster.t) (isActive isReady : bool)
    (rs' : RayService.t) : Prop :=
  (isReady = true
   /\ RayService.ActiveName rs <> RayCluster.Name c
   /\ (exists apps,
         getSlot true rs'
         = (if isActive then getSlot false rs
            else RayServiceStatus.setApplications apps (getSlot false rs)))
   /\ getSlot false rs' = RayServiceStatus.zero
   /\ RayServiceStatuses.ServiceStatus (RayService.Status rs') = Running)
  \/ ((isReady = false \/ RayService.ActiveName rs = RayCluster.Name c)
      /\ RayService.ActiveName rs' = RayService.ActiveName rs
      /\ RayService.PendingName rs' = RayService.PendingName rs
      /\ RayServiceStatus.RayClusterStatus (getSlot true rs') = RayCluster.Status c
      /\ pendingSnapshot rs' = pendingSnapshot rs
      /\ (isReady = true ->
          RayServiceStatuses.ServiceStatus (RayService.Status rs') = Running)).

(** ** Pushes of the Serve configuration *)

Definition isPush (c : Call) : bool :=
  match c with
  | UpdateDeployments _ _ => true
  | _ => false
  end.

(** The number of [UpdateDeployments] requests among [l]. *)
Definition pushes (l : list Call) : nat := length (List.filter isPush l).

(** Between [w] and [w'], [n] pushes were issued. *)
Definition pushedSince (n : nat) (w w' : World) : Prop :=
  exists issued, calls w' = (calls w ++ issued)%list /\ pushes issued = n.

(** The cache and the status slot let [checkIfNeedSubmitServeDeployment]
    skip the push: a text is cached for the cluster, the slot holds an
    application, and the cached text is the configured one. *)
Definition pushSettled (w : World) (rs : RayService.t) (name : string)
    (slot : RayServiceStatus.t) : Prop :=
  cachedConfig w (cacheKeyOf rs) name <> ""
  /\ RayServiceStatus.Applications slot <> ∅
  /\ cachedConfig w (cacheKeyOf rs) name
     = RayServiceSpec.ServeConfigV2 (RayService.Spec rs).

(** What a run of [reconcileServe] pushes, and what it leaves in the cache. *)
Definition pushOutcome (rs : RayService.t) (c : RayCluster.t) (isActive : bool)
    (w w' : World) (r : Exec ((bool * option error) * RayService.t)) : Prop :=
  exists isReady e rs', r = Returns ((isReady, e), rs')
    /\ ((pushedSince 0 w w' /\ sameCache w w')
        \/ (pushedSince 1 w w'
            /\ ~ pushSettled w rs (RayCluster.Name c) (getSlot isActive rs)
            /\ (e = None ->
                RayServiceSpec.ServeConfigV2 (RayService.Spec rs) <> "" ->
                cachedConfig w' (cacheKeyOf rs) (RayCluster.Name c)
                = RayServiceSpec.ServeConfigV2 (RayService.Spec rs)))).

(** ** Creation of the pending cluster *)

(** No request of the run fails. *)
Definition faultless (X : Externals) : Prop := forall n, fault X n = None.

(** No RayCluster is stored in [w'] under a key that was free in [w]. *)
Definition noneAdded (w w' : World) : Prop :=
  forall key, rayClusters w !! key = None -> rayClusters w' !! key = None.

(** Over the empty spec of an absent cluster the planner creates: the hash
    of the desired spec is computed and differs from that of the empty
    spec, and so does, when the desired spec has worker groups, the hash of
    the desired spec without them. *)
Definition createsOverEmpty (X : Externals) (desired : RayClusterSpec.t) : Prop :=
  compareRayClusterJsonHash RayClusterSpec.zero desired
    (generateHashWithoutReplicasAndWorkersToDelete X) = (false, None)
  /\ (RayClusterSpec.WorkerGroupSpecs desired <> [] ->
      compareRayClusterJsonHash RayClusterSpec.zero (setWorkerGroupSpecs [] desired)
        (generateHashWithoutReplicasAndWorkersToDelete X) = (false, None)).

(** ** The Serve reconciler before the dashboard is contacted *)

(** What [reconcileServe] finds out about the head pod: the HeadPodReady
    condition of the cluster when the RayClusterStatusConditions feature
    is on, otherwise the answer to its request for the head pod. *)
Definition headPodFoundReady (X : Externals) (c : RayCluster.t) (w : World) : bool :=
  if RayClusterStatusConditions X
  then IsStatusConditionTrue (RayClusterStatus.Conditions (RayCluster.Status c)) HeadPodReady
  else match fault X (position w) with
       | Some _ => false
       | None => headPodRunningAndReady X (position w)
       end.

(** The sum of the address counts of the subsets. *)
Definition totalAddresses (subsets : list nat) : Z :=
  fold_left (fun acc k => (acc + Z.of_nat k)%Z) subsets 0%Z.

(** ** The requests of a tick *)

(** At most one push of the Serve configuration. *)
Definition pushRequests (l : list Call) : Prop :=
  l = [] \/ exists url configJson, l = [UpdateDeployments url configJson].

(** At most one update of the status of the RayService. *)
Definition statusRequests (l : list Call) : Prop :=
  l = [] \/ exists s, l = [UpdateStatus s].

(** At most one request that changes a Service. *)
Definition serviceRequests (l : list Call) : Prop :=
  l = [] \/ exists r, l = [ServiceRequest r].

(** At most one update of the head pod. *)
Definition podRequests (l : list Call) : Prop :=
  l = [] \/ exists p, l = [UpdatePod p].

(** The requests of the network step: for the head service, for the head
    pod, for the serve service, in this order and at most one each. *)
Definition networkRequests (l : list Call) : Prop :=
  exists head pod serve,
    l = (head ++ pod ++ serve)%list
    /\ serviceRequests head /\ podRequests pod /\ serviceRequests serve.

(** The run finds, at some position, a head pod without containers. *)
Definition bareHeadPod (X : Externals) : Prop :=
  exists n p, fault X n = None /\ headPod X n = Some p /\ HeadPod.Containers p = [].

(** What the network step of a tick does: it changes Services and the
    head pod only, sends the requests for them, and panics only on a head
    pod without containers. *)
Definition networkOutcome (X : Externals) (w w' : World) (r : Exec (option error)) : Prop :=
  rayServices w' = rayServices w /\ rayClusters w' = rayClusters w
  /\ ServeConfigs w' = ServeConfigs w
  /\ RayClusterDeletionTimestamps w' = RayClusterDeletionTimestamps w
  /\ position w <= position w'
  /\ (exists sent, calls w' = (calls w ++ sent)%list /\ networkRequests sent)
  /\ (r = Panics -> bareHeadPod X).

(** The status update of the Serve reconciler: it marks the service as
    waiting and is issued only when the applications are not ready. *)
Definition waitingWrite (isReady : bool) (l : list Call) : Prop :=
  l = []
  \/ exists s, l = [UpdateStatus s]
       /\ RayServiceStatuses.ServiceStatus (RayService.Status s)
          = WaitForServeDeploymentReady
       /\ isReady = false.

(** The status update of a tick that the diff does not guard: the one of
    the Serve reconciler, which marks the service as waiting, or the one
    after the lifecycle step, issued while a pending cluster is named.  A
    tick that issues it does not find the Serve applications ready. *)
Definition unguardedWrite (r : Exec Reconciled) (l : list Call) : Prop :=
  l = []
  \/ exists s, l = [UpdateStatus s]
       /\ (RayServiceStatuses.ServiceStatus (RayService.Status s)
           = WaitForServeDeploymentReady
           \/ RayService.PendingName s <> "")
       /\ forall res, r = Returns res -> finalReady res = false.

(** The status update at the end of a tick, which the diff guards: it is
    issued only when the Serve applications were found ready and the diff
    reports the status as inconsistent with the one read. *)
Definition guardedWrite (rs0 : RayService.t) (r : Exec Reconciled) (l : list Call) : Prop :=
  l = []
  \/ exists s, l = [UpdateStatus s]
       /\ inconsistentRayServiceStatuses (RayService.Status rs0) (RayService.Status s) = true
       /\ exists res, r = Returns res /\ finalReady res = true.

(** The requests of a tick that read the instance [rs0] and ended with
    [r].  For a spec the validation refuses: one warning event.
    Otherwise: requests about RayClusters, at most one push, at most one
    unguarded status update, the requests of the network step, at most
    one guarded status update; and at most one status update in all. *)
Definition tickTrace (rs0 : RayService.t) (r : Exec Reconciled) (issued : list Call) : Prop :=
  match validateRayServiceSpec rs0 with
  | Some e =>
      issued = [Event (RayService.Namespace rs0) (RayService.Name rs0)
                  EventTypeWarning InvalidRayServiceSpec e]
  | None =>
      exists cluster pushed written network final,
        issued = (cluster ++ pushed ++ written ++ network ++ final)%list
        /\ Forall clusterRequest cluster
        /\ pushRequests pushed
        /\ unguardedWrite r written
        /\ networkRequests network
        /\ guardedWrite rs0 r final
        /\ (written = [] \/ final = [])
  end.

(** The order of the requests of a tick: one warning event and nothing
    else, or requests about RayClusters, then at most one push of the
    Serve configuration, then at most one status update, then at most one
    request for the head service, one update of the head pod and one
    request for the serve service, then at most one status update; and at
    most one status update in all. *)
Definition tickRequests (issued : list Call) : Prop :=
  (exists namespace name e,
     issued = [Event namespace name EventTypeWarning InvalidRayServiceSpec e])
  \/ exists cluster pushed written network final,
       issued = (cluster ++ pushed ++ written ++ network ++ final)%list
       /\ Forall clusterRequest cluster
       /\ pushRequests pushed
       /\ statusRequests written
       /\ networkRequests network
       /\ statusRequests final
       /\ (written = [] \/ final = []).

(** The worker-group count annotation of a cluster reads as a negative
    number. *)
Definition negativeCount (c : RayCluster.t) : Prop :=
  exists n, Atoi (lookupString (RayCluster.Annotations c) NumWorkerGroupsKey) = (n, None)
            /\ (n < 0)%Z.

(** Every RayCluster stored in [w'] was stored in [w], under the same key. *)
Definition onlyRemoved (w w' : World) : Prop :=
  forall key c, rayClusters w' !! key = Some c -> rayClusters w !! key = Some c.

(** ** What a tick leaves alone *)

(** [s] is [rs0] with another status, whose observed generation is the
    generation of [rs0]. *)
Definition statusOnly (rs0 s : RayService.t) : Prop :=
  RayService.setStatus (RayService.Status rs0) s = rs0
  /\ RayServiceStatuses.ObservedGeneration (RayService.Status s)
     = RayService.Generation rs0.

(** ** The serve label of the head pod *)

(** The value of the serve label: true when the proxy actor answered the
    health check and the head pod is not excluded from serving. *)
Definition serveLabelValue (A : HeadPod.Answers) (exclude : bool) : string :=
  if negb (notNil (HeadPod.CheckProxyActorHealth A)) && negb exclude
  then HeadPod.EnableRayClusterServingServiceTrue
  else HeadPod.EnableRayClusterServingServiceFalse.

(** The answers [A] with another pod found. *)
Definition withHeadPod (p : HeadPod.Pod) (A : HeadPod.Answers) : HeadPod.Answers :=
  {| HeadPod.GetRayClusterHeadPod := (Some p, None);
     HeadPod.CheckProxyActorHealth := HeadPod.CheckProxyActorHealth A;
     HeadPod.Update := HeadPod.Update A |}.

(** ** The Kubernetes services of a RayService *)

(** The cluster a service selects. *)
Definition selectedCluster (s : KubeService.Service) : string :=
  lookupString (KubeService.Selector (KubeService.Spec s)) KubeService.RayClusterLabelKey.

(** What the builder of the given type hands [reconcileServices]. *)
Definition builtService (A : KubeService.Answers) (rs : RayService.t) (c : RayCluster.t)
    (ty : KubeService.ServiceType) : option (KubeService.Service * option error) :=
  match ty with
  | KubeService.HeadService => Some (KubeService.BuildHeadServiceForRayService A rs c)
  | KubeService.ServingService => Some (KubeService.BuildServeServiceForRayService A rs c)
  | KubeService.OtherServiceType _ => None
  end.

(** No request of [reconcileServices] fails. *)
Definition noServiceFault (A : KubeService.Answers) : Prop :=
  KubeService.getFault A = None /\ KubeService.updateFault A = None
  /\ KubeService.createFault A = None.

(** ** The status with its health timestamps erased *)

Definition withoutDeploymentHealthTime (d : ServeDeploymentStatus.t)
  : ServeDeploymentStatus.t :=
  {| ServeDeploymentStatus.Status := ServeDeploymentStatus.Status d;
     ServeDeploymentStatus.Message := ServeDeploymentStatus.Message d;
     ServeDeploymentStatus.HealthLastUpdateTime := None |}.

Definition withoutApplicationHealthTimes (a : AppStatus.t) : AppStatus.t :=
  {| AppStatus.Status := AppStatus.Status a;
     AppStatus.Message := AppStatus.Message a;
     AppStatus.HealthLastUpdateTime := None;
     AppStatus.Deployments := withoutDeploymentHealthTime <$> AppStatus.Deployments a |}.

Definition withoutSlotHealthTimes (s : RayServiceStatus.t) : RayServiceStatus.t :=
  RayServiceStatus.setApplications
    (withoutApplicationHealthTimes <$> RayServiceStatus.Applications s) s.

(** The status with every [HealthLastUpdateTime] of its applications and
    deployments, in both slots, set to nil. *)
Definition withoutHealthTimes (st : RayServiceStatuses.t) : RayServiceStatuses.t :=
  RayServiceStatuses.setActive
    (withoutSlotHealthTimes (RayServiceStatuses.ActiveServiceStatus st))
    (RayServiceStatuses.setPending
       (withoutSlotHealthTimes (RayServiceStatuses.PendingServiceStatus st)) st).

(** The health timestamp recorded for an application in the active slot. *)
Definition activeHealthTime (name : string) (s : RayService.t) : option (option Time) :=
  AppStatus.HealthLastUpdateTime
    <$> RayServiceStatus.Applications
          (RayServiceStatuses.ActiveServiceStatus (RayService.Status s)) !! name.

(** ** The schedule of deletions over a run *)

(** Between [w0] and [w] the run went on, every scheduled deletion time
    stayed as it was, and the two invariants of the schedule were kept:
    clusters are stored under their own key, and scheduled times stem
    from clock readings of the run. *)
Definition graceKept (X : Externals) (w0 w : World) : Prop :=
  position w0 <= position w
  /\ (forall name t, RayClusterDeletionTimestamps w0 !! name = Some t ->
                     RayClusterDeletionTimestamps w !! name = Some t)
  /\ (wellKeyed w0 -> wellKeyed w)
  /\ (scheduledFromClock X w0 -> scheduledFromClock X w).

(** The delete requests among [l]. *)
Definition isDelete (c : Call) : bool :=
  match c with
  | DeleteRayCluster _ _ => true
  | _ => false
  end.

Definition deletes (l : list Call) : list Call := List.filter isDelete l.

(** ** Polling the active cluster *)

(** The dashboard of the cluster answers the poll that starts at the
    position of [w]: the URL of the head service is fetched and is not
    empty, the client is initialised, and the statuses are returned. *)
Definition dashboardAnswers (X : Externals) (w : World) : bool :=
  negb (notNil (fault X (position w)))
  && negb (String.eqb (headServiceURL X (position w)) "")
  && negb (notNil (fault X (S (position w))))
  && negb (notNil (fault X (S (S (position w))))).

(** The search of [reconcileServices] for a stored service of the name of
    [new] ends with NotFound. *)
Definition serviceNotFound (A : KubeService.Answers) (rs : RayService.t)
    (new : KubeService.Service) (st : KubeService.State) : Prop :=
  KubeService.getFault A = Some NotFound
  \/ (KubeService.getFault A = None
      /\ KubeService.services st !! (RayService.Namespace rs, KubeService.Name new) = None).

(** The stored service [old] with the spec of [new], its own cluster IP
    kept. *)
Definition switched (new old : KubeService.Service) : KubeService.Service :=
  KubeService.setSpec
    (KubeService.setClusterIP (KubeService.ClusterIP (KubeService.Spec old))
       (KubeService.Spec new)) old.

(** * Properties *)

(** ** The canonical hash *)

Lemma muteWorkerGroup_sameButScaling (g g' : WorkerGroupSpec.t) :
  sameButScaling g g' -> muteWorkerGroup g = muteWorkerGroup g'.
Proof.
  intros [Hn Ht]. unfold muteWorkerGroup. now rewrite Hn, Ht.
Qed.

Lemma map_muteWorkerGroup_perturbed (gs gs' : list WorkerGroupSpec.t) :
  Forall2 sameButScaling gs gs' -> map muteWorkerGroup gs = map muteWorkerGroup gs'.
Proof.
  induction 1 as [|g g' gs gs' Hg _ IH]; simpl.
  - reflexivity.
  - now rewrite (muteWorkerGroup_sameButScaling g g' Hg), IH.
Qed.

(** The canonical hash sees the same muted spec on both sides, whatever
    [utils.GenerateJsonHash] computes. *)
Lemma generateHash_perturbed (X : Externals) (s s' : RayClusterSpec.t) :
  perturbed s s' ->
  generateHashWithoutReplicasAndWorkersToDelete X s
  = generateHashWithoutReplicasAndWorkersToDelete X s'.
Proof.
  intros (Hh & Hv & Hg).
  unfold generateHashWithoutReplicasAndWorkersToDelete, setWorkerGroupSpecs.
  now rewrite Hh, Hv, (map_muteWorkerGroup_perturbed _ _ Hg).
Qed.

(** C9. For every cluster spec [s] and every [s'] obtained from it by
    changing the [Replicas], [MinReplicas], [MaxReplicas] and
    [ScaleStrategy.WorkersToDelete] of its worker groups at will, the two
    canonical hashes are equal whenever both computations succeed; and
    [compareRayClusterJsonHash] then reports them as the same. *)
Theorem canonical_hash_stable (X : Externals) (s s' : RayClusterSpec.t) (h h' : string) :
  perturbed s s' ->
  generateHashWithoutReplicasAndWorkersToDelete X s = (h, None) ->
  generateHashWithoutReplicasAndWorkersToDelete X s' = (h', None) ->
  h = h'
  /\ compareRayClusterJsonHash s s' (generateHashWithoutReplicasAndWorkersToDelete X)
     = (true, None).
Proof.
  intros Hp Hs Hs'.
  pose proof (generateHash_perturbed X s s' Hp) as Heq.
  rewrite Hs, Hs' in Heq.
  assert (h = h') as -> by congruence.
  split; [reflexivity|].
  unfold compareRayClusterJsonHash. rewrite Hs, Hs'.
  now rewrite String.eqb_refl.
Qed.

Lemma canonical_hash_stable_witness :
  let X := quietRun ∅ in
  let s := clusterSpec "img:v1" [workerGroup "g" 2 "img:v1"] in
  let s' := clusterSpec "img:v1" [workerGroup "g" 5 "img:v1"] in
  fst (generateHashWithoutReplicasAndWorkersToDelete X s)
  = fst (generateHashWithoutReplicasAndWorkersToDelete X s')
  /\ compareRayClusterJsonHash s s' (generateHashWithoutReplicasAndWorkersToDelete X)
     = (true, None).
Proof.
  apply (canonical_hash_stable (quietRun ∅)
           (clusterSpec "img:v1" [workerGroup "g" 2 "img:v1"])
           (clusterSpec "img:v1" [workerGroup "g" 5 "img:v1"])).
  - repeat split; repeat constructor.
  - reflexivity.
  - reflexivity.
Defined.

(** ** The planner when no pending cluster is named *)

Lemma validated_upgradeType (s : RayService.t) (ty : string) :
  validateRayServiceSpec s = None -> upgradeTypeOf s = Some ty ->
  ty = UpgradeNone \/ ty = NewCluster.
Proof.
  unfold validateRayServiceSpec, upgradeTypeOf.
  destruct (RayServiceSpec.UpgradeStrategy (RayService.Spec s)) as [[[ty'|]]|];
    simpl; intros Hv Hty; try discriminate.
  injection Hty as Hty. subst ty'.
  destruct (match HeadGroupSpec.HeadService _ with Some _ => _ | None => _ end);
    [discriminate|].
  destruct (String.eqb_spec ty UpgradeNone) as [E|_]; [now left|].
  destruct (String.eqb_spec ty NewCluster) as [E|_]; [now right|].
  discriminate.
Qed.

(** On a validated spec zero-downtime upgrade is off exactly when the type
    is set to [None], or when it is unset and the environment says "false". *)
Lemma zeroDowntime_validated (X : Externals) (s : RayService.t) :
  validateRayServiceSpec s = None ->
  (forall ty, upgradeTypeOf s = Some ty ->
     (isZeroDowntimeUpgradeEnabled X s = true <-> ty <> UpgradeNone))
  /\ (upgradeTypeOf s = None ->
      (isZeroDowntimeUpgradeEnabled X s = true
       <-> ToLower (Getenv X ENABLE_ZERO_DOWNTIME) <> "false")).
Proof.
  intros Hv. split.
  - intros ty Hty.
    pose proof (validated_upgradeType s ty Hv Hty) as Hcases.
    unfold isZeroDowntimeUpgradeEnabled, upgradeTypeOf in *.
    destruct (RayServiceSpec.UpgradeStrategy (RayService.Spec s)) as [[[ty'|]]|];
      simpl in *; try discriminate.
    injection Hty as Hty. subst ty'.
    destruct Hcases as [Hc | Hc]; subst ty; simpl; split;
      solve [congruence | discriminate | intros _; discriminate].
  - unfold isZeroDowntimeUpgradeEnabled, upgradeTypeOf.
    destruct (RayServiceSpec.UpgradeStrategy (RayService.Spec s)) as [[[ty'|]]|];
      simpl; try discriminate; intros _;
      destruct (String.eqb_spec (ToLower (Getenv X ENABLE_ZERO_DOWNTIME)) "false");
      split; congruence.
Qed.

(** Replaces a comparison of strings by its value, from an equation or an
    inequation among the hypotheses. *)
Ltac decide_eqb :=
  repeat match goal with
  | H : ?a = ?b |- context [String.eqb ?a ?b] =>
      rewrite (proj2 (String.eqb_eq a b) H)
  | H : ?a <> ?b |- context [String.eqb ?a ?b] =>
      rewrite (proj2 (String.eqb_neq a b) H)
  | |- context [String.eqb ?a ?a] => rewrite (String.eqb_refl a)
  end.

Lemma sliceTo_in_range {A : Type} (l : list A) (n : Z) :
  (0 <= n)%Z -> (n <= Z.of_nat (length l))%Z ->
  sliceTo l n = Returns (take (Z.to_nat n) l).
Proof.
  intros H0 Hn. unfold sliceTo.
  destruct (Z.ltb_spec n 0); [lia|].
  destruct (Z.ltb_spec (Z.of_nat (length l)) n); [lia|].
  reflexivity.
Qed.

(** C2, as amended.  With no pending cluster named, an active cluster
    present and a validated spec, [decideClusterAction] returns
    [UpdateActiveCluster] when the stored KubeRay version differs from the
    operator's; otherwise [DoNothing] when the canonical hash of the desired
    spec cannot be computed or equals the stored hash; otherwise [DoNothing]
    when the stored worker-group count does not parse; otherwise, when the
    desired spec has strictly more worker groups than the stored count,
    [DoNothing] when the hash of the truncated spec cannot be computed and
    [UpdateActiveCluster] when it equals the stored hash; otherwise
    [GeneratePendingClusterName] if zero-downtime upgrade is enabled and
    [DoNothing] if not.  Zero-downtime upgrade is enabled unless the upgrade
    type is set to [None], or it is unset and the environment variable is
    "false" in any case. *)
Theorem planner_without_pending (X : Externals) (rs : RayService.t)
    (active : RayCluster.t) (pending : option RayCluster.t) :
  RayService.PendingName rs = "" ->
  validateRayServiceSpec rs = None ->
  (forall n, Atoi (lookupString (RayCluster.Annotations active) NumWorkerGroupsKey) = (n, None) ->
             (0 <= n)%Z) ->
  let desired := RayServiceSpec.RayClusterSpec (RayService.Spec rs) in
  let groups := RayClusterSpec.WorkerGroupSpecs desired in
  let version := lookupString (RayCluster.Annotations active) KubeRayVersion in
  let stored :=
    lookupString (RayCluster.Annotations active) HashWithoutReplicasAndWorkersToDeleteKey in
  let count := Atoi (lookupString (RayCluster.Annotations active) NumWorkerGroupsKey) in
  let act := decideClusterAction X rs (Some active) pending in
  let rollout :=
    if isZeroDowntimeUpgradeEnabled X rs then GeneratePendingClusterName else DoNothing in
  (version <> KUBERAY_VERSION X -> act = Returns UpdateActiveCluster)
  /\ (version = KUBERAY_VERSION X ->
      forall goal,
        (forall e, generateHashWithoutReplicasAndWorkersToDelete X desired = (goal, Some e) ->
                   act = Returns DoNothing)
        /\ (generateHashWithoutReplicasAndWorkersToDelete X desired = (goal, None) ->
            (stored = goal -> act = Returns DoNothing)
            /\ (stored <> goal ->
                forall n,
                  (forall e, count = (n, Some e) -> act = Returns DoNothing)
                  /\ (count = (n, None) ->
                      ((Z.of_nat (length groups) <= n)%Z -> act = Returns rollout)
                      /\ ((n < Z.of_nat (length groups))%Z ->
                          forall goal',
                            let truncated :=
                              generateHashWithoutReplicasAndWorkersToDelete X
                                (setWorkerGroupSpecs (take (Z.to_nat n) groups) desired) in
                            (forall e, truncated = (goal', Some e) -> act = Returns DoNothing)
                            /\ (truncated = (goal', None) -> stored = goal' ->
                                act = Returns UpdateActiveCluster)
                            /\ (truncated = (goal', None) -> stored <> goal' ->
                                act = Returns rollout))))))
  /\ (forall ty, upgradeTypeOf rs = Some ty ->
        (isZeroDowntimeUpgradeEnabled X rs = true <-> ty <> UpgradeNone))
  /\ (upgradeTypeOf rs = None ->
        (isZeroDowntimeUpgradeEnabled X rs = true
         <-> ToLower (Getenv X ENABLE_ZERO_DOWNTIME) <> "false")).
Proof.
  intros Hp Hv Hcount desired groups version stored count act rollout.
  split; [|split; [|exact (zeroDowntime_validated X rs Hv)]].
  - intros Hver. unfold act, decideClusterAction. rewrite Hp. simpl.
    fold version. now decide_eqb.
  - intros Hver goal.
    assert (Hact : act =
      let '(goalClusterHash, err) :=
        generateHashWithoutReplicasAndWorkersToDelete X desired in
      match err with
      | Some _ => Returns DoNothing
      | None =>
          if String.eqb stored goalClusterHash then Returns DoNothing
          else
            let '(n, err) := count in
            match err with
            | Some _ => Returns DoNothing
            | None =>
                if (n <? Z.of_nat (length groups))%Z then
                  match sliceTo groups n with
                  | Panics => Panics
                  | Returns stripped =>
                      let '(goal', err) :=
                        generateHashWithoutReplicasAndWorkersToDelete X
                          (setWorkerGroupSpecs stripped desired) in
                      match err with
                      | Some _ => Returns DoNothing
                      | None => if String.eqb stored goal' then Returns UpdateActiveCluster
                                else Returns rollout
                      end
                  end
                else Returns rollout
            end
      end).
    { unfold act, decideClusterAction. rewrite Hp. simpl. fold version.
      decide_eqb. simpl. fold desired stored count groups.
      destruct (generateHashWithoutReplicasAndWorkersToDelete X desired) as [g [e|]];
        [reflexivity|].
      destruct (String.eqb stored g); [reflexivity|].
      destruct count as [n [e|]]; [reflexivity|].
      destruct (n <? Z.of_nat (length groups))%Z;
        [|unfold rollout; now destruct (isZeroDowntimeUpgradeEnabled X rs)].
      destruct (sliceTo groups n); [|reflexivity].
      destruct (generateHashWithoutReplicasAndWorkersToDelete X _) as [g' [e|]];
        [reflexivity|].
      destruct (String.eqb stored g'); [reflexivity|].
      unfold rollout; now destruct (isZeroDowntimeUpgradeEnabled X rs). }
    rewrite Hact. clear Hact. split.
    + intros e ->. reflexivity.
    + intros ->. split.
      * intros Hs. now decide_eqb.
      * intros Hs n. decide_eqb. split.
        -- intros e ->. reflexivity.
        -- intros Hn. rewrite Hn. split.
           ++ intros Hle. destruct (Z.ltb_spec n (Z.of_nat (length groups))); [lia|].
              reflexivity.
           ++ intros Hlt goal' truncated.
              destruct (Z.ltb_spec n (Z.of_nat (length groups))); [|lia].
              rewrite sliceTo_in_range by (try lia; now apply Hcount).
              fold truncated. repeat split.
              ** intros e ->. reflexivity.
              ** intros -> Hs'. now decide_eqb.
              ** intros -> Hs'. now decide_eqb.
Qed.

Lemma planner_without_pending_witness :
  decideClusterAction (quietRun ∅) runningOnV1 (Some activeV1) None
  = Returns GeneratePendingClusterName.
Proof.
  pose proof (planner_without_pending (quietRun ∅) runningOnV1 activeV1 None) as H.
  simpl in H.
  destruct H as (_ & H & _).
  - reflexivity.
  - reflexivity.
  - intros n Hn. vm_compute in Hn. injection Hn as <-. lia.
  - destruct (H eq_refl
                (fst (generateHashWithoutReplicasAndWorkersToDelete (quietRun ∅) specV2)))
      as (_ & H1).
    destruct (H1 eq_refl) as (_ & H2).
    destruct (H2 ltac:(vm_compute; discriminate) 1%Z) as (_ & H3).
    destruct (H3 eq_refl) as (H4 & _).
    exact (H4 ltac:(vm_compute; discriminate)).
Defined.

(** The claim as stated promises [GeneratePendingClusterName] whenever the
    hashes differ, no worker group was appended and zero-downtime upgrade is
    enabled; with the count annotation unreadable the planner returns
    [DoNothing]. *)
Lemma planner_unparsable_count_counterexample :
  let X := quietRun ∅ in
  let stored :=
    lookupString (RayCluster.Annotations activeV1WithoutCount)
                 HashWithoutReplicasAndWorkersToDeleteKey in
  RayService.PendingName runningOnV1 = ""
  /\ lookupString (RayCluster.Annotations activeV1WithoutCount) KubeRayVersion
     = KUBERAY_VERSION X
  /\ String.eqb stored
       (fst (generateHashWithoutReplicasAndWorkersToDelete X
               (RayServiceSpec.RayClusterSpec (RayService.Spec runningOnV1)))) = false
  /\ isZeroDowntimeUpgradeEnabled X runningOnV1 = true
  /\ decideClusterAction X runningOnV1 (Some activeV1WithoutCount) None = Returns DoNothing.
Proof.
  vm_compute. repeat split.
Qed.

(** ** The status diff *)

Lemma existsb_map_to_list {A : Type} (f : string * A -> bool) (m : gmap string A) :
  existsb f (map_to_list m) = true <-> exists k v, m !! k = Some v /\ f (k, v) = true.
Proof.
  rewrite existsb_exists. split.
  - intros [[k v] [Hin Hf]]. exists k, v. split; [|exact Hf].
    now apply elem_of_map_to_list, list_elem_of_In.
  - intros (k & v & Hm & Hf). exists (k, v). split; [|exact Hf].
    now apply list_elem_of_In, elem_of_map_to_list.
Qed.

Lemma same_size_subdomain {A B : Type} (o : gmap string A) (n : gmap string B) :
  size o = size n -> (forall k, is_Some (n !! k) -> is_Some (o !! k)) -> dom o = dom n.
Proof.
  intros Hsize Hsub. symmetry. apply set_subseteq_size_eq.
  - intros k. rewrite !elem_of_dom. apply Hsub.
  - rewrite !size_dom. lia.
Qed.

Lemma inconsistentDeployments_false (o n : gmap string ServeDeploymentStatus.t) :
  inconsistentDeployments o n = false ->
  forall d y, n !! d = Some y ->
    exists x, o !! d = Some x
      /\ ServeDeploymentStatus.Status x = ServeDeploymentStatus.Status y
      /\ ServeDeploymentStatus.Message x = ServeDeploymentStatus.Message y.
Proof.
  intros Hf d y Hd.
  destruct (o !! d) as [x|] eqn:Ho.
  - exists x. split; [reflexivity|].
    destruct (String.eqb_spec (ServeDeploymentStatus.Status x) (ServeDeploymentStatus.Status y))
      as [Hs|Hs];
    destruct (String.eqb_spec (ServeDeploymentStatus.Message x) (ServeDeploymentStatus.Message y))
      as [Hm|Hm]; [now split|..];
    exfalso; apply not_true_iff_false in Hf; apply Hf;
    apply existsb_map_to_list; exists d, y; split; [exact Hd| |exact Hd| |exact Hd|];
    rewrite Ho; now decide_eqb.
  - exfalso. apply not_true_iff_false in Hf. apply Hf.
    apply existsb_map_to_list. exists d, y. split; [exact Hd|]. now rewrite Ho.
Qed.

Lemma deployments_diff (o n : gmap string ServeDeploymentStatus.t) :
  negb (size o =? size n)%nat || inconsistentDeployments o n = true
  <-> deploymentsDiffer o n.
Proof.
  rewrite orb_true_iff, negb_true_iff, Nat.eqb_neq. split.
  - intros [Hsize | Hex].
    + left. intros Hdom. apply Hsize. now rewrite <- !size_dom, Hdom.
    + apply existsb_map_to_list in Hex as (d & y & Hd & Hf).
      destruct (o !! d) as [x|] eqn:Ho.
      * right. exists d, x, y. repeat split; try assumption.
        destruct (String.eqb_spec (ServeDeploymentStatus.Status x)
                                  (ServeDeploymentStatus.Status y)); [|now left].
        destruct (String.eqb_spec (ServeDeploymentStatus.Message x)
                                  (ServeDeploymentStatus.Message y)); [|now right].
        discriminate.
      * left. intros Hdom.
        assert (d ∈ dom o) as Hin by (rewrite Hdom; apply elem_of_dom; eauto).
        apply elem_of_dom in Hin as [? Hin]. congruence.
  - intros Hdiff.
    destruct (Nat.eq_dec (size o) (size n)) as [Hsize|]; [right|now left].
    destruct (inconsistentDeployments o n) eqn:Hf; [reflexivity|exfalso].
    pose proof (inconsistentDeployments_false o n Hf) as Hall.
    destruct Hdiff as [Hdom | (d & x & y & Ho & Hn & Hxy)].
    + apply Hdom, same_size_subdomain; [exact Hsize|].
      intros k [y Hk]. destruct (Hall k y Hk) as (x & -> & _). eauto.
    + destruct (Hall d y Hn) as (x' & Ho' & Hs & Hm).
      assert (x' = x) as -> by congruence. destruct Hxy; contradiction.
Qed.

Lemma inconsistentApplication_true (o : gmap string AppStatus.t) (k : string)
    (b : AppStatus.t) :
  inconsistentApplication o (k, b) = true
  <-> o !! k = None
      \/ exists a, o !! k = Some a
           /\ (AppStatus.Status a <> AppStatus.Status b
               \/ AppStatus.Message a <> AppStatus.Message b
               \/ deploymentsDiffer (AppStatus.Deployments a) (AppStatus.Deployments b)).
Proof.
  unfold inconsistentApplication.
  destruct (o !! k) as [a|]; [|split; [now left|reflexivity]].
  destruct (String.eqb_spec (AppStatus.Status a) (AppStatus.Status b)) as [Hs|Hs]; simpl.
  2: { split; [intros _; right; exists a; split; [reflexivity|now left]|reflexivity]. }
  destruct (String.eqb_spec (AppStatus.Message a) (AppStatus.Message b)) as [Hm|Hm]; simpl.
  2: { split; [intros _; right; exists a; split; [reflexivity|now right; left]|reflexivity]. }
  pose proof (deployments_diff (AppStatus.Deployments a) (AppStatus.Deployments b)) as Hd.
  destruct (negb (size (AppStatus.Deployments a) =? size (AppStatus.Deployments b))%nat);
    simpl in Hd |- *.
  - split; [intros _|reflexivity]. right. exists a. split; [reflexivity|].
    right; right. now apply Hd.
  - rewrite Hd. split.
    + intros H. right. exists a. split; [reflexivity|]. now right; right.
    + intros [Hn | (a' & Ha & [H | [H | H]])]; [discriminate| | |];
        injection Ha as <-; try contradiction. exact H.
Qed.

Lemma applications_diff (o n : gmap string AppStatus.t) :
  negb (size o =? size n)%nat || existsb (inconsistentApplication o) (map_to_list n) = true
  <-> applicationsDiffer o n.
Proof.
  rewrite orb_true_iff, negb_true_iff, Nat.eqb_neq. split.
  - intros [Hsize | Hex].
    + left. intros Hdom. apply Hsize. now rewrite <- !size_dom, Hdom.
    + apply existsb_map_to_list in Hex as (k & b & Hk & Hf).
      apply inconsistentApplication_true in Hf as [Hnone | (a & Ha & Hab)].
      * left. intros Hdom.
        assert (k ∈ dom o) as Hin by (rewrite Hdom; apply elem_of_dom; eauto).
        apply elem_of_dom in Hin as [? Hin]. congruence.
      * right. exists k, a, b. auto.
  - intros Hdiff.
    destruct (Nat.eq_dec (size o) (size n)) as [Hsize|]; [right|now left].
    destruct (existsb (inconsistentApplication o) (map_to_list n)) eqn:Hf;
      [reflexivity|exfalso].
    assert (Hall : forall k b, n !! k = Some b ->
              inconsistentApplication o (k, b) = false).
    { intros k b Hk. apply not_true_iff_false. intros Ht.
      apply not_true_iff_false in Hf. apply Hf, existsb_map_to_list. eauto. }
    destruct Hdiff as [Hdom | (k & a & b & Ho & Hn & Hab)].
    + apply Hdom, same_size_subdomain; [exact Hsize|].
      intros k [b Hk]. specialize (Hall k b Hk).
      destruct (o !! k) as [a|] eqn:Ho; [eauto|].
      apply not_true_iff_false in Hall. exfalso. apply Hall.
      apply inconsistentApplication_true. now left.
    + specialize (Hall k b Hn). apply not_true_iff_false in Hall. apply Hall.
      apply inconsistentApplication_true. right. eauto.
Qed.

Lemma inconsistentRayServiceStatus_spec (o n : RayServiceStatus.t) :
  inconsistentRayServiceStatus o n = true <-> slotsDiffer o n.
Proof.
  unfold inconsistentRayServiceStatus, slotsDiffer.
  pose proof (applications_diff (RayServiceStatus.Applications o)
                                (RayServiceStatus.Applications n)) as Ha.
  destruct (String.eqb_spec (RayServiceStatus.RayClusterName o)
                            (RayServiceStatus.RayClusterName n)) as [Hn|Hn]; simpl.
  - destruct (negb (size (RayServiceStatus.Applications o)
                    =? size (RayServiceStatus.Applications n))%nat); simpl in Ha |- *.
    + split; [intros _; right; now apply Ha|reflexivity].
    + rewrite Ha. split; [now right|]. intros [H|H]; [contradiction|exact H].
  - split; [now left|reflexivity].
Qed.

Lemma alike_same_dom {A : Type} (R : A -> A -> Prop) (o n : gmap string A) :
  (forall k, option_Forall2 R (o !! k) (n !! k)) -> dom o = dom n.
Proof.
  intros H. apply set_eq. intros k. rewrite !elem_of_dom.
  specialize (H k). destruct H; split; intros [? ?]; try discriminate; eauto.
Qed.

Lemma deploymentsAlike_no_diff (o n : gmap string ServeDeploymentStatus.t) :
  (forall d, option_Forall2 deploymentAlike (o !! d) (n !! d)) -> ~ deploymentsDiffer o n.
Proof.
  intros H [Hdom | (d & x & y & Ho & Hn & Hxy)].
  - apply Hdom. now apply (alike_same_dom deploymentAlike).
  - specialize (H d). rewrite Ho, Hn in H. inversion H as [? ? [Hs Hm]|]; subst.
    destruct Hxy; contradiction.
Qed.

Lemma slotAlike_no_diff (o n : RayServiceStatus.t) : slotAlike o n -> ~ slotsDiffer o n.
Proof.
  intros [Hname Happs] [Hn | [Hdom | (k & a & b & Ho & Hb & Hab)]].
  - contradiction.
  - apply Hdom. now apply (alike_same_dom applicationAlike).
  - specialize (Happs k). rewrite Ho, Hb in Happs.
    inversion Happs as [? ? (Hs & Hm & Hd)|]; subst.
    destruct Hab as [H | [H | H]]; try contradiction.
    now apply (deploymentsAlike_no_diff _ _ Hd).
Qed.

Lemma inconsistentRayServiceStatuses_spec (o n : RayServiceStatuses.t) :
  inconsistentRayServiceStatuses o n = true
  <-> RayServiceStatuses.ServiceStatus o <> RayServiceStatuses.ServiceStatus n
      \/ RayServiceStatuses.NumServeEndpoints o <> RayServiceStatuses.NumServeEndpoints n
      \/ slotsDiffer (RayServiceStatuses.ActiveServiceStatus o)
                     (RayServiceStatuses.ActiveServiceStatus n)
      \/ slotsDiffer (RayServiceStatuses.PendingServiceStatus o)
                     (RayServiceStatuses.PendingServiceStatus n).
Proof.
  unfold inconsistentRayServiceStatuses.
  pose proof (inconsistentRayServiceStatus_spec
                (RayServiceStatuses.ActiveServiceStatus o)
                (RayServiceStatuses.ActiveServiceStatus n)) as Ha.
  pose proof (inconsistentRayServiceStatus_spec
                (RayServiceStatuses.PendingServiceStatus o)
                (RayServiceStatuses.PendingServiceStatus n)) as Hp.
  destruct (String.eqb_spec (RayServiceStatuses.ServiceStatus o)
                            (RayServiceStatuses.ServiceStatus n)) as [Hs|Hs]; simpl;
    [|split; [now left|reflexivity]].
  destruct (Z.eqb_spec (RayServiceStatuses.NumServeEndpoints o)
                       (RayServiceStatuses.NumServeEndpoints n)) as [He|He]; simpl;
    [|split; [now right; left|reflexivity]].
  destruct (inconsistentRayServiceStatus (RayServiceStatuses.ActiveServiceStatus o) _).
  - split; [intros _; right; right; left; now apply Ha|reflexivity].
  - destruct (inconsistentRayServiceStatus (RayServiceStatuses.PendingServiceStatus o) _).
    + split; [intros _; right; right; right; now apply Hp|reflexivity].
    + split; [discriminate|].
      intros [H | [H | [H | H]]]; try contradiction.
      * now apply Ha in H.
      * now apply Hp in H.
Qed.

Lemma inconsistent_ignores_LastUpdateTime (o n : RayServiceStatuses.t) (u : option Time) :
  inconsistentRayServiceStatuses o (RayServiceStatuses.setLastUpdateTime u n)
  = inconsistentRayServiceStatuses o n.
Proof. reflexivity. Qed.

(** ** Rules for reasoning about runs *)

Lemma wp_run {A : Type} (m : M A) (Q : Exec A -> World -> Prop) (w w' : World)
    (r : Exec A) :
  wp m Q w -> m w = (r, w') -> Q r w'.
Proof. unfold wp. intros H E. now rewrite E in H. Qed.

Lemma wp_ret {A : Type} (a : A) (Q : Exec A -> World -> Prop) (w : World) :
  Q (Returns a) w -> wp (ret a) Q w.
Proof. exact (fun H => H). Qed.

Lemma wp_panic {A : Type} (Q : Exec A -> World -> Prop) (w : World) :
  Q Panics w -> wp panic Q w.
Proof. exact (fun H => H). Qed.

Lemma wp_bind {A B : Type} (m : M A) (k : A -> M B) (Q : Exec B -> World -> Prop)
    (w : World) :
  wp m (fun r w1 => match r with
                    | Returns a => wp (k a) Q w1
                    | Panics => Q Panics w1
                    end) w ->
  wp (bind m k) Q w.
Proof.
  unfold wp, bind. destruct (m w) as [[a|] w1]; simpl; auto.
Qed.

Lemma wp_mono {A : Type} (m : M A) (Q Q' : Exec A -> World -> Prop) (w : World) :
  wp m Q w -> (forall r w', Q r w' -> Q' r w') -> wp m Q' w.
Proof. unfold wp. auto. Qed.

Lemma wp_gets {A : Type} (f : World -> A) (Q : Exec A -> World -> Prop) (w : World) :
  Q (Returns (f w)) w -> wp (gets f) Q w.
Proof. exact (fun H => H). Qed.

Lemma wp_modify (f : World -> World) (Q : Exec unit -> World -> Prop) (w : World) :
  Q (Returns tt) (f w) -> wp (modify f) Q w.
Proof. exact (fun H => H). Qed.

Lemma wp_next (Q : Exec nat -> World -> Prop) (w : World) :
  Q (Returns (position w)) (advance w) -> wp next Q w.
Proof. exact (fun H => H). Qed.

Lemma wp_liftExec {A : Type} (e : Exec A) (Q : Exec A -> World -> Prop) (w : World) :
  Q e w -> wp (liftExec e) Q w.
Proof. exact (fun H => H). Qed.

(** Projections of a changed world. *)
Ltac wsimpl :=
  cbn [position calls rayClusters rayServices services ServeConfigs
       RayClusterDeletionTimestamps advance record recordAll setRayClusters
       setRayServices setServices setServeConfigs setDeletionTimestamps fst snd] in *.

(** One step through the structure of a run. *)
Ltac wp_step :=
  cbv beta iota zeta delta [notNil orb andb negb];
  lazymatch goal with
  | |- wp (bind _ _) _ _ => apply wp_bind
  | |- wp (ret _) _ _ => apply wp_ret
  | |- wp panic _ _ => apply wp_panic
  | |- wp (gets _) _ _ => apply wp_gets
  | |- wp (modify _) _ _ => apply wp_modify
  | |- wp next _ _ => apply wp_next
  | |- wp (liftExec _) _ _ => apply wp_liftExec
  | |- wp (match ?x with _ => _ end) _ _ => destruct x eqn:?
  | |- wp (let '(_, _) := ?x in _) _ _ => destruct x eqn:?
  end.

Ltac wp_steps := repeat wp_step.

(** ** Serve status: readiness and health timestamps *)

Lemma checkApplication_fold (timeNow : Time) (prevApplications : gmap string AppStatus.t)
    (l : list (string * ServeApplicationStatus.t))
    (ready : bool) (m : gmap string AppStatus.t) :
  fold_left (checkApplication timeNow prevApplications) l (ready, m)
  = (ready && forallb isRunning l,
     fold_left (fun acc e => <[recordedName e.1 := recordedStatus timeNow prevApplications e]> acc) l m).
Proof.
  revert ready m. induction l as [|[k app] l IH]; intros ready m; simpl.
  - now rewrite andb_true_r.
  - rewrite IH. f_equal. unfold isRunning at 2. simpl.
    destruct (String.eqb (ServeApplicationStatus.Status app) RUNNING); simpl.
    + reflexivity.
    + now rewrite andb_false_r.
Qed.

Lemma recorded_fold_nonempty (timeNow : Time) (prevApplications : gmap string AppStatus.t)
    (l : list (string * ServeApplicationStatus.t))
    (m : gmap string AppStatus.t) :
  m <> ∅ \/ l <> [] ->
  fold_left (fun acc e => <[recordedName e.1 := recordedStatus timeNow prevApplications e]> acc) l m <> ∅.
Proof.
  revert m. induction l as [|e l IH]; intros m H; simpl.
  - now destruct H.
  - apply IH. left. apply insert_non_empty.
Qed.

Lemma recorded_fold_lookup (timeNow : Time) (prevApplications : gmap string AppStatus.t)
    (l : list (string * ServeApplicationStatus.t))
    (m : gmap string AppStatus.t) (name : string) :
  fold_left (fun acc e => <[recordedName e.1 := recordedStatus timeNow prevApplications e]> acc) l m !! name
  = lastRecorded timeNow prevApplications l name (m !! name).
Proof.
  revert m. induction l as [|e l IH]; intros m; simpl; [reflexivity|].
  rewrite IH. f_equal. rewrite lookup_insert. now destruct (decide _).
Qed.

Lemma lastRecorded_app (timeNow : Time) (prevApplications : gmap string AppStatus.t)
    (l1 l2 : list (string * ServeApplicationStatus.t)) (name : string)
    (acc : option AppStatus.t) :
  lastRecorded timeNow prevApplications (l1 ++ l2) name acc = lastRecorded timeNow prevApplications l2 name (lastRecorded timeNow prevApplications l1 name acc).
Proof.
  revert acc. induction l1 as [|e l1 IH]; intros acc; simpl; [reflexivity|apply IH].
Qed.

Lemma lastRecorded_origin (timeNow : Time) (prevApplications : gmap string AppStatus.t)
    (l : list (string * ServeApplicationStatus.t)) (name : string)
    (acc : option AppStatus.t) (st : AppStatus.t) :
  lastRecorded timeNow prevApplications l name acc = Some st ->
  acc = Some st \/ exists e, In e l /\ recordedName e.1 = name /\ st = recordedStatus timeNow prevApplications e.
Proof.
  revert acc. induction l as [|e l IH]; intros acc H; simpl in *; [now left|].
  apply IH in H as [H | (e' & Hin & Hn & Hs)].
  - destruct (decide (recordedName e.1 = name)) as [Heq|Hne]; [|now left].
    right. exists e. split; [now left|]. split; [exact Heq|congruence].
  - right. exists e'. auto.
Qed.

Lemma lastRecorded_stable (timeNow : Time) (prevApplications : gmap string AppStatus.t)
    (l : list (string * ServeApplicationStatus.t)) (name : string)
    (st : AppStatus.t) :
  (forall e, In e l -> recordedName e.1 = name -> recordedStatus timeNow prevApplications e = st) ->
  lastRecorded timeNow prevApplications l name (Some st) = Some st.
Proof.
  induction l as [|e l IH]; intros H; simpl; [reflexivity|].
  destruct (decide (recordedName e.1 = name)) as [Heq|Hne].
  - rewrite (H e (or_introl eq_refl) Heq). apply IH. intros e' He'. apply H. now right.
  - apply IH. intros e' He'. apply H. now right.
Qed.

Lemma lastRecorded_unique (timeNow : Time) (prevApplications : gmap string AppStatus.t)
    (l : list (string * ServeApplicationStatus.t))
    (e : string * ServeApplicationStatus.t) (acc : option AppStatus.t) :
  In e l ->
  (forall e', In e' l -> recordedName e'.1 = recordedName e.1 -> e' = e) ->
  lastRecorded timeNow prevApplications l (recordedName e.1) acc = Some (recordedStatus timeNow prevApplications e).
Proof.
  intros Hin Huniq. apply in_split in Hin as (l1 & l2 & ->).
  rewrite lastRecorded_app. simpl. rewrite decide_True by reflexivity.
  apply lastRecorded_stable. intros e' He' Hn.
  rewrite (Huniq e'); [reflexivity| |exact Hn].
  apply in_or_app. right. now right.
Qed.

Lemma checkServeStatuses_ready (timeNow : Time) (prevApplications : gmap string AppStatus.t)
    (apps : gmap string ServeApplicationStatus.t) :
  fst (checkServeStatuses timeNow prevApplications apps) = true
  <-> apps <> ∅
      /\ forall name app, apps !! name = Some app -> ServeApplicationStatus.Status app = RUNNING.
Proof.
  unfold checkServeStatuses. rewrite checkApplication_fold. simpl.
  assert (Hall : forallb isRunning (map_to_list apps) = true
                 <-> forall name app, apps !! name = Some app ->
                       ServeApplicationStatus.Status app = RUNNING).
  { rewrite forallb_forall. split.
    - intros H name app Hk. apply String.eqb_eq.
      apply (H (name, app)). now apply list_elem_of_In, elem_of_map_to_list.
    - intros H [name app] Hin. apply String.eqb_eq, (H name).
      now apply elem_of_map_to_list, list_elem_of_In. }
  destruct (decide (apps = ∅)) as [-> | Hne].
  - rewrite map_to_list_empty. simpl. rewrite map_size_empty. simpl.
    split; [discriminate|]. now intros [H _].
  - pose proof (recorded_fold_nonempty timeNow prevApplications (map_to_list apps) ∅) as Hn.
    match goal with |- context [(size ?m =? 0)%nat] =>
      destruct (Nat.eqb_spec (size m) 0) as [Hz|Hz]; simpl end.
    + exfalso. apply map_size_empty_iff in Hz. revert Hz. apply Hn. right.
      now rewrite map_to_list_empty_iff.
    + rewrite Hall. split; [now split|now intros [_ H]].
Qed.

(** C6. [getAndCheckServeStatus] reports readiness exactly when the
    dashboard reports at least one Serve application and the status of every
    reported application is [RUNNING]; with no application reported it
    reports not ready, and so it does when the dashboard cannot be asked. *)
Theorem serve_readiness (X : Externals) (dashboardClient : string)
    (slot : RayServiceStatus.t) (w : World) :
  let apps := serveApplications X (position w) in
  let outcome := fst (getAndCheckServeStatus X dashboardClient slot w) in
  match fault X (position w) with
  | Some _ => exists e, outcome = Returns ((false, Some e), slot)
  | None =>
      exists isReady slot', outcome = Returns ((isReady, None), slot')
        /\ (isReady = true
            <-> apps <> ∅
                /\ forall name app, apps !! name = Some app ->
                     ServeApplicationStatus.Status app = RUNNING)
        /\ (apps = ∅ -> isReady = false)
  end.
Proof.
  intros apps outcome. unfold outcome, getAndCheckServeStatus, GetMultiApplicationStatus,
    Now, bind, ret, next. simpl.
  destruct (fault X (position w)) as [e|]; simpl; [eauto|].
  fold apps.
  pose proof (checkServeStatuses_ready (clock X (S (position w)))
                (RayServiceStatus.Applications slot) apps) as Hr.
  destruct (checkServeStatuses _ _ apps) as [isReady newApplications]. simpl in *.
  exists isReady, (RayServiceStatus.setApplications newApplications slot).
  split; [reflexivity|]. split; [exact Hr|].
  intros Hempty. destruct isReady; [|reflexivity].
  destruct (proj1 Hr eq_refl) as [Hne _]. contradiction.
Qed.

Lemma fold_insert_lookup {A B : Type} (f : string -> A -> B) (l : list (string * A))
    (acc : gmap string B) (d : string) :
  NoDup l.*1 ->
  fold_left (fun m e => <[fst e := f (fst e) (snd e)]> m) l acc !! d
  = match (list_to_map l : gmap string A) !! d with
    | Some v => Some (f d v)
    | None => acc !! d
    end.
Proof.
  revert acc. induction l as [|[k v] l IH]; intros acc Hnd; simpl; [reflexivity|].
  apply NoDup_cons in Hnd as [Hk Hnd]. rewrite IH by exact Hnd.
  destruct (decide (k = d)) as [->|Hne].
  - rewrite lookup_insert_eq. rewrite (not_elem_of_list_to_map_1 _ _ Hk).
    now rewrite lookup_insert_eq.
  - rewrite (lookup_insert_ne (list_to_map l)) by exact Hne.
    destruct (list_to_map l !! d); [reflexivity|].
    now rewrite lookup_insert_ne.
Qed.

Lemma applicationStatusOf_deployments (timeNow : Time) (prev : AppStatus.t)
    (app : ServeApplicationStatus.t) (d : string) :
  AppStatus.Deployments (applicationStatusOf timeNow prev app) !! d
  = deploymentStatusOf timeNow (AppStatus.Deployments prev) d
      <$> ServeApplicationStatus.Deployments app !! d.
Proof.
  unfold applicationStatusOf. simpl.
  rewrite (fold_insert_lookup (deploymentStatusOf timeNow (AppStatus.Deployments prev)))
    by apply NoDup_fst_map_to_list.
  rewrite list_to_map_to_list, lookup_empty.
  now destruct (ServeApplicationStatus.Deployments app !! d).
Qed.

Lemma unhealthy_set (s : string) :
  isServeAppUnhealthyOrDeployedFailed s = true <-> s = UNHEALTHY \/ s = DEPLOY_FAILED.
Proof.
  unfold isServeAppUnhealthyOrDeployedFailed.
  now rewrite orb_true_iff, !String.eqb_eq.
Qed.



(** ** The deletion grace of dangling clusters *)

Lemma collected_refl (X : Externals) (rs : RayService.t) (items : list RayCluster.t)
    (w : World) : collected X rs items w w.
Proof.
  split; [lia|]. split; [now left|].
  exists []. split; [now rewrite app_nil_r|constructor].
Qed.

(** The head of the list changed the schedule at most under its own name,
    and issued [issued]; the rest was then walked from [w1]. *)
Lemma collected_cons (X : Externals) (rs : RayService.t) (c : RayCluster.t)
    (rest : list RayCluster.t) (w w1 w' : World) (issued : list Call) :
  ~ In (RayCluster.Name c) (map RayCluster.Name rest) ->
  position w <= position w1 ->
  calls w1 = (calls w ++ issued)%list ->
  (forall name, name <> RayCluster.Name c ->
     RayClusterDeletionTimestamps w1 !! name = RayClusterDeletionTimestamps w !! name) ->
  (RayClusterDeletionTimestamps w1 !! RayCluster.Name c
   = RayClusterDeletionTimestamps w !! RayCluster.Name c
   \/ (RayClusterDeletionTimestamps w !! RayCluster.Name c = None
       /\ dangling rs (RayCluster.Name c)
       /\ exists p, position w <= p < position w1
            /\ RayClusterDeletionTimestamps w1 !! RayCluster.Name c
               = Some (clock X p + RayClusterDeletionDelayDuration)%Z)) ->
  Forall (justifiedDelete X rs [c] w w1) issued ->
  collected X rs rest w1 w' ->
  collected X rs (c :: rest) w w'.
Proof.
  intros Hfresh Hpos Hcalls Hother Hown Hissued (Hpos' & Hsched & issued' & Hcalls' & Hjust).
  split; [lia|]. split.
  - intros name. destruct (decide (name = RayCluster.Name c)) as [->|Hne].
    + destruct (Hsched (RayCluster.Name c)) as [Heq | (_ & Hin & _)]; [|contradiction].
      destruct Hown as [Hown | (Hnone & Hd & p & Hp & Hset)];
        [left; now rewrite Heq|].
      right. split; [exact Hnone|]. split; [now left|]. split; [exact Hd|].
      exists p. split; [lia|now rewrite Heq].
    + destruct (Hsched name) as [Heq | (Hnone & Hin & Hd & p & Hp & Hset)].
      * left. now rewrite Heq, Hother.
      * right. rewrite <- Hother by exact Hne. split; [exact Hnone|].
        split; [now right|]. split; [exact Hd|]. exists p. split; [lia|exact Hset].
  - exists (issued ++ issued')%list. split; [now rewrite Hcalls', Hcalls, app_assoc|].
    apply Forall_app. split.
    + eapply Forall_impl; [exact Hissued|].
      intros call (item & t & p & Hin & -> & Hd & Ht & Hp & Hlt).
      destruct Hin as [<-|[]]. exists c, t, p.
      split; [now left|]. split; [reflexivity|]. split; [exact Hd|].
      split; [exact Ht|]. split; [lia|exact Hlt].
    + eapply Forall_impl; [exact Hjust|].
      intros call (item & t & p & Hin & -> & Hd & Ht & Hp & Hlt).
      exists item, t, p. split; [now right|]. split; [reflexivity|]. split; [exact Hd|].
      split; [|split; [lia|exact Hlt]].
      rewrite <- Hother; [exact Ht|].
      intros Heq. apply Hfresh. rewrite <- Heq. now apply in_map.
Qed.

Lemma dangling_test (rs : RayService.t) (name : string) :
  negb (String.eqb name (RayService.ActiveName rs))
  && negb (String.eqb name (RayService.PendingName rs)) = true
  <-> dangling rs name.
Proof.
  unfold dangling. rewrite andb_true_iff, !negb_true_iff, !String.eqb_neq. reflexivity.
Qed.

(** Closes the case of the head [c] of the walk: either the walk ended in
    the world of the goal, or it goes on over [rest]. *)
Ltac head_done X rs c rest w issued IH Hfresh :=
  lazymatch goal with
  | |- collected _ _ _ _ ?wf =>
      apply (collected_cons X rs c rest w wf wf issued);
      [exact Hfresh|..|apply collected_refl]
  | |- wp (cleanUpRayClusters _ _ _) _ ?w1 =>
      eapply wp_mono; [apply (IH w1)|];
      let r := fresh "r" in let w' := fresh "w'" in let Hc := fresh "Hc" in
      intros r w' Hc;
      apply (collected_cons X rs c rest w w1 w' issued); [exact Hfresh|..|exact Hc]
  end.

Lemma cleanUpRayClusters_collected (X : Externals) (rs : RayService.t)
    (items : list RayCluster.t) :
  List.NoDup (map RayCluster.Name items) ->
  forall w, wp (cleanUpRayClusters X rs items) (fun _ w' => collected X rs items w w') w.
Proof.
  induction items as [|c rest IH]; intros Hnd w; cbn [cleanUpRayClusters].
  - apply wp_ret, collected_refl.
  - simpl in Hnd. apply List.NoDup_cons_iff in Hnd as [Hfresh Hnd]. specialize (IH Hnd).
    destruct (negb (String.eqb (RayCluster.Name c) (RayService.ActiveName rs))
              && negb (String.eqb (RayCluster.Name c) (RayService.PendingName rs)))
      eqn:Hd.
    2: { head_done X rs c rest w (@nil Call) IH Hfresh; wsimpl; auto.
         now rewrite app_nil_r. }
    apply dangling_test in Hd.
    apply wp_bind, wp_gets.
    destruct (RayClusterDeletionTimestamps w !! RayCluster.Name c) as [t|] eqn:Ht.
    + unfold Now. do 4 wp_step.
      destruct (0 <? clock X (position w) - t)%Z eqn:Hpassed.
      * apply Z.ltb_lt in Hpassed. unfold Delete. wp_steps.
        all: head_done X rs c rest w
               [DeleteRayCluster (RayCluster.Namespace c) (RayCluster.Name c)] IH Hfresh;
          wsimpl; auto.
        all: constructor; [|constructor]; exists c, t, (position w); wsimpl;
          (split; [now left|]); (split; [reflexivity|]); (split; [exact Hd|]);
          (split; [exact Ht|]); split; lia.
      * head_done X rs c rest w (@nil Call) IH Hfresh; wsimpl; auto.
        now rewrite app_nil_r.
    + unfold Now. wp_steps.
      head_done X rs c rest w (@nil Call) IH Hfresh; wsimpl; auto.
      * now rewrite app_nil_r.
      * intros name Hne. now rewrite lookup_insert_ne.
      * right. split; [exact Ht|]. split; [exact Hd|].
        exists (position w). split; [lia|]. now rewrite lookup_insert_eq.
Qed.

Lemma NoDup_map_filter {A B : Type} (f : A -> B) (P : A -> bool) (l : list A) :
  List.NoDup (map f l) -> List.NoDup (map f (List.filter P l)).
Proof.
  induction l as [|a l IH]; simpl; intros Hnd; [constructor|].
  apply List.NoDup_cons_iff in Hnd as [Hfresh Hnd].
  destruct (P a); simpl; [|now apply IH].
  constructor; [|now apply IH].
  intros Hin. apply Hfresh. apply in_map_iff in Hin as (x & Hx & Hin).
  apply in_map_iff. exists x. split; [exact Hx|].
  now apply filter_In in Hin as [Hin _].
Qed.

Lemma listed_names_NoDup (rs : RayService.t) (w : World) :
  wellKeyed w ->
  List.NoDup (map RayCluster.Name
                (List.filter (associated rs) (map snd (map_to_list (rayClusters w))))).
Proof.
  intros Hwk.
  assert (Hkeys : map clusterKey (map snd (map_to_list (rayClusters w)))
                  = map fst (map_to_list (rayClusters w))).
  { rewrite map_map. apply map_ext_in. intros [k c] Hin. simpl.
    apply Hwk. now apply elem_of_map_to_list, list_elem_of_In. }
  pose proof (proj1 (NoDup_ListNoDup _) (NoDup_fst_map_to_list (rayClusters w))) as Hnd.
  change (List.NoDup (map fst (map_to_list (rayClusters w)))) in Hnd.
  rewrite <- Hkeys in Hnd.
  apply (NoDup_map_filter clusterKey (associated rs)) in Hnd.
  assert (Hns : map clusterKey
                  (List.filter (associated rs) (map snd (map_to_list (rayClusters w))))
                = map (fun n => (RayService.Namespace rs, n))
                    (map RayCluster.Name
                       (List.filter (associated rs)
                          (map snd (map_to_list (rayClusters w)))))).
  { rewrite map_map. apply map_ext_in. intros c Hin.
    apply filter_In in Hin as [_ Ha]. unfold associated in Ha.
    apply andb_true_iff in Ha as [Ha _]. apply andb_true_iff in Ha as [Ha _].
    apply String.eqb_eq in Ha. unfold clusterKey. now rewrite Ha. }
  rewrite Hns in Hnd. apply NoDup_ListNoDup. apply NoDup_ListNoDup in Hnd.
  revert Hnd. apply NoDup_fmap_1.
Qed.

(** A walk of [cleanUpRayClusterInstance] from a world that keeps the
    invariants of the schedule. *)
Lemma cleanUpRayClusterInstance_walk (X : Externals) (rs : RayService.t) (w : World) :
  wellKeyed w -> scheduledFromClock X w ->
  let w' := snd (cleanUpRayClusterInstance X rs w) in
  scheduledFromClock X w'
  /\ (forall name t, RayClusterDeletionTimestamps w !! name = Some t ->
        RayClusterDeletionTimestamps w' !! name = Some t)
  /\ (forall name t, RayClusterDeletionTimestamps w !! name = None ->
        RayClusterDeletionTimestamps w' !! name = Some t ->
        dangling rs name
        /\ exists p, position w <= p < position w'
             /\ t = (clock X p + 60 * Second)%Z)
  /\ exists issued, calls w' = (calls w ++ issued)%list
       /\ forall c, In c issued ->
            exists namespace name p0 p,
              c = DeleteRayCluster namespace name
              /\ dangling rs name
              /\ p0 < position w <= p /\ p < position w'
              /\ RayClusterDeletionTimestamps w !! name = Some (clock X p0 + 60 * Second)%Z
              /\ (clock X p0 + 60 * Second < clock X p)%Z.
Proof.
  intros Hwk Hsched w'.
  assert (Hc : wp (cleanUpRayClusterInstance X rs)
                 (fun _ w' =>
                    collected X rs
                      (List.filter (associated rs) (map snd (map_to_list (rayClusters w))))
                      w w'
                    \/ (position w <= position w'
                        /\ RayClusterDeletionTimestamps w' = RayClusterDeletionTimestamps w
                        /\ calls w' = calls w)) w).
  {
    unfold cleanUpRayClusterInstance, ListRayClusters. wp_steps.
    - right. wsimpl. auto.
    - eapply wp_mono;
        [apply cleanUpRayClusters_collected, listed_names_NoDup; exact Hwk|].
      intros r w'' (Hpos & Hs & issued & Hcalls & Hj). left. wsimpl.
      split; [lia|]. split.
      { intros name. destruct (Hs name) as [H | (Hnone & Hin & Hd & p & Hp & Hset)];
          [now left|right].
        split; [exact Hnone|]. split; [exact Hin|]. split; [exact Hd|].
        exists p. split; [lia|exact Hset]. }
      exists issued. split; [exact Hcalls|].
      eapply Forall_impl; [exact Hj|].
      intros c (item & t & p & Hin & -> & Hd & Ht & Hp & Hlt). wsimpl.
      exists item, t, p. split; [exact Hin|]. split; [reflexivity|].
      split; [exact Hd|]. split; [exact Ht|]. split; [lia|exact Hlt]. }
  unfold wp in Hc. fold w' in Hc.
  destruct Hc as [(Hpos & Hs & issued & Hcalls & Hj) | (Hpos & Hs & Hcalls)].
  - split; [|split; [|split]].
    + intros name t Ht. destruct (Hs name) as [Heq | (Hnone & _ & _ & p & Hp & Hset)].
      * rewrite Heq in Ht. destruct (Hsched name t Ht) as (p & Hp & ->).
        exists p. split; [lia|reflexivity].
      * exists p. split; [lia|]. congruence.
    + intros name t Ht. destruct (Hs name) as [Heq | (Hnone & _)]; congruence.
    + intros name t Hnone Ht.
      destruct (Hs name) as [Heq | (_ & _ & Hd & p & Hp & Hset)]; [congruence|].
      split; [exact Hd|]. exists p. split; [exact Hp|].
      unfold RayClusterDeletionDelayDuration in Hset. congruence.
    + exists issued. split; [exact Hcalls|]. intros c Hin.
      rewrite Forall_forall in Hj. apply list_elem_of_In, Hj in Hin.
      destruct Hin as (item & t & p & _ & -> & Hd & Ht & Hp & Hlt).
      destruct (Hsched _ _ Ht) as (p0 & Hp0 & ->).
      exists (RayCluster.Namespace item), (RayCluster.Name item), p0, p.
      unfold RayClusterDeletionDelayDuration in *.
      split; [reflexivity|]. split; [exact Hd|]. split; [lia|]. split; [lia|].
      split; [exact Ht|exact Hlt].
  - split; [|split; [|split]].
    + intros name t Ht. rewrite Hs in Ht. destruct (Hsched name t Ht) as (p & Hp & ->).
      exists p. split; [lia|reflexivity].
    + intros name t Ht. now rewrite Hs.
    + intros name t Hnone Ht. rewrite Hs in Ht. congruence.
    + exists []. split; [now rewrite Hcalls, app_nil_r|]. intros c [].
Qed.

(** ** What a run issues, and what it leaves in the instance *)

Lemma issues_refl (P : Call -> Prop) (w : World) : issues P w w.
Proof. exists []. split; [now rewrite app_nil_r|constructor]. Qed.

Lemma issues_step (P : Call -> Prop) (w w1 w' : World) (l : list Call) :
  issues P w w1 -> calls w' = (calls w1 ++ l)%list -> Forall P l -> issues P w w'.
Proof.
  intros (l1 & H1 & F1) H2 F. exists (l1 ++ l)%list.
  split; [now rewrite H2, H1, app_assoc|]. apply Forall_app. now split.
Qed.

Lemma issues_same (P : Call -> Prop) (w w1 w' : World) :
  issues P w w1 -> calls w' = calls w1 -> issues P w w'.
Proof.
  intros H Hc. apply (issues_step P w w1 w' []); [exact H| |constructor].
  now rewrite app_nil_r.
Qed.

Lemma issues_trans (P : Call -> Prop) (w w1 w' : World) :
  issues P w w1 -> issues P w1 w' -> issues P w w'.
Proof. intros H (l & Hl & F). exact (issues_step P w w1 w' l H Hl F). Qed.

Lemma issues_impl (P Q : Call -> Prop) (w w' : World) :
  (forall c, P c -> Q c) -> issues P w w' -> issues Q w w'.
Proof.
  intros HPQ (l & Hl & F). exists l. split; [exact Hl|].
  eapply Forall_impl; [exact F|exact HPQ].
Qed.

(** Closes a goal [issues P w wf] where [wf] is built from a world [w1]
    for which [issues P w w1] is known (or from [w] itself). *)
Ltac issues_close :=
  lazymatch goal with
  | H : issues ?P ?w ?w1 |- issues ?P ?w _ =>
      first
        [ exact H
        | apply (issues_same P w w1); [exact H|reflexivity]
        | eapply (issues_step P w w1);
          [exact H|wsimpl; rewrite <- ?app_assoc; reflexivity|cbn [app]] ]
  | |- issues ?P ?w _ =>
      first
        [ apply issues_refl
        | apply (issues_same P w w); [apply issues_refl|reflexivity]
        | eapply (issues_step P w w);
          [apply issues_refl|wsimpl; rewrite <- ?app_assoc; reflexivity|cbn [app]] ]
  end.

Lemma wp_bind_forall {A B : Type} (m : M A) (k : A -> M B)
    (Q : Exec B -> World -> Prop) (w : World) :
  (forall r w1, match r with
                | Returns a => wp (k a) Q w1
                | Panics => Q Panics w1
                end) ->
  wp (bind m k) Q w.
Proof. intros H. apply wp_bind. unfold wp. apply H. Qed.

(** ** The network step of a tick *)

Lemma KubeService_reconcileServices_sent (A : KubeService.Answers) (rs : RayService.t)
    (c : RayCluster.t) (ty : KubeService.ServiceType) (st : KubeService.State) :
  exists l,
    KubeService.sent (snd (KubeService.reconcileServices A rs c ty st))
    = (KubeService.sent st ++ l)%list
    /\ (l = [] \/ exists r, l = [r]).
Proof.
  unfold KubeService.reconcileServices, KubeService.Get, KubeService.Update,
    KubeService.Create.
  repeat match goal with
         | |- context [match ?x with _ => _ end] =>
             lazymatch x with
             | context [match _ with _ => _ end] => fail
             | _ => destruct x eqn:?
             end
         | |- context [if ?b then _ else _] => destruct b eqn:?
         end; cbn [fst snd KubeService.sent KubeService.services];
    first [ exists []; split; [now rewrite app_nil_r|now left]
          | eexists [_]; split; [reflexivity|right; eauto] ].
Qed.

Lemma reconcileServices_spec (X : Externals) (rs : RayService.t) (c : RayCluster.t)
    (ty : KubeService.ServiceType) (w : World) :
  wp (reconcileServices X rs c ty)
     (fun r w' =>
        (exists e, r = Returns e)
        /\ rayServices w' = rayServices w /\ rayClusters w' = rayClusters w
        /\ ServeConfigs w' = ServeConfigs w
        /\ RayClusterDeletionTimestamps w' = RayClusterDeletionTimestamps w
        /\ position w' = S (S (position w))
        /\ exists sent, calls w' = (calls w ++ sent)%list /\ serviceRequests sent) w.
Proof.
  unfold reconcileServices. do 6 wp_step. wsimpl.
  match goal with
  | |- context [KubeService.reconcileServices ?A rs c ty ?st] =>
      pose proof (KubeService_reconcileServices_sent A rs c ty st) as (l & Hl & Hone);
      destruct (KubeService.reconcileServices A rs c ty st) as [e st'] eqn:Hrun
  end.
  cbn [snd KubeService.sent app] in Hl. wp_steps. wsimpl.
  split; [eauto|]. repeat (split; [reflexivity|]).
  exists (map ServiceRequest l). rewrite Hl. split; [reflexivity|].
  destruct Hone as [->|[r ->]]; [now left|right; now exists r].
Qed.

Lemma labelHeadPodForServeStatus_spec (X : Externals) (c : RayCluster.t) (exclude : bool)
    (w : World) :
  wp (labelHeadPodForServeStatus X c exclude)
     (fun r w' =>
        rayServices w' = rayServices w /\ rayClusters w' = rayClusters w
        /\ ServeConfigs w' = ServeConfigs w
        /\ RayClusterDeletionTimestamps w' = RayClusterDeletionTimestamps w
        /\ position w' = S (S (S (position w)))
        /\ (exists sent, calls w' = (calls w ++ sent)%list /\ podRequests sent)
        /\ (r = Panics ->
            exists p, fault X (position w) = None /\ headPod X (position w) = Some p
                      /\ HeadPod.Containers p = [])) w.
Proof.
  unfold labelHeadPodForServeStatus. do 8 wp_step. wsimpl.
  unfold HeadPod.labelHeadPodForServeStatus, headPodAnswers.
  cbn [HeadPod.GetRayClusterHeadPod HeadPod.CheckProxyActorHealth HeadPod.Update].
  assert (Hnil : forall w0 : World, calls w0 = (calls w0 ++ [])%list)
    by (intros; now rewrite app_nil_r).
  destruct (fault X (position w)) as [e|] eqn:Hf.
  { wp_steps. wsimpl. repeat (split; [reflexivity|]).
    split; [exists []; split; [first [reflexivity|apply Hnil]|now left]|discriminate]. }
  destruct (headPod X (position w)) as [p|] eqn:Hp.
  2: { wp_steps. wsimpl. repeat (split; [reflexivity|]).
       split; [exists []; split; [first [reflexivity|apply Hnil]|now left]|discriminate]. }
  destruct (HeadPod.Containers p) as [|container others] eqn:Hc;
    cbn [nth_error HeadPod.RayContainerIndex].
  { repeat (split; [reflexivity|]).
    split; [exists []; split; [first [reflexivity|apply Hnil]|now left]|]. intros _. exists p. auto. }
  destruct (negb (bool_decide _)).
  - destruct (fault X (S (S (position w)))); wp_steps; wsimpl;
      repeat (split; [reflexivity|]);
      (split; [eexists [_]; split; [reflexivity|right; eauto]|discriminate]).
  - wp_steps. wsimpl. repeat (split; [reflexivity|]).
    split; [exists []; split; [first [reflexivity|apply Hnil]|now left]|discriminate].
Qed.

(** The network step of [Reconcile] on the cluster it picked, if any. *)
Lemma networkStep_spec (X : Externals) (rs : RayService.t) (target : option RayCluster.t)
    (w : World) :
  wp (match target with
      | None => ret None
      | Some c =>
          do e <- reconcileServices X rs c KubeService.HeadService;
          match e with
          | Some _ => ret e
          | None =>
              do e <- labelHeadPodForServeStatus X c
                        (RayServiceSpec.ExcludeHeadPodFromServeSvc (RayService.Spec rs));
              match e with
              | Some _ => ret e
              | None => reconcileServices X rs c KubeService.ServingService
              end
          end
      end)
     (fun r w' => networkOutcome X w w' r) w.
Proof.
  unfold networkOutcome.
  assert (Hnone : networkRequests []).
  { exists [], [], []. split; [reflexivity|]. split; [now left|]. split; now left. }
  destruct target as [c|].
  2: { apply wp_ret. do 4 (split; [reflexivity|]). split; [lia|].
       split; [exists []; split; [now rewrite app_nil_r|exact Hnone]|discriminate]. }
  apply wp_bind. eapply wp_mono; [apply reconcileServices_spec|].
  intros r1 w1 ((e1 & ->) & Hs1 & Hr1 & Hc1 & Hd1 & Hp1 & head & Hcalls1 & Hhead).
  destruct e1 as [e1|].
  { apply wp_ret. do 4 (split; [assumption|]). split; [lia|].
    split; [|discriminate]. exists head. split; [exact Hcalls1|].
    exists head, [], []. rewrite !app_nil_r. split; [reflexivity|].
    split; [exact Hhead|]. split; now left. }
  apply wp_bind. eapply wp_mono; [apply labelHeadPodForServeStatus_spec|].
  intros r2 w2 (Hs2 & Hr2 & Hc2 & Hd2 & Hp2 & (pod & Hcalls2 & Hpod) & Hpanic).
  assert (Hmid : exists sent, calls w2 = (calls w ++ sent)%list /\ networkRequests sent).
  { exists (head ++ pod)%list. split; [now rewrite Hcalls2, Hcalls1, app_assoc|].
    exists head, pod, []. rewrite app_nil_r. split; [reflexivity|].
    split; [exact Hhead|]. split; [exact Hpod|now left]. }
  destruct r2 as [[e2|]|].
  - apply wp_ret. split; [congruence|]. split; [congruence|]. split; [congruence|].
    split; [congruence|]. split; [lia|]. split; [exact Hmid|discriminate].
  - eapply wp_mono; [apply reconcileServices_spec|].
    intros r3 w3 ((e3 & ->) & Hs3 & Hr3 & Hc3 & Hd3 & Hp3 & serve & Hcalls3 & Hserve).
    split; [congruence|]. split; [congruence|]. split; [congruence|].
    split; [congruence|]. split; [lia|]. split; [|discriminate].
    exists (head ++ pod ++ serve)%list.
    split; [now rewrite Hcalls3, Hcalls2, Hcalls1, <- !app_assoc|].
    exists head, pod, serve. auto.
  - split; [congruence|]. split; [congruence|]. split; [congruence|].
    split; [congruence|]. split; [lia|]. split; [exact Hmid|].
    intros _. destruct (Hpanic eq_refl) as (p & Hf & Hp & Hc).
    exists (position w1), p. auto.
Qed.

Lemma networkRequests_statusWrite (S : RayService.t -> Prop) (l : list Call) :
  networkRequests l -> Forall (statusWriteOf S) l.
Proof.
  intros (head & pod & serve & -> & Hh & Hp & Hs).
  repeat apply Forall_app_2.
  - destruct Hh as [->|[r ->]]; repeat constructor.
  - destruct Hp as [->|[p ->]]; repeat constructor.
  - destruct Hs as [->|[r ->]]; repeat constructor.
Qed.

Lemma networkOutcome_issues (X : Externals) (S : RayService.t -> Prop) (w0 w w' : World)
    (r : Exec (option error)) :
  issues (statusWriteOf S) w0 w -> networkOutcome X w w' r ->
  issues (statusWriteOf S) w0 w'.
Proof.
  intros Hi (_ & _ & _ & _ & _ & (sent & Hc & Hn) & _).
  eapply issues_step; [exact Hi|exact Hc|]. now apply networkRequests_statusWrite.
Qed.

(** ** The Serve-config cache *)

Lemma lru_find_remove_ne (key k : string) (l : list (string * gmap string string)) :
  key <> k -> lru.find key (lru.remove k l) = lru.find key l.
Proof.
  intros Hne. induction l as [|[k' v] l IH]; simpl; [reflexivity|].
  destruct (String.eqb_spec k' k) as [->|Hk]; simpl.
  - rewrite IH. now rewrite (proj2 (String.eqb_neq k key)) by congruence.
  - now rewrite IH.
Qed.

Lemma lru_Get_found (k : string) (c : lru.Cache) :
  fst (lru.Get k c) = lru.find k (lru.entries c).
Proof. unfold lru.Get. now destruct (lru.find k (lru.entries c)). Qed.

Lemma lru_find_Get (key k : string) (c : lru.Cache) :
  lru.find key (lru.entries (snd (lru.Get k c))) = lru.find key (lru.entries c).
Proof.
  unfold lru.Get. destruct (lru.find k (lru.entries c)) as [v|] eqn:Hf; simpl; [|reflexivity].
  destruct (String.eqb_spec k key) as [->|Hne]; [now rewrite Hf|].
  apply lru_find_remove_ne. congruence.
Qed.

Lemma lru_find_modify (key k : string) (f : gmap string string -> gmap string string)
    (c : lru.Cache) :
  lru.find key (lru.entries (lru.modify k f c))
  = if String.eqb key k then f <$> lru.find key (lru.entries c)
    else lru.find key (lru.entries c).
Proof.
  unfold lru.modify. simpl. induction (lru.entries c) as [|[k' v] l IH]; simpl.
  - now destruct (String.eqb key k).
  - destruct (String.eqb_spec k' k) as [->|Hk]; simpl.
    + destruct (String.eqb_spec k key) as [->|Hne].
      * now rewrite String.eqb_refl.
      * rewrite IH. reflexivity.
    + destruct (String.eqb_spec k' key) as [->|Hne].
      * now rewrite (proj2 (String.eqb_neq key k)) by congruence.
      * exact IH.
Qed.

Lemma lru_find_Add (k : string) (v : gmap string string) (c : lru.Cache) :
  lru.find k (lru.entries (lru.Add k v c)) = Some v.
Proof.
  unfold lru.Add. destruct (lru.find k (lru.entries c)); simpl.
  - now rewrite String.eqb_refl.
  - destruct (negb (lru.maxSize c =? 0)%nat
              && (lru.maxSize c <? S (length (lru.entries c)))%nat) eqn:Hc.
    + destruct (lru.entries c) as [|e l]; simpl in *.
      * apply andb_true_iff in Hc as [H0 H1].
        apply negb_true_iff, Nat.eqb_neq in H0. apply Nat.ltb_lt in H1. lia.
      * now rewrite String.eqb_refl.
    + simpl. now rewrite String.eqb_refl.
Qed.

Lemma wp_ServeConfigsGet (k : string) (Q : Exec (option (gmap string string)) -> World -> Prop)
    (w : World) :
  Q (Returns (lru.find k (lru.entries (ServeConfigs w))))
    (setServeConfigs (snd (lru.Get k (ServeConfigs w))) w) ->
  wp (ServeConfigsGet k) Q w.
Proof.
  unfold wp, ServeConfigsGet. rewrite <- lru_Get_found.
  now destruct (lru.Get k (ServeConfigs w)).
Qed.

Lemma getServeConfigFromCache_spec (rs : RayService.t) (name : string) (w : World) :
  wp (getServeConfigFromCache rs name)
     (fun r w' =>
        r = Returns (cachedConfig w (cacheKeyOf rs) name)
        /\ calls w' = calls w /\ position w' = position w
        /\ forall k n, cachedConfig w' k n = cachedConfig w k n) w.
Proof.
  unfold getServeConfigFromCache. apply wp_bind, wp_ServeConfigsGet.
  assert (Hsame : forall k n,
            cachedConfig (setServeConfigs (snd (lru.Get (cacheKeyOf rs) (ServeConfigs w))) w) k n
            = cachedConfig w k n).
  { intros k n. unfold cachedConfig. wsimpl. now rewrite lru_find_Get. }
  unfold cachedConfig at 1 2 3.
  destruct (lru.find (cacheKeyOf rs) (lru.entries (ServeConfigs w))) as [m|];
    [destruct (m !! name)|]; apply wp_ret; auto.
Qed.

Lemma cacheServeConfig_spec (rs : RayService.t) (name : string) (w : World) :
  wp (cacheServeConfig rs name)
     (fun r w' =>
        r = Returns tt /\ calls w' = calls w /\ position w' = position w
        /\ (RayServiceSpec.ServeConfigV2 (RayService.Spec rs) <> "" ->
            cachedConfig w' (cacheKeyOf rs) name
            = RayServiceSpec.ServeConfigV2 (RayService.Spec rs))) w.
Proof.
  unfold cacheServeConfig.
  destruct (String.eqb_spec (RayServiceSpec.ServeConfigV2 (RayService.Spec rs)) "")
    as [Hempty|Hcfg].
  - apply wp_ret. repeat split; auto. intros H. contradiction.
  - apply wp_bind, wp_ServeConfigsGet.
    destruct (lru.find (cacheKeyOf rs) (lru.entries (ServeConfigs w))) as [m|] eqn:Hf;
      wp_steps; (split; [reflexivity|]); (split; [reflexivity|]);
      (split; [reflexivity|]); intros _; unfold cachedConfig; wsimpl;
      rewrite lru_find_modify, String.eqb_refl.
    + rewrite lru_find_Get, Hf. simpl. now rewrite lookup_insert_eq.
    + rewrite lru_find_Add. simpl. now rewrite lookup_insert_eq.
Qed.

Lemma sameCache_ServeConfigs (w w' : World) :
  ServeConfigs w' = ServeConfigs w -> sameCache w w'.
Proof. intros H k n. unfold cachedConfig. now rewrite H. Qed.

Lemma checkIfNeedSubmitServeDeployment_spec (rs : RayService.t) (c : RayCluster.t)
    (slot : RayServiceStatus.t) (w : World) :
  wp (checkIfNeedSubmitServeDeployment rs c slot)
     (fun r w' =>
        calls w' = calls w /\ sameCache w w'
        /\ exists shouldUpdate, r = Returns shouldUpdate
             /\ (shouldUpdate = false
                 <-> cachedConfig w (cacheKeyOf rs) (RayCluster.Name c) <> ""
                     /\ RayServiceStatus.Applications slot <> ∅
                     /\ cachedConfig w (cacheKeyOf rs) (RayCluster.Name c)
                        = RayServiceSpec.ServeConfigV2 (RayService.Spec rs))) w.
Proof.
  unfold checkIfNeedSubmitServeDeployment. apply wp_bind.
  eapply wp_mono; [apply getServeConfigFromCache_spec|].
  intros r w1 (-> & Hcalls & _ & Hcache).
  set (cached := cachedConfig w (cacheKeyOf rs) (RayCluster.Name c)).
  destruct (String.eqb_spec cached "") as [He|He].
  { apply wp_ret. split; [exact Hcalls|]. split; [exact Hcache|].
    exists true. split; [reflexivity|]. split; [discriminate|]. now intros [H _]. }
  destruct (Nat.eqb_spec (size (RayServiceStatus.Applications slot)) 0) as [Hz|Hz].
  { apply wp_ret. split; [exact Hcalls|]. split; [exact Hcache|].
    exists true. split; [reflexivity|]. split; [discriminate|].
    intros (_ & H & _). now apply map_size_non_empty_iff in H. }
  apply wp_ret. split; [exact Hcalls|]. split; [exact Hcache|].
  eexists. split; [reflexivity|]. rewrite negb_false_iff, String.eqb_eq.
  split; [intros H; split; [exact He|split; [|exact H]]|now intros (_ & _ & H)].
  now apply map_size_non_empty_iff.
Qed.

Lemma updateServeDeployment_spec (X : Externals) (rs : RayService.t) (url name : string)
    (w : World) :
  wp (updateServeDeployment X rs url name)
     (fun r w' =>
        exists e, r = Returns e
          /\ ((e <> None /\ calls w' = calls w /\ sameCache w w')
              \/ exists configJson,
                   calls w' = (calls w ++ [UpdateDeployments url configJson])%list
                   /\ (e = None ->
                       RayServiceSpec.ServeConfigV2 (RayService.Spec rs) <> "" ->
                       cachedConfig w' (cacheKeyOf rs) name
                       = RayServiceSpec.ServeConfigV2 (RayService.Spec rs)))) w.
Proof.
  unfold updateServeDeployment, DashboardUpdateDeployments.
  destruct (yamlToJSON X _) as [configJson [e|]].
  - apply wp_ret. exists (Some e). split; [reflexivity|]. left.
    split; [discriminate|]. split; [reflexivity|]. now intros k n.
  - wp_steps.
    + eexists. split; [reflexivity|]. right. exists configJson.
      split; [reflexivity|]. discriminate.
    + eapply wp_mono; [apply cacheServeConfig_spec|].
      intros r w1 (-> & Hcalls & _ & Hcached). wp_steps.
      exists None. split; [reflexivity|]. right. exists configJson.
      split; [exact Hcalls|]. intros _. exact Hcached.
Qed.

Lemma getAndCheckServeStatus_spec (X : Externals) (url : string)
    (slot : RayServiceStatus.t) (w : World) :
  wp (getAndCheckServeStatus X url slot)
     (fun r w' =>
        calls w' = calls w /\ ServeConfigs w' = ServeConfigs w
        /\ exists isReady e slot', r = Returns ((isReady, e), slot')
             /\ ((e <> None /\ isReady = false /\ slot' = slot)
                 \/ (e = None
                     /\ exists apps, slot' = RayServiceStatus.setApplications apps slot))) w.
Proof.
  unfold getAndCheckServeStatus, GetMultiApplicationStatus, Now. wp_steps.
  - split; [reflexivity|]. split; [reflexivity|]. eexists _, _, _.
    split; [reflexivity|]. left. split; [discriminate|]. now split.
  - split; [reflexivity|]. split; [reflexivity|]. eexists _, _, _.
    split; [reflexivity|]. right. split; [reflexivity|]. eauto.
Qed.

(** ** What [reconcileServe] does to the instance *)

Lemma reconcileServeOnReadyHead_served (X : Externals) (rs : RayService.t)
    (c : RayCluster.t) (isActive : bool) (w : World) :
  wp (reconcileServeOnReadyHead X rs c isActive)
     (fun r w' =>
        issues (statusWriteOf (notReadyWrite isActive rs)) w w'
        /\ served isActive rs c r) w.
Proof.
  unfold reconcileServeOnReadyHead, FetchHeadServiceURL, InitClient.
  wp_steps.
  1-3: split; [issues_close|]; eexists _, _, _; (split; [reflexivity|]); left; auto.
  eapply wp_mono; [apply checkIfNeedSubmitServeDeployment_spec|].
  intros r w1 (Hc1 & _ & shouldUpdate & -> & _). wsimpl.
  assert (H1 : issues (statusWriteOf (notReadyWrite isActive rs)) w w1)
    by (apply (issues_same _ w w); [apply issues_refl|exact Hc1]).
  clear Hc1. apply wp_bind.
  assert (Hpush : wp (if shouldUpdate
                      then updateServeDeployment X rs (headServiceURL X (position w))
                             (RayCluster.Name c)
                      else ret None)
                     (fun r w2 => issues (statusWriteOf (notReadyWrite isActive rs)) w w2
                                  /\ exists e, r = Returns e) w1).
  { destruct shouldUpdate.
    - eapply wp_mono; [apply updateServeDeployment_spec|].
      intros r w2 (e & -> & [(_ & Hc & _) | (json & Hc & _)]).
      + split; [now apply (issues_same _ w w1)|eauto].
      + split; [|eauto]. eapply issues_step; [exact H1|exact Hc|].
        repeat constructor.
    - apply wp_ret. split; [exact H1|eauto]. }
  eapply wp_mono; [exact Hpush|]. clear Hpush H1.
  intros r w2 (H2 & e & ->). destruct e as [e|].
  { apply wp_ret. split; [exact H2|]. eexists _, _, _. split; [reflexivity|]. left. auto. }
  apply wp_bind.
  eapply wp_mono; [apply getAndCheckServeStatus_spec|].
  intros r w3 (Hc3 & _ & isReady & e & slot' & -> & Hslot).
  assert (H3 : issues (statusWriteOf (notReadyWrite isActive rs)) w w3)
    by now apply (issues_same _ w w2).
  clear H2 Hc3.
  destruct Hslot as [(He & -> & ->) | (-> & apps & ->)].
  { destruct e as [e|]; [|contradiction]. apply wp_ret. split; [exact H3|].
    eexists _, _, _. split; [reflexivity|]. left. auto. }
  destruct isReady.
  - apply wp_ret. split; [exact H3|]. eexists _, _, _. split; [reflexivity|].
    right. split; [reflexivity|]. split; [reflexivity|]. now exists apps.
  - unfold StatusUpdate. wp_steps.
    all: split;
      [eapply issues_step; [exact H3|wsimpl; reflexivity|];
       repeat constructor; now exists apps
      |eexists _, _, _; split; [reflexivity|]; left; split; [reflexivity|];
       right; now exists apps].
Qed.

Lemma reconcileServe_served (X : Externals) (rs : RayService.t)
    (c : RayCluster.t) (isActive : bool) (w : World) :
  let marked := setActiveRayClusterStatus (RayCluster.Status c) rs in
  wp (reconcileServe X rs c isActive)
     (fun r w' =>
        issues (statusWriteOf (notReadyWrite isActive marked)) w w'
        /\ served isActive marked c r) w.
Proof.
  intros marked. unfold reconcileServe, isHeadPodRunningAndReady. fold marked.
  wp_steps.
  all: try (split; [issues_close|]; eexists _, _, _; (split; [reflexivity|]); left;
            split; [reflexivity|now left]).
  - apply reconcileServeOnReadyHead_served.
  - eapply wp_mono; [apply reconcileServeOnReadyHead_served|].
    intros r w' [H1 H2]. split; [|exact H2].
    eapply issues_trans; [|exact H1]. issues_close.
Qed.

(** ** The lifecycle step: requests and instance *)

Lemma cleanUpRayClusters_requests (X : Externals) (rs : RayService.t)
    (items : list RayCluster.t) (w0 w : World) :
  issues clusterRequest w0 w ->
  wp (cleanUpRayClusters X rs items) (fun _ w' => issues clusterRequest w0 w') w.
Proof.
  revert w. induction items as [|c rest IH]; intros w H; cbn [cleanUpRayClusters].
  - now apply wp_ret.
  - unfold Now, Delete. wp_steps.
    all: try (apply IH).
    all: first [ issues_close; repeat constructor
               | exact H ].
Qed.

Lemma cleanUpRayClusterInstance_requests (X : Externals) (rs : RayService.t) (w : World) :
  wp (cleanUpRayClusterInstance X rs) (fun _ w' => issues clusterRequest w w') w.
Proof.
  unfold cleanUpRayClusterInstance, ListRayClusters. wp_steps.
  - issues_close.
  - apply cleanUpRayClusters_requests. issues_close.
Qed.

Lemma getRayClusterByNamespacedName_spec (X : Externals) (key : string * string)
    (w : World) :
  wp (getRayClusterByNamespacedName X key)
     (fun r w' =>
        calls w' = calls w
        /\ exists c e, r = Returns (c, e)
             /\ (e = None -> c = None -> snd key = "")
             /\ (snd key = "" -> c = None)) w.
Proof.
  unfold getRayClusterByNamespacedName, GetRayCluster.
  destruct (String.eqb_spec (snd key) "") as [He|He].
  - apply wp_ret. split; [reflexivity|]. eexists _, _. split; [reflexivity|]. auto.
  - wp_steps; (split; [reflexivity|]); eexists _, _; (split; [reflexivity|]);
      split; try discriminate; try contradiction; auto.
Qed.

Lemma createRayClusterInstance_requests (X : Externals) (rs : RayService.t) (w0 w : World) :
  issues clusterRequest w0 w ->
  wp (createRayClusterInstance X rs) (fun _ w' => issues clusterRequest w0 w') w.
Proof.
  intros H. unfold createRayClusterInstance, GetRayCluster, Delete, Create.
  wp_steps; issues_close; repeat constructor.
Qed.

Lemma updateRayClusterInstance_requests (X : Externals) (c : RayCluster.t) (w0 w : World) :
  issues clusterRequest w0 w ->
  wp (updateRayClusterInstance X c) (fun _ w' => issues clusterRequest w0 w') w.
Proof.
  intros H. unfold updateRayClusterInstance. apply wp_bind.
  eapply wp_mono; [apply getRayClusterByNamespacedName_spec|].
  intros r w1 (Hc & current & e & -> & _).
  assert (H1 : issues clusterRequest w0 w1) by now apply (issues_same _ w0 w).
  clear H Hc. unfold Update. wp_steps; issues_close; repeat constructor.
Qed.

Lemma reconcileRayCluster_spec (X : Externals) (rs : RayService.t) (w : World) :
  wp (reconcileRayCluster X rs)
     (fun r w' =>
        issues clusterRequest w w'
        /\ match r with
           | Panics => True
           | Returns ((active, pending, e), rs') =>
               (rs' = rs \/ restarted rs rs')
               /\ (e = None -> active = None -> RayService.ActiveName rs = "")
           end) w.
Proof.
  unfold reconcileRayCluster. apply wp_bind.
  eapply wp_mono; [apply cleanUpRayClusterInstance_requests|].
  intros [[e|]|] w1 H1; [apply wp_ret; split; [exact H1|split; [now left|discriminate]]
                        | |exact (conj H1 I)].
  apply wp_bind. eapply wp_mono; [apply getRayClusterByNamespacedName_spec|].
  intros r w2 (Hc2 & active & e & -> & Hactive & _).
  assert (H2 : issues clusterRequest w w2) by now apply (issues_same _ w w1).
  clear H1 Hc2. simpl in Hactive.
  destruct e as [e|]; [apply wp_ret; split; [exact H2|split; [now left|discriminate]]|].
  specialize (Hactive eq_refl).
  apply wp_bind. eapply wp_mono; [apply getRayClusterByNamespacedName_spec|].
  intros r w3 (Hc3 & pending & e & -> & _).
  assert (H3 : issues clusterRequest w w3) by now apply (issues_same _ w w2).
  clear H2 Hc3.
  destruct e as [e|]; [apply wp_ret; split; [exact H3|split; [now left|discriminate]]|].
  apply wp_bind, wp_liftExec.
  destruct (decideClusterAction X rs active pending) as [[| | | |]|]; [..|exact (conj H3 I)].
  - (* DoNothing *)
    apply wp_ret. split; [exact H3|]. split; [now left|auto].
  - (* UpdateActiveCluster *)
    destruct active as [active|]; [|exact (conj H3 I)].
    destruct (constructRayClusterForRayService X rs (RayCluster.Name active))
      as [[c|] [e|]];
      try (apply wp_ret; split; [exact H3|split; [now left|discriminate]]);
      [|exact (conj H3 I)].
    apply wp_bind. eapply wp_mono; [apply (updateRayClusterInstance_requests X c w w3 H3)|].
    intros [[e|]|] w4 H4; [| |exact (conj H4 I)];
      apply wp_ret; (split; [exact H4|]); (split; [now left|discriminate]).
  - (* UpdatePendingCluster *)
    destruct pending as [pending|]; [|exact (conj H3 I)].
    destruct (constructRayClusterForRayService X rs (RayCluster.Name pending))
      as [[c|] [e|]];
      try (apply wp_ret; split; [exact H3|split; [now left|discriminate]]);
      [|exact (conj H3 I)].
    apply wp_bind. eapply wp_mono; [apply (updateRayClusterInstance_requests X c w w3 H3)|].
    intros [[e|]|] w4 H4; [| |exact (conj H4 I)];
      apply wp_ret; (split; [exact H4|]); (split; [now left|]);
      [discriminate|exact (fun _ => Hactive)].
  - (* GeneratePendingClusterName *)
    unfold markRestartAndAddPendingClusterName. wp_steps.
    split; [issues_close|]. split; [right; eexists; reflexivity|auto].
  - (* CreatePendingCluster *)
    apply wp_bind. eapply wp_mono; [apply (createRayClusterInstance_requests X rs w w3 H3)|].
    intros [[created e]|] w4 H4; [|exact (conj H4 I)].
    apply wp_ret. split; [exact H4|]. split; [now left|auto].
Qed.

Lemma updateStatusForActiveCluster_spec (X : Externals) (rs : RayService.t)
    (c : RayCluster.t) (w : World) :
  let marked := setActiveRayClusterStatus (RayCluster.Status c) rs in
  wp (updateStatusForActiveCluster X rs c)
     (fun r w' =>
        calls w' = calls w
        /\ exists e rs', r = Returns (e, rs')
             /\ (rs' = marked \/ exists apps, rs' = polled true apps marked)) w.
Proof.
  intros marked. unfold updateStatusForActiveCluster, FetchHeadServiceURL, InitClient.
  fold marked. wp_steps.
  all: try (split; [reflexivity|]; eexists _, _; split; [reflexivity|now left]).
  eapply wp_mono; [apply getAndCheckServeStatus_spec|].
  intros r w1 (Hc & _ & isReady & e & slot' & -> & Hslot). wsimpl.
  destruct Hslot as [(He & _ & ->) | (-> & apps & ->)].
  - destruct e as [e|]; [|contradiction]. apply wp_ret. split; [exact Hc|].
    eexists _, _. split; [reflexivity|now left].
  - apply wp_ret. split; [exact Hc|]. eexists _, _. split; [reflexivity|].
    right. now exists apps.
Qed.

(** ** The instance over a whole tick *)

Lemma steady_marked (rs0 s : RayService.t) (cs : RayClusterStatus.t) :
  steady rs0 s -> steady rs0 (setActiveRayClusterStatus cs s).
Proof. intros [Ha Hp]. split; [exact Ha|exact Hp]. Qed.

Lemma steady_polled (rs0 s : RayService.t) (isActive : bool)
    (apps : gmap string AppStatus.t) :
  steady rs0 s -> steady rs0 (polled isActive apps s).
Proof. intros [Ha Hp]. destruct isActive; split; assumption. Qed.

Lemma steady_withServiceStatus (rs0 s : RayService.t) (v : string) :
  steady rs0 s -> steady rs0 (withServiceStatus v s).
Proof. intros [Ha Hp]. split; assumption. Qed.

Lemma steady_notReadyWrite (rs0 s s' : RayService.t) (isActive : bool) :
  steady rs0 s -> notReadyWrite isActive s s' -> steady rs0 s'.
Proof.
  intros H [apps ->]. now apply steady_withServiceStatus, steady_polled.
Qed.

Lemma readyResult_tick (rs0 s s' : RayService.t) (isActive : bool) (c : RayCluster.t) :
  steady rs0 s -> readyResult isActive s c s' -> tickInvariant rs0 s'.
Proof.
  intros H [apps ->]. unfold updateRayClusterInfo.
  destruct (negb _).
  - right. split; reflexivity.
  - left. now apply steady_withServiceStatus, steady_polled.
Qed.

(** The Serve reconciler started from a steady instance: what it writes
    and what it leaves keep the tick invariant, and the active name moves
    only with a ready result. *)
Lemma served_tick (rs0 s : RayService.t) (isActive : bool) (c : RayCluster.t)
    (r : Exec ((bool * option error) * RayService.t)) :
  steady rs0 s -> served isActive s c r ->
  exists isReady e s', r = Returns ((isReady, e), s')
    /\ tickInvariant rs0 s'
    /\ (isReady = false -> steady rs0 s')
    /\ (isReady = true -> e = None).
Proof.
  intros H (isReady & e & s' & -> & Hs). exists isReady, e, s'.
  split; [reflexivity|].
  destruct Hs as [(-> & [-> | Hw]) | (-> & -> & Hr)].
  - split; [now left|split; [auto|discriminate]].
  - pose proof (steady_notReadyWrite rs0 s s' isActive H Hw).
    split; [now left|split; [auto|discriminate]].
  - split; [exact (readyResult_tick rs0 s s' isActive c H Hr)|].
    split; [discriminate|reflexivity].
Qed.

Lemma steady_refl (rs0 : RayService.t) : steady rs0 rs0.
Proof. split; [reflexivity|now left]. Qed.

Lemma steady_restarted (rs0 s s' : RayService.t) :
  steady rs0 s -> restarted s s' -> steady rs0 s'.
Proof. intros [Ha _] [name ->]. split; [exact Ha|now right]. Qed.

Lemma reconcileServeFor_tick (X : Externals) (rs0 rs : RayService.t)
    (active pending : option RayCluster.t) (w0 w : World) :
  steady rs0 rs ->
  (active = None -> RayService.ActiveName rs = "") ->
  issues (statusWriteOf (tickInvariant rs0)) w0 w ->
  wp (reconcileServeFor X rs active pending)
     (fun r w' =>
        issues (statusWriteOf (tickInvariant rs0)) w0 w'
        /\ exists isReady e s', r = Returns ((isReady, e), s')
             /\ tickInvariant rs0 s'
             /\ (isReady = false -> steady rs0 s')
             /\ (isReady = true -> e = None)) w.
Proof.
  intros Hs Hactive Hw.
  assert (Hserve : forall s c isActive w1,
            steady rs0 s -> issues (statusWriteOf (tickInvariant rs0)) w0 w1 ->
            wp (reconcileServe X s c isActive)
               (fun r w' =>
                  issues (statusWriteOf (tickInvariant rs0)) w0 w'
                  /\ exists isReady e s', r = Returns ((isReady, e), s')
                       /\ tickInvariant rs0 s'
                       /\ (isReady = false -> steady rs0 s')
                       /\ (isReady = true -> e = None)) w1).
  { intros s c isActive w1 Hst Hw1.
    eapply wp_mono; [apply reconcileServe_served|].
    intros r w' [Hi Hr]. cbv zeta in Hi, Hr.
    pose proof (steady_marked rs0 s (RayCluster.Status c) Hst) as Hm.
    split; [|exact (served_tick rs0 _ isActive c r Hm Hr)].
    eapply issues_trans; [exact Hw1|]. eapply issues_impl; [|exact Hi].
    intros [| | |s'| | | |]; simpl; auto. intros Hn. left.
    exact (steady_notReadyWrite rs0 _ s' isActive Hm Hn). }
  unfold reconcileServeFor. destruct active as [a|], pending as [p|].
  - apply wp_bind. eapply wp_mono; [apply updateStatusForActiveCluster_spec|].
    intros r w1 (Hc & e & rs' & -> & Hrs'). cbv zeta in Hrs'.
    apply Hserve; [|now apply (issues_same _ w0 w)].
    destruct Hrs' as [-> | [apps ->]].
    + now apply steady_marked.
    + now apply steady_polled, steady_marked.
  - apply Hserve; [|exact Hw]. destruct Hs as [Ha Hp]. split; [exact Ha|now right].
  - apply Hserve; [|exact Hw]. destruct Hs as [Ha Hp]. split; [|exact Hp].
    rewrite <- Ha, (Hactive eq_refl). reflexivity.
  - apply wp_ret. split; [exact Hw|]. eexists _, _, _. split; [reflexivity|].
    assert (steady rs0 (setPendingStatus RayServiceStatus.zero
                          (setActiveStatus RayServiceStatus.zero rs))) as Hst.
    { destruct Hs as [Ha Hp]. split; [|now right].
      rewrite <- Ha, (Hactive eq_refl). reflexivity. }
    split; [now left|split; [auto|discriminate]].
Qed.

Lemma steady_setNumServeEndpoints (rs0 s : RayService.t) (n : Z) :
  steady rs0 s ->
  steady rs0 (RayService.setStatus
                (RayServiceStatuses.setNumServeEndpoints n (RayService.Status s)) s).
Proof. intros [Ha Hp]. split; assumption. Qed.

Lemma steady_setLastUpdateTime (rs0 s : RayService.t) (u : option Z) :
  steady rs0 s ->
  steady rs0 (RayService.setStatus
                (RayServiceStatuses.setLastUpdateTime u (RayService.Status s)) s).
Proof. intros [Ha Hp]. split; assumption. Qed.

Lemma tick_setNumServeEndpoints (rs0 s : RayService.t) (n : Z) :
  tickInvariant rs0 s ->
  tickInvariant rs0 (RayService.setStatus
                       (RayServiceStatuses.setNumServeEndpoints n (RayService.Status s)) s).
Proof.
  intros [H | [Hr Hp]]; [left; now apply steady_setNumServeEndpoints|right].
  split; assumption.
Qed.

Lemma tick_setLastUpdateTime (rs0 s : RayService.t) (u : option Z) :
  tickInvariant rs0 s ->
  tickInvariant rs0 (RayService.setStatus
                       (RayServiceStatuses.setLastUpdateTime u (RayService.Status s)) s).
Proof.
  intros [H | [Hr Hp]]; [left; now apply steady_setLastUpdateTime|right].
  split; assumption.
Qed.

Lemma reconcileAfterServe_tick (X : Externals) (rs0 original rs : RayService.t)
    (active pending : option RayCluster.t) (isReady : bool) (w0 w : World) :
  tickInvariant rs0 rs -> (isReady = false -> steady rs0 rs) ->
  issues (statusWriteOf (tickInvariant rs0)) w0 w ->
  wp (reconcileAfterServe X original rs active pending isReady)
     (fun r w' => tickOutcome rs0 w0 w' r) w.
Proof.
  intros Ht Hs Hw.
  assert (Hkeep : forall s,
         RayService.ActiveName s = RayService.ActiveName rs ->
         RayServiceStatuses.ServiceStatus (RayService.Status s)
           = RayServiceStatuses.ServiceStatus (RayService.Status rs) ->
         RayServiceStatuses.PendingServiceStatus (RayService.Status s)
           = RayServiceStatuses.PendingServiceStatus (RayService.Status rs) ->
         tickInvariant rs0 s /\ (isReady = false -> steady rs0 s))
    by (intros s Ha Hv Hp; split;
        [destruct Ht as [[Ha' Hp']|[Hr' Hp']];
         [left; split; [now rewrite Ha|unfold pendingSnapshot in *; now rewrite Hp]
         |right; split; [now rewrite Hv|now rewrite Hp]]
        |intros E; destruct (Hs E) as [Ha' Hp']; split;
         [now rewrite Ha|unfold pendingSnapshot in *; now rewrite Hp]]).
  unfold reconcileAfterServe, tickOutcome.
  destruct (negb isReady && negb (isEagerExposesServicesEnabled X)).
  { apply wp_ret. split; [exact Hw|]. cbn [requeue finalInstance finalReady].
    apply Hkeep; reflexivity. }
  cbv zeta. apply wp_bind. eapply wp_mono; [apply networkStep_spec|].
  intros r1 w1 Hnet.
  pose proof (networkOutcome_issues X _ w0 w w1 r1 Hw Hnet) as Hw1. clear Hw Hnet.
  destruct r1 as [svcErr|]; [|exact (conj Hw1 I)].
  unfold calculateStatus, StatusUpdate, Now, requeue.
  wp_steps; cbn [finalInstance finalReady].
  all: try discriminate.
  all: split;
    [issues_close;
     try (constructor; [cbn [statusWriteOf]; eapply proj1, Hkeep; reflexivity|constructor]);
     try (constructor; fail)
    |apply Hkeep; reflexivity].
Qed.

Lemma cleanUpServeConfigCache_calls (X : Externals) (rs : RayService.t) (w : World) :
  wp (cleanUpServeConfigCache rs)
     (fun r w' => r = Returns tt /\ calls w' = calls w) w.
Proof.
  unfold cleanUpServeConfigCache. cbv zeta. apply wp_bind, wp_ServeConfigsGet.
  destruct (lru.find _ _); wp_steps; split; reflexivity.
Qed.

Lemma clusterRequest_statusWrite (S : RayService.t -> Prop) (c : Call) :
  clusterRequest c -> statusWriteOf S c.
Proof. destruct c; simpl; tauto. Qed.

(** A tick of the reconciler on the stored instance [rs0]. *)
Lemma Reconcile_tick (X : Externals) (request : string * string) (rs0 : RayService.t)
    (w : World) :
  rayServices w !! request = Some rs0 ->
  wp (Reconcile X request) (fun r w' => tickOutcome rs0 w w' r) w.
Proof.
  intros Hrs. unfold Reconcile, getRayServiceInstance, GetRayService.
  apply wp_bind, wp_bind, wp_next.
  destruct (fault X (position w)) eqn:Hf.
  { wp_steps. split; [issues_close|exact I]. }
  apply wp_bind, wp_gets. wsimpl. rewrite Hrs. apply wp_ret.
  destruct (validateRayServiceSpec rs0) eqn:Hv.
  { unfold Eventf. wp_steps. split; [issues_close; repeat constructor|].
    cbn [requeue finalInstance finalReady].
    split; [left|intros _]; apply steady_refl. }
  apply wp_bind. eapply wp_mono; [apply (cleanUpServeConfigCache_calls X)|].
  intros r w1 [-> Hc1]. wsimpl.
  assert (H1 : issues (statusWriteOf (tickInvariant rs0)) w w1)
    by (apply (issues_same _ w w); [apply issues_refl|exact Hc1]).
  cbv zeta. apply wp_bind.
  eapply wp_mono; [apply reconcileRayCluster_spec|].
  intros [[[[active pending] e] rs']|] w2 [Hi Hr]; [|split; [|exact I]].
  2:{ eapply issues_trans; [exact H1|]. eapply issues_impl; [|exact Hi].
      apply clusterRequest_statusWrite. }
  assert (H2 : issues (statusWriteOf (tickInvariant rs0)) w w2).
  { eapply issues_trans; [exact H1|]. eapply issues_impl; [|exact Hi].
    apply clusterRequest_statusWrite. }
  destruct Hr as [Hrs' Hactive].
  set (rs1 := RayService.setStatus _ rs0) in *.
  assert (Hs1 : steady rs0 rs1) by (split; [reflexivity|now left]).
  assert (Hs' : steady rs0 rs').
  { destruct Hrs' as [->|Hre]; [exact Hs1|exact (steady_restarted rs0 rs1 rs' Hs1 Hre)]. }
  assert (Hname : RayService.ActiveName rs' = RayService.ActiveName rs1).
  { destruct Hrs' as [->|[name ->]]; reflexivity. }
  destruct e as [e|].
  { apply wp_ret. split; [exact H2|]. cbn [requeue finalInstance finalReady].
    split; [now left|auto]. }
  destruct (negb (String.eqb (RayService.PendingName rs') "") && negb (notNil pending)) eqn:Hp.
  { unfold StatusUpdate. wp_steps.
    all: split; [issues_close; constructor; [cbn [statusWriteOf]; now left|constructor]|].
    all: cbn [requeue finalInstance finalReady]; split; [now left|auto]. }
  apply wp_bind.
  eapply wp_mono;
    [apply (reconcileServeFor_tick X rs0 rs' active pending w w2 Hs');
     [intros E; rewrite Hname; exact (Hactive eq_refl E)|exact H2]|].
  intros r w3 (H3 & isReady & e & s' & -> & Ht & Hst & He).
  destruct e as [e|].
  { apply wp_ret. split; [exact H3|]. cbn [requeue finalInstance finalReady].
    split; [exact Ht|]. intros _.
    destruct isReady; [now specialize (He eq_refl)|auto]. }
  apply (reconcileAfterServe_tick X rs0 rs0 s' active pending isReady w w3 Ht Hst H3).
Qed.

(** ** Role transitions *)

Lemma served_roleOutcome (rs : RayService.t) (c : RayCluster.t) (isActive : bool)
    (r : Exec ((bool * option error) * RayService.t)) :
  served isActive (setActiveRayClusterStatus (RayCluster.Status c) rs) c r ->
  exists isReady e rs', r = Returns ((isReady, e), rs')
    /\ roleOutcome rs c isActive isReady rs'.
Proof.
  intros (isReady & e & s' & -> & Hs). exists isReady, e, s'.
  split; [reflexivity|].
  destruct Hs as [(-> & [-> | [apps ->]]) | (-> & -> & [apps ->])].
  - right. split; [now left|]. repeat split; discriminate.
  - right. split; [now left|]. destruct isActive; repeat split; discriminate.
  - unfold updateRayClusterInfo.
    assert (Hn : RayService.ActiveName
                   (withServiceStatus Running
                      (polled isActive apps
                         (setActiveRayClusterStatus (RayCluster.Status c) rs)))
                 = RayService.ActiveName rs) by now destruct isActive.
    rewrite Hn. clear Hn.
    destruct (String.eqb (RayService.ActiveName rs) (RayCluster.Name c)) eqn:En.
    + apply String.eqb_eq in En. right. split; [now right|].
      destruct isActive; repeat split; reflexivity.
    + apply String.eqb_neq in En. left. split; [reflexivity|]. split; [exact En|].
      split; [exists apps; now destruct isActive|].
      destruct isActive; split; reflexivity.
Qed.

Lemma notReadyWrite_frame (rs s : RayService.t) (c : RayCluster.t) (isActive : bool) :
  notReadyWrite isActive (setActiveRayClusterStatus (RayCluster.Status c) rs) s ->
  RayService.ActiveName s = RayService.ActiveName rs
  /\ RayServiceStatus.RayClusterStatus (getSlot true s) = RayCluster.Status c
  /\ pendingSnapshot s = pendingSnapshot rs.
Proof. intros [apps ->]. destruct isActive; repeat split; reflexivity. Qed.

Lemma reconcileServe_roleOutcome (X : Externals) (rs : RayService.t) (c : RayCluster.t)
    (isActive : bool) (w : World) :
  wp (reconcileServe X rs c isActive)
     (fun r w' =>
        issues (statusWriteOf
                  (fun s => RayService.ActiveName s = RayService.ActiveName rs
                            /\ RayServiceStatus.RayClusterStatus (getSlot true s)
                               = RayCluster.Status c
                            /\ pendingSnapshot s = pendingSnapshot rs)) w w'
        /\ exists isReady e rs', r = Returns ((isReady, e), rs')
             /\ roleOutcome rs c isActive isReady rs') w.
Proof.
  eapply wp_mono; [apply reconcileServe_served|].
  intros r w' [Hi Hr]. cbv zeta in Hi, Hr. split.
  - eapply issues_impl; [|exact Hi]. intros [| | |s| | | |]; simpl; auto.
    apply notReadyWrite_frame.
  - now apply served_roleOutcome.
Qed.

(** C3. The promotion step [updateRayClusterInfo] moves the pending slot
    into the active slot and resets the pending slot to the zero value
    when the active name is not the name it is given, and does nothing
    otherwise.  The cluster name in the active slot changes only when
    [reconcileServe] returns ready for a target cluster that does not carry
    the active name; in that event, and in no other, the active slot takes
    the pending slot as it then stands, the pending slot is reset to the
    zero value and the service status is Running.  Over a whole tick of
    [Reconcile] on the stored instance [rs0]: every status the tick writes
    carries the active name of [rs0] unless it is a promoted status
    (Running, pending slot zero), and the instance the tick leaves carries
    another active name than [rs0] only when the Serve applications were
    found ready, and is then a promoted one. *)
Theorem active_role_transition (X : Externals) :
  (forall s name,
      let s' := updateRayClusterInfo s name in
      (RayService.ActiveName s <> name ->
       getSlot true s' = getSlot false s /\ getSlot false s' = RayServiceStatus.zero)
      /\ (RayService.ActiveName s = name -> s' = s))
  /\ (forall rs c isActive w,
      wp (reconcileServe X rs c isActive)
         (fun r _ =>
            exists isReady e rs', r = Returns ((isReady, e), rs')
              /\ roleOutcome rs c isActive isReady rs'
              /\ (RayService.ActiveName rs' <> RayService.ActiveName rs ->
                  isReady = true /\ RayService.ActiveName rs <> RayCluster.Name c)) w)
  /\ (forall request rs0 w,
        rayServices w !! request = Some rs0 ->
        wp (Reconcile X request)
           (fun r w' =>
              issues (statusWriteOf
                        (fun s => RayService.ActiveName s = RayService.ActiveName rs0
                                  \/ promotedState s)) w w'
              /\ forall res rsF,
                   r = Returns res -> finalInstance res = Some rsF ->
                   RayService.ActiveName rsF <> RayService.ActiveName rs0 ->
                   finalReady res = true /\ promotedState rsF) w).
Proof.
  split; [|split].
  - intros s name s'. subst s'. unfold updateRayClusterInfo.
    destruct (String.eqb_spec (RayService.ActiveName s) name) as [E|E]; cbn [negb].
    + split; [contradiction|reflexivity].
    + split; [intros _; split; reflexivity|contradiction].
  - intros rs c isActive w.
    eapply wp_mono; [apply reconcileServe_roleOutcome|].
    intros r w' [_ (isReady & e & rs' & -> & Hr)]. exists isReady, e, rs'.
    split; [reflexivity|]. split; [exact Hr|]. intros Hn.
    destruct Hr as [(Hready & Hname & _) | (_ & Hkeep & _)]; [now split|contradiction].
  - intros request rs0 w Hrs.
    eapply wp_mono; [apply (Reconcile_tick X request rs0 w Hrs)|].
    intros r w' [Hi Hr]. split.
    + eapply issues_impl; [|exact Hi]. intros [| | |s| | | |]; simpl; auto.
      intros [[Ha _] | Hp]; [now left|now right].
    + intros res rsF -> HF Hn. cbn in Hr. rewrite HF in Hr. destruct Hr as [Ht Hs].
      destruct (finalReady res).
      * split; [reflexivity|]. destruct Ht as [[Ha _] | Hp]; [contradiction|exact Hp].
      * destruct (Hs eq_refl) as [Ha _]. contradiction.
Qed.

Lemma active_role_transition_witness :
  let X := quietRun oneApp in
  let w := worldOf [coldSecond] [] in
  rayServices w !! ("svc", "a") = Some coldSecond
  /\ wp (Reconcile X ("svc", "a"))
        (fun r w' =>
           issues (statusWriteOf
                     (fun s => RayService.ActiveName s = RayService.ActiveName coldSecond
                               \/ promotedState s)) w w'
           /\ forall res rsF,
                r = Returns res -> finalInstance res = Some rsF ->
                RayService.ActiveName rsF <> RayService.ActiveName coldSecond ->
                finalReady res = true /\ promotedState rsF) w.
Proof.
  split; [reflexivity|].
  apply (proj2 (proj2 (active_role_transition (quietRun oneApp)))). reflexivity.
Defined.

(** The second tick of a cold start creates the cluster, pushes the
    configuration, finds the application running and promotes. *)
Example promotion_run :
  let r := Reconcile (quietRun oneApp) ("svc", "a") (worldOf [coldSecond] []) in
  match fst r with
  | Panics => None
  | Returns res =>
      option_map (fun s => (RayService.ActiveName s, RayService.PendingName s,
                            RayServiceStatuses.ServiceStatus (RayService.Status s),
                            finalReady res))
        (finalInstance res)
  end = Some ("a-raycluster-1", "", Running, true).
Proof. vm_compute. reflexivity. Qed.

(** ** The snapshot of the cluster status *)

(** C10. Every call of [reconcileServe], whichever slot it works on, puts
    the status of the target cluster into the active slot: every status it
    writes holds it there, and so does the instance it leaves unless the
    call promotes (then the active slot is the former pending slot).  The
    snapshot in the pending slot is never given a value: [reconcileServe]
    keeps it or, promoting, resets the slot, and every status a tick of
    [Reconcile] writes, and the instance it leaves, holds in the pending
    slot the snapshot of the stored instance or the zero value. *)
Theorem pending_snapshot_never_written (X : Externals) :
  (forall rs c isActive w,
      wp (reconcileServe X rs c isActive)
         (fun r w' =>
            issues (statusWriteOf
                      (fun s => RayServiceStatus.RayClusterStatus (getSlot true s)
                                = RayCluster.Status c
                                /\ pendingSnapshot s = pendingSnapshot rs)) w w'
            /\ exists isReady e rs', r = Returns ((isReady, e), rs')
                 /\ (isReady = false \/ RayService.ActiveName rs = RayCluster.Name c ->
                     RayServiceStatus.RayClusterStatus (getSlot true rs')
                     = RayCluster.Status c
                     /\ pendingSnapshot rs' = pendingSnapshot rs)
                 /\ (isReady = true ->
                     RayService.ActiveName rs <> RayCluster.Name c ->
                     RayServiceStatus.RayClusterStatus (getSlot true rs')
                     = pendingSnapshot rs
                     /\ pendingSnapshot rs' = RayClusterStatus.zero)) w)
  /\ (forall request rs0 w,
        rayServices w !! request = Some rs0 ->
        wp (Reconcile X request)
           (fun r w' =>
              issues (statusWriteOf
                        (fun s => pendingSnapshot s = pendingSnapshot rs0
                                  \/ pendingSnapshot s = RayClusterStatus.zero)) w w'
              /\ forall res rsF,
                   r = Returns res -> finalInstance res = Some rsF ->
                   pendingSnapshot rsF = pendingSnapshot rs0
                   \/ pendingSnapshot rsF = RayClusterStatus.zero) w).
Proof.
  split.
  - intros rs c isActive w.
    eapply wp_mono; [apply reconcileServe_roleOutcome|].
    intros r w' [Hi (isReady & e & rs' & -> & Hr)]. split.
    + eapply issues_impl; [|exact Hi]. intros [| | |s| | | |]; simpl; auto. tauto.
    + exists isReady, e, rs'. split; [reflexivity|].
      destruct Hr as [(Hready & Hname & [apps Ha] & Hp & _)
                     | (Hcase & _ & _ & Ha & Hp & _)].
      * split.
        { intros [E | E]; [congruence|contradiction]. }
        intros _ _. unfold pendingSnapshot.
        change (RayServiceStatuses.PendingServiceStatus (RayService.Status rs'))
          with (getSlot false rs').
        rewrite Ha, Hp. split; [now destruct isActive|reflexivity].
      * split; [intros _; now split|].
        intros E1 E2. destruct Hcase as [E | E]; [congruence|contradiction].
  - intros request rs0 w Hrs.
    eapply wp_mono; [apply (Reconcile_tick X request rs0 w Hrs)|].
    assert (Hsnap : forall s, tickInvariant rs0 s ->
              pendingSnapshot s = pendingSnapshot rs0
              \/ pendingSnapshot s = RayClusterStatus.zero).
    { intros s [[_ Hp] | [_ Hp]]; [exact Hp|right].
      unfold pendingSnapshot. now rewrite Hp. }
    intros r w' [Hi Hr]. split.
    + eapply issues_impl; [|exact Hi]. intros [| | |s| | | |]; simpl; auto.
    + intros res rsF -> HF. cbn in Hr. rewrite HF in Hr. apply Hsnap, Hr.
Qed.

Lemma pending_snapshot_never_written_witness :
  let X := quietRun oneApp in
  let w := worldOf [coldSecond] [] in
  rayServices w !! ("svc", "a") = Some coldSecond
  /\ wp (Reconcile X ("svc", "a"))
        (fun r w' =>
           issues (statusWriteOf
                     (fun s => pendingSnapshot s = pendingSnapshot coldSecond
                               \/ pendingSnapshot s = RayClusterStatus.zero)) w w'
           /\ forall res rsF,
                r = Returns res -> finalInstance res = Some rsF ->
                pendingSnapshot rsF = pendingSnapshot coldSecond
                \/ pendingSnapshot rsF = RayClusterStatus.zero) w.
Proof.
  split; [reflexivity|].
  apply (proj2 (pending_snapshot_never_written (quietRun oneApp))). reflexivity.
Defined.

(** ** Pushes of the Serve configuration *)

Lemma pushes_app (l1 l2 : list Call) : pushes (l1 ++ l2) = pushes l1 + pushes l2.
Proof. unfold pushes. now rewrite List.filter_app, length_app. Qed.

Lemma pushedSince_refl (w : World) : pushedSince 0 w w.
Proof. exists []. split; [now rewrite app_nil_r|reflexivity]. Qed.

Lemma pushedSince_step (n : nat) (w w1 w' : World) (l : list Call) :
  pushedSince n w w1 -> calls w' = (calls w1 ++ l)%list ->
  pushedSince (n + pushes l) w w'.
Proof.
  intros (l1 & H1 & F1) H2. exists (l1 ++ l)%list.
  split; [now rewrite H2, H1, app_assoc|]. now rewrite pushes_app, F1.
Qed.

Lemma pushedSince_same (n : nat) (w w1 w' : World) :
  pushedSince n w w1 -> calls w' = calls w1 -> pushedSince n w w'.
Proof.
  intros H Hc. replace n with (n + pushes []) by (cbn; lia).
  apply (pushedSince_step n w w1 w' []); [exact H|now rewrite app_nil_r].
Qed.

Lemma sameCache_trans (w w1 w' : World) :
  sameCache w w1 -> sameCache w1 w' -> sameCache w w'.
Proof. intros H1 H2 k n. now rewrite H2, H1. Qed.

Lemma reconcileServeOnReadyHead_pushes (X : Externals) (rs : RayService.t)
    (c : RayCluster.t) (isActive : bool) (w : World) :
  wp (reconcileServeOnReadyHead X rs c isActive)
     (fun r w' => pushOutcome rs c isActive w w' r) w.
Proof.
  unfold reconcileServeOnReadyHead, FetchHeadServiceURL, InitClient.
  wp_steps.
  1-3: eexists _, _, _; (split; [reflexivity|]); left;
       (split; [apply (pushedSince_same 0 w w); [apply pushedSince_refl|reflexivity]
               |now apply sameCache_ServeConfigs]).
  eapply wp_mono; [apply checkIfNeedSubmitServeDeployment_spec|].
  intros r w1 (Hc1 & Hs1 & shouldUpdate & -> & Hiff). wsimpl.
  assert (H1 : pushedSince 0 w w1)
    by (apply (pushedSince_same 0 w w); [apply pushedSince_refl|exact Hc1]).
  assert (S1 : sameCache w w1).
  { eapply sameCache_trans; [|exact Hs1]. now apply sameCache_ServeConfigs. }
  assert (Hset : shouldUpdate = false <-> pushSettled w rs (RayCluster.Name c) (getSlot isActive rs))
    by exact Hiff.
  clear Hiff Hc1 Hs1. apply wp_bind.
  assert (Htail : forall n w2,
            pushedSince n w w2 ->
            wp (do '((isReady, err), rayServiceStatus) <-
                  getAndCheckServeStatus X (headServiceURL X (position w))
                    (getSlot isActive rs);
                match err with
                | Some _ => ret ((false, err), rs)
                | None =>
                    let rayServiceInstance := setSlot isActive rayServiceStatus rs in
                    if isReady then
                      let rayServiceInstance :=
                        RayService.setStatus
                          (RayServiceStatuses.setServiceStatus Running
                             (RayService.Status rayServiceInstance)) rayServiceInstance in
                      ret ((true, None),
                           updateRayClusterInfo rayServiceInstance (RayCluster.Name c))
                    else
                      let rayServiceInstance :=
                        RayService.setStatus
                          (RayServiceStatuses.setServiceStatus WaitForServeDeploymentReady
                             (RayService.Status rayServiceInstance)) rayServiceInstance in
                      do err <- StatusUpdate X rayServiceInstance;
                      match err with
                      | Some _ => ret ((false, err), rayServiceInstance)
                      | None => ret ((false, None), rayServiceInstance)
                      end
                end)
               (fun r w' => exists isReady e rs', r = Returns ((isReady, e), rs')
                              /\ pushedSince n w w' /\ sameCache w2 w') w2).
  { intros n w2 H2. apply wp_bind.
    eapply wp_mono; [apply getAndCheckServeStatus_spec|].
    intros r w3 (Hc3 & Hs3 & isReady & e & slot' & -> & _).
    assert (H3 : pushedSince n w w3) by now apply (pushedSince_same n w w2).
    assert (S3 : sameCache w2 w3) by now apply sameCache_ServeConfigs.
    destruct e as [e|]; [apply wp_ret; eauto 8|].
    destruct isReady; [apply wp_ret; eauto 8|].
    unfold StatusUpdate. wp_steps.
    all: eexists _, _, _; (split; [reflexivity|]); split;
      [replace n with (n + pushes [UpdateStatus
          (RayService.setStatus
             (RayServiceStatuses.setServiceStatus WaitForServeDeploymentReady
                (RayService.Status (setSlot isActive slot' rs)))
             (setSlot isActive slot' rs))]) by (cbn; lia);
       eapply pushedSince_step; [exact H3|wsimpl; reflexivity]
      |eapply sameCache_trans; [exact S3|now apply sameCache_ServeConfigs]]. }
  destruct shouldUpdate.
  - eapply wp_mono; [apply updateServeDeployment_spec|].
    intros r w2 (e & -> & [(He & Hc & Hsc) | (json & Hc & Hcache)]).
    + destruct e as [e|]; [|contradiction]. apply wp_ret.
      eexists _, _, _. split; [reflexivity|]. left.
      split; [now apply (pushedSince_same 0 w w1)|now apply (sameCache_trans w w1 w2)].
    + assert (H2 : pushedSince 1 w w2)
        by exact (pushedSince_step 0 w w1 w2 _ H1 Hc).
      assert (Hn : ~ pushSettled w rs (RayCluster.Name c) (getSlot isActive rs))
        by (intros Hp; apply Hset in Hp; discriminate).
      destruct e as [e|].
      * apply wp_ret. eexists _, _, _. split; [reflexivity|]. right.
        split; [exact H2|]. split; [exact Hn|discriminate].
      * eapply wp_mono; [apply (Htail 1 w2 H2)|].
        intros r w3 (isReady & e & rs' & -> & H3 & S3).
        eexists _, _, _. split; [reflexivity|]. right.
        split; [exact H3|]. split; [exact Hn|].
        intros _ Hne. rewrite S3. now apply Hcache.
  - apply wp_ret. eapply wp_mono; [apply (Htail 0 w1 H1)|].
    intros r w3 (isReady & e & rs' & -> & H3 & S3).
    eexists _, _, _. split; [reflexivity|]. left.
    split; [exact H3|now apply (sameCache_trans w w1 w3)].
Qed.

Lemma pushSettled_marked (w : World) (rs : RayService.t) (cs : RayClusterStatus.t)
    (name : string) (isActive : bool) :
  pushSettled w (setActiveRayClusterStatus cs rs) name
    (getSlot isActive (setActiveRayClusterStatus cs rs))
  <-> pushSettled w rs name (getSlot isActive rs).
Proof. destruct isActive; reflexivity. Qed.

Lemma reconcileServe_pushes (X : Externals) (rs : RayService.t) (c : RayCluster.t)
    (isActive : bool) (w : World) :
  wp (reconcileServe X rs c isActive) (fun r w' => pushOutcome rs c isActive w w' r) w.
Proof.
  assert (Hhead : forall w1,
            calls w1 = calls w -> ServeConfigs w1 = ServeConfigs w ->
            wp (reconcileServeOnReadyHead X
                  (setActiveRayClusterStatus (RayCluster.Status c) rs) c isActive)
               (fun r w' => pushOutcome rs c isActive w w' r) w1).
  { intros w1 Hc Hs. eapply wp_mono; [apply reconcileServeOnReadyHead_pushes|].
    assert (S1 : sameCache w w1) by now apply sameCache_ServeConfigs.
    intros r w' (isReady & e & rs' & -> & H). exists isReady, e, rs'.
    split; [reflexivity|].
    destruct H as [[(l & Hl & Hn) S] | ((l & Hl & Hn) & Hset & Hcache)].
    - left. split; [exists l; now rewrite Hl, Hc|now apply (sameCache_trans w w1 w')].
    - right. split; [exists l; now rewrite Hl, Hc|]. split; [|exact Hcache].
      intros Hp. apply Hset, pushSettled_marked.
      destruct Hp as (H1 & H2 & H3). unfold pushSettled. rewrite !S1. auto. }
  unfold reconcileServe, isHeadPodRunningAndReady.
  wp_steps.
  all: try (eexists _, _, _; (split; [reflexivity|]); left;
            split; [apply (pushedSince_same 0 w w); [apply pushedSince_refl|reflexivity]
                   |now apply sameCache_ServeConfigs]).
  all: apply Hhead; reflexivity.
Qed.



(** The two runs of the lemma above push once. *)
Example push_once_run :
  let X := quietRun oneApp in
  let first := Reconcile X ("svc", "a") (worldOf [settledOnV1] [activeV1]) in
  let second := Reconcile X ("svc", "a") (snd first) in
  pushes (calls (snd first)) = 1 /\ pushes (calls (snd second)) = 1.
Proof. split; vm_compute; reflexivity. Qed.


(** ** Creation of the pending cluster *)

Lemma noneAdded_same (w w' : World) : rayClusters w' = rayClusters w -> noneAdded w w'.
Proof. intros H key Hk. now rewrite H. Qed.

Lemma noneAdded_trans (w w1 w' : World) : noneAdded w w1 -> noneAdded w1 w' -> noneAdded w w'.
Proof. intros H1 H2 key Hk. apply H2, H1, Hk. Qed.

Ltac no_fault Hq :=
  repeat match goal with
         | H : fault _ _ = Some _ |- _ => rewrite Hq in H; discriminate H
         end.

Lemma cleanUpRayClusters_faultless (X : Externals) (rs : RayService.t)
    (items : list RayCluster.t) :
  faultless X -> List.NoDup (map clusterKey items) ->
  forall w, (forall c, In c items -> is_Some (rayClusters w !! clusterKey c)) ->
    wp (cleanUpRayClusters X rs items)
       (fun r w' => r = Returns None /\ noneAdded w w') w.
Proof.
  intros Hq. induction items as [|c rest IH]; intros Hnd w Hst; cbn [cleanUpRayClusters].
  - apply wp_ret. split; [reflexivity|intros k H; exact H].
  - simpl in Hnd. apply List.NoDup_cons_iff in Hnd as [Hfresh Hnd]. specialize (IH Hnd).
    assert (Hgo : forall w1,
              noneAdded w w1 ->
              (forall c', In c' rest -> is_Some (rayClusters w1 !! clusterKey c')) ->
              wp (cleanUpRayClusters X rs rest)
                 (fun r w' => r = Returns None /\ noneAdded w w') w1).
    { intros w1 Hn Hs1. eapply wp_mono; [apply (IH w1 Hs1)|].
      intros r w' [-> Hn']. split; [reflexivity|].
      exact (noneAdded_trans w w1 w' Hn Hn'). }
    assert (Hkeep : forall c', In c' rest -> is_Some (rayClusters w !! clusterKey c'))
      by (intros c' Hin; apply Hst; now right).
    destruct (negb (String.eqb (RayCluster.Name c) (RayService.ActiveName rs))
              && negb (String.eqb (RayCluster.Name c) (RayService.PendingName rs))).
    2: { apply Hgo; [intros k H; exact H|exact Hkeep]. }
    apply wp_bind, wp_gets.
    destruct (RayClusterDeletionTimestamps w !! RayCluster.Name c) as [t|].
    + unfold Now. do 4 wp_step.
      destruct (0 <? clock X (position w) - t)%Z.
      * unfold Delete. wp_steps; no_fault Hq.
        -- apply Hgo; wsimpl.
           ++ intros k Hk. apply lookup_delete_None. now right.
           ++ intros c' Hin. rewrite lookup_delete_ne; [now apply Hkeep|].
              intros E. apply Hfresh. rewrite E. now apply in_map.
        -- wsimpl. destruct (Hst c (or_introl eq_refl)) as [x Hx]. congruence.
      * apply Hgo; [now apply noneAdded_same|exact Hkeep].
    + unfold Now. wp_steps. apply Hgo; [now apply noneAdded_same|exact Hkeep].
Qed.

Lemma cleanUpRayClusterInstance_faultless (X : Externals) (rs : RayService.t) (w : World) :
  faultless X -> wellKeyed w ->
  wp (cleanUpRayClusterInstance X rs)
     (fun r w' => r = Returns None /\ noneAdded w w') w.
Proof.
  intros Hq Hwk. unfold cleanUpRayClusterInstance, ListRayClusters. wp_steps; no_fault Hq.
  eapply wp_mono; [apply (cleanUpRayClusters_faultless X rs _ Hq)|].
  - assert (Hkeys : map clusterKey (map snd (map_to_list (rayClusters w)))
                    = map fst (map_to_list (rayClusters w))).
    { rewrite map_map. apply map_ext_in. intros [k c] Hin. simpl.
      apply Hwk. now apply elem_of_map_to_list, list_elem_of_In. }
    pose proof (proj1 (NoDup_ListNoDup _) (NoDup_fst_map_to_list (rayClusters w))) as Hnd.
    change (List.NoDup (map fst (map_to_list (rayClusters w)))) in Hnd.
    rewrite <- Hkeys in Hnd.
    exact (NoDup_map_filter clusterKey (associated rs) _ Hnd).
  - intros c Hin. wsimpl. apply filter_In in Hin as [Hin _].
    apply in_map_iff in Hin as ([k c'] & <- & Hin). simpl.
    apply list_elem_of_In, elem_of_map_to_list in Hin.
    rewrite (Hwk k c' Hin). now exists c'.
  - intros r w' [-> Hn]. split; [reflexivity|exact Hn].
Qed.

Lemma wp_conj {A : Type} (m : M A) (Q1 Q2 : Exec A -> World -> Prop) (w : World) :
  wp m Q1 w -> wp m Q2 w -> wp m (fun r w' => Q1 r w' /\ Q2 r w') w.
Proof. unfold wp. auto. Qed.

Lemma getRayClusterByNamespacedName_faultless (X : Externals) (key : string * string)
    (w : World) :
  faultless X ->
  wp (getRayClusterByNamespacedName X key)
     (fun r w' =>
        calls w' = calls w /\ rayClusters w' = rayClusters w
        /\ exists c, r = Returns (c, None)
             /\ (snd key <> "" -> rayClusters w !! key = None -> c = Some RayCluster.zero)) w.
Proof.
  intros Hq. unfold getRayClusterByNamespacedName, GetRayCluster.
  destruct (String.eqb_spec (snd key) "") as [He|He].
  - apply wp_ret. repeat split. eexists. split; [reflexivity|]. contradiction.
  - wp_steps; no_fault Hq; wsimpl; try discriminate.
    all: repeat split; eexists; (split; [reflexivity|]); intros _ Hnone; congruence.
Qed.

Lemma decideClusterAction_pending_named (X : Externals) (rs : RayService.t)
    (a a' p : option RayCluster.t) :
  RayService.PendingName rs <> "" ->
  decideClusterAction X rs a p = decideClusterAction X rs a' p.
Proof.
  intros Hp. unfold decideClusterAction.
  destruct (String.eqb_spec (RayService.PendingName rs) ""); [contradiction|reflexivity].
Qed.

Lemma decideClusterAction_pending_total (X : Externals) (rs : RayService.t)
    (active : option RayCluster.t) (pending : RayCluster.t) :
  RayService.PendingName rs <> "" ->
  exists a, decideClusterAction X rs active (Some pending) = Returns a
            /\ (a = DoNothing \/ a = UpdatePendingCluster \/ a = CreatePendingCluster).
Proof.
  intros Hp. unfold decideClusterAction.
  destruct (String.eqb_spec (RayService.PendingName rs) ""); [contradiction|].
  cbn [negb]. cbv zeta.
  repeat match goal with
         | |- context [let '(_, _) := ?x in _] => destruct x
         | |- context [if ?b then _ else _] => destruct b
         | |- context [match ?e with Some _ => _ | None => _ end] => destruct e
         end; eauto 6.
Qed.

Lemma decideClusterAction_absent (X : Externals) (rs : RayService.t)
    (active : option RayCluster.t) :
  RayService.PendingName rs <> "" ->
  decideClusterAction X rs active (Some RayCluster.zero) = Returns CreatePendingCluster
  <-> createsOverEmpty X (RayServiceSpec.RayClusterSpec (RayService.Spec rs)).
Proof.
  intros Hp. unfold decideClusterAction, createsOverEmpty.
  destruct (String.eqb_spec (RayService.PendingName rs) ""); [contradiction|].
  cbn [negb RayCluster.Spec RayCluster.zero RayClusterSpec.WorkerGroupSpecs
       RayClusterSpec.zero length take]. cbv zeta.
  set (desired := RayServiceSpec.RayClusterSpec (RayService.Spec rs)).
  destruct (compareRayClusterJsonHash RayClusterSpec.zero desired _) as [same e].
  destruct (RayClusterSpec.WorkerGroupSpecs desired) as [|g gs] eqn:Hg.
  - cbn [length Nat.ltb Nat.leb]. destruct e as [e|], same; cbn [notNil orb];
      split; try discriminate; try (intros [[=] _]); auto.
    intros _. split; [reflexivity|contradiction].
  - change (0 <? length (g :: gs))%nat with true. cbv iota.
    change (take 0 (g :: gs)) with (@nil WorkerGroupSpec.t).
    destruct (compareRayClusterJsonHash RayClusterSpec.zero (setWorkerGroupSpecs [] desired) _)
      as [same' e'].
    destruct e as [e|], same; cbn [notNil orb];
      try (split; [discriminate|intros [[=] _]]).
    assert (Hne : g :: gs <> []) by discriminate.
    destruct e' as [e'|], same';
      try (split; [discriminate|intros [_ H]; specialize (H Hne); discriminate H]).
    split; [intros _; split; [reflexivity|intros _; reflexivity]|reflexivity].
Qed.

Lemma createsOverEmpty_hashed (X : Externals) (desired : RayClusterSpec.t) :
  createsOverEmpty X desired ->
  exists hash, generateHashWithoutReplicasAndWorkersToDelete X desired = (hash, None).
Proof.
  intros [H _]. unfold compareRayClusterJsonHash in H.
  destruct (generateHashWithoutReplicasAndWorkersToDelete X RayClusterSpec.zero) as [h0 [e0|]];
    [discriminate|].
  destruct (generateHashWithoutReplicasAndWorkersToDelete X desired) as [h [e|]];
    [discriminate|]. now exists h.
Qed.

Lemma constructRayClusterForRayService_hashed (X : Externals) (rs : RayService.t)
    (name hash : string) :
  generateHashWithoutReplicasAndWorkersToDelete X
    (RayServiceSpec.RayClusterSpec (RayService.Spec rs)) = (hash, None) ->
  exists created,
    constructRayClusterForRayService X rs name = (Some created, None)
    /\ RayCluster.Name created = name
    /\ RayCluster.Namespace created = RayService.Namespace rs
    /\ RayCluster.Spec created = RayServiceSpec.RayClusterSpec (RayService.Spec rs).
Proof.
  intros Hh. unfold constructRayClusterForRayService, SetControllerReference.
  rewrite Hh. cbn [RayCluster.Namespace RayCluster.OwnerReferences existsb].
  rewrite String.eqb_refl. cbn [negb]. eexists. split; [reflexivity|]. repeat split.
Qed.

(** C1, as amended.  With a pending name on record, the planner
    returns on every non-nil pending cluster, with DoNothing,
    UpdatePendingCluster or CreatePendingCluster; on the zero-valued
    cluster that stands for an absent one it returns CreatePendingCluster
    exactly when the hashes of the desired spec, and of the desired spec
    without its worker groups, are computed and differ from the hash of the
    empty spec.  In that case, when no cluster is stored under the pending
    name, no request fails and every cluster is stored under its own name,
    the lifecycle step returns without error, having constructed the
    cluster of the pending name from the desired spec, issued the create
    request for it as its last request, and stored it. *)
Theorem pending_cluster_creation (X : Externals) (rs : RayService.t) (w : World) :
  RayService.PendingName rs <> "" ->
  let desired := RayServiceSpec.RayClusterSpec (RayService.Spec rs) in
  (forall active pending,
      exists a, decideClusterAction X rs active (Some pending) = Returns a
                /\ (a = DoNothing \/ a = UpdatePendingCluster \/ a = CreatePendingCluster))
  /\ (forall active,
        decideClusterAction X rs active (Some RayCluster.zero) = Returns CreatePendingCluster
        <-> createsOverEmpty X desired)
  /\ (rayClusters w !! RayServicePendingRayClusterNamespacedName rs = None ->
      faultless X -> wellKeyed w -> createsOverEmpty X desired ->
      wp (reconcileRayCluster X rs)
         (fun r w' =>
            exists active created issued,
              r = Returns ((active, Some created, None), rs)
              /\ constructRayClusterForRayService X rs (RayService.PendingName rs)
                 = (Some created, None)
              /\ RayCluster.Name created = RayService.PendingName rs
              /\ RayCluster.Spec created = desired
              /\ rayClusters w' !! RayServicePendingRayClusterNamespacedName rs
                 = Some created
              /\ calls w' = (calls w ++ issued ++ [CreateRayCluster created])%list) w).
Proof.
  intros Hp desired. split; [|split].
  - intros active pending. now apply decideClusterAction_pending_total.
  - intros active. now apply decideClusterAction_absent.
  - intros Habsent Hq Hwk Hcreate.
    destruct (createsOverEmpty_hashed X desired Hcreate) as [hash Hh].
    destruct (constructRayClusterForRayService_hashed X rs (RayService.PendingName rs)
                hash Hh) as (created & Hcons & Hname & Hns & Hspec).
    unfold reconcileRayCluster. apply wp_bind.
    eapply wp_mono;
      [apply wp_conj;
       [apply (cleanUpRayClusterInstance_faultless X rs w Hq Hwk)
       |apply (cleanUpRayClusterInstance_requests X rs w)]|].
    intros r w1 [[-> Hn1] (issued & Hi1 & _)].
    apply wp_bind.
    eapply wp_mono; [apply (getRayClusterByNamespacedName_faultless X _ w1 Hq)|].
    intros r w2 (Hc2 & Hr2 & active & -> & _).
    apply wp_bind.
    eapply wp_mono; [apply (getRayClusterByNamespacedName_faultless X _ w2 Hq)|].
    intros r w3 (Hc3 & Hr3 & pending & -> & Hpend).
    assert (Hfree : rayClusters w3 !! RayServicePendingRayClusterNamespacedName rs = None)
      by (rewrite Hr3, Hr2; apply Hn1, Habsent).
    rewrite (Hpend Hp ltac:(rewrite Hr2; apply Hn1, Habsent)).
    apply wp_bind, wp_liftExec.
    rewrite (proj2 (decideClusterAction_absent X rs active Hp) Hcreate).
    apply wp_bind.
    unfold createRayClusterInstance, GetRayCluster.
    change (snd (RayServicePendingRayClusterNamespacedName rs))
      with (RayService.PendingName rs).
    rewrite Hcons. unfold Create.
    assert (Hkey : clusterKey created = RayServicePendingRayClusterNamespacedName rs)
      by (unfold clusterKey, RayServicePendingRayClusterNamespacedName;
          now rewrite Hname, Hns).
    rewrite Hkey.
    wp_steps; no_fault Hq; wsimpl; try congruence; try discriminate.
    exists active, created, issued. split; [reflexivity|]. split; [reflexivity|].
    split; [exact Hname|]. split; [exact Hspec|].
    split; [now rewrite lookup_insert_eq|].
    now rewrite Hc3, Hc2, Hi1, <- app_assoc.
Qed.

Lemma pending_cluster_creation_witness :
  let X := quietRun oneApp in
  let w := worldOf [coldSecond] [] in
  wp (reconcileRayCluster X coldSecond)
     (fun r w' =>
        exists active created issued,
          r = Returns ((active, Some created, None), coldSecond)
          /\ constructRayClusterForRayService X coldSecond (RayService.PendingName coldSecond)
             = (Some created, None)
          /\ RayCluster.Name created = RayService.PendingName coldSecond
          /\ RayCluster.Spec created
             = RayServiceSpec.RayClusterSpec (RayService.Spec coldSecond)
          /\ rayClusters w' !! RayServicePendingRayClusterNamespacedName coldSecond
             = Some created
          /\ calls w' = (calls w ++ issued ++ [CreateRayCluster created])%list) w.
Proof.
  intros X w.
  assert (Hp : RayService.PendingName coldSecond <> "") by discriminate.
  apply (proj2 (proj2 (pending_cluster_creation X coldSecond w Hp))).
  - reflexivity.
  - intros n. reflexivity.
  - intros key c H. cbn in H. rewrite lookup_empty in H. discriminate.
  - split; [reflexivity|]. intros _. reflexivity.
Defined.

(** C1 as stated fails.  The service asks for the empty cluster spec, a
    pending name is on record and no cluster is stored: the planner, handed
    the zero-valued cluster, finds equal hashes and returns DoNothing, and
    the lifecycle step issues no request and stores no cluster.  Handed no
    cluster at all, the planner does not return. *)
Lemma pending_absent_not_created_counterexample :
  let X := quietRun oneApp in
  let rs := serviceA RayClusterSpec.zero "applications: []"
              (statusOf Restarting "" "a-raycluster-1") in
  let w := worldOf [rs] [] in
  let step := reconcileRayCluster X rs w in
  RayService.PendingName rs = "a-raycluster-1"
  /\ rayClusters w !! ("svc", "a-raycluster-1") = None
  /\ validateRayServiceSpec rs = None
  /\ decideClusterAction X rs None (Some RayCluster.zero) = Returns DoNothing
  /\ fst step = Returns ((None, Some RayCluster.zero, None), rs)
  /\ calls (snd step) = []
  /\ rayClusters (snd step) !! ("svc", "a-raycluster-1") = None
  /\ decideClusterAction X coldSecond None None = Panics.
Proof. repeat split; vm_compute; reflexivity. Qed.

(** ** The Serve-config cache: clean-up and round trip *)

Lemma cachedConfig_modify (w : World) (key k n : string)
    (f : gmap string string -> gmap string string) :
  cachedConfig (setServeConfigs (lru.modify k f (ServeConfigs w)) w) key n
  = if String.eqb key k
    then match lru.find key (lru.entries (ServeConfigs w)) with
         | Some m => default "" (f m !! n)
         | None => ""
         end
    else cachedConfig w key n.
Proof.
  unfold cachedConfig. wsimpl. rewrite lru_find_modify.
  destruct (String.eqb key k); [|reflexivity].
  now destruct (lru.find key (lru.entries (ServeConfigs w))).
Qed.

Lemma cachedConfig_Get (w : World) (key k n : string) :
  cachedConfig (setServeConfigs (snd (lru.Get k (ServeConfigs w))) w) key n
  = cachedConfig w key n.
Proof. unfold cachedConfig. wsimpl. now rewrite lru_find_Get. Qed.

(** X1. [cleanUpServeConfigCache] keeps, for the service it is called for,
    the cached config of the active and of the pending cluster and drops
    the config of every other cluster; the entries of other services stay
    as they are, and no request is issued. *)
Theorem cleanUpServeConfigCache_keeps_live (rs : RayService.t) (w : World) :
  wp (cleanUpServeConfigCache rs)
     (fun r w' =>
        r = Returns tt
        /\ calls w' = calls w /\ position w' = position w
        /\ rayClusters w' = rayClusters w /\ rayServices w' = rayServices w
        /\ (forall n,
              n = RayService.ActiveName rs \/ n = RayService.PendingName rs ->
              cachedConfig w' (cacheKeyOf rs) n = cachedConfig w (cacheKeyOf rs) n)
        /\ (forall n,
              n <> RayService.ActiveName rs -> n <> RayService.PendingName rs ->
              cachedConfig w' (cacheKeyOf rs) n = "")
        /\ (forall k n, k <> cacheKeyOf rs -> cachedConfig w' k n = cachedConfig w k n)) w.
Proof.
  unfold cleanUpServeConfigCache. cbv zeta. apply wp_bind, wp_ServeConfigsGet.
  destruct (lru.find (cacheKeyOf rs) (lru.entries (ServeConfigs w))) as [m|] eqn:Hf.
  - apply wp_modify. repeat split; try reflexivity.
    + intros n Hn. rewrite cachedConfig_modify, String.eqb_refl. wsimpl.
      rewrite lru_find_Get, Hf. unfold cachedConfig. rewrite Hf.
      destruct (m !! n) as [v|] eqn:Hm.
      * now rewrite (map_lookup_filter_Some_2 _ m n v Hm Hn).
      * now rewrite (map_lookup_filter_None_2 _ m n (or_introl Hm)).
    + intros n Ha Hp. rewrite cachedConfig_modify, String.eqb_refl. wsimpl.
      rewrite lru_find_Get, Hf.
      rewrite map_lookup_filter_None_2; [reflexivity|].
      right. intros v _ [H|H]; simpl in H; contradiction.
    + intros k n Hk. rewrite cachedConfig_modify.
      rewrite (proj2 (String.eqb_neq k (cacheKeyOf rs)) Hk). apply cachedConfig_Get.
  - apply wp_ret. repeat split; try reflexivity.
    + intros n _. apply cachedConfig_Get.
    + intros n _ _. rewrite cachedConfig_Get. unfold cachedConfig. now rewrite Hf.
    + intros k n _. apply cachedConfig_Get.
Qed.

(** X2. Caching and reading back: after [cacheServeConfig] for a cluster,
    [getServeConfigFromCache] yields for that cluster the config text of
    the service, and for every other cluster of the service what the cache
    held before.  A service with an empty config text is never cached: the
    cache then holds what it held. *)
Theorem cache_round_trip (rs : RayService.t) (name name' : string) (w : World) :
  let config := RayServiceSpec.ServeConfigV2 (RayService.Spec rs) in
  wp (run cacheServeConfig rs name; getServeConfigFromCache rs name')
     (fun r w' =>
        calls w' = calls w
        /\ (config <> "" -> name' = name -> r = Returns config)
        /\ (name' <> name -> r = Returns (cachedConfig w (cacheKeyOf rs) name'))
        /\ (config = "" ->
            r = Returns (cachedConfig w (cacheKeyOf rs) name') /\ sameCache w w')) w.
Proof.
  intros config. apply wp_bind.
  assert (Hput : wp (cacheServeConfig rs name)
            (fun r w1 =>
               r = Returns tt /\ calls w1 = calls w
               /\ (config <> "" -> cachedConfig w1 (cacheKeyOf rs) name = config)
               /\ (forall n, n <> name ->
                     cachedConfig w1 (cacheKeyOf rs) n = cachedConfig w (cacheKeyOf rs) n)
               /\ (config = "" -> w1 = w)) w).
  { unfold cacheServeConfig. fold config.
    destruct (String.eqb_spec config "") as [Hempty|Hcfg].
    - apply wp_ret. repeat split; auto. intros H. contradiction.
    - apply wp_bind, wp_ServeConfigsGet.
      destruct (lru.find (cacheKeyOf rs) (lru.entries (ServeConfigs w))) as [m|] eqn:Hf;
        wp_steps; (split; [reflexivity|]); (split; [reflexivity|]);
        (split; [|split; [|intros E; contradiction]]).
      + intros _. rewrite cachedConfig_modify, String.eqb_refl. wsimpl.
        rewrite lru_find_Get, Hf. simpl. now rewrite lookup_insert_eq.
      + intros n Hn. rewrite cachedConfig_modify, String.eqb_refl. wsimpl.
        rewrite lru_find_Get, Hf. unfold cachedConfig. rewrite Hf.
        now rewrite lookup_insert_ne by congruence.
      + intros _. rewrite cachedConfig_modify, String.eqb_refl. wsimpl.
        rewrite lru_find_Add. simpl. now rewrite lookup_insert_eq.
      + intros n Hn. rewrite cachedConfig_modify, String.eqb_refl. wsimpl.
        rewrite lru_find_Add. unfold cachedConfig. rewrite Hf.
        now rewrite lookup_insert_ne, lookup_empty by congruence. }
  eapply wp_mono; [exact Hput|].
  intros r w1 (-> & Hc1 & Hhit & Hother & Hskip).
  eapply wp_mono; [apply getServeConfigFromCache_spec|].
  intros r w' (-> & Hc & _ & Hsame).
  split; [now rewrite Hc|]. split; [|split].
  - intros Hcfg ->. now rewrite (Hhit Hcfg).
  - intros Hn. now rewrite (Hother name' Hn).
  - intros Hempty. rewrite (Hskip Hempty) in *. split; [reflexivity|exact Hsame].
Qed.

(** ** Fetching, updating and replacing clusters *)

(** X3. [getRayClusterByNamespacedName] issues no request that changes
    anything and never returns a NotFound error.  It returns no cluster
    exactly when the name is empty (then it does not even ask the API
    server) or when it returns an error; a cluster the API server does not
    have comes back as a non-nil, zero-valued cluster. *)
Theorem missing_cluster_is_zero_valued (X : Externals) (key : string * string) (w : World) :
  wp (getRayClusterByNamespacedName X key)
     (fun r w' =>
        calls w' = calls w /\ rayClusters w' = rayClusters w
        /\ exists c e, r = Returns (c, e)
             /\ e <> Some NotFound
             /\ (c = None <-> snd key = "" \/ e <> None)
             /\ (snd key = "" -> w' = w)
             /\ (snd key <> "" ->
                 position w' = S (position w)
                 /\ match fault X (position w) with
                    | None => c = Some (default RayCluster.zero (rayClusters w !! key))
                              /\ e = None
                    | Some NotFound => c = Some RayCluster.zero /\ e = None
                    | Some err => c = None /\ e = Some err
                    end)) w.
Proof.
  unfold getRayClusterByNamespacedName, GetRayCluster.
  destruct (String.eqb_spec (snd key) "") as [He|He].
  - apply wp_ret. repeat split. exists None, None. split; [reflexivity|].
    split; [discriminate|]. split; [split; auto|]. split; [reflexivity|contradiction].
  - apply wp_bind, wp_bind, wp_next.
    destruct (fault X (position w)) as [err|] eqn:Hf.
    + apply wp_ret. destruct err; cbn; apply wp_ret; repeat split;
        eexists _, _; (split; [reflexivity|]); (split; [discriminate|]);
        (split; [split; [try discriminate; auto|intros [E|E]; congruence]|]);
        (split; [contradiction|intros _; split; [reflexivity|]]); rewrite ?Hf; auto.
    + apply wp_bind, wp_gets. wsimpl.
      destruct (rayClusters w !! key) as [c|] eqn:Hk; apply wp_ret; cbn; apply wp_ret;
        repeat split; eexists _, _; (split; [reflexivity|]); (split; [discriminate|]);
        (split; [split; [discriminate|intros [E|E]; congruence]|]);
        (split; [contradiction|intros _; split; [reflexivity|]]); rewrite ?Hf; auto.
Qed.

(** X4. [updateRayClusterInstance] sends at most one request, an update.
    For a cluster without a name it sends nothing and returns no error.
    The object it sends takes spec, labels and annotations from the
    cluster it is given and everything else (name, namespace, owner
    references, status) from the object read from the API server; the
    store changes only when the update succeeded, and then only at the key
    of the object sent. *)
Theorem update_keeps_identity_and_status (X : Externals) (c : RayCluster.t) (w : World) :
  wp (updateRayClusterInstance X c)
     (fun r w' =>
        exists e, r = Returns e
          /\ (RayCluster.Name c = "" -> e = None /\ w' = w)
          /\ ((calls w' = calls w /\ rayClusters w' = rayClusters w)
              \/ exists current sent,
                   (current = RayCluster.zero
                    \/ rayClusters w !! clusterKey c = Some current)
                   /\ sent = {| RayCluster.Name := RayCluster.Name current;
                                RayCluster.Namespace := RayCluster.Namespace current;
                                RayCluster.Labels := RayCluster.Labels c;
                                RayCluster.Annotations := RayCluster.Annotations c;
                                RayCluster.OwnerReferences :=
                                  RayCluster.OwnerReferences current;
                                RayCluster.Spec := RayCluster.Spec c;
                                RayCluster.Status := RayCluster.Status current |}
                   /\ calls w' = (calls w ++ [UpdateRayCluster sent])%list
                   /\ (e = None ->
                       rayClusters w' = <[clusterKey sent := sent]> (rayClusters w))
                   /\ (e <> None -> rayClusters w' = rayClusters w))) w.
Proof.
  unfold updateRayClusterInstance, getRayClusterByNamespacedName, GetRayCluster, Update.
  change (snd (clusterKey c)) with (RayCluster.Name c).
  destruct (String.eqb_spec (RayCluster.Name c) "") as [He|He].
  - wp_steps. exists None. split; [reflexivity|]. split; [auto|]. left. auto.
  - wp_steps; wsimpl; cbn [IgnoreNotFound] in *; try discriminate.
    all: eexists; (split; [reflexivity|]); (split; [contradiction|]).
    all: try (left; split; reflexivity).
    all: right; eexists _, _; (split; [|split; [reflexivity|]]).
    all: try (split; [reflexivity|]).
    all: try (split; [try discriminate; try reflexivity; intros _;
                      try reflexivity
                     |try discriminate; try (intros E; now contradiction E);
                      intros _; reflexivity]).
    all: first [now left|right; assumption].
Qed.

(** X5. Replacing a pending cluster takes two calls: when a cluster is
    stored under the pending name and the API server answers the read and
    the delete, [createRayClusterInstance] deletes that cluster, creates
    nothing and returns neither a cluster nor an error. *)
Theorem stale_pending_cluster_is_only_deleted (X : Externals) (rs : RayService.t)
    (stored : RayCluster.t) (w : World) :
  rayClusters w !! RayServicePendingRayClusterNamespacedName rs = Some stored ->
  clusterKey stored = RayServicePendingRayClusterNamespacedName rs ->
  fault X (position w) = None ->
  fault X (S (position w)) = None ->
  wp (createRayClusterInstance X rs)
     (fun r w' =>
        r = Returns (None, None)
        /\ calls w' = (calls w ++ [DeleteRayCluster (RayCluster.Namespace stored)
                                                    (RayCluster.Name stored)])%list
        /\ rayClusters w'
           = delete (RayServicePendingRayClusterNamespacedName rs) (rayClusters w)) w.
Proof.
  intros Hstored Hkey Hf0 Hf1.
  unfold createRayClusterInstance, GetRayCluster, Delete. cbv zeta.
  apply wp_bind, wp_bind, wp_next. rewrite Hf0.
  apply wp_bind, wp_gets. wsimpl. rewrite Hstored. apply wp_ret.
  apply wp_bind, wp_bind, wp_next. apply wp_bind, wp_modify. wsimpl. rewrite Hf1.
  apply wp_bind, wp_gets. wsimpl. rewrite Hkey, Hstored.
  apply wp_bind, wp_modify, wp_ret, wp_ret. wsimpl. auto.
Qed.

Lemma stale_pending_cluster_is_only_deleted_witness :
  let X := quietRun oneApp in
  let stored := clusterOfA "a-raycluster-1" specV2 (annotationsOf X specV2) in
  let w := worldOf [coldSecond] [stored] in
  wp (createRayClusterInstance X coldSecond)
     (fun r w' =>
        r = Returns (None, None)
        /\ calls w' = (calls w ++ [DeleteRayCluster "svc" "a-raycluster-1"])%list
        /\ rayClusters w'
           = delete (RayServicePendingRayClusterNamespacedName coldSecond) (rayClusters w)) w.
Proof.
  intros X stored w.
  apply (stale_pending_cluster_is_only_deleted X coldSecond stored w); reflexivity.
Defined.

(** ** The annotations of a constructed cluster, read back by the planner *)

Lemma digitVal_digitChar (d : nat) : d < 10 -> digitVal (digitChar d) = Some (Z.of_nat d).
Proof.
  intros H. do 10 (destruct d as [|d]; [reflexivity|]). lia.
Qed.

Lemma digitChar_no_sign (d : nat) :
  d < 10 ->
  Ascii.eqb (digitChar d) "-"%char = false /\ Ascii.eqb (digitChar d) "+"%char = false.
Proof.
  intros H. do 10 (destruct d as [|d]; [split; reflexivity|]). lia.
Qed.

Lemma parseDigits_itoaFuel (fuel n : nat) (acc : string) :
  n < fuel ->
  exists k, forall a,
    parseDigits a (itoaFuel fuel n acc)
    = parseDigits (a * 10 ^ Z.of_nat k + Z.of_nat n)%Z acc.
Proof.
  revert n acc. induction fuel as [|fuel IH]; intros n acc Hn; [lia|].
  cbn [itoaFuel].
  assert (Hd : n mod 10 < 10) by (apply Nat.mod_upper_bound; lia).
  pose proof (Nat.div_mod_eq n 10) as Hdm.
  destruct (n / 10 =? 0)%nat eqn:Hq.
  - apply Nat.eqb_eq in Hq. exists 1. intros a. cbn [parseDigits].
    rewrite (digitVal_digitChar _ Hd). f_equal. change (10 ^ Z.of_nat 1)%Z with 10%Z. lia.
  - apply Nat.eqb_neq in Hq.
    destruct (IH (n / 10) (String (digitChar (n mod 10)) acc)) as [k Hk]; [lia|].
    exists (S k). intros a. rewrite Hk. cbn [parseDigits].
    rewrite (digitVal_digitChar _ Hd). f_equal.
    rewrite Nat2Z.inj_succ, Z.pow_succ_r by lia. lia.
Qed.

Lemma itoaFuel_head (fuel n : nat) (acc : string) :
  exists d s, d < 10 /\ itoaFuel (S fuel) n acc = String (digitChar d) s.
Proof.
  revert n acc. induction fuel as [|fuel IH]; intros n acc.
  - cbn [itoaFuel]. exists (n mod 10), acc.
    split; [apply Nat.mod_upper_bound; lia|]. now destruct (n / 10 =? 0)%nat.
  - change (itoaFuel (S (S fuel)) n acc)
      with (let acc' := String (digitChar (n mod 10)) acc in
            if (n / 10 =? 0)%nat then acc' else itoaFuel (S fuel) (n / 10) acc').
    cbv zeta. destruct (n / 10 =? 0)%nat.
    + exists (n mod 10), acc. split; [apply Nat.mod_upper_bound; lia|reflexivity].
    + apply IH.
Qed.

(** [strconv.Atoi] reads back what [strconv.Itoa] wrote. *)
Lemma Atoi_Itoa (n : nat) :
  (Z.of_nat n <= 2 ^ 63 - 1)%Z -> Atoi (Itoa n) = (Z.of_nat n, None).
Proof.
  intros Hrange. unfold Itoa.
  destruct (itoaFuel_head n n EmptyString) as (d & s & Hd & Hs).
  destruct (parseDigits_itoaFuel (S n) n EmptyString) as [k Hk]; [lia|].
  specialize (Hk 0%Z). rewrite Hs in Hk. unfold Atoi. rewrite Hs.
  destruct (digitChar_no_sign d Hd) as [-> ->]. cbn [orb].
  rewrite Hk. cbn [parseDigits].
  replace (0 * 10 ^ Z.of_nat k + Z.of_nat n)%Z with (Z.of_nat n) by lia.
  destruct (Z.leb_spec (- 2 ^ 63) (Z.of_nat n)); [|lia].
  destruct (Z.leb_spec (Z.of_nat n) (2 ^ 63 - 1)); [reflexivity|lia].
Qed.

(** What [constructRayClusterForRayService] builds. *)
Lemma constructRayClusterForRayService_built (X : Externals) (rs : RayService.t)
    (name : string) (c : RayCluster.t) :
  constructRayClusterForRayService X rs name = (Some c, None) ->
  let built := RayServiceSpec.RayClusterSpec (RayService.Spec rs) in
  exists hash,
    generateHashWithoutReplicasAndWorkersToDelete X built = (hash, None)
    /\ lookupString (RayCluster.Annotations c) KubeRayVersion = KUBERAY_VERSION X
    /\ lookupString (RayCluster.Annotations c) HashWithoutReplicasAndWorkersToDeleteKey
       = hash
    /\ lookupString (RayCluster.Annotations c) NumWorkerGroupsKey
       = Itoa (length (RayClusterSpec.WorkerGroupSpecs built))
    /\ RayCluster.Name c = name
    /\ RayCluster.Namespace c = RayService.Namespace rs
    /\ RayCluster.Spec c = built
    /\ RayCluster.Status c = RayClusterStatus.zero
    /\ RayCluster.OwnerReferences c
       = [{| OwnerReference.Name := RayService.Name rs; OwnerReference.Controller := true |}]
    /\ associated rs c = true.
Proof.
  intros H built. unfold constructRayClusterForRayService, SetControllerReference in H.
  fold built in H.
  destruct (generateHashWithoutReplicasAndWorkersToDelete X built) as [hash [e|]];
    [discriminate|].
  cbn [RayCluster.Namespace RayCluster.OwnerReferences existsb] in H.
  rewrite String.eqb_refl in H. cbn [negb] in H. injection H as <-.
  exists hash. split; [reflexivity|].
  cbn [RayCluster.Annotations RayCluster.Name RayCluster.Namespace RayCluster.Spec
       RayCluster.Status RayCluster.OwnerReferences RayCluster.Labels List.filter].
  unfold lookupString.
  split; [now rewrite lookup_insert_eq|].
  split; [rewrite !lookup_insert_ne by discriminate; now rewrite lookup_insert_eq|].
  split; [rewrite lookup_insert_ne by discriminate; now rewrite lookup_insert_eq|].
  repeat (split; [reflexivity|]).
  unfold associated. cbn [RayCluster.Namespace RayCluster.Labels].
  rewrite String.eqb_refl. cbn [andb].
  rewrite !bool_decide_eq_true_2; [reflexivity| |].
  - now rewrite lookup_insert_eq.
  - rewrite lookup_insert_ne by discriminate. now rewrite lookup_insert_eq.
Qed.

(** X6. The planner reads back the annotations the constructor wrote.  For
    a cluster constructed for a service and handed to the planner as the
    active cluster, with no pending cluster named: when the desired spec
    differs from the one the cluster was built from only in the fields the
    autoscaler changes, the planner returns DoNothing; when in addition
    worker groups were appended (and the hash of the desired spec is
    computed and differs), the planner returns UpdateActiveCluster. *)
Theorem constructed_cluster_round_trip (X : Externals) (rs rs' : RayService.t)
    (name : string) (c : RayCluster.t) (pending : option RayCluster.t) :
  constructRayClusterForRayService X rs name = (Some c, None) ->
  RayService.PendingName rs' = "" ->
  let built := RayServiceSpec.RayClusterSpec (RayService.Spec rs) in
  let desired := RayServiceSpec.RayClusterSpec (RayService.Spec rs') in
  (perturbed built desired ->
   decideClusterAction X rs' (Some c) pending = Returns DoNothing)
  /\ (forall kept added,
        RayClusterSpec.WorkerGroupSpecs desired = (kept ++ added)%list ->
        added <> [] ->
        perturbed built (setWorkerGroupSpecs kept desired) ->
        (Z.of_nat (length kept) <= 2 ^ 63 - 1)%Z ->
        (exists hash', generateHashWithoutReplicasAndWorkersToDelete X desired
                       = (hash', None)
                       /\ hash' <> fst (generateHashWithoutReplicasAndWorkersToDelete X built)) ->
        decideClusterAction X rs' (Some c) pending = Returns UpdateActiveCluster).
Proof.
  intros Hc Hp built desired.
  destruct (constructRayClusterForRayService_built X rs name c Hc)
    as (hash & Hh & Hv & Hhash & Hnum & _).
  fold built in Hh, Hnum.
  unfold decideClusterAction. fold desired. rewrite Hp. cbn [String.eqb negb].
  rewrite Hv, String.eqb_refl. cbn [negb]. rewrite Hhash. split.
  - intros Hper. rewrite <- (generateHash_perturbed X built desired Hper), Hh.
    now rewrite String.eqb_refl.
  - intros kept added Hg Hadded Hper Hrange (hash' & Hh' & Hne).
    rewrite Hh' . rewrite Hh in Hne. cbn [fst] in Hne.
    rewrite (proj2 (String.eqb_neq hash hash')) by congruence.
    assert (Hlen : length (RayClusterSpec.WorkerGroupSpecs built) = length kept).
    { destruct Hper as (_ & _ & HF). apply Forall2_length in HF. exact HF. }
    rewrite Hnum, Hlen, (Atoi_Itoa _ Hrange), Hg.
    assert (Hlt : (Z.of_nat (length kept) <? Z.of_nat (length (kept ++ added)))%Z = true).
    { apply Z.ltb_lt. rewrite length_app. destruct added; [contradiction|simpl; lia]. }
    rewrite Hlt. unfold sliceTo.
    assert (Hin : ((Z.of_nat (length kept) <? 0)%Z
                   || (Z.of_nat (length (kept ++ added)) <? Z.of_nat (length kept))%Z)
                  = false).
    { apply orb_false_iff. split; apply Z.ltb_ge; [lia|]. rewrite length_app. lia. }
    rewrite Hin, Nat2Z.id, take_app_length.
    rewrite <- (generateHash_perturbed X built _ Hper), Hh.
    now rewrite String.eqb_refl.
Qed.

Lemma constructed_cluster_round_trip_witness :
  let X := quietRun ∅ in
  let scaledSpec := clusterSpec "img:v1" [workerGroup "g" 5 "img:v1"] in
  let grownSpec :=
    clusterSpec "img:v1" [workerGroup "g" 5 "img:v1"; workerGroup "h" 1 "img:v1"] in
  let scaled := serviceA scaledSpec "applications: []" (statusOf Running "a-raycluster-1" "") in
  let grown := serviceA grownSpec "applications: []" (statusOf Running "a-raycluster-1" "") in
  decideClusterAction X scaled (Some activeV1) None = Returns DoNothing
  /\ decideClusterAction X grown (Some activeV1) None = Returns UpdateActiveCluster.
Proof.
  intros X scaledSpec grownSpec scaled grown.
  assert (Hc : constructRayClusterForRayService X settledOnV1 "a-raycluster-1"
               = (Some activeV1, None)) by (vm_compute; reflexivity).
  assert (Hper : perturbed specV1 scaledSpec).
  { split; [reflexivity|]. split; [reflexivity|].
    constructor; [split; reflexivity|constructor]. }
  split.
  - exact (proj1 (constructed_cluster_round_trip X settledOnV1 scaled "a-raycluster-1"
                    activeV1 None Hc eq_refl) Hper).
  - apply (proj2 (constructed_cluster_round_trip X settledOnV1 grown "a-raycluster-1"
                    activeV1 None Hc eq_refl)
             [workerGroup "g" 5 "img:v1"] [workerGroup "h" 1 "img:v1"]).
    + reflexivity.
    + discriminate.
    + exact Hper.
    + vm_compute. discriminate.
    + eexists. split; [reflexivity|]. vm_compute. discriminate.
Defined.

(** X7. A cluster the controller constructs for a service and creates is
    found by the listing the collector of the same service uses: it
    carries the labels the listing selects on, the namespace of the
    service, and the service as its controlling owner. *)
Theorem created_cluster_is_listed (X : Externals) (rs : RayService.t) (name : string)
    (c : RayCluster.t) (w : World) :
  constructRayClusterForRayService X rs name = (Some c, None) ->
  rayClusters w !! clusterKey c = None ->
  fault X (position w) = None -> fault X (S (position w)) = None ->
  wp (run Create X c; ListRayClusters X rs)
     (fun r w' =>
        exists items, r = Returns (items, None)
          /\ In c items
          /\ RayCluster.Namespace c = RayService.Namespace rs
          /\ RayCluster.OwnerReferences c
             = [{| OwnerReference.Name := RayService.Name rs;
                   OwnerReference.Controller := true |}]) w.
Proof.
  intros Hc Hfree Hf0 Hf1.
  destruct (constructRayClusterForRayService_built X rs name c Hc)
    as (_ & _ & _ & _ & _ & _ & Hns & _ & _ & Hown & Hassoc).
  unfold Create, ListRayClusters.
  apply wp_bind, wp_bind, wp_next. apply wp_bind, wp_modify. wsimpl. rewrite Hf0.
  apply wp_bind, wp_gets. wsimpl. rewrite Hfree.
  apply wp_bind, wp_modify, wp_ret. apply wp_bind, wp_next. wsimpl. rewrite Hf1.
  apply wp_bind, wp_gets, wp_ret. wsimpl.
  eexists. split; [reflexivity|]. split; [|split; assumption].
  apply filter_In. split; [|exact Hassoc].
  apply in_map_iff. exists (clusterKey c, c). split; [reflexivity|].
  apply list_elem_of_In, elem_of_map_to_list. now rewrite lookup_insert_eq.
Qed.

Lemma created_cluster_is_listed_witness :
  let X := quietRun ∅ in
  wp (run Create X activeV1; ListRayClusters X settledOnV1)
     (fun r w' =>
        exists items, r = Returns (items, None)
          /\ In activeV1 items
          /\ RayCluster.Namespace activeV1 = RayService.Namespace settledOnV1
          /\ RayCluster.OwnerReferences activeV1
             = [{| OwnerReference.Name := RayService.Name settledOnV1;
                   OwnerReference.Controller := true |}]) (worldOf [settledOnV1] []).
Proof.
  intros X.
  apply (created_cluster_is_listed X settledOnV1 "a-raycluster-1" activeV1
           (worldOf [settledOnV1] [])).
  - vm_compute. reflexivity.
  - reflexivity.
  - reflexivity.
  - reflexivity.
Defined.

(** ** A whole tick: requests, requeue, panics *)

Lemma reconcileServeOnReadyHead_trace (X : Externals) (rs : RayService.t)
    (c : RayCluster.t) (isActive : bool) (w : World) :
  wp (reconcileServeOnReadyHead X rs c isActive)
     (fun r w' =>
        exists isReady e rs' pushed written,
          r = Returns ((isReady, e), rs')
          /\ calls w' = (calls w ++ pushed ++ written)%list
          /\ pushRequests pushed /\ waitingWrite isReady written) w.
Proof.
  unfold reconcileServeOnReadyHead, FetchHeadServiceURL, InitClient.
  wp_steps.
  1-3: eexists _, _, _, [], []; (split; [reflexivity|]);
       (split; [wsimpl; now rewrite app_nil_r|]);
       (split; [now left|now left]).
  eapply wp_mono; [apply checkIfNeedSubmitServeDeployment_spec|].
  intros r w1 (Hc1 & _ & shouldUpdate & -> & _). wsimpl.
  apply wp_bind.
  assert (Hpush : wp (if shouldUpdate
                      then updateServeDeployment X rs (headServiceURL X (position w))
                             (RayCluster.Name c)
                      else ret None)
                     (fun r w2 => exists e pushed,
                          r = Returns e
                          /\ calls w2 = (calls w ++ pushed)%list
                          /\ pushRequests pushed) w1).
  { destruct shouldUpdate.
    - eapply wp_mono; [apply updateServeDeployment_spec|].
      intros r w2 (e & -> & [(_ & Hc & _) | (json & Hc & _)]).
      + exists e, []. split; [reflexivity|]. split; [|now left].
        now rewrite Hc, Hc1, app_nil_r.
      + exists e, [UpdateDeployments (headServiceURL X (position w)) json].
        split; [reflexivity|]. split; [now rewrite Hc, Hc1|]. right. eauto.
    - apply wp_ret. exists None, []. split; [reflexivity|].
      split; [now rewrite Hc1, app_nil_r|now left]. }
  eapply wp_mono; [exact Hpush|]. clear Hpush.
  intros r w2 (e & pushed & -> & Hc2 & Hp). destruct e as [e|].
  { apply wp_ret. eexists _, _, _, pushed, []. split; [reflexivity|].
    split; [now rewrite Hc2, app_nil_r|]. split; [exact Hp|now left]. }
  apply wp_bind.
  eapply wp_mono; [apply getAndCheckServeStatus_spec|].
  intros r w3 (Hc3 & _ & isReady & e & slot' & -> & _).
  destruct e as [e|].
  { apply wp_ret. eexists _, _, _, pushed, []. split; [reflexivity|].
    split; [now rewrite Hc3, Hc2, app_nil_r|]. split; [exact Hp|now left]. }
  destruct isReady.
  - apply wp_ret. eexists _, _, _, pushed, []. split; [reflexivity|].
    split; [now rewrite Hc3, Hc2, app_nil_r|]. split; [exact Hp|now left].
  - unfold StatusUpdate. wp_steps.
    all: eexists _, _, _, pushed, [UpdateStatus _]; (split; [reflexivity|]);
      (split; [wsimpl; now rewrite Hc3, Hc2, <- app_assoc|]);
      (split; [exact Hp|]); right; eexists; split; [reflexivity|split; reflexivity].
Qed.

Lemma reconcileServe_trace (X : Externals) (rs : RayService.t)
    (c : RayCluster.t) (isActive : bool) (w : World) :
  wp (reconcileServe X rs c isActive)
     (fun r w' =>
        exists isReady e rs' pushed written,
          r = Returns ((isReady, e), rs')
          /\ calls w' = (calls w ++ pushed ++ written)%list
          /\ pushRequests pushed /\ waitingWrite isReady written) w.
Proof.
  unfold reconcileServe, isHeadPodRunningAndReady.
  wp_steps.
  all: try (eexists _, _, _, [], []; (split; [reflexivity|]);
            (split; [wsimpl; now rewrite app_nil_r|]);
            (split; [now left|now left])).
  all: eapply wp_mono; [apply reconcileServeOnReadyHead_trace|]; intros r w' H; exact H.
Qed.

Lemma reconcileServeFor_trace (X : Externals) (rs : RayService.t)
    (active pending : option RayCluster.t) (w : World) :
  wp (reconcileServeFor X rs active pending)
     (fun r w' =>
        exists isReady e rs' pushed written,
          r = Returns ((isReady, e), rs')
          /\ calls w' = (calls w ++ pushed ++ written)%list
          /\ pushRequests pushed /\ waitingWrite isReady written) w.
Proof.
  unfold reconcileServeFor. destruct active as [a|], pending as [p|].
  - apply wp_bind. eapply wp_mono; [apply updateStatusForActiveCluster_spec|].
    intros r w1 (Hc & e & rs' & -> & _).
    eapply wp_mono; [apply reconcileServe_trace|].
    intros r w' (isReady & e' & s' & pushed & written & -> & Hc' & H).
    exists isReady, e', s', pushed, written. split; [reflexivity|].
    split; [now rewrite Hc', Hc|exact H].
  - apply reconcileServe_trace.
  - apply reconcileServe_trace.
  - apply wp_ret. eexists _, _, _, [], []. split; [reflexivity|].
    split; [now rewrite app_nil_r|]. split; now left.
Qed.

Lemma networkRequests_nil : networkRequests [].
Proof.
  exists [], [], []. split; [reflexivity|]. split; [now left|]. split; now left.
Qed.

(** The part of a tick after the Serve reconciler: the requests of the
    network step and, when the applications are ready, the guarded status
    update. *)
Lemma reconcileAfterServe_trace (X : Externals) (original rs : RayService.t)
    (active pending : option RayCluster.t) (isReady : bool) (w : World) :
  wp (reconcileAfterServe X original rs active pending isReady)
     (fun r w' =>
        exists network final,
          calls w' = (calls w ++ network ++ final)%list
          /\ networkRequests network
          /\ guardedWrite original r final
          /\ (isReady = false -> final = [])
          /\ match r with
             | Returns res =>
                 RequeueAfter res = ServiceDefaultRequeueDuration
                 /\ finalReady res = isReady
             | Panics => bareHeadPod X
             end) w.
Proof.
  unfold reconcileAfterServe.
  destruct (negb isReady && negb (isEagerExposesServicesEnabled X)).
  { apply wp_ret. exists [], []. split; [now rewrite app_nil_r|].
    split; [apply networkRequests_nil|]. split; [now left|]. split; [auto|].
    split; reflexivity. }
  cbv zeta. apply wp_bind. eapply wp_mono; [apply networkStep_spec|].
  intros r1 w1 (_ & _ & _ & _ & _ & (network & Hc1 & Hnet) & Hpanic).
  destruct r1 as [svcErr|].
  2: { exists network, []. rewrite app_nil_r. split; [exact Hc1|].
       split; [exact Hnet|]. split; [now left|]. split; [auto|]. now apply Hpanic. }
  destruct isReady; unfold calculateStatus, StatusUpdate, Now, requeue;
    wp_steps; try discriminate.
  all: first
    [ exists network, []; rewrite app_nil_r; (split; [wsimpl; exact Hc1|]);
      (split; [exact Hnet|]); (split; [now left|]); (split; [auto|]);
      split; reflexivity
    | exists network; eexists [UpdateStatus _];
      (split; [wsimpl; now rewrite Hc1, <- app_assoc|]);
      (split; [exact Hnet|]);
      (split; [right; eexists; split; [reflexivity|];
               split; [eassumption|eexists; split; reflexivity]|]);
      (split; [discriminate|]); split; reflexivity ].
Qed.

Lemma onlyRemoved_refl (w : World) : onlyRemoved w w.
Proof. intros key c H. exact H. Qed.

Lemma onlyRemoved_same (w w' : World) : rayClusters w' = rayClusters w -> onlyRemoved w w'.
Proof. intros E key c H. now rewrite E in H. Qed.

Lemma onlyRemoved_trans (w w1 w' : World) :
  onlyRemoved w w1 -> onlyRemoved w1 w' -> onlyRemoved w w'.
Proof. intros H1 H2 key c H. apply H1, H2, H. Qed.

Lemma cleanUpRayClusters_onlyRemoved (X : Externals) (rs : RayService.t)
    (items : list RayCluster.t) (w0 w : World) :
  onlyRemoved w0 w ->
  wp (cleanUpRayClusters X rs items)
     (fun r w' => onlyRemoved w0 w' /\ exists e, r = Returns e) w.
Proof.
  revert w. induction items as [|c rest IH]; intros w H; cbn [cleanUpRayClusters].
  - apply wp_ret. eauto.
  - unfold Now, Delete. wp_steps.
    all: try (apply IH).
    all: try (split; [|eauto]).
    all: try (apply (onlyRemoved_trans w0 w); [exact H|]).
    all: try (apply onlyRemoved_same; reflexivity).
    all: intros key c' Hk; wsimpl; apply lookup_delete_Some in Hk as [_ Hk]; exact Hk.
Qed.

Lemma cleanUpRayClusterInstance_onlyRemoved (X : Externals) (rs : RayService.t)
    (w : World) :
  wp (cleanUpRayClusterInstance X rs)
     (fun r w' => onlyRemoved w w' /\ exists e, r = Returns e) w.
Proof.
  unfold cleanUpRayClusterInstance, ListRayClusters. wp_steps.
  - split; [now apply onlyRemoved_same|eauto].
  - apply cleanUpRayClusters_onlyRemoved. now apply onlyRemoved_same.
Qed.

Lemma constructRayClusterForRayService_some (X : Externals) (rs : RayService.t)
    (name : string) :
  constructRayClusterForRayService X rs name <> (None, None).
Proof.
  unfold constructRayClusterForRayService, SetControllerReference.
  destruct (generateHashWithoutReplicasAndWorkersToDelete X _) as [hash [e|]];
    [discriminate|].
  repeat match goal with
         | |- context [if ?b then _ else _] => destruct b
         end; discriminate.
Qed.

Lemma zero_count_unreadable : ~ negativeCount RayCluster.zero.
Proof. intros (n & H & _). vm_compute in H. discriminate. Qed.

(** The planner returns unless it is handed no pending cluster although
    one is named, or an active cluster with a negative count annotation. *)
Lemma decideClusterAction_returns (X : Externals) (rs : RayService.t)
    (active pending : option RayCluster.t) :
  (RayService.PendingName rs <> "" -> pending <> None) ->
  (exists act, decideClusterAction X rs active pending = Returns act
               /\ (act = UpdatePendingCluster -> pending <> None)
               /\ (act = UpdateActiveCluster -> active <> None))
  \/ (decideClusterAction X rs active pending = Panics
      /\ exists a, active = Some a /\ negativeCount a).
Proof.
  intros Hpending.
  destruct (String.eqb_spec (RayService.PendingName rs) "") as [He|He].
  - unfold decideClusterAction. rewrite He. cbn [String.eqb negb].
    destruct active as [a|]; [|left; eexists; split; [reflexivity|split; discriminate]].
    cbv zeta.
    destruct (negb _); [left; eexists; split; [reflexivity|split; discriminate]|].
    destruct (generateHashWithoutReplicasAndWorkersToDelete X _) as [goal [e|]];
      [left; eexists; split; [reflexivity|split; discriminate]|].
    destruct (String.eqb _ goal); [left; eexists; split; [reflexivity|split; discriminate]|].
    destruct (Atoi _) as [n [e|]] eqn:Hn;
      [left; eexists; split; [reflexivity|split; discriminate]|].
    assert (Hroll : exists act,
              (if isZeroDowntimeUpgradeEnabled X rs
               then Returns GeneratePendingClusterName else Returns DoNothing)
              = Returns act
              /\ (act = UpdatePendingCluster -> pending <> None)
              /\ (act = UpdateActiveCluster -> Some a <> None)).
    { destruct (isZeroDowntimeUpgradeEnabled X rs); eexists;
        (split; [reflexivity|split; discriminate]). }
    destruct (n <? Z.of_nat _)%Z eqn:Hlt; [|left; exact Hroll].
    unfold sliceTo. destruct (n <? 0)%Z eqn:Hneg.
    + right. split; [reflexivity|]. exists a. split; [reflexivity|].
      exists n. split; [exact Hn|]. now apply Z.ltb_lt.
    + apply Z.ltb_lt in Hlt. cbn [orb].
      destruct (Z.ltb_spec (Z.of_nat (length (RayClusterSpec.WorkerGroupSpecs
                  (RayServiceSpec.RayClusterSpec (RayService.Spec rs))))) n); [lia|].
      destruct (generateHashWithoutReplicasAndWorkersToDelete X _) as [goal' [e|]];
        [left; eexists; split; [reflexivity|split; discriminate]|].
      destruct (String.eqb _ goal'); [|left; exact Hroll].
      left. eexists. split; [reflexivity|]. split; discriminate.
  - destruct pending as [p|]; [|now specialize (Hpending He)].
    destruct (decideClusterAction_pending_total X rs active p He)
      as (act & Hact & Hcases).
    left. exists act. split; [exact Hact|]. split; [discriminate|].
    intros ->. destruct Hcases as [H|[H|H]]; discriminate.
Qed.

Lemma getRayClusterByNamespacedName_fetched (X : Externals) (key : string * string)
    (w : World) :
  wp (getRayClusterByNamespacedName X key)
     (fun r w' =>
        rayClusters w' = rayClusters w
        /\ exists c e, r = Returns (c, e)
             /\ (e = None -> c = None -> snd key = "")
             /\ (forall a, c = Some a ->
                   a = RayCluster.zero \/ rayClusters w !! key = Some a)) w.
Proof.
  unfold getRayClusterByNamespacedName, GetRayCluster.
  destruct (String.eqb_spec (snd key) "") as [He|He].
  - apply wp_ret. split; [reflexivity|]. eexists _, _. split; [reflexivity|].
    split; [auto|discriminate].
  - wp_steps; wsimpl; (split; [reflexivity|]); eexists _, _; (split; [reflexivity|]);
      (split; [try discriminate; auto|]); intros a [= <-]; auto.
Qed.

Lemma updateRayClusterInstance_returns (X : Externals) (c : RayCluster.t) (w : World) :
  wp (updateRayClusterInstance X c) (fun r _ => exists e, r = Returns e) w.
Proof.
  unfold updateRayClusterInstance, getRayClusterByNamespacedName, GetRayCluster, Update.
  wp_steps; eauto.
Qed.

Lemma createRayClusterInstance_returns (X : Externals) (rs : RayService.t) (w : World) :
  wp (createRayClusterInstance X rs) (fun r _ => exists res, r = Returns res) w.
Proof.
  unfold createRayClusterInstance, GetRayCluster, Delete, Create.
  wp_steps; eauto.
  all: exfalso; eapply constructRayClusterForRayService_some; eassumption.
Qed.

(** The lifecycle step panics only on a stored cluster whose count
    annotation is negative. *)
Lemma reconcileRayCluster_panics (X : Externals) (rs : RayService.t) (w : World) :
  wp (reconcileRayCluster X rs)
     (fun r _ =>
        r = Panics ->
        exists key c, rayClusters w !! key = Some c /\ negativeCount c) w.
Proof.
  unfold reconcileRayCluster. apply wp_bind.
  eapply wp_mono; [apply cleanUpRayClusterInstance_onlyRemoved|].
  intros r w1 [Hrem (e & ->)]. destruct e as [e|]; [apply wp_ret; discriminate|].
  apply wp_bind. eapply wp_mono; [apply getRayClusterByNamespacedName_fetched|].
  intros r w2 (Hr2 & active & e & -> & _ & Hactive).
  destruct e as [e|]; [apply wp_ret; discriminate|].
  apply wp_bind. eapply wp_mono; [apply getRayClusterByNamespacedName_fetched|].
  intros r w3 (Hr3 & pending & e & -> & Hpending & _).
  destruct e as [e|]; [apply wp_ret; discriminate|].
  apply wp_bind, wp_liftExec.
  destruct (decideClusterAction_returns X rs active pending)
    as [(act & -> & Hup & Hua) | (-> & a & -> & Hneg)].
  { intros Hp E. apply Hp. exact (Hpending eq_refl E). }
  - destruct act.
    + apply wp_ret. discriminate.
    + destruct active as [a|]; [|now specialize (Hua eq_refl)].
      destruct (constructRayClusterForRayService X rs (RayCluster.Name a))
        as [[c'|] [e|]] eqn:Hc; try (apply wp_ret; discriminate).
      * apply wp_bind. eapply wp_mono; [apply updateRayClusterInstance_returns|].
        intros r w4 (e & ->). destruct e; apply wp_ret; discriminate.
      * exfalso. exact (constructRayClusterForRayService_some X rs _ Hc).
    + destruct pending as [p|]; [|now specialize (Hup eq_refl)].
      destruct (constructRayClusterForRayService X rs (RayCluster.Name p))
        as [[c'|] [e|]] eqn:Hc; try (apply wp_ret; discriminate).
      * apply wp_bind. eapply wp_mono; [apply updateRayClusterInstance_returns|].
        intros r w4 (e & ->). destruct e; apply wp_ret; discriminate.
      * exfalso. exact (constructRayClusterForRayService_some X rs _ Hc).
    + unfold markRestartAndAddPendingClusterName. wp_steps. discriminate.
    + apply wp_bind. eapply wp_mono; [apply createRayClusterInstance_returns|].
      intros r w4 ([c' e] & ->). apply wp_ret. discriminate.
  - intros _. destruct (Hactive a eq_refl) as [-> | Hst].
    + exfalso. exact (zero_count_unreadable Hneg).
    + eexists _, a. split; [|exact Hneg]. apply Hrem. exact Hst.
Qed.

Lemma cleanUpServeConfigCache_frame (X : Externals) (rs : RayService.t) (w : World) :
  wp (cleanUpServeConfigCache rs)
     (fun r w' => r = Returns tt /\ calls w' = calls w /\ rayClusters w' = rayClusters w
                  /\ rayServices w' = rayServices w /\ position w' = position w) w.
Proof.
  unfold cleanUpServeConfigCache. cbv zeta. apply wp_bind, wp_ServeConfigsGet.
  destruct (lru.find _ _); wp_steps; repeat split; reflexivity.
Qed.

Lemma tickRequests_nil : tickRequests [].
Proof.
  right. exists [], [], [], [], []. split; [reflexivity|]. split; [constructor|].
  split; [now left|]. split; [now left|]. split; [apply networkRequests_nil|].
  split; now left.
Qed.

(** A tick of [Reconcile] that cannot read the RayService. *)
Lemma Reconcile_unreadable (X : Externals) (request : string * string) (w : World) :
  fault X (position w) <> None \/ rayServices w !! request = None ->
  wp (Reconcile X request)
     (fun r w' =>
        w' = advance w
        /\ r = Returns {| RequeueAfter := 0;
                          returnedError :=
                            match fault X (position w) with
                            | Some NotFound | None => None
                            | Some e => Some e
                            end;
                          finalInstance := None;
                          finalReady := false |}) w.
Proof.
  intros H. unfold Reconcile, getRayServiceInstance, GetRayService.
  apply wp_bind, wp_bind, wp_next.
  destruct (fault X (position w)) as [e|] eqn:Hf.
  - apply wp_ret, wp_ret. split; [reflexivity|]. now destruct e.
  - destruct H as [H|H]; [contradiction|].
    apply wp_bind, wp_gets. wsimpl. rewrite H. apply wp_ret, wp_ret. split; reflexivity.
Qed.

(** A tick of [Reconcile] that read the instance [rs0], accounted for: its
    requests, the requeue delay it asks for, and the ways it can panic. *)
Lemma Reconcile_trace (X : Externals) (request : string * string) (rs0 : RayService.t)
    (w : World) :
  fault X (position w) = None ->
  rayServices w !! request = Some rs0 ->
  wp (Reconcile X request)
     (fun r w' =>
        (exists issued, calls w' = (calls w ++ issued)%list /\ tickTrace rs0 r issued)
        /\ match r with
           | Returns res => RequeueAfter res = ServiceDefaultRequeueDuration
           | Panics =>
               (exists key c, rayClusters w !! key = Some c /\ negativeCount c)
               \/ bareHeadPod X
           end) w.
Proof.
  intros Hf Hrs. unfold Reconcile, getRayServiceInstance, GetRayService.
  apply wp_bind, wp_bind, wp_next. rewrite Hf.
  apply wp_bind, wp_gets. wsimpl. rewrite Hrs. apply wp_ret.
  unfold tickTrace.
  destruct (validateRayServiceSpec rs0) as [e|] eqn:Hv.
  { unfold Eventf. wp_steps. split; [|reflexivity].
    eexists. split; [wsimpl; reflexivity|reflexivity]. }
  apply wp_bind. eapply wp_mono; [apply (cleanUpServeConfigCache_frame X)|].
  intros r w1 (-> & Hc1 & Hr1 & _). wsimpl. cbv zeta. apply wp_bind.
  eapply wp_mono;
    [apply wp_conj; [apply reconcileRayCluster_spec|apply reconcileRayCluster_panics]|].
  intros [[[[active pending] e] rs']|] w2 [[(cluster & Hc2 & Hcl) _] Hpanic].
  2: { split; [|left; rewrite <- Hr1; now apply Hpanic].
       exists cluster. split; [now rewrite Hc2, Hc1|].
       exists cluster, [], [], [], []. rewrite !app_nil_r.
       split; [reflexivity|]. split; [exact Hcl|]. split; [now left|].
       split; [now left|]. split; [apply networkRequests_nil|]. split; now left. }
  clear Hpanic.
  assert (Hclose : forall (r : Exec Reconciled) (pushed written network final : list Call)
                          (w' : World),
            calls w' = (calls w2 ++ pushed ++ written ++ network ++ final)%list ->
            pushRequests pushed -> unguardedWrite r written ->
            networkRequests network -> guardedWrite rs0 r final ->
            written = [] \/ final = [] ->
            exists issued, calls w' = (calls w ++ issued)%list
              /\ exists cluster pushed written network final,
                   issued = (cluster ++ pushed ++ written ++ network ++ final)%list
                   /\ Forall clusterRequest cluster
                   /\ pushRequests pushed
                   /\ unguardedWrite r written
                   /\ networkRequests network
                   /\ guardedWrite rs0 r final
                   /\ (written = [] \/ final = [])).
  { intros r pushed written network final w' Hc Hp Hw Hn Hfin Hone.
    exists (cluster ++ pushed ++ written ++ network ++ final)%list.
    split; [now rewrite Hc, Hc2, Hc1, <- app_assoc|].
    exists cluster, pushed, written, network, final. auto 10. }
  destruct e as [e|].
  { apply wp_ret. split; [|reflexivity].
    apply (Hclose _ [] [] [] []);
      [now rewrite app_nil_r|now left|now left|apply networkRequests_nil|now left|now left]. }
  destruct (negb (String.eqb (RayService.PendingName rs') "") && negb (notNil pending))
    eqn:Hpn.
  { apply andb_true_iff in Hpn as [Hpn _]. apply negb_true_iff, String.eqb_neq in Hpn.
    unfold StatusUpdate. wp_steps.
    all: split; [|reflexivity].
    all: apply (Hclose _ [] [UpdateStatus rs'] [] []);
      [wsimpl; reflexivity|now left| |apply networkRequests_nil|now left|now right].
    all: right; exists rs'; split; [reflexivity|]; split; [now right|];
      intros res [= <-]; reflexivity. }
  apply wp_bind. eapply wp_mono; [apply reconcileServeFor_trace|].
  intros r w3 (isReady & e & s' & pushed & written & -> & Hc3 & Hp & Hw).
  destruct e as [e|].
  { apply wp_ret. split; [|reflexivity].
    apply (Hclose _ pushed written [] []);
      [now rewrite !app_nil_r|exact Hp| |apply networkRequests_nil|now left|now right].
    destruct Hw as [->|(s & -> & Hst & _)]; [now left|].
    right. exists s. split; [reflexivity|]. split; [now left|].
    intros res [= <-]. reflexivity. }
  eapply wp_mono; [apply reconcileAfterServe_trace|].
  intros r w4 (network & final & Hc4 & Hnet & Hfinal & Hnot & Hres). split.
  - apply (Hclose r pushed written network final);
      [now rewrite Hc4, Hc3, <- !app_assoc|exact Hp| |exact Hnet|exact Hfinal|].
    + destruct Hw as [->|(s & -> & Hst & ->)]; [now left|].
      right. exists s. split; [reflexivity|]. split; [now left|].
      intros res ->. exact (proj2 Hres).
    + destruct Hw as [->|(s & -> & Hst & ->)]; [now left|right; now apply Hnot].
  - destruct r as [res|]; [exact (proj1 Hres)|now right].
Qed.

Lemma tickTrace_tickRequests (rs0 : RayService.t) (r : Exec Reconciled)
    (issued : list Call) :
  tickTrace rs0 r issued -> tickRequests issued.
Proof.
  unfold tickTrace, tickRequests. destruct (validateRayServiceSpec rs0) as [e|].
  - intros ->. left. eauto.
  - intros (cluster & pushed & written & network & final & -> & Hcl & Hp & Hw & Hn & Hf
            & Hone).
    right. exists cluster, pushed, written, network, final.
    split; [reflexivity|]. split; [exact Hcl|]. split; [exact Hp|].
    split; [destruct Hw as [->|(s & -> & _)]; [now left|right; eauto]|].
    split; [exact Hn|].
    split; [destruct Hf as [->|(s & -> & _)]; [now left|right; eauto]|exact Hone].
Qed.

(** X11. The requests of a tick come in a fixed order.  A tick that finds
    the spec invalid hands one warning event to the recorder and sends
    nothing.  Any other tick sends, in this order: requests about
    RayClusters (deletes, a create or an update); at most one push of the
    Serve configuration; at most one status update (after the lifecycle
    step, or of the Serve reconciler); at most one request for the head
    service, one update of the head pod and one request for the serve
    service; at most one status update at its end; and at most one status
    update in all. *)
Theorem tick_requests_in_order (X : Externals) (request : string * string) (w : World) :
  wp (Reconcile X request)
     (fun _ w' =>
        exists issued, calls w' = (calls w ++ issued)%list /\ tickRequests issued) w.
Proof.
  destruct (fault X (position w)) as [e|] eqn:Hf;
    [|destruct (rayServices w !! request) as [rs0|] eqn:Hrs].
  - eapply wp_mono; [apply Reconcile_unreadable; left; congruence|].
    intros r w' [-> _]. exists []. split; [wsimpl; now rewrite app_nil_r|].
    apply tickRequests_nil.
  - eapply wp_mono; [apply (Reconcile_trace X request rs0 w Hf Hrs)|].
    intros r w' [(issued & Hc & Ht) _]. exists issued. split; [exact Hc|].
    exact (tickTrace_tickRequests rs0 r issued Ht).
  - eapply wp_mono; [apply Reconcile_unreadable; now right|].
    intros r w' [-> _]. exists []. split; [wsimpl; now rewrite app_nil_r|].
    apply tickRequests_nil.
Qed.

(** X12. [Reconcile] asks to be run again after
    [ServiceDefaultRequeueDuration] whenever it read the RayService,
    whatever happened afterwards; when the RayService could not be read it
    asks for no delay. *)
Theorem tick_requeue_policy (X : Externals) (request : string * string) (w : World) :
  wp (Reconcile X request)
     (fun r _ =>
        forall res, r = Returns res ->
          RequeueAfter res
          = match fault X (position w), rayServices w !! request with
            | None, Some _ => ServiceDefaultRequeueDuration
            | _, _ => 0%Z
            end) w.
Proof.
  destruct (fault X (position w)) as [e|] eqn:Hf;
    [|destruct (rayServices w !! request) as [rs0|] eqn:Hrs].
  - eapply wp_mono; [apply Reconcile_unreadable; left; congruence|].
    intros r w' [_ ->] res [= <-]. reflexivity.
  - eapply wp_mono; [apply (Reconcile_trace X request rs0 w Hf Hrs)|].
    intros r w' [_ H] res ->. exact H.
  - eapply wp_mono; [apply Reconcile_unreadable; now right|].
    intros r w' [_ ->] res [= <-]. reflexivity.
Qed.

(** X13. [Reconcile] panics only on a malformed object: a stored
    RayCluster whose worker-group count annotation reads as a negative
    number (the planner then slices the desired worker groups with it),
    or a head pod without containers (the labelling step indexes its
    first container). *)
Theorem tick_panics_only_on_malformed_objects (X : Externals) (request : string * string)
    (w : World) :
  wp (Reconcile X request)
     (fun r _ =>
        r = Panics ->
        (exists key c, rayClusters w !! key = Some c /\ negativeCount c)
        \/ bareHeadPod X) w.
Proof.
  destruct (fault X (position w)) as [e|] eqn:Hf;
    [|destruct (rayServices w !! request) as [rs0|] eqn:Hrs].
  - eapply wp_mono; [apply Reconcile_unreadable; left; congruence|].
    intros r w' [_ ->]. discriminate.
  - eapply wp_mono; [apply (Reconcile_trace X request rs0 w Hf Hrs)|].
    intros r w' [_ H] ->. exact H.
  - eapply wp_mono; [apply Reconcile_unreadable; now right|].
    intros r w' [_ ->]. discriminate.
Qed.

(** A tick that does panic: the count annotation of the active cluster was
    overwritten with [-1] and the service asks for one more worker group. *)
Example negative_count_panics :
  fst (Reconcile (quietRun oneApp) ("svc", "a")
         (worldOf [grownOnV1] [activeV1NegativeCount])) = Panics.
Proof. vm_compute. reflexivity. Qed.

(** A tick that panics in the labelling step: the applications are
    ready, and the head pod that is found has no container. *)
Example bare_head_pod_panics :
  fst (Reconcile (withHeadPodFound (fun _ => Some bareHeadPodOfA) (quietRun oneApp))
         ("svc", "a") (worldOf [settledOnV1] [activeV1])) = Panics.
Proof. vm_compute. reflexivity. Qed.

(** X14. When the RayService of the request cannot be read, [Reconcile]
    ends at once: it issues no request, changes nothing, asks for no
    requeue, and returns the read error unless the object was not found. *)
Theorem unreadable_service_ends_tick (X : Externals) (request : string * string)
    (w : World) :
  fault X (position w) <> None \/ rayServices w !! request = None ->
  wp (Reconcile X request)
     (fun r w' =>
        w' = advance w
        /\ r = Returns {| RequeueAfter := 0;
                          returnedError :=
                            match fault X (position w) with
                            | Some NotFound | None => None
                            | Some e => Some e
                            end;
                          finalInstance := None;
                          finalReady := false |}) w.
Proof. exact (Reconcile_unreadable X request w). Qed.

Lemma unreadable_service_ends_tick_witness :
  let X := quietRun oneApp in
  let w := worldOf [settledOnV1] [activeV1] in
  wp (Reconcile X ("svc", "gone"))
     (fun r w' =>
        w' = advance w
        /\ r = Returns {| RequeueAfter := 0;
                          returnedError :=
                            match fault X (position w) with
                            | Some NotFound | None => None
                            | Some e => Some e
                            end;
                          finalInstance := None;
                          finalReady := false |}) w.
Proof.
  intros X w. apply (unreadable_service_ends_tick X ("svc", "gone") w).
  right. reflexivity.
Defined.

(** X15. A RayService whose spec [validateRayServiceSpec] refuses is left
    alone: [Reconcile] hands one warning event about it to the recorder,
    with the reason [InvalidRayServiceSpec] and the validation error,
    returns that error and asks to be run again.  It sends no request and
    touches neither the cache nor any stored object, and the instance is
    left as it was read. *)
Theorem invalid_spec_only_warns (X : Externals) (request : string * string)
    (rs0 : RayService.t) (e : error) (w : World) :
  fault X (position w) = None ->
  rayServices w !! request = Some rs0 ->
  validateRayServiceSpec rs0 = Some e ->
  wp (Reconcile X request)
     (fun r w' =>
        w' = record (Event (RayService.Namespace rs0) (RayService.Name rs0)
                       EventTypeWarning InvalidRayServiceSpec e) (advance w)
        /\ r = Returns {| RequeueAfter := ServiceDefaultRequeueDuration;
                          returnedError := Some e;
                          finalInstance := Some rs0;
                          finalReady := false |}) w.
Proof.
  intros Hf Hrs Hv. unfold Reconcile, getRayServiceInstance, GetRayService.
  apply wp_bind, wp_bind, wp_next. rewrite Hf.
  apply wp_bind, wp_gets. wsimpl. rewrite Hrs. apply wp_ret. rewrite Hv.
  unfold Eventf. apply wp_bind, wp_modify, wp_ret. split; reflexivity.
Qed.

Lemma invalid_spec_only_warns_witness :
  let X := quietRun oneApp in
  let w := worldOf [namedHeadService] [] in
  let e := Failure "spec.rayClusterConfig.headGroupSpec.headService.metadata.name should not be set" in
  wp (Reconcile X ("svc", "a"))
     (fun r w' =>
        w' = record (Event "svc" "a" EventTypeWarning InvalidRayServiceSpec e) (advance w)
        /\ r = Returns
                 {| RequeueAfter := ServiceDefaultRequeueDuration;
                    returnedError := Some e;
                    finalInstance := Some namedHeadService;
                    finalReady := false |}) w.
Proof.
  intros X w e.
  apply (invalid_spec_only_warns X ("svc", "a") namedHeadService e w); reflexivity.
Defined.

(** ** The status diff and the status updates of a tick *)

Lemma withoutHealthTimes_slotAlike (o n : RayServiceStatus.t) :
  withoutSlotHealthTimes o = withoutSlotHealthTimes n -> slotAlike o n.
Proof.
  intros H. split; [exact (f_equal RayServiceStatus.RayClusterName H)|].
  intros k. apply (f_equal RayServiceStatus.Applications) in H.
  apply (f_equal (fun m => m !! k)) in H. cbn in H. rewrite !lookup_fmap in H.
  destruct (RayServiceStatus.Applications o !! k) as [a|],
           (RayServiceStatus.Applications n !! k) as [b|]; try discriminate;
    constructor.
  injection H as Hs Hm Hd.
  split; [exact Hs|]. split; [exact Hm|]. intros d.
  apply (f_equal (fun m => m !! d)) in Hd. rewrite !lookup_fmap in Hd.
  destruct (AppStatus.Deployments a !! d) as [x|],
           (AppStatus.Deployments b !! d) as [y|]; try discriminate; constructor.
  injection Hd as Hx Hy. split; assumption.
Qed.

Lemma withoutHealthTimes_alike (o n : RayServiceStatuses.t) :
  withoutHealthTimes o = withoutHealthTimes n -> statusesAlike o n.
Proof.
  intros H.
  split; [exact (f_equal RayServiceStatuses.ServiceStatus H)|].
  split; [exact (f_equal RayServiceStatuses.NumServeEndpoints H)|].
  split; apply withoutHealthTimes_slotAlike.
  - exact (f_equal RayServiceStatuses.ActiveServiceStatus H).
  - exact (f_equal RayServiceStatuses.PendingServiceStatus H).
Qed.

Lemma In_app_cases {A : Type} (x : A) (l1 l2 l3 l4 l5 : list A) :
  In x (l1 ++ l2 ++ l3 ++ l4 ++ l5)%list ->
  In x l1 \/ In x l2 \/ In x l3 \/ In x l4 \/ In x l5.
Proof. rewrite !in_app_iff. tauto. Qed.

Lemma networkRequests_no_status (l : list Call) (s : RayService.t) :
  networkRequests l -> ~ In (UpdateStatus s) l.
Proof.
  intros (head & pod & serve & -> & Hh & Hp & Hs) Hin.
  rewrite !in_app_iff in Hin.
  destruct Hh as [->|[r ->]], Hp as [->|[p ->]], Hs as [->|[r' ->]]; cbn in Hin;
    intuition discriminate.
Qed.

(** C4, as amended.  [inconsistentRayServiceStatuses old new] is [true]
    exactly when [ServiceStatus] differs, [NumServeEndpoints] differs, or
    for the active or the pending slot the cluster name differs, the sets
    of application keys differ, some application's [Status] or [Message]
    differs, the sets of deployment keys of some application differ, or
    some deployment's [Status] or [Message] differs.  Hence it is [false]
    whenever the two statuses differ only in [HealthLastUpdateTime] fields
    or in the [RayClusterStatus] snapshots.  In a tick of [Reconcile] the
    diff guards the status update at the end only: that update is issued
    only when the Serve applications were found ready and the diff reports
    the status as inconsistent with the one read.  Every other status
    update of a tick is issued without the diff, by a tick that does not
    find the applications ready: the update of the Serve reconciler, which
    marks the service as waiting, or the update after the lifecycle step,
    issued while a pending cluster is named. *)
Theorem status_diff_exact :
  (forall o n : RayServiceStatuses.t,
     inconsistentRayServiceStatuses o n = true
     <-> RayServiceStatuses.ServiceStatus o <> RayServiceStatuses.ServiceStatus n
         \/ RayServiceStatuses.NumServeEndpoints o <> RayServiceStatuses.NumServeEndpoints n
         \/ slotsDiffer (RayServiceStatuses.ActiveServiceStatus o)
                        (RayServiceStatuses.ActiveServiceStatus n)
         \/ slotsDiffer (RayServiceStatuses.PendingServiceStatus o)
                        (RayServiceStatuses.PendingServiceStatus n))
  /\ (forall o n : RayServiceStatuses.t,
        statusesAlike o n -> inconsistentRayServiceStatuses o n = false)
  /\ (forall o n : RayServiceStatuses.t,
        withoutHealthTimes o = withoutHealthTimes n ->
        inconsistentRayServiceStatuses o n = false)
  /\ (forall (X : Externals) (request : string * string) (w : World),
        wp (Reconcile X request)
           (fun r w' =>
              exists issued, calls w' = (calls w ++ issued)%list
                /\ forall s, In (UpdateStatus s) issued ->
                     exists rs0, rayServices w !! request = Some rs0
                       /\ ((inconsistentRayServiceStatuses
                              (RayService.Status rs0) (RayService.Status s) = true
                            /\ exists res, r = Returns res /\ finalReady res = true)
                           \/ ((RayServiceStatuses.ServiceStatus (RayService.Status s)
                                = WaitForServeDeploymentReady
                                \/ RayService.PendingName s <> "")
                               /\ forall res, r = Returns res ->
                                    finalReady res = false))) w).
Proof.
  assert (Halike : forall o n : RayServiceStatuses.t,
            statusesAlike o n -> inconsistentRayServiceStatuses o n = false).
  { intros o n (Hs & He & Ha & Hp).
    apply not_true_iff_false. intros Ht.
    apply inconsistentRayServiceStatuses_spec in Ht as [H | [H | [H | H]]];
      try contradiction.
    + now apply (slotAlike_no_diff _ _ Ha).
    + now apply (slotAlike_no_diff _ _ Hp). }
  split; [exact inconsistentRayServiceStatuses_spec|]. split; [exact Halike|].
  split; [intros o n H; apply Halike, withoutHealthTimes_alike, H|].
  intros X request w.
  destruct (fault X (position w)) as [e|] eqn:Hf;
    [|destruct (rayServices w !! request) as [rs0|] eqn:Hrs].
  - eapply wp_mono; [apply Reconcile_unreadable; left; congruence|].
    intros r w' [-> _]. exists []. split; [wsimpl; now rewrite app_nil_r|]. intros s [].
  - eapply wp_mono; [apply (Reconcile_trace X request rs0 w Hf Hrs)|].
    intros r w' [(issued & Hc & Ht) _]. exists issued. split; [exact Hc|].
    intros s Hin. exists rs0. split; [reflexivity|].
    unfold tickTrace in Ht. destruct (validateRayServiceSpec rs0) as [e|].
    { subst issued. destruct Hin as [Hin|[]]. discriminate. }
    destruct Ht as (cluster & pushed & written & network & final & -> & Hcl & Hp & Hw
                    & Hn & Hfin & _).
    apply In_app_cases in Hin as [Hin|[Hin|[Hin|[Hin|Hin]]]].
    + rewrite Forall_forall in Hcl. apply list_elem_of_In, Hcl in Hin. destruct Hin.
    + destruct Hp as [->|(url & json & ->)]; [destruct Hin|].
      destruct Hin as [Hin|[]]. discriminate.
    + destruct Hw as [->|(s' & -> & Hkind & Hnot)]; [destruct Hin|].
      destruct Hin as [[= ->]|[]]. right. split; [exact Hkind|exact Hnot].
    + exfalso. exact (networkRequests_no_status network s Hn Hin).
    + destruct Hfin as [->|(s' & -> & Hdiff & Hready)]; [destruct Hin|].
      destruct Hin as [[= ->]|[]]. left. split; [exact Hdiff|exact Hready].
  - eapply wp_mono; [apply Reconcile_unreadable; now right|].
    intros r w' [-> _]. exists []. split; [wsimpl; now rewrite app_nil_r|]. intros s [].
Qed.

(** A tick that finds the applications ready and writes the status it
    promoted: the update at the end, which the diff lets pass. *)
Example guarded_status_update_run :
  let r := Reconcile (quietRun oneApp) ("svc", "a") (worldOf [coldSecond] []) in
  match last (calls (snd r)) with
  | Some (UpdateStatus s) =>
      inconsistentRayServiceStatuses (RayService.Status coldSecond) (RayService.Status s)
  | _ => false
  end = true.
Proof. vm_compute. reflexivity. Qed.

(** C4 as stated fails for the status updates of a tick.  The dashboard
    reports one application as deploying, tick after tick.  The second
    tick reads the status the first one wrote, polls the same application
    status, and writes the status again from the Serve reconciler: the
    status written is the one read but for the health timestamp of the
    application, and the diff returns [false] on the two. *)
Lemma status_write_without_diff_counterexample :
  let X := quietRun deployingApp in
  let first := Reconcile X ("svc", "a") (worldOf [settledOnV1] [activeV1]) in
  let second := Reconcile X ("svc", "a") (snd first) in
  exists old new,
    rayServices (snd first) !! ("svc", "a") = Some old
    /\ calls (snd second) = (calls (snd first) ++ [UpdateStatus new])%list
    /\ inconsistentRayServiceStatuses (RayService.Status old) (RayService.Status new)
       = false
    /\ withoutHealthTimes (RayService.Status old)
       = withoutHealthTimes (RayService.Status new)
    /\ activeHealthTime "app" old <> activeHealthTime "app" new
    /\ errorOf (fst first) = Some None /\ errorOf (fst second) = Some None.
Proof.
  intros X first second. eexists _, _.
  split; [vm_compute; reflexivity|].
  split; [vm_compute; reflexivity|].
  split; [vm_compute; reflexivity|].
  split; [vm_compute; reflexivity|].
  split; [vm_compute; discriminate|].
  split; vm_compute; reflexivity.
Qed.

(** ** The deletion grace over ticks *)

Lemma graceKept_refl (X : Externals) (w : World) : graceKept X w w.
Proof. split; [lia|]. split; [auto|]. split; auto. Qed.

Lemma scheduledFromClock_later (X : Externals) (w w' : World) :
  position w <= position w' ->
  RayClusterDeletionTimestamps w' = RayClusterDeletionTimestamps w ->
  scheduledFromClock X w -> scheduledFromClock X w'.
Proof.
  intros Hp Hm Hs name t Ht. rewrite Hm in Ht.
  destruct (Hs name t Ht) as (p & Hlt & ->). exists p. split; [lia|reflexivity].
Qed.

Lemma graceKept_quiet (X : Externals) (w0 w w' : World) :
  graceKept X w0 w -> position w <= position w' ->
  RayClusterDeletionTimestamps w' = RayClusterDeletionTimestamps w ->
  rayClusters w' = rayClusters w ->
  graceKept X w0 w'.
Proof.
  intros (Hp & Hm & Hwk & Hs) Hp' Hm' Hc. split; [lia|]. split; [|split].
  - intros name t Ht. rewrite Hm'. now apply Hm.
  - intros H0 key c Hk. rewrite Hc in Hk. exact (Hwk H0 key c Hk).
  - intros H0. exact (scheduledFromClock_later X w w' Hp' Hm' (Hs H0)).
Qed.

Lemma graceKept_stored (X : Externals) (w0 w w' : World) (c : RayCluster.t) :
  graceKept X w0 w -> position w <= position w' ->
  RayClusterDeletionTimestamps w' = RayClusterDeletionTimestamps w ->
  rayClusters w' = <[clusterKey c := c]> (rayClusters w) ->
  graceKept X w0 w'.
Proof.
  intros (Hp & Hm & Hwk & Hs) Hp' Hm' Hc. split; [lia|]. split; [|split].
  - intros name t Ht. rewrite Hm'. now apply Hm.
  - intros H0 key c' Hk. rewrite Hc in Hk.
    apply lookup_insert_Some in Hk as [[<- <-]|[_ Hk]]; [reflexivity|].
    exact (Hwk H0 key c' Hk).
  - intros H0. exact (scheduledFromClock_later X w w' Hp' Hm' (Hs H0)).
Qed.

Lemma graceKept_deleted (X : Externals) (w0 w w' : World) (key : string * string) :
  graceKept X w0 w -> position w <= position w' ->
  RayClusterDeletionTimestamps w' = RayClusterDeletionTimestamps w ->
  rayClusters w' = delete key (rayClusters w) ->
  graceKept X w0 w'.
Proof.
  intros (Hp & Hm & Hwk & Hs) Hp' Hm' Hc. split; [lia|]. split; [|split].
  - intros name t Ht. rewrite Hm'. now apply Hm.
  - intros H0 k c' Hk. rewrite Hc in Hk.
    apply lookup_delete_Some in Hk as [_ Hk]. exact (Hwk H0 k c' Hk).
  - intros H0. exact (scheduledFromClock_later X w w' Hp' Hm' (Hs H0)).
Qed.

Lemma graceKept_scheduled (X : Externals) (w0 w w' : World) (name : string) (p : nat) :
  graceKept X w0 w -> position w <= position w' -> p < position w' ->
  RayClusterDeletionTimestamps w !! name = None ->
  RayClusterDeletionTimestamps w'
  = <[name := (clock X p + RayClusterDeletionDelayDuration)%Z]>
      (RayClusterDeletionTimestamps w) ->
  rayClusters w' = rayClusters w ->
  graceKept X w0 w'.
Proof.
  intros (Hp & Hm & Hwk & Hs) Hp' Hlt Hnone Hm' Hc. split; [lia|]. split; [|split].
  - intros n t Ht. rewrite Hm'. apply Hm in Ht.
    rewrite lookup_insert_ne; [exact Ht|]. intros <-. congruence.
  - intros H0 key c Hk. rewrite Hc in Hk. exact (Hwk H0 key c Hk).
  - intros H0 n t Ht. rewrite Hm' in Ht.
    apply lookup_insert_Some in Ht as [[<- <-]|[_ Ht]].
    + exists p. split; [exact Hlt|reflexivity].
    + destruct (Hs H0 n t Ht) as (q & Hq & ->). exists q. split; [lia|reflexivity].
Qed.

(** Closes [graceKept X w0 w'] for a world [w'] built from a world that is
    known to keep the schedule. *)
Ltac kept_close :=
  lazymatch goal with
  | H : graceKept ?X ?w0 ?w |- graceKept ?X ?w0 _ =>
      first
        [ exact H
        | apply (graceKept_quiet X w0 w); [exact H|wsimpl; lia|reflexivity|reflexivity]
        | eapply (graceKept_stored X w0 w); [exact H|wsimpl; lia|reflexivity|reflexivity]
        | eapply (graceKept_deleted X w0 w); [exact H|wsimpl; lia|reflexivity|reflexivity] ]
  end.

Ltac kept_step := first [wp_step | apply wp_ServeConfigsGet].

(** Runs a call for which [lem] shows that the schedule is kept, and goes
    on from the world it leaves; [kept_call] first opens the bind the call
    is the head of. *)
Tactic Notation "kept_next" constr(lem) "as" simple_intropattern(p) :=
  lazymatch goal with
  | H : graceKept ?X ?w0 _ |- _ =>
      eapply wp_mono; [apply (lem X w0); first [eassumption|kept_close]|]
  end;
  let w1 := fresh "w" in
  let H := fresh "Hk" in
  intros p w1 H; try exact H; try (apply wp_ret; exact H).

Tactic Notation "kept_call" constr(lem) "as" simple_intropattern(p) :=
  apply wp_bind; kept_next lem as p.

Lemma cleanUpRayClusters_kept (X : Externals) (w0 : World) (rs : RayService.t)
    (items : list RayCluster.t) (w : World) :
  graceKept X w0 w ->
  wp (cleanUpRayClusters X rs items) (fun _ w' => graceKept X w0 w') w.
Proof.
  revert w. induction items as [|c rest IH]; intros w H; cbn [cleanUpRayClusters].
  - now apply wp_ret.
  - destruct (negb (String.eqb (RayCluster.Name c) (RayService.ActiveName rs))
              && negb (String.eqb (RayCluster.Name c) (RayService.PendingName rs)));
      [|now apply IH].
    apply wp_bind, wp_gets.
    destruct (RayClusterDeletionTimestamps w !! RayCluster.Name c) as [t|] eqn:Ht.
    + unfold Now, Delete. wp_steps.
      all: try (apply IH).
      all: kept_close.
    + unfold Now. wp_steps. apply IH.
      apply (graceKept_scheduled X w0 w _ (RayCluster.Name c) (position w) H);
        wsimpl; first [lia|exact Ht|reflexivity].
Qed.

Lemma cleanUpRayClusterInstance_kept (X : Externals) (w0 : World) (rs : RayService.t) (w : World) :
  graceKept X w0 w ->
  wp (cleanUpRayClusterInstance X rs) (fun _ w' => graceKept X w0 w') w.
Proof.
  intros H. unfold cleanUpRayClusterInstance, ListRayClusters. wp_steps.
  - kept_close.
  - apply cleanUpRayClusters_kept. kept_close.
Qed.

Lemma getRayClusterByNamespacedName_kept (X : Externals) (w0 : World) (key : string * string)
    (w : World) :
  graceKept X w0 w ->
  wp (getRayClusterByNamespacedName X key) (fun _ w' => graceKept X w0 w') w.
Proof.
  intros H. unfold getRayClusterByNamespacedName, GetRayCluster. wp_steps; kept_close.
Qed.

Lemma createRayClusterInstance_kept (X : Externals) (w0 : World) (rs : RayService.t) (w : World) :
  graceKept X w0 w ->
  wp (createRayClusterInstance X rs) (fun _ w' => graceKept X w0 w') w.
Proof.
  intros H. unfold createRayClusterInstance, GetRayCluster, Delete, Create.
  wp_steps; kept_close.
Qed.

Lemma updateRayClusterInstance_kept (X : Externals) (w0 : World) (c : RayCluster.t) (w : World) :
  graceKept X w0 w ->
  wp (updateRayClusterInstance X c) (fun _ w' => graceKept X w0 w') w.
Proof.
  intros H. unfold updateRayClusterInstance.
  kept_call getRayClusterByNamespacedName_kept as [[[current|] [e|]]|].
  unfold Update. wp_steps; kept_close.
Qed.

Lemma reconcileRayCluster_kept (X : Externals) (w0 : World) (rs : RayService.t) (w : World) :
  graceKept X w0 w ->
  wp (reconcileRayCluster X rs) (fun _ w' => graceKept X w0 w') w.
Proof.
  intros H. unfold reconcileRayCluster.
  kept_call cleanUpRayClusterInstance_kept as [[e|]|].
  kept_call getRayClusterByNamespacedName_kept as [[active [e|]]|].
  kept_call getRayClusterByNamespacedName_kept as [[pending [e|]]|].
  apply wp_bind, wp_liftExec.
  destruct (decideClusterAction X rs active pending) as [[| | | |]|]; [..|assumption].
  - now apply wp_ret.
  - destruct active as [a|]; [|assumption].
    destruct (constructRayClusterForRayService X rs (RayCluster.Name a)) as [[c|] [e|]];
      try (now apply wp_ret); [|assumption].
    kept_call updateRayClusterInstance_kept as [[e|]|].
  - destruct pending as [p|]; [|assumption].
    destruct (constructRayClusterForRayService X rs (RayCluster.Name p)) as [[c|] [e|]];
      try (now apply wp_ret); [|assumption].
    kept_call updateRayClusterInstance_kept as [[e|]|].
  - unfold markRestartAndAddPendingClusterName. wp_steps. kept_close.
  - kept_call createRayClusterInstance_kept as [[created e]|].
Qed.

Lemma StatusUpdate_kept (X : Externals) (w0 : World) (s : RayService.t) (w : World) :
  graceKept X w0 w ->
  wp (StatusUpdate X s) (fun _ w' => graceKept X w0 w') w.
Proof. intros H. unfold StatusUpdate. wp_steps; kept_close. Qed.

Lemma cleanUpServeConfigCache_kept (X : Externals) (w0 : World) (rs : RayService.t) (w : World) :
  graceKept X w0 w ->
  wp (cleanUpServeConfigCache rs) (fun _ w' => graceKept X w0 w') w.
Proof.
  intros H. unfold cleanUpServeConfigCache. cbv zeta. repeat kept_step; kept_close.
Qed.

Lemma getServeConfigFromCache_kept (X : Externals) (w0 : World) (rs : RayService.t) (name : string)
    (w : World) :
  graceKept X w0 w ->
  wp (getServeConfigFromCache rs name) (fun _ w' => graceKept X w0 w') w.
Proof.
  intros H. unfold getServeConfigFromCache. repeat kept_step; kept_close.
Qed.

Lemma cacheServeConfig_kept (X : Externals) (w0 : World) (rs : RayService.t) (name : string)
    (w : World) :
  graceKept X w0 w ->
  wp (cacheServeConfig rs name) (fun _ w' => graceKept X w0 w') w.
Proof.
  intros H. unfold cacheServeConfig. cbv zeta. repeat kept_step; kept_close.
Qed.

Lemma updateServeDeployment_kept (X : Externals) (w0 : World) (rs : RayService.t) (url name : string)
    (w : World) :
  graceKept X w0 w ->
  wp (updateServeDeployment X rs url name) (fun _ w' => graceKept X w0 w') w.
Proof.
  intros H. unfold updateServeDeployment, DashboardUpdateDeployments.
  destruct (yamlToJSON X _) as [configJson [e|]]; [now apply wp_ret|].
  wp_steps; try kept_close.
  kept_next cacheServeConfig_kept as [[]|].
Qed.

Lemma getAndCheckServeStatus_kept (X : Externals) (w0 : World) (url : string)
    (slot : RayServiceStatus.t) (w : World) :
  graceKept X w0 w ->
  wp (getAndCheckServeStatus X url slot) (fun _ w' => graceKept X w0 w') w.
Proof.
  intros H. unfold getAndCheckServeStatus, GetMultiApplicationStatus, Now.
  wp_steps; kept_close.
Qed.

Lemma reconcileServeOnReadyHead_kept (X : Externals) (w0 : World) (rs : RayService.t)
    (c : RayCluster.t) (isActive : bool) (w : World) :
  graceKept X w0 w ->
  wp (reconcileServeOnReadyHead X rs c isActive) (fun _ w' => graceKept X w0 w') w.
Proof.
  intros H. unfold reconcileServeOnReadyHead, FetchHeadServiceURL, InitClient.
  wp_steps; try kept_close.
  unfold checkIfNeedSubmitServeDeployment.
  kept_call getServeConfigFromCache_kept as [cached|].
  wp_steps.
  all: try (kept_next updateServeDeployment_kept as [[e|]|]).
  all: wp_steps.
  all: kept_next getAndCheckServeStatus_kept as [[[isReady [e|]] slot']|].
  all: wp_steps; try assumption.
  all: kept_next StatusUpdate_kept as [[e|]|].
Qed.

Lemma reconcileServe_kept (X : Externals) (w0 : World) (rs : RayService.t) (c : RayCluster.t)
    (isActive : bool) (w : World) :
  graceKept X w0 w ->
  wp (reconcileServe X rs c isActive) (fun _ w' => graceKept X w0 w') w.
Proof.
  intros H. unfold reconcileServe, isHeadPodRunningAndReady.
  wp_steps; try kept_close.
  all: apply reconcileServeOnReadyHead_kept; kept_close.
Qed.

Lemma updateStatusForActiveCluster_kept (X : Externals) (w0 : World) (rs : RayService.t)
    (c : RayCluster.t) (w : World) :
  graceKept X w0 w ->
  wp (updateStatusForActiveCluster X rs c) (fun _ w' => graceKept X w0 w') w.
Proof.
  intros H. unfold updateStatusForActiveCluster, FetchHeadServiceURL, InitClient.
  wp_steps; try kept_close.
  kept_next getAndCheckServeStatus_kept as [[[isReady [e|]] slot']|].
Qed.

Lemma reconcileServeFor_kept (X : Externals) (w0 : World) (rs : RayService.t)
    (active pending : option RayCluster.t) (w : World) :
  graceKept X w0 w ->
  wp (reconcileServeFor X rs active pending) (fun _ w' => graceKept X w0 w') w.
Proof.
  intros H. unfold reconcileServeFor. destruct active as [a|], pending as [p|].
  - kept_call updateStatusForActiveCluster_kept as [[e rs']|].
    now apply reconcileServe_kept.
  - now apply reconcileServe_kept.
  - now apply reconcileServe_kept.
  - now apply wp_ret.
Qed.

Lemma reconcileAfterServe_kept (X : Externals) (w0 : World) (original rs : RayService.t)
    (active pending : option RayCluster.t) (isReady : bool) (w : World) :
  graceKept X w0 w ->
  wp (reconcileAfterServe X original rs active pending isReady)
     (fun _ w' => graceKept X w0 w') w.
Proof.
  intros H. unfold reconcileAfterServe.
  destruct (negb isReady && negb (isEagerExposesServicesEnabled X));
    [now apply wp_ret|].
  cbv zeta. apply wp_bind. eapply wp_mono; [apply networkStep_spec|].
  intros r1 w1 (_ & Hc & _ & Hm & Hp & _).
  assert (H1 : graceKept X w0 w1) by exact (graceKept_quiet X w0 w w1 H Hp Hm Hc).
  clear H. destruct r1 as [svcErr|]; [|exact H1].
  unfold calculateStatus, Now. wp_steps; try kept_close.
  all: kept_next StatusUpdate_kept as [e|].
Qed.

(** A tick keeps the schedule. *)
Lemma Reconcile_kept (X : Externals) (request : string * string) (w : World) :
  wp (Reconcile X request) (fun _ w' => graceKept X w w') w.
Proof.
  pose proof (graceKept_refl X w) as H.
  unfold Reconcile, getRayServiceInstance, GetRayService, Eventf.
  wp_steps; try kept_close.
  kept_next cleanUpServeConfigCache_kept as [[]|].
  cbv zeta.
  kept_call reconcileRayCluster_kept as [[[[active pending] [e|]] rs']|].
  wp_step.
  - kept_call StatusUpdate_kept as [e|].
  - kept_call reconcileServeFor_kept as [[[isReady [e|]] s']|].
    now apply reconcileAfterServe_kept.
Qed.

Lemma cleanUpRayClusters_schedules (X : Externals) (rs : RayService.t)
    (items : list RayCluster.t) :
  forall w,
    wp (cleanUpRayClusters X rs items)
       (fun r w' =>
          r = Returns None ->
          forall c, In c items -> dangling rs (RayCluster.Name c) ->
            is_Some (RayClusterDeletionTimestamps w' !! RayCluster.Name c)) w.
Proof.
  induction items as [|c rest IH]; intros w; cbn [cleanUpRayClusters].
  - apply wp_ret. intros _ c [].
  - assert (Hrest : forall w1,
              is_Some (RayClusterDeletionTimestamps w1 !! RayCluster.Name c)
              \/ ~ dangling rs (RayCluster.Name c) ->
              wp (cleanUpRayClusters X rs rest)
                 (fun r w' =>
                    r = Returns None ->
                    forall c', In c' (c :: rest) -> dangling rs (RayCluster.Name c') ->
                      is_Some (RayClusterDeletionTimestamps w' !! RayCluster.Name c')) w1).
    { intros w1 Hhead.
      eapply wp_mono;
        [apply wp_conj;
         [apply (IH w1)
         |apply (cleanUpRayClusters_kept X w1 rs rest w1 (graceKept_refl X w1))]|].
      intros r w' [Hr (_ & Hmono & _)] E c' [<-|Hin] Hd.
      - destruct Hhead as [[t Ht]|Hn]; [|contradiction].
        exists t. now apply Hmono.
      - now apply Hr. }
    destruct (negb (String.eqb (RayCluster.Name c) (RayService.ActiveName rs))
              && negb (String.eqb (RayCluster.Name c) (RayService.PendingName rs)))
      eqn:Hd.
    2: { apply Hrest. right. intros Hdang. apply dangling_test in Hdang. congruence. }
    apply wp_bind, wp_gets.
    destruct (RayClusterDeletionTimestamps w !! RayCluster.Name c) as [t|] eqn:Ht.
    + unfold Now, Delete. wp_steps.
      all: try discriminate.
      all: apply Hrest; left; wsimpl; rewrite Ht; eauto.
    + unfold Now. wp_steps. apply Hrest. left. wsimpl.
      rewrite lookup_insert_eq. eauto.
Qed.

Lemma cleanUpRayClusterInstance_schedules (X : Externals) (rs : RayService.t) (w : World) :
  wp (cleanUpRayClusterInstance X rs)
     (fun r w' =>
        r = Returns None ->
        forall c, rayClusters w !! clusterKey c = Some c -> associated rs c = true ->
          dangling rs (RayCluster.Name c) ->
          is_Some (RayClusterDeletionTimestamps w' !! RayCluster.Name c)) w.
Proof.
  unfold cleanUpRayClusterInstance, ListRayClusters. wp_steps.
  - discriminate.
  - eapply wp_mono; [apply cleanUpRayClusters_schedules|].
    intros r w' Hr E c Hc Ha Hd. apply (Hr E c); [|exact Hd]. wsimpl.
    apply filter_In. split; [|exact Ha].
    apply in_map_iff. exists (clusterKey c, c). split; [reflexivity|].
    now apply list_elem_of_In, elem_of_map_to_list.
Qed.

Lemma cleanUpRayClusters_deletes (X : Externals) (rs : RayService.t)
    (items : list RayCluster.t) :
  forall w,
    wp (cleanUpRayClusters X rs items)
       (fun r w' =>
          r = Returns None ->
          forall c t, In c items -> dangling rs (RayCluster.Name c) ->
            RayClusterDeletionTimestamps w !! RayCluster.Name c = Some t ->
            (exists issued, calls w' = (calls w ++ issued)%list
               /\ In (DeleteRayCluster (RayCluster.Namespace c) (RayCluster.Name c)) issued)
            \/ exists p, position w <= p < position w' /\ (clock X p <= t)%Z) w.
Proof.
  induction items as [|c rest IH]; intros w; cbn [cleanUpRayClusters].
  - apply wp_ret. intros _ c t [].
  - assert (Hrest : forall w1 pre,
              calls w1 = (calls w ++ pre)%list -> position w <= position w1 ->
              (forall name t, RayClusterDeletionTimestamps w !! name = Some t ->
                 RayClusterDeletionTimestamps w1 !! name = Some t) ->
              (dangling rs (RayCluster.Name c) ->
               forall t, RayClusterDeletionTimestamps w !! RayCluster.Name c = Some t ->
                 In (DeleteRayCluster (RayCluster.Namespace c) (RayCluster.Name c)) pre
                 \/ exists p, position w <= p < position w1 /\ (clock X p <= t)%Z) ->
              wp (cleanUpRayClusters X rs rest)
                 (fun r w' =>
                    r = Returns None ->
                    forall c' t, In c' (c :: rest) -> dangling rs (RayCluster.Name c') ->
                      RayClusterDeletionTimestamps w !! RayCluster.Name c' = Some t ->
                      (exists issued, calls w' = (calls w ++ issued)%list
                         /\ In (DeleteRayCluster (RayCluster.Namespace c')
                                  (RayCluster.Name c')) issued)
                      \/ exists p, position w <= p < position w' /\ (clock X p <= t)%Z) w1).
    { intros w1 pre Hcalls Hpos Hkeep Hhead.
      eapply wp_mono;
        [apply wp_conj;
         [apply (IH w1)
         |apply wp_conj;
          [apply (cleanUpRayClusters_kept X w1 rs rest w1 (graceKept_refl X w1))
          |apply (cleanUpRayClusters_requests X rs rest w1 w1 (issues_refl _ w1))]]|].
      intros r w' [Hr [(Hp' & _) (l & Hl & _)]] E c' t [<-|Hin] Hd Ht.
      - destruct (Hhead Hd t Ht) as [Hdel|(p & Hp & Hle)].
        + left. exists (pre ++ l)%list.
          split; [now rewrite Hl, Hcalls, app_assoc|apply in_or_app; now left].
        + right. exists p. split; [lia|exact Hle].
      - destruct (Hr E c' t Hin Hd (Hkeep _ _ Ht)) as [(issued & Hi & Hdel)|(p & Hp & Hle)].
        + left. exists (pre ++ issued)%list.
          split; [now rewrite Hi, Hcalls, app_assoc|apply in_or_app; now right].
        + right. exists p. split; [lia|exact Hle]. }
    destruct (negb (String.eqb (RayCluster.Name c) (RayService.ActiveName rs))
              && negb (String.eqb (RayCluster.Name c) (RayService.PendingName rs)))
      eqn:Hd.
    2: { apply (Hrest w []); [now rewrite app_nil_r|lia|auto|].
         intros Hdang. apply dangling_test in Hdang. congruence. }
    apply wp_bind, wp_gets.
    destruct (RayClusterDeletionTimestamps w !! RayCluster.Name c) as [t|] eqn:Ht.
    + unfold Now. do 4 wp_step.
      destruct (0 <? clock X (position w) - t)%Z eqn:Hpassed.
      * unfold Delete. wp_steps.
        all: try discriminate.
        all: apply (Hrest _ [DeleteRayCluster (RayCluster.Namespace c) (RayCluster.Name c)]);
          wsimpl; [reflexivity|lia|auto|intros _ t' _; left; now left].
      * apply (Hrest _ []); wsimpl; [now rewrite app_nil_r|lia|auto|].
        intros _ t' [= <-]. right. exists (position w).
        apply Z.ltb_ge in Hpassed. split; lia.
    + unfold Now. wp_steps. apply (Hrest _ []); wsimpl.
      * now rewrite app_nil_r.
      * lia.
      * intros name t Hn. rewrite lookup_insert_ne; [exact Hn|]. congruence.
      * intros _ t Ht'. congruence.
Qed.

Lemma cleanUpRayClusterInstance_deletes (X : Externals) (rs : RayService.t) (w : World) :
  wp (cleanUpRayClusterInstance X rs)
     (fun r w' =>
        r = Returns None ->
        forall c t, rayClusters w !! clusterKey c = Some c -> associated rs c = true ->
          dangling rs (RayCluster.Name c) ->
          RayClusterDeletionTimestamps w !! RayCluster.Name c = Some t ->
          (exists issued, calls w' = (calls w ++ issued)%list
             /\ In (DeleteRayCluster (RayCluster.Namespace c) (RayCluster.Name c)) issued)
          \/ exists p, position w <= p < position w' /\ (clock X p <= t)%Z) w.
Proof.
  unfold cleanUpRayClusterInstance, ListRayClusters. wp_steps.
  - discriminate.
  - eapply wp_mono; [apply cleanUpRayClusters_deletes|].
    intros r w' Hr E c t Hc Ha Hd Ht.
    destruct (Hr E c t) as [H|(p & Hp & Hle)]; wsimpl.
    + apply filter_In. split; [|exact Ha].
      apply in_map_iff. exists (clusterKey c, c). split; [reflexivity|].
      now apply list_elem_of_In, elem_of_map_to_list.
    + exact Hd.
    + exact Ht.
    + left. exact H.
    + right. exists p. wsimpl. split; [lia|exact Hle].
Qed.



(** The walk of the witness deletes the cluster that was scheduled. *)
Example deletion_grace_run :
  calls (snd (cleanUpRayClusterInstance (quietRun ∅) runningOnV2 worldWithDangling))
  = [DeleteRayCluster "svc" "a-raycluster-0"].
Proof. vm_compute. reflexivity. Qed.

(** A first observation: the dangling cluster is scheduled a minute after
    the reading of the walk, and nothing is deleted. *)
Example first_observation_run :
  let w' := snd (cleanUpRayClusterInstance (quietRun ∅) runningOnV2 twoNamespaces) in
  RayClusterDeletionTimestamps w' !! "a-raycluster-0" = Some (61 * Second)%Z
  /\ calls w' = [].
Proof. split; vm_compute; reflexivity. Qed.


(** ** A whole tick: what is left alone *)

Lemma statusOnly_setStatus (rs0 s : RayService.t) (st : RayServiceStatuses.t) :
  statusOnly rs0 s ->
  RayServiceStatuses.ObservedGeneration st
  = RayServiceStatuses.ObservedGeneration (RayService.Status s) ->
  statusOnly rs0 (RayService.setStatus st s).
Proof.
  intros [H1 H2] Hg. split; [exact H1|]. cbn. now rewrite Hg.
Qed.

Lemma statusOnly_marked (rs0 s : RayService.t) (cs : RayClusterStatus.t) :
  statusOnly rs0 s -> statusOnly rs0 (setActiveRayClusterStatus cs s).
Proof. intros H. exact (statusOnly_setStatus rs0 s _ H eq_refl). Qed.

Lemma statusOnly_polled (rs0 s : RayService.t) (isActive : bool)
    (apps : gmap string AppStatus.t) :
  statusOnly rs0 s -> statusOnly rs0 (polled isActive apps s).
Proof.
  intros H. unfold polled, setSlot.
  destruct isActive; exact (statusOnly_setStatus rs0 s _ H eq_refl).
Qed.

Lemma statusOnly_withServiceStatus (rs0 s : RayService.t) (v : string) :
  statusOnly rs0 s -> statusOnly rs0 (withServiceStatus v s).
Proof. intros H. exact (statusOnly_setStatus rs0 s _ H eq_refl). Qed.

Lemma statusOnly_updateRayClusterInfo (rs0 s : RayService.t) (name : string) :
  statusOnly rs0 s -> statusOnly rs0 (updateRayClusterInfo s name).
Proof.
  intros H. unfold updateRayClusterInfo. cbv zeta.
  destruct (negb _); [exact (statusOnly_setStatus rs0 s _ H eq_refl)|exact H].
Qed.

Lemma statusOnly_restarted (rs0 s s' : RayService.t) :
  statusOnly rs0 s -> restarted s s' -> statusOnly rs0 s'.
Proof. intros H [name ->]. exact (statusOnly_setStatus rs0 s _ H eq_refl). Qed.

Lemma statusOnly_notReadyWrite (rs0 s s' : RayService.t) (isActive : bool) :
  statusOnly rs0 s -> notReadyWrite isActive s s' -> statusOnly rs0 s'.
Proof.
  intros H [apps ->]. now apply statusOnly_withServiceStatus, statusOnly_polled.
Qed.

Lemma served_statusOnly (rs0 s : RayService.t) (isActive : bool) (c : RayCluster.t)
    (r : Exec ((bool * option error) * RayService.t)) :
  statusOnly rs0 s -> served isActive s c r ->
  exists isReady e s', r = Returns ((isReady, e), s') /\ statusOnly rs0 s'.
Proof.
  intros H (isReady & e & s' & -> & Hs). exists isReady, e, s'.
  split; [reflexivity|].
  destruct Hs as [(_ & [-> | Hw]) | (_ & _ & [apps ->])].
  - exact H.
  - exact (statusOnly_notReadyWrite rs0 s s' isActive H Hw).
  - now apply statusOnly_updateRayClusterInfo, statusOnly_withServiceStatus,
      statusOnly_polled.
Qed.

Lemma reconcileServeFor_statusOnly (X : Externals) (rs0 rs : RayService.t)
    (active pending : option RayCluster.t) (w0 w : World) :
  statusOnly rs0 rs ->
  issues (statusWriteOf (statusOnly rs0)) w0 w ->
  wp (reconcileServeFor X rs active pending)
     (fun r w' =>
        issues (statusWriteOf (statusOnly rs0)) w0 w'
        /\ exists isReady e s', r = Returns ((isReady, e), s') /\ statusOnly rs0 s') w.
Proof.
  intros Hs Hw.
  assert (Hserve : forall s c isActive w1,
            statusOnly rs0 s -> issues (statusWriteOf (statusOnly rs0)) w0 w1 ->
            wp (reconcileServe X s c isActive)
               (fun r w' =>
                  issues (statusWriteOf (statusOnly rs0)) w0 w'
                  /\ exists isReady e s', r = Returns ((isReady, e), s')
                                          /\ statusOnly rs0 s') w1).
  { intros s c isActive w1 Hst Hw1.
    eapply wp_mono; [apply reconcileServe_served|].
    intros r w' [Hi Hr]. cbv zeta in Hi, Hr.
    pose proof (statusOnly_marked rs0 s (RayCluster.Status c) Hst) as Hm.
    split; [|exact (served_statusOnly rs0 _ isActive c r Hm Hr)].
    eapply issues_trans; [exact Hw1|]. eapply issues_impl; [|exact Hi].
    intros [| | |s'| | | |]; simpl; auto.
    exact (statusOnly_notReadyWrite rs0 _ s' isActive Hm). }
  unfold reconcileServeFor, setPendingStatus, setActiveStatus, setSlot.
  destruct active as [a|], pending as [p|].
  - apply wp_bind. eapply wp_mono; [apply updateStatusForActiveCluster_spec|].
    intros r w1 (Hc & e & rs' & -> & Hrs'). cbv zeta in Hrs'.
    apply Hserve; [|now apply (issues_same _ w0 w)].
    destruct Hrs' as [-> | [apps ->]].
    + now apply statusOnly_marked.
    + now apply statusOnly_polled, statusOnly_marked.
  - apply Hserve; [|exact Hw]. exact (statusOnly_setStatus rs0 rs _ Hs eq_refl).
  - apply Hserve; [|exact Hw]. exact (statusOnly_setStatus rs0 rs _ Hs eq_refl).
  - apply wp_ret. split; [exact Hw|]. eexists _, _, _. split; [reflexivity|].
    apply statusOnly_setStatus; [|reflexivity].
    exact (statusOnly_setStatus rs0 rs _ Hs eq_refl).
Qed.

Lemma reconcileAfterServe_statusOnly (X : Externals) (rs0 original rs : RayService.t)
    (active pending : option RayCluster.t) (isReady : bool) (w0 w : World) :
  statusOnly rs0 rs ->
  issues (statusWriteOf (statusOnly rs0)) w0 w ->
  wp (reconcileAfterServe X original rs active pending isReady)
     (fun r w' =>
        issues (statusWriteOf (statusOnly rs0)) w0 w'
        /\ forall res s, r = Returns res -> finalInstance res = Some s ->
             statusOnly rs0 s) w.
Proof.
  intros Hs Hw.
  assert (Hkeep : forall st,
         RayServiceStatuses.ObservedGeneration st
         = RayServiceStatuses.ObservedGeneration (RayService.Status rs) ->
         statusOnly rs0 (RayService.setStatus st rs))
    by (intros st; apply statusOnly_setStatus; exact Hs).
  unfold reconcileAfterServe.
  destruct (negb isReady && negb (isEagerExposesServicesEnabled X)).
  { apply wp_ret. split; [exact Hw|]. intros res s [= <-] [= <-]. exact Hs. }
  cbv zeta. apply wp_bind. eapply wp_mono; [apply networkStep_spec|].
  intros r1 w1 Hnet.
  pose proof (networkOutcome_issues X _ w0 w w1 r1 Hw Hnet) as Hw1. clear Hw Hnet.
  destruct r1 as [svcErr|]; [|split; [exact Hw1|discriminate]].
  unfold calculateStatus, StatusUpdate, Now, requeue.
  wp_steps; try discriminate.
  all: split;
    [issues_close;
     try (constructor; [cbn [statusWriteOf]; apply Hkeep; reflexivity|constructor]);
     try (constructor; fail)
    |intros res s [= <-] [= <-]; first [exact Hs|apply Hkeep; reflexivity]].
Qed.

(** X16. A tick changes the RayService in its status only.  Every status
    update it issues carries the name, namespace, labels, annotations,
    generation and spec of the object it read, and an observed generation
    equal to that object's generation.  So does the instance it leaves
    when the spec is valid; when [validateRayServiceSpec] refuses the
    spec, the instance left is the object as it was read, its observed
    generation included. *)
Theorem tick_writes_status_only (X : Externals) (request : string * string)
    (rs0 : RayService.t) (w : World) :
  rayServices w !! request = Some rs0 ->
  wp (Reconcile X request)
     (fun r w' =>
        issues (statusWriteOf (statusOnly rs0)) w w'
        /\ forall res s, r = Returns res -> finalInstance res = Some s ->
             match validateRayServiceSpec rs0 with
             | None => statusOnly rs0 s
             | Some _ => s = rs0
             end) w.
Proof.
  intros Hrs. unfold Reconcile, getRayServiceInstance, GetRayService.
  assert (Hself : RayService.setStatus (RayService.Status rs0) rs0 = rs0)
    by now destruct rs0.
  apply wp_bind, wp_bind, wp_next.
  destruct (fault X (position w)) eqn:Hf.
  { wp_steps. split; [issues_close|]. intros res s [= <-]. discriminate. }
  apply wp_bind, wp_gets. wsimpl. rewrite Hrs. apply wp_ret.
  destruct (validateRayServiceSpec rs0) eqn:Hv.
  { unfold Eventf. wp_steps. split; [issues_close; repeat constructor|].
    intros res s [= <-] [= <-]. reflexivity. }
  apply wp_bind. eapply wp_mono; [apply (cleanUpServeConfigCache_calls X)|].
  intros r w1 [-> Hc1]. wsimpl.
  assert (H1 : issues (statusWriteOf (statusOnly rs0)) w w1)
    by (apply (issues_same _ w w); [apply issues_refl|exact Hc1]).
  cbv zeta. apply wp_bind.
  eapply wp_mono; [apply reconcileRayCluster_spec|].
  intros [[[[active pending] e] rs']|] w2 [Hi Hr].
  2: { split; [|discriminate]. eapply issues_trans; [exact H1|].
       eapply issues_impl; [|exact Hi]. apply clusterRequest_statusWrite. }
  assert (H2 : issues (statusWriteOf (statusOnly rs0)) w w2).
  { eapply issues_trans; [exact H1|]. eapply issues_impl; [|exact Hi].
    apply clusterRequest_statusWrite. }
  destruct Hr as [Hrs' _].
  assert (Hs1 : statusOnly rs0
                  (RayService.setStatus
                     (RayServiceStatuses.setObservedGeneration (RayService.Generation rs0)
                        (RayService.Status rs0)) rs0))
    by (split; [exact Hself|reflexivity]).
  assert (Hs' : statusOnly rs0 rs').
  { destruct Hrs' as [->|Hre]; [exact Hs1|exact (statusOnly_restarted rs0 _ rs' Hs1 Hre)]. }
  assert (Hdone : forall (res : Reconciled) (s : RayService.t) (w' : World),
            finalInstance res = Some s -> statusOnly rs0 s ->
            issues (statusWriteOf (statusOnly rs0)) w w' ->
            issues (statusWriteOf (statusOnly rs0)) w w'
            /\ forall res' s', Returns res = Returns res' -> finalInstance res' = Some s' ->
                 statusOnly rs0 s').
  { intros res s w' Hfin Hst Hw. split; [exact Hw|].
    intros res' s' [= <-] Hfin'. rewrite Hfin in Hfin'. now injection Hfin' as <-. }
  destruct e as [e|].
  { apply wp_ret. apply (Hdone _ rs'); [reflexivity|exact Hs'|exact H2]. }
  destruct (negb (String.eqb (RayService.PendingName rs') "") && negb (notNil pending)).
  { unfold StatusUpdate. wp_steps.
    all: apply (Hdone _ rs'); [reflexivity|exact Hs'|].
    all: issues_close; constructor; [exact Hs'|constructor]. }
  apply wp_bind.
  eapply wp_mono; [apply (reconcileServeFor_statusOnly X rs0 rs' active pending w w2 Hs' H2)|].
  intros r w3 (H3 & isReady & e & s' & -> & Hst).
  destruct e as [e|].
  { apply wp_ret. apply (Hdone _ s'); [reflexivity|exact Hst|exact H3]. }
  exact (reconcileAfterServe_statusOnly X rs0 rs0 s' active pending isReady w w3 Hst H3).
Qed.

Lemma tick_writes_status_only_witness :
  let X := quietRun oneApp in
  let w := worldOf [coldSecond] [] in
  wp (Reconcile X ("svc", "a"))
     (fun r w' =>
        issues (statusWriteOf (statusOnly coldSecond)) w w'
        /\ forall res s, r = Returns res -> finalInstance res = Some s ->
             match validateRayServiceSpec coldSecond with
             | None => statusOnly coldSecond s
             | Some _ => s = coldSecond
             end) w.
Proof.
  intros X w. apply (tick_writes_status_only X ("svc", "a") coldSecond w). reflexivity.
Defined.

(** ** The first tick of a cold start *)

Lemma cleanUpRayClusters_services (X : Externals) (rs : RayService.t)
    (items : list RayCluster.t) (w0 w : World) :
  rayServices w = rayServices w0 ->
  wp (cleanUpRayClusters X rs items) (fun _ w' => rayServices w' = rayServices w0) w.
Proof.
  revert w. induction items as [|c rest IH]; intros w H; cbn [cleanUpRayClusters].
  - now apply wp_ret.
  - unfold Now, Delete. wp_steps.
    all: try (apply IH).
    all: wsimpl; exact H.
Qed.

Lemma cleanUpRayClusterInstance_services (X : Externals) (rs : RayService.t) (w : World) :
  wp (cleanUpRayClusterInstance X rs) (fun _ w' => rayServices w' = rayServices w) w.
Proof.
  unfold cleanUpRayClusterInstance, ListRayClusters. wp_steps.
  - reflexivity.
  - now apply cleanUpRayClusters_services.
Qed.

(** X17. The first tick of a cold start.  For a valid RayService with
    neither an active nor a pending cluster name, when no request fails
    and a non-empty name is generated, [Reconcile] generates the pending
    cluster name, marks the service Restarting, writes that status as its
    last request and stores it, creates no cluster, returns no error and
    asks to be run again. *)
Theorem cold_start_first_tick (X : Externals) (request : string * string)
    (rs0 : RayService.t) (w : World) :
  rayServices w !! request = Some rs0 ->
  serviceKey rs0 = request ->
  validateRayServiceSpec rs0 = None ->
  RayService.ActiveName rs0 = "" ->
  RayService.PendingName rs0 = "" ->
  faultless X -> wellKeyed w ->
  (forall n, GenerateRayClusterName X (RayService.Name rs0) n <> "") ->
  wp (Reconcile X request)
     (fun r w' =>
        exists issued s n,
          r = Returns (requeue None s false)
          /\ statusOnly rs0 s
          /\ RayServiceStatuses.ServiceStatus (RayService.Status s) = Restarting
          /\ RayService.ActiveName s = ""
          /\ RayService.PendingName s = GenerateRayClusterName X (RayService.Name rs0) n
          /\ calls w' = (calls w ++ issued ++ [UpdateStatus s])%list
          /\ Forall clusterRequest issued
          /\ noneAdded w w'
          /\ rayServices w' !! request
             = Some (RayService.setStatus (RayService.Status s) rs0)) w.
Proof.
  intros Hrs Hkey Hv Ha Hp Hq Hwk Hgen.
  unfold Reconcile, getRayServiceInstance, GetRayService.
  apply wp_bind, wp_bind, wp_next. rewrite Hq.
  apply wp_bind, wp_gets. wsimpl. rewrite Hrs. apply wp_ret. rewrite Hv.
  apply wp_bind. eapply wp_mono; [apply (cleanUpServeConfigCache_frame X)|].
  intros r w1 (-> & Hc1 & Hr1 & Hs1 & _). wsimpl. cbv zeta.
  set (rs1 := RayService.setStatus _ rs0).
  assert (Hwk1 : wellKeyed w1) by (intros key c H; rewrite Hr1 in H; exact (Hwk key c H)).
  apply wp_bind. unfold reconcileRayCluster. apply wp_bind.
  eapply wp_mono;
    [apply wp_conj;
     [apply wp_conj;
      [apply (cleanUpRayClusterInstance_faultless X rs1 w1 Hq Hwk1)
      |apply (cleanUpRayClusterInstance_requests X rs1 w1)]
     |apply (cleanUpRayClusterInstance_services X rs1 w1)]|].
  intros r w2 [[[-> Hn2] (issued & Hc2 & Hcl)] Hs2].
  unfold getRayClusterByNamespacedName, RayServiceActiveRayClusterNamespacedName,
    RayServicePendingRayClusterNamespacedName.
  change (RayService.ActiveName rs1) with (RayService.ActiveName rs0).
  change (RayService.PendingName rs1) with (RayService.PendingName rs0).
  rewrite Ha, Hp. cbn [snd String.eqb].
  apply wp_bind, wp_ret. apply wp_bind, wp_ret. apply wp_bind, wp_liftExec.
  unfold decideClusterAction.
  change (RayService.PendingName rs1) with (RayService.PendingName rs0).
  rewrite Hp. cbn [String.eqb negb].
  apply wp_bind. unfold markRestartAndAddPendingClusterName.
  apply wp_bind, wp_next. cbv zeta. apply wp_ret, wp_ret.
  set (s := RayService.setStatus _ rs1).
  change (RayService.PendingName s)
    with (GenerateRayClusterName X (RayService.Name rs0) (position w2)).
  rewrite (proj2 (String.eqb_neq _ _) (Hgen (position w2))). cbn [negb notNil andb].
  unfold StatusUpdate. apply wp_bind, wp_bind, wp_next. apply wp_bind, wp_modify.
  wsimpl. rewrite Hq. apply wp_bind, wp_gets. wsimpl.
  change (serviceKey s) with (serviceKey rs0). rewrite Hkey, Hs2, Hs1, Hrs.
  apply wp_bind, wp_modify, wp_ret, wp_ret. wsimpl.
  exists issued, s, (position w2). split; [reflexivity|].
  split; [split; [now destruct rs0|reflexivity]|].
  split; [reflexivity|]. split; [exact Ha|]. split; [reflexivity|].
  split; [now rewrite Hc2, Hc1, <- app_assoc|]. split; [exact Hcl|].
  split; [intros key Hk; apply Hn2; now rewrite Hr1|].
  now rewrite lookup_insert_eq.
Qed.

Lemma cold_start_first_tick_witness :
  let X := quietRun oneApp in
  let w := worldOf [coldFirst] [] in
  wp (Reconcile X ("svc", "a"))
     (fun r w' =>
        exists issued s n,
          r = Returns (requeue None s false)
          /\ statusOnly coldFirst s
          /\ RayServiceStatuses.ServiceStatus (RayService.Status s) = Restarting
          /\ RayService.ActiveName s = ""
          /\ RayService.PendingName s
             = GenerateRayClusterName X (RayService.Name coldFirst) n
          /\ calls w' = (calls w ++ issued ++ [UpdateStatus s])%list
          /\ Forall clusterRequest issued
          /\ noneAdded w w'
          /\ rayServices w' !! ("svc", "a")
             = Some (RayService.setStatus (RayService.Status s) coldFirst)) w.
Proof.
  intros X w. apply (cold_start_first_tick X ("svc", "a") coldFirst w).
  - reflexivity.
  - reflexivity.
  - reflexivity.
  - reflexivity.
  - reflexivity.
  - intros n. reflexivity.
  - intros key c H. cbn in H. rewrite lookup_empty in H. discriminate.
  - intros n H. cbn in H. discriminate.
Defined.

(** ** The serve label of the head pod *)

(** X18. [labelHeadPodForServeStatus] sets the serve label of the head pod
    to true exactly when the proxy actor is healthy and the head pod is
    not excluded, and to false otherwise; a failed health check is not an
    error.  It sends an update only when that changes the labels, then
    with all other labels as they were, and returns the error of that
    update; run again on the pod it sent, it sends nothing. *)
Theorem serve_label_follows_proxy_health (A : HeadPod.Answers) (exclude : bool)
    (pod : HeadPod.Pod) (container : string) (others : list string) :
  HeadPod.GetRayClusterHeadPod A = (Some pod, None) ->
  HeadPod.Containers pod = container :: others ->
  let key := HeadPod.RayClusterServingServiceLabelKey in
  let value := serveLabelValue A exclude in
  let labelled := HeadPod.setLabels (<[key := value]> (HeadPod.Labels pod)) pod in
  (value = HeadPod.EnableRayClusterServingServiceTrue
   <-> HeadPod.CheckProxyActorHealth A = None /\ exclude = false)
  /\ (HeadPod.Labels pod !! key = Some value ->
      HeadPod.labelHeadPodForServeStatus A exclude = Returns ([], None))
  /\ (HeadPod.Labels pod !! key <> Some value ->
      HeadPod.labelHeadPodForServeStatus A exclude
      = Returns ([labelled], HeadPod.Update A labelled))
  /\ HeadPod.labelHeadPodForServeStatus (withHeadPod labelled A) exclude
     = Returns ([], None).
Proof.
  intros Hpod Hc key value labelled.
  assert (Hrun : forall p,
            HeadPod.Containers p = container :: others ->
            forall A', HeadPod.GetRayClusterHeadPod A' = (Some p, None) ->
              HeadPod.CheckProxyActorHealth A' = HeadPod.CheckProxyActorHealth A ->
              HeadPod.labelHeadPodForServeStatus A' exclude
              = let sent := HeadPod.setLabels (<[key := value]> (HeadPod.Labels p)) p in
                if negb (bool_decide (HeadPod.Labels p = <[key := value]> (HeadPod.Labels p)))
                then match HeadPod.Update A' sent with
                     | Some e => Returns ([sent], Some e)
                     | None => Returns ([sent], None)
                     end
                else Returns ([], None)).
  { intros p Hp A' Hget Hhealth. unfold HeadPod.labelHeadPodForServeStatus.
    rewrite Hget, Hp, Hhealth. cbn [nth_error HeadPod.RayContainerIndex].
    subst value key. unfold serveLabelValue.
    now destruct (negb (notNil (HeadPod.CheckProxyActorHealth A)) && negb exclude). }
  split; [|split; [|split]].
  - subst value. unfold serveLabelValue.
    destruct (HeadPod.CheckProxyActorHealth A), exclude; cbn; split;
      try discriminate; try (intros [? ?]; discriminate); auto.
  - intros Hl. rewrite (Hrun pod Hc A Hpod eq_refl). cbv zeta.
    rewrite (insert_id _ _ _ Hl). rewrite bool_decide_eq_true_2 by reflexivity.
    reflexivity.
  - intros Hl. rewrite (Hrun pod Hc A Hpod eq_refl). cbv zeta.
    rewrite bool_decide_eq_false_2.
    + cbn [negb]. fold labelled. now destruct (HeadPod.Update A labelled).
    + intros E. apply Hl. rewrite E. now rewrite lookup_insert_eq.
  - rewrite (Hrun labelled Hc (withHeadPod labelled A) eq_refl eq_refl). cbv zeta.
    rewrite bool_decide_eq_true_2; [reflexivity|].
    subst labelled. cbn [HeadPod.Labels HeadPod.setLabels]. now rewrite insert_insert_eq.
Qed.

Lemma serve_label_follows_proxy_health_witness :
  let key := HeadPod.RayClusterServingServiceLabelKey in
  let value := serveLabelValue healthyProxy false in
  let labelled :=
    HeadPod.setLabels (<[key := value]> (HeadPod.Labels headPodOfA)) headPodOfA in
  (value = HeadPod.EnableRayClusterServingServiceTrue
   <-> HeadPod.CheckProxyActorHealth healthyProxy = None /\ false = false)
  /\ (HeadPod.Labels headPodOfA !! key = Some value ->
      HeadPod.labelHeadPodForServeStatus healthyProxy false = Returns ([], None))
  /\ (HeadPod.Labels headPodOfA !! key <> Some value ->
      HeadPod.labelHeadPodForServeStatus healthyProxy false
      = Returns ([labelled], HeadPod.Update healthyProxy labelled))
  /\ HeadPod.labelHeadPodForServeStatus (withHeadPod labelled healthyProxy) false
     = Returns ([], None).
Proof.
  exact (serve_label_follows_proxy_health healthyProxy false headPodOfA "ray-head" []
           eq_refl eq_refl).
Defined.

(** The unlabelled head pod of a healthy cluster is sent once, labelled. *)
Example head_pod_labelled_once :
  HeadPod.labelHeadPodForServeStatus healthyProxy false
  = Returns ([HeadPod.setLabels
                (<["ray.io/serve" := "true"]> (HeadPod.Labels headPodOfA)) headPodOfA],
             None).
Proof. vm_compute. reflexivity. Qed.

(** ** The Kubernetes services of a RayService *)

(** X19. [reconcileServices] sends at most one request.  It sends an
    update exactly when the service was built, the stored service of its
    name was read and selects another cluster than the built one; the
    update carries the built spec with the cluster IP, the name, the
    namespace and the owners of the stored service.  It sends a create
    exactly when the service was built, the search for a stored service
    of its name ended with NotFound and the RayService could be set as
    its controlling owner; the create carries the built service with
    that owner.  In every other case it sends nothing; in particular a
    stored service that already selects the cluster is left as it is,
    whatever else differs, and no error is returned.  The store changes
    only by the service sent, and only when no error is returned. *)
Theorem service_requests (A : KubeService.Answers) (rs : RayService.t)
    (c : RayCluster.t) (ty : KubeService.ServiceType) (st : KubeService.State) :
  let outcome := KubeService.reconcileServices A rs c ty st in
  let e := fst outcome in
  let st' := snd outcome in
  let stored := fun new : KubeService.Service =>
    KubeService.services st !! (RayService.Namespace rs, KubeService.Name new) in
  exists l,
    KubeService.sent st' = (KubeService.sent st ++ l)%list
    /\ (l = [] \/ (exists u, l = [KubeService.UpdateService u])
        \/ exists o, l = [KubeService.CreateService o])
    /\ (forall u,
          l = [KubeService.UpdateService u]
          <-> exists new old,
                builtService A rs c ty = Some (new, None)
                /\ KubeService.getFault A = None
                /\ stored new = Some old
                /\ selectedCluster old <> selectedCluster new
                /\ u = switched new old)
    /\ (forall o,
          l = [KubeService.CreateService o]
          <-> exists new,
                builtService A rs c ty = Some (new, None)
                /\ serviceNotFound A rs new st
                /\ KubeService.SetControllerReference rs new = (o, None))
    /\ (forall new old,
          builtService A rs c ty = Some (new, None) ->
          KubeService.getFault A = None ->
          stored new = Some old ->
          selectedCluster old = selectedCluster new ->
          e = None /\ st' = st)
    /\ (KubeService.services st' = KubeService.services st
        \/ (e = None
            /\ exists s,
                 (l = [KubeService.UpdateService s] \/ l = [KubeService.CreateService s])
                 /\ KubeService.services st'
                    = <[KubeService.serviceKeyOf s := s]> (KubeService.services st))).
Proof.
  intros outcome e st' stored. subst e st' outcome stored. cbv beta.
  unfold KubeService.reconcileServices, serviceNotFound.
  fold (builtService A rs c ty).
  destruct (builtService A rs c ty) as [[new [err|]]|] eqn:Hb; cbn [fst snd].
  1,3: exists []; split; [now rewrite app_nil_r|]; split; [now left|];
    split; [intros u; split; [discriminate|intros (n & o & H & _); discriminate]|];
    split; [intros o; split; [discriminate|intros (n & H & _); discriminate]|];
    split; [intros n o H; discriminate|now left].
  unfold KubeService.Get.
  assert (Hcreate : forall found : option KubeService.Service,
            (KubeService.getFault A = Some NotFound
             \/ (KubeService.getFault A = None
                 /\ KubeService.services st
                    !! (RayService.Namespace rs, KubeService.Name new) = None)) ->
            let outcome :=
              match KubeService.SetControllerReference rs new with
              | (_, Some e) => (Some e, st)
              | (newSvc, None) =>
                  let '(createErr, st0) := KubeService.Create A newSvc st in
                  match createErr with
                  | Some _ =>
                      if IsAlreadyExists createErr then (None, st0) else (createErr, st0)
                  | None => (None, st0)
                  end
              end in
            exists l,
              KubeService.sent (snd outcome) = (KubeService.sent st ++ l)%list
              /\ (l = [] \/ (exists u, l = [KubeService.UpdateService u])
                  \/ exists o, l = [KubeService.CreateService o])
              /\ (forall u,
                    l = [KubeService.UpdateService u]
                    <-> exists new0 old,
                          Some (new, @None error) = Some (new0, None)
                          /\ KubeService.getFault A = None
                          /\ KubeService.services st
                             !! (RayService.Namespace rs, KubeService.Name new0) = Some old
                          /\ selectedCluster old <> selectedCluster new0
                          /\ u = switched new0 old)
              /\ (forall o,
                    l = [KubeService.CreateService o]
                    <-> exists new0,
                          Some (new, @None error) = Some (new0, None)
                          /\ (KubeService.getFault A = Some NotFound
                              \/ (KubeService.getFault A = None
                                  /\ KubeService.services st
                                     !! (RayService.Namespace rs, KubeService.Name new0)
                                     = None))
                          /\ KubeService.SetControllerReference rs new0 = (o, None))
              /\ (forall new0 old,
                    Some (new, @None error) = Some (new0, None) ->
                    KubeService.getFault A = None ->
                    KubeService.services st
                    !! (RayService.Namespace rs, KubeService.Name new0) = Some old ->
                    selectedCluster old = selectedCluster new0 ->
                    fst outcome = None /\ snd outcome = st)
              /\ (KubeService.services (snd outcome) = KubeService.services st
                  \/ (fst outcome = None
                      /\ exists s,
                           (l = [KubeService.UpdateService s]
                            \/ l = [KubeService.CreateService s])
                           /\ KubeService.services (snd outcome)
                              = <[KubeService.serviceKeyOf s := s]>
                                  (KubeService.services st)))).
  { intros _ Hnf outcome. subst outcome.
    assert (Hupd : forall (l : list KubeService.Request) u,
              l = [KubeService.UpdateService u] ->
              (exists new0 old,
                 Some (new, @None error) = Some (new0, None)
                 /\ KubeService.getFault A = None
                 /\ KubeService.services st
                    !! (RayService.Namespace rs, KubeService.Name new0) = Some old
                 /\ selectedCluster old <> selectedCluster new0
                 /\ u = switched new0 old) -> False).
    { intros l u _ (n & o & [= <-] & Hg & Ho & _).
      destruct Hnf as [Hnf|[_ Hnf]]; congruence. }
    assert (Hsame : forall new0 old (P : Prop),
              Some (new, @None error) = Some (new0, None) ->
              KubeService.getFault A = None ->
              KubeService.services st
              !! (RayService.Namespace rs, KubeService.Name new0) = Some old -> P).
    { intros n o P [= <-] Hg Ho. destruct Hnf as [Hnf|[_ Hnf]]; congruence. }
    destruct (KubeService.SetControllerReference rs new) as [owned [se|]] eqn:Hs;
      cbn [fst snd].
    { exists []. split; [now rewrite app_nil_r|]. split; [now left|].
      split; [intros u; split; [discriminate|intros H; exfalso; eapply Hupd; eauto]|].
      split; [intros o; split; [discriminate|intros (n & [= <-] & _ & H); congruence]|].
      split; [intros n o H1 H2 H3 _; exact (Hsame n o _ H1 H2 H3)|now left]. }
    assert (Hiff : forall o,
              [KubeService.CreateService owned] = [KubeService.CreateService o]
              <-> exists new0,
                    Some (new, @None error) = Some (new0, None)
                    /\ (KubeService.getFault A = Some NotFound
                        \/ (KubeService.getFault A = None
                            /\ KubeService.services st
                               !! (RayService.Namespace rs, KubeService.Name new0)
                               = None))
                    /\ KubeService.SetControllerReference rs new0 = (o, None)).
    { intros o. split.
      - intros [= <-]. exists new. auto.
      - intros (n & [= <-] & _ & H). rewrite Hs in H. now injection H as <-. }
    unfold KubeService.Create.
    destruct (KubeService.createFault A) as [ce|]; cbn [KubeService.services].
    - exists [KubeService.CreateService owned].
      destruct (IsAlreadyExists (Some ce)); cbn [fst snd KubeService.sent KubeService.services].
      all: split; [reflexivity|]; split; [right; right; eauto|];
        split; [intros u; split; [discriminate|intros H; exfalso; eapply Hupd; eauto]|];
        split; [exact Hiff|];
        split; [intros n o H1 H2 H3 _; exact (Hsame n o _ H1 H2 H3)|now left].
    - exists [KubeService.CreateService owned].
      destruct (KubeService.services st !! KubeService.serviceKeyOf owned) eqn:Hk;
        cbn [fst snd KubeService.sent KubeService.services IsAlreadyExists].
      all: split; [reflexivity|]; split; [right; right; eauto|];
        split; [intros u; split; [discriminate|intros H; exfalso; eapply Hupd; eauto]|];
        split; [exact Hiff|];
        split; [intros n o H1 H2 H3 _; exact (Hsame n o _ H1 H2 H3)|].
      + now left.
      + right. split; [reflexivity|]. exists owned. split; [now right|reflexivity]. }
  destruct (KubeService.getFault A) as [ge|] eqn:Hg.
  - destruct ge as [| |msg]; cbn [IsNotFound].
    + apply (Hcreate None). now left.
    + exists []. split; [now rewrite app_nil_r|]. split; [now left|].
      split; [intros u; split; [discriminate|intros (n & o & _ & H & _); discriminate]|].
      split; [intros o; split; [discriminate
                               |intros (n & _ & [H|[H _]] & _); discriminate]|].
      split; [intros n o _ H; discriminate|now left].
    + exists []. split; [now rewrite app_nil_r|]. split; [now left|].
      split; [intros u; split; [discriminate|intros (n & o & _ & H & _); discriminate]|].
      split; [intros o; split; [discriminate
                               |intros (n & _ & [H|[H _]] & _); discriminate]|].
      split; [intros n o _ H; discriminate|now left].
  - destruct (KubeService.services st !! (RayService.Namespace rs, KubeService.Name new))
      as [old|] eqn:Hold.
    2: { cbn [IsNotFound]. apply (Hcreate None). right. auto. }
    fold (selectedCluster new). fold (selectedCluster old).
    destruct (String.eqb_spec (selectedCluster new) (selectedCluster old)) as [E|E];
      cbn [fst snd].
    + exists []. split; [now rewrite app_nil_r|]. split; [now left|].
      split; [intros u; split; [discriminate|]|].
      { intros (n & o & [= <-] & _ & Ho & Hne & _). rewrite Hold in Ho.
        injection Ho as <-. congruence. }
      split; [intros o; split; [discriminate|]|].
      { intros (n & [= <-] & [H|[_ H]] & _); congruence. }
      split; [auto|now left].
    + change (KubeService.setSpec
                (KubeService.Spec
                   (KubeService.setSpec
                      (KubeService.setClusterIP
                         (KubeService.ClusterIP (KubeService.Spec old))
                         (KubeService.Spec new)) new)) old)
        with (switched new old).
      exists [KubeService.UpdateService (switched new old)].
      assert (Hiff : forall u,
                [KubeService.UpdateService (switched new old)]
                = [KubeService.UpdateService u]
                <-> exists new0 old0,
                      Some (new, @None error) = Some (new0, None)
                      /\ @None error = None
                      /\ KubeService.services st
                         !! (RayService.Namespace rs, KubeService.Name new0) = Some old0
                      /\ selectedCluster old0 <> selectedCluster new0
                      /\ u = switched new0 old0).
      { intros u. split.
        - intros [= <-]. exists new, old. repeat split; auto.
        - intros (n & o & [= <-] & _ & Ho & _ & ->). rewrite Hold in Ho.
          now injection Ho as <-. }
      unfold KubeService.Update. cbn [KubeService.services].
      destruct (KubeService.updateFault A) as [ue|];
        [|destruct (KubeService.services st !! KubeService.serviceKeyOf (switched new old))];
        cbn [fst snd KubeService.sent KubeService.services].
      all: split; [reflexivity|]; split; [right; left; eauto|];
        split; [exact Hiff|];
        split; [intros o; split; [discriminate
                                 |intros (n & [= <-] & [H|[_ H]] & _); congruence]|];
        split; [intros n o [= <-] _ Ho Hsel; rewrite Hold in Ho; injection Ho as <-;
                congruence|].
      * now left.
      * right. split; [reflexivity|]. eexists. split; [now left|reflexivity].
      * now left.
Qed.

Lemma KubeService_SetControllerReference_keeps (rs : RayService.t)
    (s owned : KubeService.Service) :
  KubeService.SetControllerReference rs s = (owned, None) ->
  KubeService.Name owned = KubeService.Name s
  /\ KubeService.Namespace owned = KubeService.Namespace s
  /\ KubeService.Spec owned = KubeService.Spec s
  /\ In {| OwnerReference.Name := RayService.Name rs; OwnerReference.Controller := true |}
        (KubeService.OwnerReferences owned).
Proof.
  unfold KubeService.SetControllerReference. intros H.
  destruct (negb _); [discriminate|]. destruct (existsb _ _); [discriminate|].
  injection H as <-. repeat split. now left.
Qed.

(** X20. When no request fails, the built service lies in the namespace
    of the RayService and the stored service lies under its own name, a
    run of [reconcileServices] that returns no error leaves in the store a
    service of the built name that selects the cluster of the built
    service; a second run from there sends nothing and changes nothing. *)
Theorem service_selects_target_cluster (A : KubeService.Answers) (rs : RayService.t)
    (c : RayCluster.t) (ty : KubeService.ServiceType) (new : KubeService.Service)
    (st st' : KubeService.State) :
  let key := (RayService.Namespace rs, KubeService.Name new) in
  noServiceFault A ->
  builtService A rs c ty = Some (new, None) ->
  KubeService.Namespace new = RayService.Namespace rs ->
  (forall old, KubeService.services st !! key = Some old ->
               KubeService.serviceKeyOf old = key) ->
  KubeService.reconcileServices A rs c ty st = (None, st') ->
  (exists s, KubeService.services st' !! key = Some s
             /\ selectedCluster s = selectedCluster new)
  /\ KubeService.reconcileServices A rs c ty st' = (None, st').
Proof.
  intros key (Hg & Hu & Hc) Hb Hns Hkeyed Hrun.
  assert (Hagain : forall s,
            KubeService.services st' !! key = Some s ->
            selectedCluster s = selectedCluster new ->
            KubeService.reconcileServices A rs c ty st' = (None, st')).
  { intros s Hs Hsel. unfold KubeService.reconcileServices.
    fold (builtService A rs c ty). rewrite Hb. unfold KubeService.Get.
    rewrite Hg. fold key. rewrite Hs.
    fold (selectedCluster new). fold (selectedCluster s).
    now rewrite Hsel, String.eqb_refl. }
  unfold KubeService.reconcileServices in Hrun.
  fold (builtService A rs c ty) in Hrun. rewrite Hb in Hrun.
  unfold KubeService.Get in Hrun. rewrite Hg in Hrun. fold key in Hrun.
  destruct (KubeService.services st !! key) as [old|] eqn:Hold.
  - fold (selectedCluster new) in Hrun. fold (selectedCluster old) in Hrun.
    destruct (String.eqb_spec (selectedCluster new) (selectedCluster old)) as [E|E].
    + injection Hrun as <-. split; [exists old; split; [exact Hold|congruence]|].
      apply (Hagain old Hold). congruence.
    + cbv zeta in Hrun. unfold KubeService.Update in Hrun. rewrite Hu in Hrun.
      cbn [KubeService.Spec KubeService.setSpec KubeService.services
           KubeService.sent] in Hrun.
      set (updated := KubeService.setSpec _ old) in Hrun.
      assert (Hk : KubeService.serviceKeyOf updated = key) by exact (Hkeyed old eq_refl).
      rewrite Hk, Hold in Hrun. injection Hrun as <-.
      cbn [KubeService.services].
      assert (Hs : (<[key := updated]> (KubeService.services st)) !! key = Some updated)
        by now rewrite lookup_insert_eq.
      split; [exists updated; split; [exact Hs|reflexivity]|].
      exact (Hagain updated Hs eq_refl).
  - cbn [IsNotFound] in Hrun.
    destruct (KubeService.SetControllerReference rs new) as [owned [se|]] eqn:Hs;
      [discriminate|].
    destruct (KubeService_SetControllerReference_keeps rs new owned Hs)
      as (Hn & Hnsp & Hspec & _).
    assert (Hk : KubeService.serviceKeyOf owned = key).
    { unfold KubeService.serviceKeyOf, key. now rewrite Hn, Hnsp, Hns. }
    unfold KubeService.Create in Hrun. rewrite Hc in Hrun.
    cbn [KubeService.services KubeService.sent] in Hrun.
    rewrite Hk, Hold in Hrun. injection Hrun as <-. cbn [KubeService.services].
    assert (Hst : (<[key := owned]> (KubeService.services st)) !! key = Some owned)
      by now rewrite lookup_insert_eq.
    assert (Hsel : selectedCluster owned = selectedCluster new)
      by (unfold selectedCluster; now rewrite Hspec).
    split; [exists owned; split; [exact Hst|exact Hsel]|].
    exact (Hagain owned Hst Hsel).
Qed.

Lemma service_selects_target_cluster_witness :
  let st' := snd (KubeService.reconcileServices quietServices settledOnV1 pendingV2
                    KubeService.HeadService servicesOnV1) in
  (exists s, KubeService.services st' !! ("svc", "a-head-svc") = Some s
             /\ selectedCluster s = selectedCluster (headServiceFor "a-raycluster-2" ""))
  /\ KubeService.reconcileServices quietServices settledOnV1 pendingV2
       KubeService.HeadService st' = (None, st').
Proof.
  intros st'.
  apply (service_selects_target_cluster quietServices settledOnV1 pendingV2
           KubeService.HeadService (headServiceFor "a-raycluster-2" "") servicesOnV1 st').
  - repeat split.
  - reflexivity.
  - reflexivity.
  - intros old H. cbn [KubeService.services servicesOnV1] in H.
    apply lookup_singleton_Some in H as [_ <-]. reflexivity.
  - vm_compute. reflexivity.
Defined.

(** The switch of the head service from [a-raycluster-1] to
    [a-raycluster-2] is one update that keeps the cluster IP. *)
Example head_service_switch :
  KubeService.sent
    (snd (KubeService.reconcileServices quietServices settledOnV1 pendingV2
            KubeService.HeadService servicesOnV1))
  = [KubeService.UpdateService (headServiceFor "a-raycluster-2" "10.0.0.7")].
Proof. vm_compute. reflexivity. Qed.

(** ** An update in place converges *)

Lemma cleanUpRayClusters_keeps_live (X : Externals) (rs : RayService.t)
    (items : list RayCluster.t) (key : string * string) (w0 w : World) :
  snd key = RayService.ActiveName rs \/ snd key = RayService.PendingName rs ->
  rayClusters w !! key = rayClusters w0 !! key ->
  wp (cleanUpRayClusters X rs items)
     (fun _ w' => rayClusters w' !! key = rayClusters w0 !! key) w.
Proof.
  intros Hlive. revert w. induction items as [|c rest IH]; intros w H;
    cbn [cleanUpRayClusters].
  - now apply wp_ret.
  - destruct (negb (String.eqb (RayCluster.Name c) (RayService.ActiveName rs))
              && negb (String.eqb (RayCluster.Name c) (RayService.PendingName rs)))
      eqn:Hd; [|now apply IH].
    apply dangling_test in Hd. destruct Hd as [Hna Hnp].
    unfold Now, Delete. wp_steps.
    all: try (apply IH).
    all: wsimpl; try exact H.
    rewrite lookup_delete_ne; [exact H|].
    intros E. unfold clusterKey in E. destruct key as [ns n]. injection E as _ E.
    simpl in Hlive. destruct Hlive as [Hl|Hl]; congruence.
Qed.

Lemma cleanUpRayClusterInstance_keeps_live (X : Externals) (rs : RayService.t)
    (key : string * string) (w : World) :
  snd key = RayService.ActiveName rs \/ snd key = RayService.PendingName rs ->
  wp (cleanUpRayClusterInstance X rs)
     (fun _ w' => rayClusters w' !! key = rayClusters w !! key) w.
Proof.
  intros Hlive. unfold cleanUpRayClusterInstance, ListRayClusters. wp_steps.
  - reflexivity.
  - now apply cleanUpRayClusters_keeps_live.
Qed.

(** X21. An update in place converges.  When the planner answers
    UpdateActiveCluster for the stored active cluster, no pending cluster
    is named, no request fails and the cluster for the desired spec can
    be constructed, the lifecycle step sends one update as its last
    request; the stored cluster then has the desired spec and the
    annotations just constructed, keeps its status and owners, and the
    planner, asked again about it, answers DoNothing. *)
Theorem update_in_place_converges (X : Externals) (rs : RayService.t)
    (current c' : RayCluster.t) (w : World) :
  let key := RayServiceActiveRayClusterNamespacedName rs in
  RayService.ActiveName rs <> "" ->
  RayService.PendingName rs = "" ->
  faultless X -> wellKeyed w ->
  rayClusters w !! key = Some current ->
  decideClusterAction X rs (Some current) None = Returns UpdateActiveCluster ->
  constructRayClusterForRayService X rs (RayCluster.Name current) = (Some c', None) ->
  wp (reconcileRayCluster X rs)
     (fun r w' =>
        exists issued updated,
          r = Returns ((Some c', None, None), rs)
          /\ calls w' = (calls w ++ issued ++ [UpdateRayCluster updated])%list
          /\ rayClusters w' !! key = Some updated
          /\ RayCluster.Spec updated = RayServiceSpec.RayClusterSpec (RayService.Spec rs)
          /\ RayCluster.Status updated = RayCluster.Status current
          /\ RayCluster.OwnerReferences updated = RayCluster.OwnerReferences current
          /\ decideClusterAction X rs (Some updated) None = Returns DoNothing) w.
Proof.
  intros key Ha Hp Hq Hwk Hstored Hplan Hcons.
  pose proof (Hwk key current Hstored) as Hkey.
  destruct (constructRayClusterForRayService_built X rs _ c' Hcons)
    as (hash & Hh & Hv & Hhash & Hnum & Hname & Hns & Hspec & _).
  assert (Hck : clusterKey c' = key).
  { unfold clusterKey. rewrite Hname, Hns. unfold key,
      RayServiceActiveRayClusterNamespacedName. f_equal.
    unfold clusterKey in Hkey. unfold key, RayServiceActiveRayClusterNamespacedName in Hkey.
    now injection Hkey. }
  unfold reconcileRayCluster. apply wp_bind.
  eapply wp_mono;
    [apply wp_conj;
     [apply wp_conj;
      [apply (cleanUpRayClusterInstance_faultless X rs w Hq Hwk)
      |apply (cleanUpRayClusterInstance_requests X rs w)]
     |apply (cleanUpRayClusterInstance_keeps_live X rs key w); now left]|].
  intros r w1 [[[-> _] (issued & Hc1 & _)] Hk1].
  unfold getRayClusterByNamespacedName at 1.
  fold key. change (snd key) with (RayService.ActiveName rs).
  rewrite (proj2 (String.eqb_neq _ _) Ha). unfold GetRayCluster.
  apply wp_bind, wp_bind, wp_bind, wp_next. rewrite Hq.
  apply wp_bind, wp_gets. wsimpl. rewrite Hk1, Hstored. apply wp_ret. cbn [IgnoreNotFound].
  apply wp_ret.
  unfold getRayClusterByNamespacedName at 1, RayServicePendingRayClusterNamespacedName.
  rewrite Hp. cbn [snd String.eqb]. apply wp_bind, wp_ret.
  apply wp_bind, wp_liftExec. rewrite Hplan. rewrite Hcons.
  apply wp_bind. unfold updateRayClusterInstance, getRayClusterByNamespacedName.
  rewrite Hck. change (snd key) with (RayService.ActiveName rs).
  rewrite (proj2 (String.eqb_neq _ _) Ha). unfold GetRayCluster, Update.
  apply wp_bind, wp_bind, wp_bind, wp_next. wsimpl. rewrite Hq.
  apply wp_bind, wp_gets. wsimpl. rewrite Hk1, Hstored. apply wp_ret. cbn [IgnoreNotFound].
  apply wp_ret. apply wp_bind, wp_next. apply wp_bind, wp_modify. wsimpl. rewrite Hq.
  set (updated := {| RayCluster.Name := RayCluster.Name current;
                     RayCluster.Namespace := RayCluster.Namespace current;
                     RayCluster.Labels := RayCluster.Labels c';
                     RayCluster.Annotations := RayCluster.Annotations c';
                     RayCluster.OwnerReferences := RayCluster.OwnerReferences current;
                     RayCluster.Spec := RayCluster.Spec c';
                     RayCluster.Status := RayCluster.Status current |}).
  change (clusterKey updated) with (clusterKey current). rewrite Hkey.
  apply wp_bind, wp_gets. wsimpl. rewrite Hk1, Hstored.
  apply wp_bind, wp_modify, wp_ret, wp_ret. wsimpl.
  exists issued, updated. split; [reflexivity|].
  split; [now rewrite Hc1, <- app_assoc|].
  split; [now rewrite lookup_insert_eq|]. split; [exact Hspec|].
  split; [reflexivity|]. split; [reflexivity|].
  unfold decideClusterAction. rewrite Hp. cbn [String.eqb negb].
  cbn [RayCluster.Annotations updated]. rewrite Hv, String.eqb_refl. cbn [negb].
  rewrite Hhash, Hh. now rewrite String.eqb_refl.
Qed.

Lemma update_in_place_converges_witness :
  let X := quietRun ∅ in
  let w := worldOf [grownOnV1] [activeV1] in
  let key := RayServiceActiveRayClusterNamespacedName grownOnV1 in
  exists c',
    constructRayClusterForRayService X grownOnV1 (RayCluster.Name activeV1)
    = (Some c', None)
    /\ wp (reconcileRayCluster X grownOnV1)
          (fun r w' =>
             exists issued updated,
               r = Returns ((Some c', None, None), grownOnV1)
               /\ calls w' = (calls w ++ issued ++ [UpdateRayCluster updated])%list
               /\ rayClusters w' !! key = Some updated
               /\ RayCluster.Spec updated
                  = RayServiceSpec.RayClusterSpec (RayService.Spec grownOnV1)
               /\ RayCluster.Status updated = RayCluster.Status activeV1
               /\ RayCluster.OwnerReferences updated = RayCluster.OwnerReferences activeV1
               /\ decideClusterAction X grownOnV1 (Some updated) None
                  = Returns DoNothing) w.
Proof.
  intros X w key.
  destruct (constructRayClusterForRayService X grownOnV1 (RayCluster.Name activeV1))
    as [[c'|] [e|]] eqn:Hc; try (vm_compute in Hc; discriminate).
  exists c'. split; [reflexivity|].
  apply (update_in_place_converges X grownOnV1 activeV1 c' w).
  - discriminate.
  - reflexivity.
  - intros n. reflexivity.
  - intros k c H. cbn [rayClusters w worldOf map list_to_map foldr] in H.
    apply lookup_insert_Some in H as [[<- <-] | [_ H]]; [reflexivity|].
    rewrite lookup_empty in H. discriminate.
  - reflexivity.
  - vm_compute. reflexivity.
  - exact Hc.
Defined.

(** ** The Serve reconciler: edges *)

(** X8. While the head pod of the target cluster is not found ready,
    [reconcileServe] does not contact the dashboard: it reports not ready,
    makes at most the one request that looks for the head pod, and changes
    nothing but the cluster status it records in the active slot of the
    instance; no request is issued, the cache and the stored objects stay. *)
Theorem no_dashboard_contact_before_head_ready (X : Externals) (rs : RayService.t)
    (c : RayCluster.t) (isActive : bool) (w : World) :
  headPodFoundReady X c w = false ->
  wp (reconcileServe X rs c isActive)
     (fun r w' =>
        (exists e, r = Returns ((false, e),
                                setActiveRayClusterStatus (RayCluster.Status c) rs)
                   /\ (RayClusterStatusConditions X = true -> e = None /\ w' = w))
        /\ calls w' = calls w
        /\ ServeConfigs w' = ServeConfigs w
        /\ rayServices w' = rayServices w
        /\ rayClusters w' = rayClusters w
        /\ position w' <= S (position w)) w.
Proof.
  unfold headPodFoundReady, reconcileServe, isHeadPodRunningAndReady. intros H.
  destruct (RayClusterStatusConditions X).
  - rewrite H. cbn [negb]. apply wp_ret. repeat split; eauto.
  - apply wp_bind, wp_bind, wp_next.
    destruct (fault X (position w)) as [e|]; wp_steps; try congruence.
    all: try (rewrite H in *; discriminate).
    all: repeat split; wsimpl; eauto; eexists; split; [reflexivity|discriminate].
Qed.

Lemma no_dashboard_contact_before_head_ready_witness :
  let w := worldOf [settledOnV1] [activeV1] in
  wp (reconcileServe headNotReady settledOnV1 activeV1 true)
     (fun r w' =>
        (exists e, r = Returns ((false, e),
                                setActiveRayClusterStatus (RayCluster.Status activeV1)
                                  settledOnV1)
                   /\ (RayClusterStatusConditions headNotReady = true -> e = None /\ w' = w))
        /\ calls w' = calls w
        /\ ServeConfigs w' = ServeConfigs w
        /\ rayServices w' = rayServices w
        /\ rayClusters w' = rayClusters w
        /\ position w' <= S (position w)) w.
Proof.
  intros w.
  apply (no_dashboard_contact_before_head_ready headNotReady settledOnV1 activeV1 true w).
  reflexivity.
Defined.

(** X9. [updateStatusForActiveCluster] only reads: it issues no request
    that changes anything and leaves the cache alone.  In the instance it
    records the status of the cluster in the active slot.  When the
    dashboard answers, it returns no error and records in the active slot
    the application statuses that [getAndCheckServeStatus] computes from
    the statuses the dashboard reports, the applications recorded before
    and the current time; when the dashboard does not answer, the
    applications stay as they were.  The name in the active slot, the
    pending slot, the service status and everything outside the status
    stay. *)
Theorem active_cluster_poll_is_read_only (X : Externals) (rs : RayService.t)
    (c : RayCluster.t) (w : World) :
  wp (updateStatusForActiveCluster X rs c)
     (fun r w' =>
        calls w' = calls w /\ ServeConfigs w' = ServeConfigs w
        /\ exists e rs', r = Returns (e, rs')
             /\ RayServiceStatus.RayClusterStatus (getSlot true rs') = RayCluster.Status c
             /\ RayService.ActiveName rs' = RayService.ActiveName rs
             /\ getSlot false rs' = getSlot false rs
             /\ RayServiceStatuses.ServiceStatus (RayService.Status rs')
                = RayServiceStatuses.ServiceStatus (RayService.Status rs)
             /\ RayService.setStatus (RayService.Status rs) rs' = rs
             /\ (if dashboardAnswers X w
                 then e = None
                      /\ RayServiceStatus.Applications (getSlot true rs')
                         = snd (checkServeStatuses
                                  (clock X (S (S (S (position w)))))
                                  (RayServiceStatus.Applications (getSlot true rs))
                                  (serveApplications X (S (S (position w)))))
                 else RayServiceStatus.Applications (getSlot true rs')
                      = RayServiceStatus.Applications (getSlot true rs))) w.
Proof.
  unfold updateStatusForActiveCluster, FetchHeadServiceURL, InitClient,
    getAndCheckServeStatus, GetMultiApplicationStatus, Now, dashboardAnswers.
  assert (Hrs : RayService.setStatus (RayService.Status rs) rs = rs) by now destruct rs.
  wp_steps; wsimpl.
  all: split; [reflexivity|]; split; [reflexivity|]; eexists _, _;
    split; [reflexivity|]; repeat (split; [first [reflexivity|exact Hrs]|]).
  all: repeat match goal with
              | H : fault _ _ = _ |- _ => rewrite H
              | H : String.eqb _ _ = _ |- _ => rewrite H
              end; cbn [notNil negb andb].
  all: try reflexivity.
  all: try (match goal with
            | H : (if ?b then true else false) = _ |- _ => destruct b; try discriminate
            | H : (if ?b then false else true) = _ |- _ => destruct b; try discriminate
            end).
  all: try reflexivity.
split; [reflexivity|].
  change (RayServiceStatus.Applications
            (getSlot true (setActiveRayClusterStatus (RayCluster.Status c) rs)))
    with (RayServiceStatus.Applications (getSlot true rs)) in Heqp.
  now rewrite Heqp.
Qed.

(** X10. [calculateStatus] changes nothing but [NumServeEndpoints].  When
    the endpoints of the serve service are read, or are not found, and
    their addresses number at most [math.MaxInt32], it records that number
    (zero when not found) and returns no error; otherwise it returns an
    error and leaves the instance as it was.  No request that changes
    anything is issued. *)
Theorem serve_endpoints_are_counted (X : Externals) (rs : RayService.t) (w : World) :
  wp (calculateStatus X rs)
     (fun r w' =>
        calls w' = calls w
        /\ exists e rs', r = Returns (e, rs')
             /\ let found :=
                  match fault X (position w) with
                  | Some NotFound => Some 0%Z
                  | Some _ => None
                  | None => Some (totalAddresses (serveEndpoints X (position w)))
                  end in
                match found with
                | Some n =>
                    if (MaxInt32 <? n)%Z then e <> None /\ rs' = rs
                    else e = None
                         /\ (0 <= n <= MaxInt32)%Z
                         /\ rs' = RayService.setStatus
                                    (RayServiceStatuses.setNumServeEndpoints n
                                       (RayService.Status rs)) rs
                | None => e = fault X (position w) /\ rs' = rs
                end) w.
Proof.
  assert (Hnn : forall l a, (0 <= a)%Z ->
            (0 <= fold_left (fun acc k => (acc + Z.of_nat k)%Z) l a)%Z).
  { induction l as [|k l IH]; intros a Ha; simpl; [exact Ha|]. apply IH. lia. }
  unfold calculateStatus, totalAddresses. apply wp_bind, wp_next. cbv zeta.
  destruct (fault X (position w)) as [[| |msg]|] eqn:Hf;
    cbn [notNil IsNotFound negb andb fold_left].
  - change (MaxInt32 <? 0)%Z with false. cbv iota. apply wp_ret.
    split; [reflexivity|]. eexists _, _. split; [reflexivity|].
    cbv zeta. change (MaxInt32 <? 0)%Z with false. cbv iota.
    split; [reflexivity|]. split; [unfold MaxInt32; lia|reflexivity].
  - apply wp_ret. split; [reflexivity|]. eexists _, _. split; [reflexivity|].
    cbv zeta. split; reflexivity.
  - apply wp_ret. split; [reflexivity|]. eexists _, _. split; [reflexivity|].
    cbv zeta. split; reflexivity.
  - destruct (MaxInt32 <? _)%Z eqn:Hmax; apply wp_ret; (split; [reflexivity|]);
      eexists _, _; (split; [reflexivity|]); cbv beta iota zeta.
    + split; [discriminate|reflexivity].
    + apply Z.ltb_ge in Hmax. split; [reflexivity|]. split; [|reflexivity].
      split; [apply Hnn; lia|exact Hmax].
Qed.
